(** * uSampler model-conversion scripts: a shallow embedding

    The repository's [scripts/] directory holds eight Python scripts that
    download Open-Unmix weights and drive them through
    PyTorch -> ONNX -> TensorFlow(.js).  The scripts are glue code around
    external collaborators (torch, onnx, tensorflowjs, urllib, the file
    system).  The embedding below keeps the control flow of the scripts
    (loops, [try]/[except], early exits, the order of file-system calls) and
    takes every external collaborator as an oracle.  All eight scripts
    are embedded; left out are two functions that nothing calls
    ([download_openunmix_model] of convert_open_unmix_2stems.py and the
    placeholder [convert_pytorch_to_onnx] of convert_open_unmix.py), the
    parsing of the command line of convert_open_unmix.py, and the lines of
    convert_umx_to_tfjs.py between its imports and the creation of its
    output directory (the load of the separator), whose result is the
    parameter [stems_to_convert] of the conversion.

    Conventions.
    - A script runs in the monad [Py]: explicit passing of the file system,
      an append-only log of observable events (lines printed, imports
      attempted, URLs fetched, subprocesses started) and a result that is a
      value or a raised exception.  File-system effects of a computation that
      raises are kept, as in Python.
    - Paths are lists of components relative to the working directory;
      [Path("a/b") / "c"] is [["a"; "b"; "c"]].  The name of a stem is one
      component.
    - Python integers are unbounded: [Z].  [//] is floor division, which is
      [Z.div].
    - Static banner lines (rulers of [=] and fixed help text) are not
      logged; every line whose text depends on the run, or that reports the
      outcome of a step, is.  Control characters at the start of a line
      (the newline and carriage-return escapes) are dropped.
    - Python dictionaries are association lists in insertion order.
    - An import of a module outside the standard library is an event of
      the log and can raise; the modules of the standard library that a
      script imports at its top are there.
    - Asynchronous signals ([KeyboardInterrupt]) are outside the model: an
      external call either returns or raises an instance of [Exception]. *)

From Stdlib Require Import ZArith Lia Ascii String.
From stdpp Require Import gmap strings list fin_maps pretty.

Open Scope string_scope.
Open Scope list_scope.

(** ** The Python run-time model *)

Module Py.

(** Exception classes the scripts raise, catch or can receive from a
    collaborator. *)
Inductive exc_class :=
  | ImportError
  | ModuleNotFoundError
  | FileNotFoundError
  | FileExistsError
  | NotADirectoryError
  | IsADirectoryError
  | CalledProcessError
  | ZeroDivisionError
  | NameError
  | URLError
  | ContentTooShortError
  | OtherException (name : string).

(** [SystemExit] is what [sys.exit] raises; it is not an [Exception]. *)
Inductive exn :=
  | Exc (c : exc_class) (msg : string)
  | SystemExit (code : Z).

Inductive result (A : Type) :=
  | Ok (a : A)
  | Raise (e : exn).
Arguments Ok {A} a.
Arguments Raise {A} e.

(** [except Exception] *)
Definition is_Exception (e : exn) : bool :=
  match e with Exc _ _ => true | SystemExit _ => false end.

(** [except ImportError] ([ModuleNotFoundError] is a subclass). *)
Definition is_ImportError (e : exn) : bool :=
  match e with
  | Exc ImportError _ | Exc ModuleNotFoundError _ => true
  | _ => false
  end.

(** [except FileNotFoundError] *)
Definition is_FileNotFoundError (e : exn) : bool :=
  match e with Exc FileNotFoundError _ => true | _ => false end.

(** [except OSError] *)
Definition is_OSError (e : exn) : bool :=
  match e with
  | Exc FileNotFoundError _ | Exc FileExistsError _
  | Exc NotADirectoryError _ | Exc IsADirectoryError _
  | Exc URLError _ | Exc ContentTooShortError _ => true
  | _ => false
  end.

(** [str(e)] *)
Definition exn_str (e : exn) : string :=
  match e with Exc _ msg => msg | SystemExit c => pretty c end.

(** Paths and the file system. *)
Definition path := list string.

Inductive node :=
  | Dir
  | File (data : string).

#[global] Instance node_eq_dec : EqDecision node.
Proof. solve_decision. Defined.

Abbreviation fs := (gmap path node).

(** [str(p)] for a [pathlib.Path]. *)
Definition path_str (p : path) : string := String.concat "/" p.

(** [p.parent] *)
Definition parent (p : path) : path := removelast p.

(** [p.name] *)
Definition name (p : path) : string := List.last p "".

Inductive event :=
  | EvPrint (line : string)
  | EvImport (module : string)
  | EvFetch (url : string) (dest : path)
  | EvRun (cmd : list string).

(** The modules a log shows imports of, the URLs it shows fetches of,
    and the command lines it shows started. *)
Definition imports_of (log : list event) : list string :=
  omap (λ ev, match ev with EvImport m => Some m | _ => None end) log.

Definition fetches_of (log : list event) : list string :=
  omap (λ ev, match ev with EvFetch url _ => Some url | _ => None end) log.

Definition runs_of (log : list event) : list (list string) :=
  omap (λ ev, match ev with EvRun cmd => Some cmd | _ => None end) log.

(** Does the log show [line] printed? *)
Definition printed (line : string) (log : list event) : bool :=
  existsb (λ ev, match ev with EvPrint l => String.eqb l line | _ => false end)
          log.

Record outcome (A : Type) := Outcome {
  out_fs : fs;
  out_log : list event;
  out_res : result A
}.
Arguments Outcome {A} _ _ _.
Arguments out_fs {A} _.
Arguments out_log {A} _.
Arguments out_res {A} _.

Definition Py (A : Type) : Type := fs → outcome A.

Definition ret {A} (a : A) : Py A := λ f, Outcome f [] (Ok a).

(** Append [l] in front of the log of an outcome. *)
Definition after {A} (l : list event) (r : outcome A) : outcome A :=
  Outcome (out_fs r) (l ++ out_log r) (out_res r).

Definition bind {A B} (m : Py A) (k : A → Py B) : Py B := λ f,
  match m f with
  | Outcome f1 l1 (Ok a) => after l1 (k a f1)
  | Outcome f1 l1 (Raise e) => Outcome f1 l1 (Raise e)
  end.

Definition raise {A} (e : exn) : Py A := λ f, Outcome f [] (Raise e).

(** [try: m except <catches>: handler] *)
Definition try_except {A} (m : Py A) (catches : exn → bool)
    (handler : exn → Py A) : Py A := λ f,
  match m f with
  | Outcome f1 l1 (Ok a) => Outcome f1 l1 (Ok a)
  | Outcome f1 l1 (Raise e) =>
      if catches e then after l1 (handler e f1)
      else Outcome f1 l1 (Raise e)
  end.

Definition emit (ev : event) : Py unit := λ f, Outcome f [ev] (Ok tt).

Definition print (line : string) : Py unit := emit (EvPrint line).

Definition lookup_path (p : path) : Py (option node) :=
  λ f, Outcome f [] (Ok (f !! p)).

Definition store (p : path) (n : node) : Py unit :=
  λ f, Outcome (<[p := n]> f) [] (Ok tt).

(** [for x in l: body x] *)
Fixpoint for_each {A} (l : list A) (body : A → Py unit) : Py unit :=
  match l with
  | [] => ret tt
  | x :: l' => bind (body x) (λ _, for_each l' body)
  end.

(** A loop that threads an accumulator (a local variable the body
    rebinds or mutates). *)
Fixpoint for_fold {A S} (l : list A) (body : S → A → Py S) (s : S) : Py S :=
  match l with
  | [] => ret s
  | x :: l' => bind (body s x) (for_fold l' body)
  end.

Declare Scope py_scope.
Delimit Scope py_scope with py.
Notation "x <- m ;; k" := (bind m (λ x, k))
  (at level 100, m at next level, right associativity) : py_scope.
Notation "m ;;; k" := (bind m (λ _, k))
  (at level 100, right associativity) : py_scope.
Open Scope py_scope.

(** [d[k] = v] on an insertion-ordered dictionary. *)
Fixpoint dict_set {V} (k : string) (v : V) (d : list (string * V))
    : list (string * V) :=
  match d with
  | [] => [(k, v)]
  | (k', v') :: d' =>
      if String.eqb k' k then (k, v) :: d' else (k', v') :: dict_set k v d'
  end.

(** The working directory (the empty path) is a directory. *)
Definition entry (f : fs) (p : path) : option node :=
  match p with [] => Some Dir | _ => f !! p end.

Definition stat (p : path) : Py (option node) :=
  λ f, Outcome f [] (Ok (entry f p)).

(** [p.exists()] *)
Definition path_exists (p : path) : Py bool :=
  n <- stat p ;; ret (bool_decide (is_Some n)).

(** [p.is_dir()] *)
Definition path_is_dir (p : path) : Py bool :=
  n <- stat p ;; ret (bool_decide (n = Some Dir)).

(** [os.mkdir(p)]: the parent is resolved first, then [p] must be new. *)
Definition os_mkdir (p : path) : Py unit :=
  up <- stat (parent p) ;;
  match up with
  | None => raise (Exc FileNotFoundError (path_str p))
  | Some (File _) => raise (Exc NotADirectoryError (path_str p))
  | Some Dir =>
      n <- stat p ;;
      match n with
      | Some _ => raise (Exc FileExistsError (path_str p))
      | None => store p Dir
      end
  end.

(** [Path.mkdir(parents=..., exist_ok=...)], as pathlib implements it:
    try [os.mkdir]; on [FileNotFoundError] create the parents and retry;
    on any other [OSError] re-raise unless [exist_ok] and the path is a
    directory.  [depth] bounds the climb to the parents. *)
Fixpoint Path_mkdir_rec (depth : nat) (parents exist_ok : bool) (p : path)
    : Py unit :=
  try_except (os_mkdir p) is_OSError (λ e,
    if is_FileNotFoundError e then
      if negb parents || bool_decide (parent p = p) then raise e
      else
        match depth with
        | O => raise e
        | S d =>
            Path_mkdir_rec d true true (parent p) ;;;
            Path_mkdir_rec d false exist_ok p
        end
    else
      isd <- path_is_dir p ;;
      if negb exist_ok || negb isd then raise e else ret tt).

Definition Path_mkdir (parents exist_ok : bool) (p : path) : Py unit :=
  Path_mkdir_rec (length p) parents exist_ok p.

(** [s.endswith(suffix)] *)
Definition ends_with (suffix s : string) : bool :=
  bool_decide (String.list_ascii_of_string suffix
                 `suffix_of` String.list_ascii_of_string s).

(** The entries of directory [d] whose name matches ["*" ++ suffix]. *)
Definition glob_match (d : path) (suffix : string) (p : path) : Prop :=
  p ≠ [] ∧ parent p = d ∧ ends_with suffix (name p) = true.

#[global] Instance glob_match_dec d suffix p : Decision (glob_match d suffix p).
Proof. unfold glob_match. apply _. Defined.

(** [d.glob("*" + suffix)], in the order of the directory listing. *)
Definition glob_suffix (d : path) (suffix : string) : Py (list path) :=
  λ f, Outcome f []
         (Ok (elements (dom (filter (λ kv, glob_match d suffix kv.1) f)))).

(** [shutil.copy(src, dst)]: when [dst] is a directory the file goes
    into it under the source's name; the destination is opened for
    writing in place and receives the source's bytes. *)
Definition shutil_copy (src dst : path) : Py unit :=
  d <- stat dst ;;
  let target := match d with Some Dir => dst ++ [name src] | _ => dst end in
  s <- stat src ;;
  match s with
  | None => raise (Exc FileNotFoundError (path_str src))
  | Some Dir => raise (Exc IsADirectoryError (path_str src))
  | Some (File data) =>
      up <- stat (parent target) ;;
      match up with
      | None => raise (Exc FileNotFoundError (path_str target))
      | Some (File _) => raise (Exc NotADirectoryError (path_str target))
      | Some Dir =>
          t <- stat target ;;
          match t with
          | Some Dir => raise (Exc IsADirectoryError (path_str target))
          | _ => store target (File data)
          end
      end
  end.

(** What another process can see while a copy runs.  [shutil.copy] is
    [copyfile] followed by [copymode]; [copyfile(src, dst)] opens [src] for
    reading and then [dst] with mode ['wb'], which creates it empty or
    truncates it, and writes the bytes of the source into it.
    [copy_target] is the file that is opened for writing;
    [shutil_copy_states] lists the states of the file system that a
    concurrent reader can observe from that opening on, the last of which
    is the state [shutil_copy] leaves.  A copy that raises does so before
    its target is opened. *)
Definition copy_target (src dst : path) (f : fs) : path :=
  match entry f dst with Some Dir => dst ++ [name src] | _ => dst end.

Definition shutil_copy_states (src dst : path) (f : fs) : list fs :=
  let r := shutil_copy src dst f in
  match out_res r with
  | Ok _ => [<[copy_target src dst f := File ""]> f; out_fs r]
  | Raise _ => []
  end.

(** The states observable during
    [for src, dst in copies: shutil.copy(src, dst)]. *)
Fixpoint copies_states (copies : list (path * path)) (f : fs) : list fs :=
  match copies with
  | [] => []
  | c :: copies' =>
      let r := shutil_copy c.1 c.2 f in
      shutil_copy_states c.1 c.2 f
      ++ match out_res r with
         | Ok _ => copies_states copies' (out_fs r)
         | Raise _ => []
         end
  end.

(** The part of the file system below [base] (what a collaborator that is
    handed the directory [base] can read). *)
Definition subtree (base : path) (f : fs) : fs :=
  filter (λ kv, base `prefix_of` kv.1) f.

Definition read_subtree (base : path) : Py fs :=
  λ f, Outcome f [] (Ok (subtree base f)).

(** *** External collaborators

    A collaborator that computes a value either returns it or raises an
    [Exception]. *)
Inductive answer (A : Type) :=
  | Returns (a : A)
  | Fails (c : exc_class) (msg : string).
Arguments Returns {A} a.
Arguments Fails {A} c msg.

Definition call {A} (a : answer A) : Py A :=
  match a with
  | Returns x => ret x
  | Fails c msg => raise (Exc c msg)
  end.

(** A collaborator that is handed an output file writes it (possibly
    only in part) and may raise. *)
Record file_effect := FileEffect {
  fe_written : option string;
  fe_raised : option (exc_class * string)
}.

Definition raise_if (r : option (exc_class * string)) : Py unit :=
  match r with
  | Some (c, msg) => raise (Exc c msg)
  | None => ret tt
  end.

Definition run_file_effect (dst : path) (e : file_effect) : Py unit :=
  match fe_written e with
  | Some data => store dst (File data)
  | None => ret tt
  end ;;;
  raise_if (fe_raised e).

(** A collaborator that is handed an output directory creates entries
    below it (given relative to it) and may raise. *)
Record tree_effect := TreeEffect {
  te_written : list (path * node);
  te_raised : option (exc_class * string)
}.

Definition run_tree_effect (base : path) (e : tree_effect) : Py unit :=
  for_each (te_written e) (λ w, store (base ++ w.1) w.2) ;;;
  raise_if (te_raised e).

(** The keyword arguments of [torch.onnx.export]; the dummy input is
    represented by its shape. *)
Record export_args := ExportArgs {
  dummy_input : list Z;
  input_names : list string;
  output_names : list string;
  dynamic_axes : list (string * list (nat * string));
  opset_version : Z;
  do_constant_folding : option bool
}.

(** Is axis [axis] of tensor [tensor] declared dynamic? *)
Definition is_dynamic (a : export_args) (tensor : string) (axis : nat) : bool :=
  match List.find (λ kv, String.eqb kv.1 tensor) (dynamic_axes a) with
  | Some kv => existsb (λ ax, Nat.eqb ax.1 axis) kv.2
  | None => false
  end.

(** The exit status of the interpreter for a finished script. *)
Definition exit_code {A} (r : outcome A) : Z :=
  match out_res r with
  | Ok _ => 0
  | Raise (SystemExit c) => c
  | Raise (Exc _ _) => 1
  end.

(** [except FileExistsError] *)
Definition is_FileExistsError (e : exn) : bool :=
  match e with Exc FileExistsError _ => true | _ => false end.

(** [os.makedirs(p, exist_ok=...)], as os.py implements it: when the
    path has a parent that does not exist, create the parent first (a
    [FileExistsError] of that call is passed over); then [os.mkdir], whose
    [OSError] is re-raised unless [exist_ok] and the path is a directory.
    The empty string names nothing.  [depth] bounds the climb to the
    parents. *)
Fixpoint os_makedirs_rec (depth : nat) (exist_ok : bool) (p : path) : Py unit :=
  match p with
  | [] => raise (Exc FileNotFoundError "")
  | _ :: _ =>
      (if bool_decide (parent p = []) then ret tt
       else
         ex <- path_exists (parent p) ;;
         if ex : bool then ret tt
         else
           match depth with
           | O => ret tt
           | S d =>
               try_except (os_makedirs_rec d exist_ok (parent p))
                 is_FileExistsError (λ _, ret tt)
           end) ;;;
      try_except (os_mkdir p) is_OSError (λ e,
        isd <- path_is_dir p ;;
        if negb exist_ok || negb isd then raise e else ret tt)
  end.

Definition os_makedirs (exist_ok : bool) (p : path) : Py unit :=
  os_makedirs_rec (length p) exist_ok p.

End Py.

Import Py.

Open Scope py_scope.

(** ** scripts/download_models.py *)

Module DownloadModels.

(** Python's [a // b]. *)
Definition floordiv (a b : Z) : Py Z :=
  if decide (b = 0%Z) then raise (Exc ZeroDivisionError "integer division or modulo by zero")
  else ret (a / b)%Z.

(** The value bound to [percent] in [show_progress]. *)
Definition percent (block_num block_size total_size : Z) : Py Z :=
  let downloaded := (block_num * block_size)%Z in
  if decide (total_size > 0)%Z then
    q <- floordiv (downloaded * 100) total_size ;;
    ret (Z.min 100 q)
  else ret 0%Z.

(** The line [f"Progress: {percent}%"]. *)
Definition progress_line (p : Z) : string :=
  "Progress: " +:+ pretty p +:+ "%".

Definition show_progress (block_num block_size total_size : Z) : Py unit :=
  p <- percent block_num block_size total_size ;;
  print (progress_line p).

Definition MODEL_URLS : list (string * string) :=
  [("vocals",
    "https://zenodo.org/record/3370489/files/umx_vocals.pth?download=1");
   ("accompaniment",
    "https://zenodo.org/record/3370489/files/umx_accompaniment.pth?download=1")].

(** What one [urllib.request.urlretrieve] call does: the arguments of its
    calls to the report hook, and what it leaves in the output file. *)
Record fetch_effect := FetchEffect {
  reported : list (Z * Z * Z);
  fetched : file_effect
}.

(** The remote host. *)
Record env := Env {
  urlretrieve : string → fetch_effect
}.

Definition urlretrieve_call (E : env) (url : string) (output_path : path)
    (reporthook : Z → Z → Z → Py unit) : Py unit :=
  emit (EvFetch url output_path) ;;;
  for_each (reported (urlretrieve E url))
           (λ b, reporthook b.1.1 b.1.2 b.2) ;;;
  run_file_effect output_path (fetched (urlretrieve E url)).

Definition download_file (E : env) (url : string) (output_path : path)
    : Py bool :=
  print ("Downloading: " +:+ name output_path) ;;;
  print ("From: " +:+ url) ;;;
  try_except
    (urlretrieve_call E url output_path show_progress ;;;
     print ("✅ Downloaded: " +:+ path_str output_path) ;;;
     ret true)
    is_Exception
    (λ e, print ("❌ Download failed: " +:+ exn_str e) ;;; ret false).

Definition output_dir : path := ["downloaded_models"].

(** The body of [for stem, url in MODEL_URLS.items()]; [downloaded] is
    the list the loop appends to. *)
Definition main_loop_body (E : env) (downloaded : list path)
    (item : string * string) : Py (list path) :=
  let filename := output_dir ++ ["umx_" +:+ item.1 +:+ ".pth"] in
  ex <- path_exists filename ;;
  if ex : bool then
    print ("⚠️  " +:+ name filename +:+ " already exists. Skipping download.") ;;;
    ret (downloaded ++ [filename])
  else
    ok <- download_file E item.2 filename ;;
    if ok : bool then ret (downloaded ++ [filename]) else ret downloaded.

Definition main (E : env) : Py unit :=
  Path_mkdir false true output_dir ;;;
  downloaded <- for_fold MODEL_URLS (main_loop_body E) [] ;;
  match downloaded with
  | _ :: _ =>
      print ("✅ Successfully downloaded "
             +:+ pretty (Z.of_nat (length downloaded)) +:+ " model files!") ;;;
      for_each downloaded (λ f, print ("  - " +:+ path_str f))
  | [] => print "❌ No models downloaded."
  end.

(** The [if __name__ == "__main__"] block. *)
Definition script (E : env) : Py unit :=
  try_except (main E) is_Exception
    (λ e, print ("Error: " +:+ exn_str e) ;;; raise (SystemExit 1)).

End DownloadModels.

(** ** scripts/download_and_convert.py *)

Module DownloadAndConvert.

Definition MODEL_URLS : list (string * string) :=
  [("vocals", "https://zenodo.org/record/3370489/files/umx_vocals.pth");
   ("accompaniment",
    "https://zenodo.org/record/3370489/files/umx_accompaniment.pth")].

(** The interpreter's import machinery, the remote host and
    [torch.load].  [Checkpoint] is what [torch.load] returns for a [.pth]
    file (a state dict: tensors by name, no architecture); [truthy] is
    Python's truth value of it, whose computation ([__bool__] or [__len__]
    of the object) can raise. *)
Record env := Env {
  Checkpoint : Type;
  import_module : string → option (exc_class * string);
  truthy : Checkpoint → answer bool;
  urlretrieve : string → file_effect;
  torch_load : string → answer Checkpoint
}.

Definition download_model (E : env) (url : string) (filename : path)
    : Py bool :=
  print ("Downloading " +:+ path_str filename +:+ "...") ;;;
  print ("URL: " +:+ url) ;;;
  try_except
    (emit (EvFetch url filename) ;;;
     run_file_effect filename (urlretrieve E url) ;;;
     print ("✅ Downloaded: " +:+ path_str filename) ;;;
     ret true)
    is_Exception
    (λ e, print ("❌ Download failed: " +:+ exn_str e) ;;; ret false).

(** [torch.load(model_path, map_location='cpu')] *)
Definition torch_load_call (E : env) (model_path : path)
    : Py (Checkpoint E) :=
  n <- stat model_path ;;
  match n with
  | None => raise (Exc FileNotFoundError (path_str model_path))
  | Some Dir => raise (Exc IsADirectoryError (path_str model_path))
  | Some (File data) => call (torch_load E data)
  end.

(** [load_pytorch_model]: the value returned is the checkpoint itself,
    or [None]. *)
Definition load_pytorch_model (E : env) (model_path : path)
    : Py (option (Checkpoint E)) :=
  print ("Loading PyTorch model: " +:+ path_str model_path) ;;;
  try_except
    (checkpoint <- torch_load_call E model_path ;;
     ret (Some checkpoint))
    is_Exception
    (λ e, print ("❌ Error loading model: " +:+ exn_str e) ;;; ret None).

Definition output_dir : path := ["downloaded_models"].

(** The body of the download loop; [downloaded] is the dictionary it
    fills. *)
Definition download_loop_body (E : env) (downloaded : list (string * path))
    (item : string * string) : Py (list (string * path)) :=
  let filename := output_dir ++ ["umx_" +:+ item.1 +:+ ".pth"] in
  ok <- download_model E item.2 filename ;;
  if ok : bool then ret (dict_set item.1 filename downloaded)
  else ret downloaded.

(** The body of the loading loop; [models] is the dictionary it fills.
    [if model:] takes the truth value of what was returned, outside any
    [try]; [None] is false. *)
Definition load_loop_body (E : env) (models : list (string * Checkpoint E))
    (item : string * path) : Py (list (string * Checkpoint E)) :=
  model <- load_pytorch_model E item.2 ;;
  match model with
  | Some m =>
      t <- call (truthy E m) ;;
      if t : bool then ret (dict_set item.1 m models) else ret models
  | None => ret models
  end.

(** [main], returning the [models] dictionary it has built when it
    reaches the end (Python's [main] returns nothing; the dictionary is
    its last local state). *)
Definition main (E : env) : Py (list (string * Checkpoint E)) :=
  Path_mkdir false true output_dir ;;;
  downloaded <- for_fold MODEL_URLS (download_loop_body E) [] ;;
  match downloaded with
  | [] =>
      print "❌ No models downloaded. Trying alternative URLs..." ;;;
      ret []
  | _ :: _ =>
      print ("✅ Downloaded " +:+ pretty (Z.of_nat (length downloaded))
             +:+ " models!") ;;;
      models <- for_fold downloaded (load_loop_body E) [] ;;
      match models with
      | _ :: _ =>
          print ("✅ Loaded " +:+ pretty (Z.of_nat (length models))
                 +:+ " models!") ;;;
          ret models
      | [] => print "❌ Could not load models." ;;; ret models
      end
  end.

(** The whole script: [import torch] at its top, then the
    [if __name__ == "__main__"] block. *)
Definition script (E : env) : Py unit :=
  emit (EvImport "torch") ;;;
  raise_if (import_module E "torch") ;;;
  try_except (main E ;;; ret tt) is_Exception
    (λ e, print ("Error: " +:+ exn_str e) ;;; raise (SystemExit 1)).

End DownloadAndConvert.

(** ** scripts/convert_open_unmix.py *)

Module ConvertOpenUnmix.

(** The interpreter's import machinery and the process spawner. *)
Record env := Env {
  import_module : string → option (exc_class * string);
  subprocess_run : list string → tree_effect * answer Z
}.

(** [s.replace('-', '_')] *)
Fixpoint replace_dash (s : string) : string :=
  match s with
  | EmptyString => EmptyString
  | String c s' =>
      String (if Ascii.eqb c "-"%char then "_"%char else c) (replace_dash s')
  end.

(** [__import__(name)] *)
Definition import_ (E : env) (name : string) : Py unit :=
  emit (EvImport name) ;;;
  raise_if (import_module E name).

Definition required : list string :=
  ["tensorflowjs"; "torch"; "onnx"; "onnx-tf"].

(** The body of [for dep in required]; [missing] is the list it appends
    to. *)
Definition check_loop_body (E : env) (missing : list string) (dep : string)
    : Py (list string) :=
  try_except
    (import_ E (replace_dash dep) ;;; ret missing)
    is_ImportError
    (λ _, ret (missing ++ [dep])).

Definition check_dependencies (E : env) : Py bool :=
  missing <- for_fold required (check_loop_body E) [] ;;
  match missing with
  | _ :: _ =>
      print ("Missing dependencies: " +:+ String.concat ", " missing) ;;;
      print "Install with:" ;;;
      print ("pip install " +:+ String.concat " " missing) ;;;
      ret false
  | [] => ret true
  end.

(** The argument list handed to [subprocess.run] by
    [convert_onnx_to_tfjs]. *)
Definition converter_cmd (onnx_path output_path : string) : list string :=
  ["tensorflowjs_converter";
   "--input_format=onnx";
   "--output_format=tfjs_graph_model";
   "--quantize_float16";
   onnx_path;
   output_path].

(** [subprocess.run(cmd, check=True)]; the process writes below the
    working directory. *)
Definition subprocess_run_check (E : env) (cmd : list string) : Py unit :=
  emit (EvRun cmd) ;;;
  run_tree_effect [] (subprocess_run E cmd).1 ;;;
  rc <- call (subprocess_run E cmd).2 ;;
  if decide (rc = 0%Z) then ret tt
  else raise (Exc CalledProcessError
                ("returned non-zero exit status " +:+ pretty rc)).

Definition convert_onnx_to_tfjs (E : env) (onnx_path output_path : string)
    : Py unit :=
  print ("Converting " +:+ onnx_path +:+ " to TensorFlow.js...") ;;;
  subprocess_run_check E (converter_cmd onnx_path output_path) ;;;
  print ("Model converted to " +:+ output_path).

(** The quantization modes of [tensorflowjs_converter]. *)
Inductive quantization := Float16 | Uint8 | Uint16.

(** The quantization a converter command line asks for, if any. *)
Definition requested_quantization (cmd : list string) : option quantization :=
  if existsb (String.prefix "--quantize_float16") cmd then Some Float16
  else if existsb (String.prefix "--quantize_uint8") cmd then Some Uint8
  else if existsb (String.prefix "--quantize_uint16") cmd then Some Uint16
  else None.

(** The command line of the script, as [parser.parse_args()] returns it;
    [output] is the directory given with [--output], by components. *)
Record args := Args {
  model_type : string;
  input : option string;
  output : path
}.

(** [main], from the line after [parser.parse_args()]. *)
Definition main (E : env) (a : args) : Py unit :=
  ok <- check_dependencies E ;;
  (if ok : bool then ret tt else raise (SystemExit 1)) ;;;
  print ("Model Type: " +:+ model_type a) ;;;
  print ("Output: " +:+ path_str (output a)) ;;;
  os_makedirs true (output a) ;;;
  print ("Output directory created: " +:+ path_str (output a)).

End ConvertOpenUnmix.

(** ** scripts/convert_open_unmix_2stems.py *)

Module Convert2Stems.

(** The collaborators of the script: the openunmix package, the ONNX
    exporter of torch, onnx, onnx-tf and the tensorflowjs converter.
    Collaborators that are handed a path receive it as the string the
    script passes. *)
Record env := Env {
  Model : Type;
  OnnxModel : Type;
  TfRep : Type;
  import_module : string → option (exc_class * string);
  openunmix_umx : string → answer Model;
  torch_onnx_export : Model → export_args → string → file_effect;
  onnx_load : string → string → answer OnnxModel;
  prepare : OnnxModel → answer TfRep;
  export_graph : TfRep → string → tree_effect;
  convert_tf_saved_model : fs → string → string → tree_effect
}.

(** The arguments of the [torch.onnx.export] call. *)
Definition export_kwargs : export_args :=
  {| dummy_input := [1; 2; 44100]%Z;
     input_names := ["audio"];
     output_names := ["output"];
     dynamic_axes := [("audio", [(2, "time")]); ("output", [(2, "time")])];
     opset_version := 11;
     do_constant_folding := None |}.

(** The axis the script's comment names as time:
    [[batch, channels, time]]. *)
Definition time_axis : nat := 2.

Definition convert_pytorch_to_onnx (E : env) (pytorch_model : Model E)
    (output_path : path) (stem_name : string) : Py path :=
  print ("Converting " +:+ stem_name +:+ " model to ONNX...") ;;;
  let onnx_path := output_path ++ [stem_name +:+ ".onnx"] in
  run_file_effect onnx_path
    (torch_onnx_export E pytorch_model export_kwargs (path_str onnx_path)) ;;;
  print ("ONNX model saved to " +:+ path_str onnx_path) ;;;
  ret onnx_path.

(** [onnx.load(str(onnx_path))] *)
Definition onnx_load_call (E : env) (onnx_path : path) : Py (OnnxModel E) :=
  n <- stat onnx_path ;;
  match n with
  | None => raise (Exc FileNotFoundError (path_str onnx_path))
  | Some Dir => raise (Exc IsADirectoryError (path_str onnx_path))
  | Some (File data) => call (onnx_load E (path_str onnx_path) data)
  end.

Definition convert_onnx_to_tfjs (E : env) (onnx_path output_dir : path)
    : Py path :=
  print "Converting ONNX to TensorFlow.js..." ;;;
  onnx_model <- onnx_load_call E onnx_path ;;
  tf_rep <- call (prepare E onnx_model) ;;
  let saved_model_path := output_dir ++ ["saved_model"] in
  run_tree_effect saved_model_path
    (export_graph E tf_rep (path_str saved_model_path)) ;;;
  let tfjs_path := output_dir ++ ["tfjs_model"] in
  saved <- read_subtree saved_model_path ;;
  run_tree_effect tfjs_path
    (convert_tf_saved_model E saved (path_str saved_model_path)
       (path_str tfjs_path)) ;;;
  print ("TensorFlow.js model saved to " +:+ path_str tfjs_path) ;;;
  ret tfjs_path.

(** The block under [# Move model.json and weights to final location]. *)
Definition stage (stem : string) (tfjs_path stem_dir : path) : Py unit :=
  let model_json := tfjs_path ++ ["model.json"] in
  ex <- path_exists model_json ;;
  if ex : bool then
    shutil_copy model_json (stem_dir ++ ["model.json"]) ;;;
    weights <- glob_suffix tfjs_path ".bin" ;;
    for_each weights
      (λ weight_file, shutil_copy weight_file (stem_dir ++ [name weight_file])) ;;;
    print ("✅ " +:+ stem +:+ " model converted successfully!") ;;;
    print ("   Model files in: " +:+ path_str stem_dir)
  else
    print ("❌ Error: model.json not found in " +:+ path_str tfjs_path).

Definition output_base : path := ["converted_models"; "umx-2stems"].

(** The [try] block of the loop. *)
Definition convert_stem (E : env) (stem : string) (stem_dir : path)
    : Py unit :=
  model <- call (openunmix_umx E stem) ;;
  onnx_path <- convert_pytorch_to_onnx E model stem_dir stem ;;
  tfjs_path <- convert_onnx_to_tfjs E onnx_path stem_dir ;;
  stage stem tfjs_path stem_dir.

(** The body of [for stem in stems]. *)
Definition loop_body (E : env) (stem : string) : Py unit :=
  print ("Processing " +:+ stem +:+ " stem...") ;;;
  let stem_dir := output_base ++ [stem] in
  Path_mkdir false true stem_dir ;;;
  try_except (convert_stem E stem stem_dir) is_Exception
    (λ e, print ("❌ Error converting " +:+ stem +:+ ": " +:+ exn_str e)).

Definition stems : list string := ["vocals"; "accompaniment"].

(** [convert_openunmix_2stems], with the list of stems as a parameter. *)
Definition convert_stems (E : env) (stems : list string) : Py unit :=
  Path_mkdir true true output_base ;;;
  for_each stems (loop_body E) ;;;
  print "Conversion complete!" ;;;
  print ("Models saved to: " +:+ path_str output_base).

Definition convert_openunmix_2stems (E : env) : Py unit :=
  convert_stems E stems.

(** [try: import a; import b; ... except ImportError: print; sys.exit(1)].
    A statement [from m import x] is one import: of [m], or of [m.x] when
    [m] is already imported by the statement before it (the import
    machinery then has nothing left to find but [x]). *)
Definition import_or_exit (E : env) (modules : list string) (hint : string)
    : Py unit :=
  try_except
    (for_each modules
       (λ m, emit (EvImport m) ;;; raise_if (import_module E m)))
    is_ImportError
    (λ _, print hint ;;; raise (SystemExit 1)).

(** The [if __name__ == "__main__"] block. *)
Definition main_guard (E : env) : Py unit :=
  try_except (convert_openunmix_2stems E) is_Exception
    (λ e, print ("Fatal error: " +:+ exn_str e) ;;; raise (SystemExit 1)).

(** The whole script: [import torch], the three guarded groups of
    imports, then the main block. *)
Definition script (E : env) : Py unit :=
  emit (EvImport "torch") ;;;
  raise_if (import_module E "torch") ;;;
  import_or_exit E ["openunmix"; "openunmix.predict"]
    "Error: openunmix not installed. Install with: pip install openunmix" ;;;
  import_or_exit E ["tensorflowjs"; "tensorflow"]
    "Error: tensorflowjs not installed. Install with: pip install tensorflowjs" ;;;
  import_or_exit E ["onnx"; "onnx_tf.backend"]
    "Error: onnx or onnx-tf not installed. Install with: pip install onnx onnx-tf" ;;;
  main_guard E.

(** A stem has reached the end of its conversion when the run reports
    it converted. *)
Definition converted (stem : string) (log : list event) : bool :=
  printed ("✅ " +:+ stem +:+ " model converted successfully!") log.

(** A stem has failed when the run reports an error for it. *)
Definition failed (stem : string) (log : list event) : bool :=
  existsb (λ ev, match ev with
                 | EvPrint l =>
                     String.prefix ("❌ Error converting " +:+ stem +:+ ": ") l
                 | _ => false
                 end) log.

End Convert2Stems.

(** ** scripts/convert_umx_to_tfjs.py *)

Module ConvertUmxToTfjs.

(** The collaborators: torch's exporter, onnx2tf and the tensorflowjs
    converter.  [tfjs_bound] tells whether [import tensorflowjs as tfjs]
    succeeded at the top of the script (when it did not, the script goes
    on and the name [tfjs] is unbound). *)
Record env := Env {
  Model : Type;
  tfjs_bound : bool;
  torch_onnx_export : Model → export_args → string → file_effect;
  onnx2tf_convert : option node → string → string → tree_effect;
  convert_tf_saved_model : fs → string → string → tree_effect
}.

Definition dummy_input_shape : list Z := [1; 2974]%Z.

Definition export_kwargs : export_args :=
  {| dummy_input := dummy_input_shape;
     input_names := ["magnitude_spectrogram"];
     output_names := ["mask"];
     dynamic_axes :=
       [("magnitude_spectrogram", [(0, "batch"); (1, "features")]);
        ("mask", [(0, "batch"); (1, "features")])];
     opset_version := 11;
     do_constant_folding := Some true |}.

Definition output_base : path := ["converted_models"; "umx-2stems"].

(** The body of the first loop; [onnx_models] is the dictionary it
    fills. *)
Definition export_body (E : env) (onnx_models : list (string * path))
    (item : string * Model E) : Py (list (string * path)) :=
  let stem_name := item.1 in
  print ("Converting " +:+ stem_name +:+ "...") ;;;
  let stem_dir := output_base ++ [stem_name] in
  Path_mkdir false true stem_dir ;;;
  let onnx_path := stem_dir ++ [stem_name +:+ ".onnx"] in
  try_except
    (run_file_effect onnx_path
       (torch_onnx_export E item.2 export_kwargs (path_str onnx_path)) ;;;
     print ("✅ ONNX model saved: " +:+ path_str onnx_path) ;;;
     ret (dict_set stem_name onnx_path onnx_models))
    is_Exception
    (λ e,
       print ("❌ Error converting " +:+ stem_name +:+ " to ONNX: " +:+ exn_str e) ;;;
       ret onnx_models).

(** The copies under [# Move model.json and weights to final location]. *)
Definition stage (tfjs_path stem_dir : path) : Py unit :=
  let model_json := tfjs_path ++ ["model.json"] in
  ex <- path_exists model_json ;;
  if ex : bool then
    shutil_copy model_json (stem_dir ++ ["model.json"]) ;;;
    print "  ✅ Copied model.json" ;;;
    weights <- glob_suffix tfjs_path ".bin" ;;
    for_each weights
      (λ weight_file, shutil_copy weight_file (stem_dir ++ [name weight_file])) ;;;
    print ("  ✅ Copied " +:+ pretty (Z.of_nat (length weights)) +:+ " weight file(s)")
  else ret tt.

(** The [try] block of the second loop. *)
Definition convert_stem (E : env) (stem_name : string) (onnx_path stem_dir : path)
    : Py unit :=
  let saved_model_path := stem_dir ++ ["saved_model"] in
  onnx_file <- lookup_path onnx_path ;;
  run_tree_effect saved_model_path
    (onnx2tf_convert E onnx_file (path_str onnx_path)
       (path_str saved_model_path)) ;;;
  print ("  ✅ TensorFlow SavedModel: " +:+ path_str saved_model_path) ;;;
  let tfjs_path := stem_dir ++ ["tfjs_model"] in
  (if tfjs_bound E then ret tt
   else raise (Exc NameError "name 'tfjs' is not defined")) ;;;
  saved <- read_subtree saved_model_path ;;
  run_tree_effect tfjs_path
    (convert_tf_saved_model E saved (path_str saved_model_path)
       (path_str tfjs_path)) ;;;
  print ("  ✅ TensorFlow.js model: " +:+ path_str tfjs_path) ;;;
  stage tfjs_path stem_dir ;;;
  print ("✅ " +:+ stem_name +:+ " conversion complete!") ;;;
  print ("   Files in: " +:+ path_str stem_dir).

(** The body of the second loop. *)
Definition convert_body (E : env) (item : string * path) : Py unit :=
  let stem_name := item.1 in
  print ("Converting " +:+ stem_name +:+ " ONNX -> TensorFlow.js...") ;;;
  let stem_dir := output_base ++ [stem_name] in
  try_except (convert_stem E stem_name item.2 stem_dir) is_Exception
    (λ e, print ("❌ Error converting " +:+ stem_name +:+ ": " +:+ exn_str e)).

(** The script from [onnx_models = {}] to its end, with the dictionary
    [stems_to_convert] as a parameter. *)
Definition loops (E : env) (stems_to_convert : list (string * Model E))
    : Py unit :=
  onnx_models <- for_fold stems_to_convert (export_body E) [] ;;
  match onnx_models with
  | [] =>
      print "❌ No models converted to ONNX. Cannot proceed." ;;;
      raise (SystemExit 1)
  | _ :: _ => ret tt
  end ;;;
  for_each onnx_models (convert_body E) ;;;
  print ("Models converted to: " +:+ path_str output_base).

(** The script from [output_base.mkdir] to its end. *)
Definition conversion (E : env) (stems_to_convert : list (string * Model E))
    : Py unit :=
  Path_mkdir true true output_base ;;;
  loops E stems_to_convert.

Definition converted (stem_name : string) (log : list event) : bool :=
  printed ("✅ " +:+ stem_name +:+ " conversion complete!") log.

(** The interpreter at the top of the script: [sys.executable], what
    [import m] does before and after the pip command has run
    ([import_module installed m]), and the pip process. *)
Record startup := Startup {
  sys_executable : string;
  import_module : bool → string → option (exc_class * string);
  pip : list string → answer Z
}.

(** [import m] *)
Definition import_ (S : startup) (installed : bool) (m : string) : Py unit :=
  emit (EvImport m) ;;;
  raise_if (import_module S installed m).

Definition pip_cmd (S : startup) : list string :=
  [sys_executable S; "-m"; "pip"; "install"; "onnx"; "onnx2tf"; "--quiet"].

(** [subprocess.check_call(cmd)] *)
Definition check_call (S : startup) (cmd : list string) : Py unit :=
  emit (EvRun cmd) ;;;
  rc <- call (pip S cmd) ;;
  if decide (rc = 0%Z) then ret tt
  else raise (Exc CalledProcessError
                ("returned non-zero exit status " +:+ pretty rc)).

(** The import statements of the script (the modules of the standard
    library apart).  The value is whether the name [tfjs] is bound when
    they are through. *)
Definition imports (S : startup) : Py bool :=
  import_ S false "torch" ;;;
  import_ S false "torch.onnx" ;;;
  installed <-
    try_except
      (import_ S false "onnx" ;;;
       import_ S false "onnx2tf" ;;;
       ret false)
      is_ImportError
      (λ _,
         print "Installing onnx and onnx2tf..." ;;;
         check_call S (pip_cmd S) ;;;
         import_ S true "onnx" ;;;
         import_ S true "onnx2tf" ;;;
         ret true) ;;
  try_except
    (import_ S installed "tensorflowjs" ;;; ret true)
    is_ImportError
    (λ _, print "tensorflowjs already installed" ;;; ret false).

End ConvertUmxToTfjs.

(** ** scripts/convert_to_onnx_only.py *)

Module ConvertToOnnxOnly.

(** The interpreter's import machinery, torch.hub, the separator it
    loads ([separator.eval()], which can raise, and
    [separator.target_models[name]]) and torch's exporter. *)
Record env := Env {
  Separator : Type;
  Model : Type;
  import_module : string → option (exc_class * string);
  torch_hub_load : answer Separator;
  separator_eval : Separator → option (exc_class * string);
  target_model : Separator → string → answer Model;
  torch_onnx_export : Model → export_args → string → file_effect
}.

Definition dummy_input_shape : list Z := [1; 2; 2049; 10]%Z.

Definition export_kwargs : export_args :=
  {| dummy_input := dummy_input_shape;
     input_names := ["magnitude_spectrogram"];
     output_names := ["mask"];
     dynamic_axes :=
       [("magnitude_spectrogram", [(0, "batch"); (1, "features")]);
        ("mask", [(0, "batch"); (1, "features")])];
     opset_version := 11;
     do_constant_folding := Some true |}.

(** The axis the script's comment names as time:
    [[batch, channels, freq, time]]. *)
Definition time_axis : nat := 3.

Definition output_base : path := ["converted_models"; "umx-onnx"].

(** The body of the loop; [onnx_models] is the dictionary it fills. *)
Definition export_body (E : env) (onnx_models : list (string * path))
    (item : string * Model E) : Py (list (string * path)) :=
  let stem_name := item.1 in
  print ("Converting " +:+ stem_name +:+ "...") ;;;
  let stem_dir := output_base ++ [stem_name] in
  Path_mkdir false true stem_dir ;;;
  let onnx_path := stem_dir ++ [stem_name +:+ ".onnx"] in
  try_except
    (run_file_effect onnx_path
       (torch_onnx_export E item.2 export_kwargs (path_str onnx_path)) ;;;
     print ("[OK] ONNX model saved: " +:+ path_str onnx_path) ;;;
     ret (dict_set stem_name onnx_path onnx_models))
    is_Exception
    (λ e,
       print ("[ERROR] Error converting " +:+ stem_name +:+ ": " +:+ exn_str e) ;;;
       ret onnx_models).

(** The script from [import torch] on, returning the [onnx_models]
    dictionary it has built when it reaches its end. *)
Definition script (E : env) : Py (list (string * path)) :=
  emit (EvImport "torch") ;;;
  raise_if (import_module E "torch") ;;;
  separator <-
    try_except
      (sep <- call (torch_hub_load E) ;;
       raise_if (separator_eval E sep) ;;;
       print "[OK] Models loaded!" ;;;
       ret sep)
      is_Exception
      (λ e, print ("[ERROR] Error loading models: " +:+ exn_str e) ;;;
            raise (SystemExit 1)) ;;
  Path_mkdir true true output_base ;;;
  vocals <- call (target_model E separator "vocals") ;;
  let stems_to_convert := [("vocals", vocals)] in
  onnx_models <- for_fold stems_to_convert (export_body E) [] ;;
  match onnx_models with
  | _ :: _ =>
      print "[OK] Conversion Complete!" ;;;
      print ("ONNX models saved to: " +:+ path_str output_base)
  | [] => print "[ERROR] No models converted."
  end ;;;
  ret onnx_models.

End ConvertToOnnxOnly.

(** ** scripts/convert_simple.py *)

Module ConvertSimple.

Record env := Env {
  Model : Type;
  import_module : string → option (exc_class * string);
  torch_hub_load : string → string → answer Model
}.

Definition model_url : string := "sigsep/open-unmix".

Definition stems : list string := ["vocals"; "accompaniment"].

(** The body of [for stem in stems]; [models] is the dictionary it
    fills.  The inner [except:] has no class: it catches everything. *)
Definition loop_body (E : env) (models : list (string * Model E))
    (stem : string) : Py (list (string * Model E)) :=
  try_except
    (print ("Downloading " +:+ stem +:+ " model...") ;;;
     model <- call (torch_hub_load E model_url stem) ;;
     print ("✅ " +:+ stem +:+ " model downloaded successfully!") ;;;
     ret (dict_set stem model models))
    is_Exception
    (λ e,
       print ("❌ Error downloading " +:+ stem +:+ ": " +:+ exn_str e) ;;;
       try_except
         (emit (EvImport "urllib.request") ;;;
          raise_if (import_module E "urllib.request") ;;;
          print ("Download models for: " +:+ stem))
         (λ _, true)
         (λ _, ret tt) ;;;
       ret models).

(** The script from [import torch] on, returning the [models] dictionary
    it has built when it reaches its end. *)
Definition script (E : env) : Py (list (string * Model E)) :=
  emit (EvImport "torch") ;;;
  raise_if (import_module E "torch") ;;;
  try_except
    (print ("Attempting to load model from: " +:+ model_url) ;;;
     models <- for_fold stems (loop_body E) [] ;;
     match models with
     | _ :: _ =>
         print ("✅ Successfully downloaded "
                +:+ pretty (Z.of_nat (length models)) +:+ " models!")
     | [] => print "❌ Could not download models automatically."
     end ;;;
     ret models)
    is_Exception
    (λ e, print ("❌ Error: " +:+ exn_str e) ;;; raise (SystemExit 1)).

End ConvertSimple.

(** ** scripts/convert_with_torch_hub.py *)

Module ConvertWithTorchHub.

(** The interpreter's import machinery, torch.hub and what the script
    reads of the separator it loads: the name of its type, its attribute
    [sample_rate], its attribute [targets] when it has one, and its printed
    form.  The access to an attribute and the formatting of a value run
    code of the object and can raise. *)
Record env := Env {
  Separator : Type;
  Model : Type;
  import_module : string → option (exc_class * string);
  torch_hub_load : answer Separator;
  type_name : Separator → string;
  sample_rate : Separator → answer string;
  targets : Separator → option (answer string);
  repr : Separator → answer string;
  torch_hub_load_target : string → answer Model
}.

Definition repo : string := "sigsep/open-unmix-pytorch".

Definition output_dir : path := ["converted_models"].

(** The [try] block. *)
Definition inspect (E : env) : Py unit :=
  print ("Loading models from: " +:+ repo) ;;;
  separator <- call (torch_hub_load E) ;;
  print "✅ Model loaded successfully!" ;;;
  print ("Model type: " +:+ type_name E separator) ;;;
  rate <- call (sample_rate E separator) ;;
  print ("Sample rate: " +:+ rate) ;;;
  match targets E separator with
  | Some formatted =>
      ts <- call formatted ;; print ("Available targets: " +:+ ts)
  | None => ret tt
  end ;;;
  text <- call (repr E separator) ;;
  print text ;;;
  Path_mkdir false true output_dir ;;;
  print "Model info saved. Next step: conversion script.".

(** The [try] block of the handler. *)
Definition load_targets (E : env) : Py unit :=
  print "Trying to load individual targets..." ;;;
  call (torch_hub_load_target E "vocals") ;;;
  print "✅ Vocals model loaded!" ;;;
  call (torch_hub_load_target E "accompaniment") ;;;
  print "✅ Accompaniment model loaded!".

(** The script after [import torch]: the [try] block and its handler. *)
Definition blocks (E : env) : Py unit :=
  try_except (inspect E) is_Exception
    (λ e,
       print ("❌ Error: " +:+ exn_str e) ;;;
       try_except (load_targets E) is_Exception
         (λ e2,
            print ("❌ Individual loading also failed: " +:+ exn_str e2) ;;;
            raise (SystemExit 1))).

Definition script (E : env) : Py unit :=
  emit (EvImport "torch") ;;;
  raise_if (import_module E "torch") ;;;
  blocks E.

End ConvertWithTorchHub.

(** ** The Shape Negotiator of the specification *)

Module ShapeSpec.

(** Modelled from the spec: the attributes of a ModelHandle that the
    Shape Negotiator of section 4.2 consults.  The model objects of the
    scripts are opaque torch modules; no script reads either attribute. *)
Record ModelHandle := Handle {
  declared_input_shape : option (list Z);
  architecture_family : option string
}.

Definition ShapeUnknownError : exc_class := OtherException "ShapeUnknownError".

(** Modelled from the spec: the precedence of section 4.2, with the
    documented defaults of the known families as a parameter. *)
Definition negotiate (family_default : string → option (list Z))
    (h : ModelHandle) : answer (list Z) :=
  match declared_input_shape h with
  | Some shape => Returns shape
  | None =>
      match architecture_family h ≫= family_default with
      | Some shape => Returns shape
      | None => Fails ShapeUnknownError "no declared shape, no known family"
      end
  end.

End ShapeSpec.

(** ** Vocabulary of the properties *)

(** A package is missing when importing its module raises. *)
Definition is_missing (E : ConvertOpenUnmix.env) (dep : string) : Prop :=
  is_Some (ConvertOpenUnmix.import_module E (ConvertOpenUnmix.replace_dash dep)).

(** Every failing import of the loop fails with an [ImportError]. *)
Definition fails_with_ImportError (E : ConvertOpenUnmix.env)
    (deps : list string) : Prop :=
  ∀ dep c msg, dep ∈ deps →
    ConvertOpenUnmix.import_module E (ConvertOpenUnmix.replace_dash dep)
    = Some (c, msg) →
    is_ImportError (Exc c msg) = true.

(** Two file systems hold the same at every path of [P]. *)
Definition agree (P : path → Prop) (f1 f2 : fs) : Prop :=
  ∀ p, P p → f1 !! p = f2 !! p.

(** A computation leaves every path outside [W] as it found it. *)
Definition frames (W : path → Prop) {A} (m : Py A) : Prop :=
  ∀ f p, ¬ W p → out_fs (m f) !! p = f !! p.

(** The log of a computation, its result and what it leaves in [R] depend
    on nothing but what it found in [R]. *)
Definition determined (R : path → Prop) {A} (m : Py A) : Prop :=
  ∀ f1 f2, agree R f1 f2 →
    out_log (m f1) = out_log (m f2)
    ∧ out_res (m f1) = out_res (m f2)
    ∧ agree R (out_fs (m f1)) (out_fs (m f2)).

(** A computation is local to a read footprint [R] and a write footprint
    [W]. *)
Definition local (R W : path → Prop) {A} (m : Py A) : Prop :=
  frames W m ∧ determined R m.

(** A computation raises nothing but instances of [Exception]. *)
Definition exc_only {A} (m : Py A) : Prop :=
  ∀ f e, out_res (m f) = Raise e → is_Exception e = true.

(** Both conversion scripts give every stem the directory
    [output_base / stem]. *)
Definition stem_dir (base : path) (stem : string) : path := base ++ [stem].

(** What the iterations for [stem] write: its directory and below. *)
Definition writes (base : path) (stem : string) (p : path) : Prop :=
  stem_dir base stem `prefix_of` p.

(** What they read: that, and the entry of the base directory. *)
Definition reads (base : path) (stem : string) (p : path) : Prop :=
  stem_dir base stem `prefix_of` p ∨ p = base.

(** The directory of a stem can be created: the base directory is there
    and no file has the stem's name. *)
Definition creatable (base : path) (f : fs) (stem : string) : Prop :=
  f !! base = Some Dir
  ∧ (f !! stem_dir base stem = None ∨ f !! stem_dir base stem = Some Dir).

(** The ONNX file of a stem in convert_umx_to_tfjs. *)
Definition onnx_path_of (stem_name : string) : path :=
  stem_dir ConvertUmxToTfjs.output_base stem_name ++ [stem_name +:+ ".onnx"].

(** The entry the first loop of convert_umx_to_tfjs records for an item
    when it is run on its own from [f], if it records one. *)
Definition exported_one (E : ConvertUmxToTfjs.env) (f : fs)
    (item : string * ConvertUmxToTfjs.Model E) : option (string * path) :=
  match out_res (ConvertUmxToTfjs.export_body E [] item f) with
  | Ok (e :: _) => Some e
  | _ => None
  end.

(** The dictionary the first loop builds when every item is run on its
    own from [f]. *)
Definition exported (E : ConvertUmxToTfjs.env) (f : fs)
    (items : list (string * ConvertUmxToTfjs.Model E)) : list (string * path) :=
  omap (exported_one E f) items.

(** An iteration of the second loop, by the name of its stem. *)
Definition convert_named (E : ConvertUmxToTfjs.env) (stem_name : string)
    : Py unit :=
  ConvertUmxToTfjs.convert_body E (stem_name, onnx_path_of stem_name).

(** No file stands at [p]: the path is free or holds a directory. *)
Definition no_file (f : fs) (p : path) : Prop :=
  f !! p = None ∨ f !! p = Some Dir.

(** The names under which [stage] copies into the directory of a stem. *)
Definition destination_name (x : string) : Prop :=
  x = "model.json" ∨ ends_with ".bin" x = true.

Global Instance destination_name_dec x : Decision (destination_name x).
Proof. unfold destination_name. apply _. Defined.

(** [p] is a destination of the copies from [tfjs] into [dir]. *)
Definition destination (tfjs dir : path) (f : fs) (p : path) : Prop :=
  p ≠ [] ∧ parent p = dir ∧ destination_name (name p)
  ∧ is_Some (f !! (tfjs ++ [name p])).

Global Instance destination_dec tfjs dir f p : Decision (destination tfjs dir f p).
Proof. unfold destination. apply _. Defined.

(** What a path holds after staging: a destination holds what its source
    held, every other path what it held before. *)
Definition staged_entry (tfjs dir : path) (f : fs) (p : path) : option node :=
  if decide (destination tfjs dir f p) then f !! (tfjs ++ [name p])
  else f !! p.

(** Staging can go through: the directory of the stem is there, the
    converter has left a graph descriptor, and no directory stands among
    the weight files or at a destination. *)
Definition stageable (tfjs dir : path) (f : fs) : Prop :=
  entry f dir = Some Dir
  ∧ (∃ graph, f !! (tfjs ++ ["model.json"]) = Some (File graph))
  ∧ map_Forall (λ p n, n = Dir →
                  ¬ glob_match tfjs ".bin" p
                  ∧ ¬ (p ≠ [] ∧ parent p = dir ∧ destination_name (name p))) f.

(** The copies that the staging block of either conversion script makes,
    in the order it makes them: the graph descriptor when the converter has
    left one, then the weight files that the directory listing gives once
    the descriptor is copied. *)
Definition stage_copies (tfjs dir : path) (f : fs) : list (path * path) :=
  let model_json := tfjs ++ ["model.json"] in
  match out_res (path_exists model_json f) with
  | Ok true =>
      let first := shutil_copy model_json (dir ++ ["model.json"]) f in
      (model_json, dir ++ ["model.json"])
      :: match out_res first, out_res (glob_suffix tfjs ".bin" (out_fs first)) with
         | Ok _, Ok weights => (λ w, (w, dir ++ [name w])) <$> weights
         | _, _ => []
         end
  | _ => []
  end.

(** The states of the file system that a concurrent reader can observe
    while the staging block runs. *)
Definition staging_states (tfjs dir : path) (f : fs) : list fs :=
  copies_states (stage_copies tfjs dir f) f.

(** Every exception that a computation raises satisfies [P]. *)
Definition raises_only (P : exn → bool) {A} (m : Py A) : Prop :=
  ∀ f e, out_res (m f) = Raise e → P e = true.

(** The call of the exporter for an item of convert_umx_to_tfjs. *)
Definition export_of (E : ConvertUmxToTfjs.env)
    (item : string * ConvertUmxToTfjs.Model E) : file_effect :=
  ConvertUmxToTfjs.torch_onnx_export E item.2 ConvertUmxToTfjs.export_kwargs
    (path_str (onnx_path_of item.1)).

(** The exporter accepts an item: its call raises nothing. *)
Definition export_accepted (E : ConvertUmxToTfjs.env)
    (item : string * ConvertUmxToTfjs.Model E) : Prop :=
  fe_raised (export_of E item) = None.

Global Instance export_accepted_dec E item : Decision (export_accepted E item).
Proof. unfold export_accepted. apply _. Defined.

(** The two lines that the first loop of convert_umx_to_tfjs prints for
    an item. *)
Definition export_report (E : ConvertUmxToTfjs.env)
    (item : string * ConvertUmxToTfjs.Model E) : list event :=
  [EvPrint ("Converting " +:+ item.1 +:+ "...");
   EvPrint (match fe_raised (export_of E item) with
            | None => "✅ ONNX model saved: " +:+ path_str (onnx_path_of item.1)
            | Some (_, msg) =>
                "❌ Error converting " +:+ item.1 +:+ " to ONNX: " +:+ msg
            end)].

(** A computation always returns a value: it raises nothing. *)
Definition returns {A} (m : Py A) : Prop :=
  ∀ f, ∃ a, out_res (m f) = Ok a.

(** A computation leaves as it found it every path that [Q] holds of in
    the file system it starts from. *)
Definition preserves (Q : fs → path → Prop) {A} (m : Py A) : Prop :=
  ∀ f p, Q f p → out_fs (m f) !! p = f !! p.

(** A computation leaves every entry it finds as it is: it creates, and
    neither overwrites nor removes. *)
Definition keeps_existing {A} (m : Py A) : Prop :=
  preserves (λ f p, is_Some (f !! p)) m.

(** A computation leaves nothing in the log. *)
Definition silent {A} (m : Py A) : Prop :=
  ∀ f, out_log (m f) = [].

(** The paths a conversion run over [stems] may write: the base
    directory and its ancestors, and the directories of the stems with
    what is below them. *)
Definition output_tree (base : path) (stems : list string) (p : path) : Prop :=
  p `prefix_of` base ∨ Exists (λ s, writes base s p) stems.

Global Instance output_tree_dec base stems p : Decision (output_tree base stems p).
Proof. unfold output_tree, writes. apply _. Defined.

(** The modules convert_open_unmix_2stems.py imports before it does
    anything else, in the order of its import statements. *)
Definition script_imports : list string :=
  ["torch"; "openunmix"; "openunmix.predict"; "tensorflowjs"; "tensorflow";
   "onnx"; "onnx_tf.backend"].

(** A computation leaves the file system as it is and starts no
    process. *)
Definition harmless {A} (m : Py A) : Prop :=
  ∀ f, out_fs (m f) = f ∧ runs_of (out_log (m f)) = [].

(** Has a collaborator returned a value? *)
Definition returned {A} (a : answer A) : bool :=
  match a with Returns _ => true | Fails _ _ => false end.

(** A computation never prints [line]. *)
Definition never_prints (line : string) {A} (m : Py A) : Prop :=
  ∀ f, printed line (out_log (m f)) = false.

(** The weight file of a stem in the two download scripts. *)
Definition weights_file (stem : string) : path :=
  ["downloaded_models"; "umx_" +:+ stem +:+ ".pth"].

(** ** Concrete environments and file systems for the examples *)

Module Examples.

(** A world in which every collaborator of convert_open_unmix_2stems
    works, except that the pretrained model of [broken] cannot be
    loaded.  Models are represented by the name of their target. *)
Definition env_2stems (broken : string) : Convert2Stems.env :=
  {| Convert2Stems.Model := string;
     Convert2Stems.OnnxModel := string;
     Convert2Stems.TfRep := string;
     Convert2Stems.import_module := λ _, None;
     Convert2Stems.openunmix_umx := λ target,
       if String.eqb target broken
       then Fails (OtherException "RuntimeError") "no pretrained weights"
       else Returns target;
     Convert2Stems.torch_onnx_export := λ m _ _,
       FileEffect (Some ("onnx:" +:+ m)) None;
     Convert2Stems.onnx_load := λ _ data, Returns data;
     Convert2Stems.prepare := λ m, Returns m;
     Convert2Stems.export_graph := λ rep _,
       TreeEffect [([], Dir); (["saved_model.pb"], File rep)] None;
     Convert2Stems.convert_tf_saved_model := λ _ _ _,
       TreeEffect [([], Dir);
                   (["model.json"], File "new-graph");
                   (["group1-shard1of2.bin"], File "new-weights-1");
                   (["group1-shard2of2.bin"], File "new-weights-2")] None |}.

Definition vocals_dir : path := ["converted_models"; "umx-2stems"; "vocals"].
Definition accompaniment_dir : path :=
  ["converted_models"; "umx-2stems"; "accompaniment"].

(** The output tree with a complete earlier output for vocals (one graph
    descriptor, one weight shard). *)
Definition fs_prior_output : fs :=
  list_to_map
    [(["converted_models"], Dir);
     (["converted_models"; "umx-2stems"], Dir);
     (vocals_dir, Dir);
     (vocals_dir ++ ["model.json"], File "old-graph");
     (vocals_dir ++ ["group1-shard1of1.bin"], File "old-weights")].

(** A world in which every collaborator of convert_umx_to_tfjs works,
    except that the model of [broken] cannot be exported. *)
Definition env_umx (broken : string) : ConvertUmxToTfjs.env :=
  {| ConvertUmxToTfjs.Model := string;
     ConvertUmxToTfjs.tfjs_bound := true;
     ConvertUmxToTfjs.torch_onnx_export := λ m _ _,
       if String.eqb m broken
       then FileEffect None
              (Some (OtherException "RuntimeError", "unsupported operator"))
       else FileEffect (Some ("onnx:" +:+ m)) None;
     ConvertUmxToTfjs.onnx2tf_convert := λ _ _ _,
       TreeEffect [([], Dir); (["saved_model.pb"], File "graph")] None;
     ConvertUmxToTfjs.convert_tf_saved_model := λ _ _ _,
       TreeEffect [([], Dir);
                   (["model.json"], File "new-graph");
                   (["group1-shard1of1.bin"], File "new-weights")] None |}.

(** A world in which every import succeeds and every process exits
    with status 0 without writing anything. *)
Definition env_open_unmix : ConvertOpenUnmix.env :=
  {| ConvertOpenUnmix.import_module := λ _, None;
     ConvertOpenUnmix.subprocess_run := λ _, (TreeEffect [] None, Returns 0%Z) |}.

(** A world in which torch and onnx-tf are not installed. *)
Definition env_two_missing : ConvertOpenUnmix.env :=
  {| ConvertOpenUnmix.import_module := λ m,
       if String.eqb m "torch" || String.eqb m "onnx_tf"
       then Some (ModuleNotFoundError, "No module named " +:+ m)
       else None;
     ConvertOpenUnmix.subprocess_run := λ _, (TreeEffect [] None, Returns 0%Z) |}.

(** The model handle of the specification that declares no input shape
    and belongs to no known family. *)
Definition opaque_handle : ShapeSpec.ModelHandle :=
  ShapeSpec.Handle None None.

(** Worlds for convert_to_onnx_only and convert_umx_to_tfjs whose models
    are such handles and whose exporter accepts whatever it is given. *)
Definition env_onnx_only : ConvertToOnnxOnly.env :=
  {| ConvertToOnnxOnly.Separator := unit;
     ConvertToOnnxOnly.Model := ShapeSpec.ModelHandle;
     ConvertToOnnxOnly.import_module := λ _, None;
     ConvertToOnnxOnly.torch_hub_load := Returns tt;
     ConvertToOnnxOnly.separator_eval := λ _, None;
     ConvertToOnnxOnly.target_model := λ _ _, Returns opaque_handle;
     ConvertToOnnxOnly.torch_onnx_export := λ _ _ _,
       FileEffect (Some "onnx-graph") None |}.

Definition env_umx_handles : ConvertUmxToTfjs.env :=
  {| ConvertUmxToTfjs.Model := ShapeSpec.ModelHandle;
     ConvertUmxToTfjs.tfjs_bound := true;
     ConvertUmxToTfjs.torch_onnx_export := λ _ _ _,
       FileEffect (Some "onnx-graph") None;
     ConvertUmxToTfjs.onnx2tf_convert := λ _ _ _, TreeEffect [] None;
     ConvertUmxToTfjs.convert_tf_saved_model := λ _ _ _, TreeEffect [] None |}.

Definition fs_onnx_base : fs :=
  list_to_map
    [(["converted_models"], Dir);
     (["converted_models"; "umx-onnx"], Dir)].

(** A world for download_and_convert in which the host delivers a
    truncated body and [torch.load] returns the bytes it is given as a
    one-entry state dict. *)
Definition env_truncating_host : DownloadAndConvert.env :=
  {| DownloadAndConvert.Checkpoint := list (string * string);
     DownloadAndConvert.import_module := λ _, None;
     DownloadAndConvert.truthy := λ c, Returns (negb (bool_decide (c = [])));
     DownloadAndConvert.urlretrieve := λ _,
       FileEffect (Some "trunc")
         (Some (ContentTooShortError, "retrieval incomplete"));
     DownloadAndConvert.torch_load := λ data,
       Returns [("fc1.weight", data)] |}.

(** A host for download_models that would deliver other bytes. *)
Definition env_fresh_host : DownloadModels.env :=
  {| DownloadModels.urlretrieve := λ _,
       DownloadModels.FetchEffect [(0, 8192, 16384); (1, 8192, 16384)]%Z
         (FileEffect (Some "fresh-weights") None) |}.

(** The download directory with both weight files already there. *)
Definition fs_cached : fs :=
  list_to_map
    [(["downloaded_models"], Dir);
     (["downloaded_models"; "umx_vocals.pth"], File "cached-vocals-weights");
     (["downloaded_models"; "umx_accompaniment.pth"],
      File "cached-accompaniment-weights")].

(** The tree of vocals after a conversion over that earlier output, before
    staging: the converter has filled [tfjs_model]. *)
Definition fs_before_staging : fs :=
  list_to_map
    [(["converted_models"], Dir);
     (["converted_models"; "umx-2stems"], Dir);
     (vocals_dir, Dir);
     (vocals_dir ++ ["model.json"], File "old-graph");
     (vocals_dir ++ ["group1-shard1of1.bin"], File "old-weights");
     (vocals_dir ++ ["tfjs_model"], Dir);
     (vocals_dir ++ ["tfjs_model"; "model.json"], File "new-graph");
     (vocals_dir ++ ["tfjs_model"; "group1-shard1of2.bin"], File "new-weights-1");
     (vocals_dir ++ ["tfjs_model"; "group1-shard2of2.bin"], File "new-weights-2")].

(** The output base with a regular file where the directory of vocals
    goes. *)
Definition fs_file_in_the_way : fs :=
  list_to_map
    [(["converted_models"], Dir);
     (["converted_models"; "umx-2stems"], Dir);
     (vocals_dir, File "not a directory")].

(** The output base, with nothing in it. *)
Definition fs_base : fs :=
  list_to_map
    [(["converted_models"], Dir);
     (["converted_models"; "umx-2stems"], Dir)].

(** The download directory with the weights of vocals only. *)
Definition fs_half_cached : fs :=
  list_to_map
    [(["downloaded_models"], Dir);
     (["downloaded_models"; "umx_vocals.pth"], File "cached-vocals-weights")].

(** A world in which importing torch breaks with something other than
    an [ImportError]. *)
Definition env_broken_torch : ConvertOpenUnmix.env :=
  {| ConvertOpenUnmix.import_module := λ m,
       if String.eqb m "torch"
       then Some (OtherException "AttributeError",
                  "partially initialized module 'torch' has no attribute 'nn'")
       else None;
     ConvertOpenUnmix.subprocess_run := λ _, (TreeEffect [] None, Returns 0%Z) |}.

(** A world in which the converter process writes a part of its output
    and exits with status 2. *)
Definition env_converter_fails : ConvertOpenUnmix.env :=
  {| ConvertOpenUnmix.import_module := λ _, None;
     ConvertOpenUnmix.subprocess_run := λ _,
       (TreeEffect [(["out"], Dir); (["out"; "model.json"], File "partial")] None,
        Returns 2%Z) |}.

(** The command line of convert_open_unmix.py without options. *)
Definition default_args : ConvertOpenUnmix.args :=
  {| ConvertOpenUnmix.model_type := "5stems";
     ConvertOpenUnmix.input := None;
     ConvertOpenUnmix.output := ["public"; "models"; "umx-5stems"] |}.

(** A working tree with a source file of the application, outside the
    output of the conversion scripts. *)
Definition fs_with_sources : fs :=
  list_to_map [(["src"], Dir); (["src"; "App.js"], File "app")].

(** The world of [env_2stems] in which no stem is broken and the module
    [absent] is not installed. *)
Definition env_2stems_without (absent : string) : Convert2Stems.env :=
  {| Convert2Stems.Model := string;
     Convert2Stems.OnnxModel := string;
     Convert2Stems.TfRep := string;
     Convert2Stems.import_module := λ m,
       if String.eqb m absent
       then Some (ModuleNotFoundError, "No module named " +:+ m)
       else None;
     Convert2Stems.openunmix_umx := Returns;
     Convert2Stems.torch_onnx_export := λ m _ _,
       FileEffect (Some ("onnx:" +:+ m)) None;
     Convert2Stems.onnx_load := λ _ data, Returns data;
     Convert2Stems.prepare := λ m, Returns m;
     Convert2Stems.export_graph := λ rep _,
       TreeEffect [([], Dir); (["saved_model.pb"], File rep)] None;
     Convert2Stems.convert_tf_saved_model := λ _ _ _,
       TreeEffect [([], Dir); (["model.json"], File "new-graph")] None |}.

(** A world for convert_umx_to_tfjs in which the tensorflowjs converter
    returns without leaving a graph descriptor. *)
Definition env_umx_no_graph : ConvertUmxToTfjs.env :=
  {| ConvertUmxToTfjs.Model := string;
     ConvertUmxToTfjs.tfjs_bound := true;
     ConvertUmxToTfjs.torch_onnx_export := λ m _ _,
       FileEffect (Some ("onnx:" +:+ m)) None;
     ConvertUmxToTfjs.onnx2tf_convert := λ _ _ _,
       TreeEffect [([], Dir); (["saved_model.pb"], File "graph")] None;
     ConvertUmxToTfjs.convert_tf_saved_model := λ _ _ _,
       TreeEffect [([], Dir); (["group1-shard1of1.bin"], File "weights")] None |}.

(** A world for convert_umx_to_tfjs in which [import tensorflowjs] has
    failed at the top of the script. *)
Definition env_umx_unbound : ConvertUmxToTfjs.env :=
  {| ConvertUmxToTfjs.Model := string;
     ConvertUmxToTfjs.tfjs_bound := false;
     ConvertUmxToTfjs.torch_onnx_export := λ m _ _,
       FileEffect (Some ("onnx:" +:+ m)) None;
     ConvertUmxToTfjs.onnx2tf_convert := λ _ _ _,
       TreeEffect [([], Dir); (["saved_model.pb"], File "graph")] None;
     ConvertUmxToTfjs.convert_tf_saved_model := λ _ _ _,
       TreeEffect [([], Dir); (["model.json"], File "new-graph")] None |}.

(** A world for convert_to_onnx_only whose exporter rejects the model. *)
Definition env_onnx_only_rejecting : ConvertToOnnxOnly.env :=
  {| ConvertToOnnxOnly.Separator := unit;
     ConvertToOnnxOnly.Model := string;
     ConvertToOnnxOnly.import_module := λ _, None;
     ConvertToOnnxOnly.torch_hub_load := Returns tt;
     ConvertToOnnxOnly.separator_eval := λ _, None;
     ConvertToOnnxOnly.target_model := λ _ target, Returns target;
     ConvertToOnnxOnly.torch_onnx_export := λ _ _ _,
       FileEffect None
         (Some (OtherException "RuntimeError", "unsupported operator")) |}.

(** A world for convert_to_onnx_only whose separator has no vocals
    model. *)
Definition env_onnx_only_no_vocals : ConvertToOnnxOnly.env :=
  {| ConvertToOnnxOnly.Separator := unit;
     ConvertToOnnxOnly.Model := string;
     ConvertToOnnxOnly.import_module := λ _, None;
     ConvertToOnnxOnly.torch_hub_load := Returns tt;
     ConvertToOnnxOnly.separator_eval := λ _, None;
     ConvertToOnnxOnly.target_model := λ _ target,
       Fails (OtherException "KeyError") ("'" +:+ target +:+ "'");
     ConvertToOnnxOnly.torch_onnx_export := λ m _ _,
       FileEffect (Some ("onnx:" +:+ m)) None |}.

(** A world for download_and_convert in which the host delivers the
    weights of vocals and fails for every other file, and [torch.load]
    returns the bytes it is given as a one-entry state dict. *)
Definition env_vocals_host : DownloadAndConvert.env :=
  {| DownloadAndConvert.Checkpoint := list (string * string);
     DownloadAndConvert.import_module := λ _, None;
     DownloadAndConvert.truthy := λ c, Returns (negb (bool_decide (c = [])));
     DownloadAndConvert.urlretrieve := λ url,
       if String.eqb url "https://zenodo.org/record/3370489/files/umx_vocals.pth"
       then FileEffect (Some "vocals-weights") None
       else FileEffect None (Some (URLError, "HTTP Error 404: Not Found"));
     DownloadAndConvert.torch_load := λ data,
       Returns [("fc1.weight", data)] |}.

(** A world for download_and_convert in which the host delivers both
    files and [torch.load] returns a tensor of several elements, which has
    no truth value. *)
Definition env_tensor_host : DownloadAndConvert.env :=
  {| DownloadAndConvert.Checkpoint := list Z;
     DownloadAndConvert.import_module := λ _, None;
     DownloadAndConvert.truthy := λ c,
       match c with
       | [] => Returns false
       | [x] => Returns (negb (bool_decide (x = 0%Z)))
       | _ =>
           Fails (OtherException "RuntimeError")
             "Boolean value of Tensor with more than one value is ambiguous"
       end;
     DownloadAndConvert.urlretrieve := λ _, FileEffect (Some "weights") None;
     DownloadAndConvert.torch_load := λ _, Returns [1; 2; 3]%Z |}.

(** A world for convert_simple in which torch.hub has no entry point for
    the repository the script asks for. *)
Definition env_simple_offline : ConvertSimple.env :=
  {| ConvertSimple.Model := string;
     ConvertSimple.import_module := λ _, None;
     ConvertSimple.torch_hub_load := λ _ _,
       Fails (OtherException "HTTPError") "HTTP Error 404: Not Found" |}.

(** A world for convert_with_torch_hub in which the separator loads and
    each target loads on its own. *)
Definition env_torch_hub : ConvertWithTorchHub.env :=
  {| ConvertWithTorchHub.Separator := string;
     ConvertWithTorchHub.Model := string;
     ConvertWithTorchHub.import_module := λ _, None;
     ConvertWithTorchHub.torch_hub_load := Returns "Separator()";
     ConvertWithTorchHub.type_name := λ _, "<class 'openunmix.model.Separator'>";
     ConvertWithTorchHub.sample_rate := λ _, Returns "44100.0";
     ConvertWithTorchHub.targets := λ _, None;
     ConvertWithTorchHub.repr := λ s, Returns s;
     ConvertWithTorchHub.torch_hub_load_target := Returns |}.

(** A working tree with a regular file named [converted_models]. *)
Definition fs_converted_models_file : fs :=
  list_to_map [(["converted_models"], File "notes")].

(** An interpreter for convert_umx_to_tfjs in which onnx2tf and
    tensorflowjs are not installed, pip succeeds, and onnx2tf can be
    imported once pip has run. *)
Definition startup_without_onnx2tf : ConvertUmxToTfjs.startup :=
  {| ConvertUmxToTfjs.sys_executable := "/usr/bin/python3";
     ConvertUmxToTfjs.import_module := λ installed m,
       if String.eqb m "tensorflowjs" || (String.eqb m "onnx2tf" && negb installed)
       then Some (ModuleNotFoundError, "No module named " +:+ m)
       else None;
     ConvertUmxToTfjs.pip := λ _, Returns 0%Z |}.

(** A host for download_models whose connection breaks after a part of
    the body has been written. *)
Definition env_breaking_host : DownloadModels.env :=
  {| DownloadModels.urlretrieve := λ _,
       DownloadModels.FetchEffect [(0, 8192, 16384)]%Z
         (FileEffect (Some "part")
            (Some (ContentTooShortError, "retrieval incomplete"))) |}.

End Examples.

(** ** Properties *)

(** C10: [show_progress] never fails and the percentage it prints is
    between 0 and 100, for every block count and block size (both
    non-negative, as [urlretrieve] passes them) and every total size
    (including the -1 and 0 that [urlretrieve] passes when the length is
    unknown); when the total size is not strictly positive no quotient is
    computed and the percentage is 0. *)
Theorem show_progress_total_bounded (block_num block_size total_size : Z) (f : fs) :
  (0 ≤ block_num)%Z → (0 ≤ block_size)%Z →
  ∃ p : Z,
    DownloadModels.percent block_num block_size total_size f = Outcome f [] (Ok p)
    ∧ DownloadModels.show_progress block_num block_size total_size f
      = Outcome f [EvPrint (DownloadModels.progress_line p)] (Ok tt)
    ∧ (0 ≤ p ≤ 100)%Z
    ∧ ((total_size ≤ 0)%Z → p = 0%Z).
Proof.
  intros Hn Hs.
  assert (Hp : ∃ p, DownloadModels.percent block_num block_size total_size f
                    = Outcome f [] (Ok p)
                    ∧ (0 ≤ p ≤ 100)%Z ∧ ((total_size ≤ 0)%Z → p = 0%Z)).
  { unfold DownloadModels.percent, DownloadModels.floordiv.
    destruct (decide (total_size > 0)%Z) as [Hpos|Hneg].
    - destruct (decide (total_size = 0%Z)) as [->|_]; [lia|].
      exists (Z.min 100 (block_num * block_size * 100 / total_size)).
      split; [reflexivity|]. split; [|lia].
      assert (0 ≤ block_num * block_size * 100 / total_size)%Z
        by (apply Z.div_pos; nia).
      lia.
    - exists 0%Z. split; [reflexivity|]. lia. }
  destruct Hp as (p & Hp & Hb & Hz).
  exists p. split; [exact Hp|]. split; [|split; assumption].
  unfold DownloadModels.show_progress, bind. rewrite Hp. reflexivity.
Qed.

Lemma show_progress_total_bounded_witness :
  ∃ p : Z,
    DownloadModels.percent 3 8192 49152 ∅ = Outcome ∅ [] (Ok p)
    ∧ DownloadModels.show_progress 3 8192 49152 ∅
      = Outcome ∅ [EvPrint (DownloadModels.progress_line p)] (Ok tt)
    ∧ (0 ≤ p ≤ 100)%Z
    ∧ ((49152 ≤ 0)%Z → p = 0%Z).
Proof. apply (show_progress_total_bounded 3 8192 49152 ∅); lia. Defined.

(** *** Dependency check *)

Section CheckDependencies.
Import ConvertOpenUnmix.
Variable E : env.

Local Abbreviation is_missing := (is_missing E).
Local Abbreviation fails_with_ImportError := (fails_with_ImportError E).

Lemma check_body (dep : string) (missing : list string) (f : fs) :
  fails_with_ImportError [dep] →
  check_loop_body E missing dep f
  = Outcome f [EvImport (replace_dash dep)]
      (Ok (missing ++ filter is_missing [dep])).
Proof.
  intros Hok.
  unfold check_loop_body, try_except, import_, bind, emit, raise_if.
  rewrite filter_cons, filter_nil.
  destruct (decide (is_missing dep)) as [Hm|Hm]; unfold is_missing in Hm;
    destruct (import_module E (replace_dash dep)) as [[c msg]|] eqn:Himp;
    cbn -[is_ImportError].
  - by rewrite (Hok dep c msg) by (done || by left).
  - by destruct Hm.
  - destruct Hm; eauto.
  - by rewrite app_nil_r.
Qed.

Lemma check_loop (deps missing : list string) (f : fs) :
  fails_with_ImportError deps →
  for_fold deps (check_loop_body E) missing f
  = Outcome f (EvImport <$> (replace_dash <$> deps))
      (Ok (missing ++ filter is_missing deps)).
Proof.
  revert missing. induction deps as [|dep deps IH]; intros missing Hok.
  - cbn. by rewrite app_nil_r.
  - cbn [for_fold]. unfold bind.
    rewrite check_body by (intros d c msg ->%list_elem_of_singleton; apply Hok; by left).
    rewrite IH by (intros d c msg Hd; apply Hok; by right).
    unfold after. cbn [out_fs out_log out_res fmap list_fmap app].
    rewrite <- app_assoc, filter_cons, filter_nil.
    rewrite (filter_cons _ dep deps).
    by destruct (decide (is_missing dep)).
Qed.

End CheckDependencies.

(** C9 is not what [check_dependencies] does for every import that
    fails: its loop catches [ImportError] and nothing else.  In this world
    torch is installed but broken (its import raises an [AttributeError]):
    the check stops at torch, the imports of onnx and onnx_tf are not
    attempted, nothing is reported and no [False] comes back; the exception
    leaves the function. *)
Lemma check_dependencies_stops_at_other_error :
  let E := Examples.env_broken_torch in
  let r := ConvertOpenUnmix.check_dependencies E ∅ in
  is_missing E "torch"
  ∧ out_log r = [EvImport "tensorflowjs"; EvImport "torch"]
  ∧ out_res r
    = Raise (Exc (OtherException "AttributeError")
               "partially initialized module 'torch' has no attribute 'nn'").
Proof. split; [by eexists|]. vm_compute. split; reflexivity. Qed.

(** C9, amended: when every failing import of the four required packages
    fails with an [ImportError] (the one class the loop catches),
    [check_dependencies] attempts all four imports in order, whatever the
    earlier ones did; the packages it reports are exactly the missing ones,
    in the order of [required]; it returns [False] exactly when one is
    missing; and it neither starts a process nor touches the file
    system. *)
Theorem check_dependencies_complete (E : ConvertOpenUnmix.env) (f : fs) :
  fails_with_ImportError E ConvertOpenUnmix.required →
  let missing := filter (is_missing E) ConvertOpenUnmix.required in
  let r := ConvertOpenUnmix.check_dependencies E f in
  out_fs r = f
  ∧ imports_of (out_log r) = ["tensorflowjs"; "torch"; "onnx"; "onnx_tf"]
  ∧ (missing ≠ [] →
     EvPrint ("Missing dependencies: " +:+ String.concat ", " missing)
       ∈ out_log r)
  ∧ (out_res r = Ok false ↔ missing ≠ [])
  ∧ (out_res r = Ok true ↔ missing = [])
  ∧ runs_of (out_log r) = [].
Proof.
  intros Hok missing r. subst r.
  unfold ConvertOpenUnmix.check_dependencies, bind.
  rewrite (check_loop E _ [] f Hok). cbn [app]. fold missing.
  destruct missing as [|m ms] eqn:Hm; cbn; repeat split; try done.
  intros _. rewrite !elem_of_cons. do 4 right. by left.
Qed.

(** *** Running a computation step by step *)

Lemma bind_Ok {A B} (m : Py A) (k : A → Py B) (f f1 : fs) l1 (a : A) :
  m f = Outcome f1 l1 (Ok a) → bind m k f = after l1 (k a f1).
Proof. intros H. unfold bind. by rewrite H. Qed.

Lemma bind_Raise {A B} (m : Py A) (k : A → Py B) (f f1 : fs) l1 e :
  m f = Outcome f1 l1 (Raise e) → bind m k f = Outcome f1 l1 (Raise e).
Proof. intros H. unfold bind. by rewrite H. Qed.

Lemma bind_Ok_proj {A B} (m : Py A) (k : A → Py B) (f : fs) (a : A) :
  out_res (m f) = Ok a →
  bind m k f = after (out_log (m f)) (k a (out_fs (m f))).
Proof. unfold bind. destruct (m f) as [f1 l1 [a'|e]]; cbn; congruence. Qed.

Lemma bind_print {B} (line : string) (k : unit → Py B) (f : fs) :
  bind (print line) k f = after [EvPrint line] (k tt f).
Proof. done. Qed.

Lemma bind_emit {B} (ev : event) (k : unit → Py B) (f : fs) :
  bind (emit ev) k f = after [ev] (k tt f).
Proof. done. Qed.

Lemma bind_ret {A B} (a : A) (k : A → Py B) (f : fs) :
  bind (ret a) k f = after [] (k a f).
Proof. done. Qed.

Lemma after_nil {A} (r : outcome A) : after [] r = r.
Proof. by destruct r. Qed.

Lemma after_after {A} l1 l2 (r : outcome A) :
  after l1 (after l2 r) = after (l1 ++ l2) r.
Proof. unfold after. cbn. by rewrite app_assoc. Qed.

Lemma try_Ok {A} (m : Py A) (c : exn → bool) (h : exn → Py A) (f f1 : fs)
    l1 (a : A) :
  m f = Outcome f1 l1 (Ok a) → try_except m c h f = Outcome f1 l1 (Ok a).
Proof. intros H. unfold try_except. by rewrite H. Qed.

Lemma try_caught {A} (m : Py A) (c : exn → bool) (h : exn → Py A)
    (f f1 : fs) l1 e :
  m f = Outcome f1 l1 (Raise e) → c e = true →
  try_except m c h f = after l1 (h e f1).
Proof. intros H Hc. unfold try_except. by rewrite H, Hc. Qed.

Lemma try_uncaught {A} (m : Py A) (c : exn → bool) (h : exn → Py A)
    (f f1 : fs) l1 e :
  m f = Outcome f1 l1 (Raise e) → c e = false →
  try_except m c h f = Outcome f1 l1 (Raise e).
Proof. intros H Hc. unfold try_except. by rewrite H, Hc. Qed.

Lemma then_print_fs {A} (m : Py A) (line : string) (f : fs) :
  out_fs (bind m (λ _, print line) f) = out_fs (m f).
Proof. unfold bind. by destruct (m f) as [f1 l1 [a|e]]. Qed.

Lemma then_print_res {A} (m : Py A) (line : string) (f : fs) (a : A) :
  out_res (m f) = Ok a → out_res (bind m (λ _, print line) f) = Ok tt.
Proof. unfold bind. by destruct (m f) as [f1 l1 [a'|e]]. Qed.

(** *** Directory creation *)

Lemma os_mkdir_existing (p : path) (f : fs) (n : node) :
  entry f (parent p) = Some Dir → entry f p = Some n →
  os_mkdir p f = Outcome f [] (Raise (Exc FileExistsError (path_str p))).
Proof. intros Hup Hp. unfold os_mkdir, bind, stat. by rewrite Hup, Hp. Qed.

Lemma os_mkdir_new (p : path) (f : fs) :
  entry f (parent p) = Some Dir → entry f p = None →
  os_mkdir p f = Outcome (<[p := Dir]> f) [] (Ok tt).
Proof. intros Hup Hp. unfold os_mkdir, bind, stat. by rewrite Hup, Hp. Qed.

Lemma os_mkdir_no_parent (p : path) (f : fs) :
  entry f (parent p) = None →
  os_mkdir p f = Outcome f [] (Raise (Exc FileNotFoundError (path_str p))).
Proof. intros Hup. unfold os_mkdir, bind, stat. by rewrite Hup. Qed.

(** [mkdir(exist_ok=True)] on a directory that is there changes nothing. *)
Lemma Path_mkdir_rec_existing (d : nat) (parents : bool) (p : path) (f : fs) :
  entry f (parent p) = Some Dir → entry f p = Some Dir →
  Path_mkdir_rec d parents true p f = Outcome f [] (Ok tt).
Proof.
  intros Hup Hp.
  destruct d; cbn [Path_mkdir_rec];
    rewrite (try_caught _ _ _ _ _ _ _ (os_mkdir_existing p f Dir Hup Hp))
      by done;
    cbn [is_FileNotFoundError]; unfold path_is_dir, bind, stat; rewrite Hp;
    cbn [ret]; by rewrite bool_decide_eq_true_2.
Qed.

Lemma Path_mkdir_existing (parents : bool) (p : path) (f : fs) :
  entry f (parent p) = Some Dir → entry f p = Some Dir →
  Path_mkdir parents true p f = Outcome f [] (Ok tt).
Proof. apply Path_mkdir_rec_existing. Qed.

(** On a path that is free under an existing parent it creates it. *)
Lemma Path_mkdir_rec_new (d : nat) (parents exist_ok : bool) (p : path) (f : fs) :
  entry f (parent p) = Some Dir → entry f p = None →
  Path_mkdir_rec d parents exist_ok p f = Outcome (<[p := Dir]> f) [] (Ok tt).
Proof.
  intros Hup Hp.
  destruct d; cbn [Path_mkdir_rec];
    by rewrite (try_Ok _ _ _ _ _ _ _ (os_mkdir_new p f Hup Hp)).
Qed.

Lemma Path_mkdir_new (parents exist_ok : bool) (p : path) (f : fs) :
  entry f (parent p) = Some Dir → entry f p = None →
  Path_mkdir parents exist_ok p f = Outcome (<[p := Dir]> f) [] (Ok tt).
Proof. apply Path_mkdir_rec_new. Qed.

(** On a path that holds a file it raises. *)
Lemma Path_mkdir_file (parents exist_ok : bool) (p : path) (f : fs) (data : string) :
  entry f (parent p) = Some Dir → entry f p = Some (File data) →
  Path_mkdir parents exist_ok p f
  = Outcome f [] (Raise (Exc FileExistsError (path_str p))).
Proof.
  intros Hup Hp. unfold Path_mkdir.
  destruct (length p); cbn [Path_mkdir_rec];
    rewrite (try_caught _ _ _ _ _ _ _ (os_mkdir_existing p f _ Hup Hp))
      by done;
    cbn [is_FileNotFoundError]; unfold path_is_dir, bind, stat; rewrite ?Hp;
    cbn [ret after out_fs out_log out_res app];
    rewrite bool_decide_eq_false_2 by done;
    by rewrite orb_true_r.
Qed.

(** With [parents=True] a missing parent is created first. *)
Lemma Path_mkdir_rec_parents (d : nat) (exist_ok : bool) (p : path) (f : fs) :
  entry f (parent p) = None → parent p ≠ p →
  Path_mkdir_rec (S d) true exist_ok p f
  = bind (Path_mkdir_rec d true true (parent p))
         (λ _, Path_mkdir_rec d false exist_ok p) f.
Proof.
  intros Hup Hne. cbn [Path_mkdir_rec].
  rewrite (try_caught _ _ _ _ _ _ _ (os_mkdir_no_parent p f Hup)) by done.
  cbn [is_FileNotFoundError negb orb].
  rewrite bool_decide_eq_false_2 by done. apply after_nil.
Qed.

Lemma dict_set_fresh {V} (k : string) (v : V) (d : list (string * V)) :
  k ∉ d.*1 → dict_set k v d = d ++ [(k, v)].
Proof.
  induction d as [|[k' v'] d IH]; intros Hk; [done|].
  cbn in *. apply not_elem_of_cons in Hk as [Hne Hk].
  destruct (String.eqb_spec k' k) as [->|_]; [done|].
  by rewrite IH.
Qed.

Lemma NoDup_fmap_fst_inj {X Y} (l : list (X * Y)) (a b : X * Y) :
  NoDup l.*1 → a ∈ l → b ∈ l → a.1 = b.1 → a = b.
Proof.
  induction l as [|c l IH]; intros Hnd Ha Hb Heq; [by apply elem_of_nil in Ha|].
  rewrite fmap_cons in Hnd. apply NoDup_cons in Hnd as [Hc Hnd].
  apply elem_of_cons in Ha as [->|Ha]; apply elem_of_cons in Hb as [->|Hb].
  - done.
  - destruct Hc. rewrite Heq. by apply list_elem_of_fmap_2.
  - destruct Hc. rewrite <- Heq. by apply list_elem_of_fmap_2.
  - by apply IH.
Qed.

(** *** Footprints

    A computation is [local] to a read footprint [R] and a write footprint
    [W] (sets of paths, [W] inside [R]) when it leaves every path outside
    [W] as it found it, and when its log, its result and what it leaves in
    [R] depend on nothing but what it found in [R]. *)

Lemma agree_refl P f : agree P f f.
Proof. by intros p _. Qed.

Lemma agree_sym P f1 f2 : agree P f1 f2 → agree P f2 f1.
Proof. intros H p Hp. symmetry. by apply H. Qed.

Lemma agree_trans P f1 f2 f3 : agree P f1 f2 → agree P f2 f3 → agree P f1 f3.
Proof. intros H1 H2 p Hp. rewrite H1 by done. by apply H2. Qed.

Lemma agree_weaken (P Q : path → Prop) f1 f2 :
  (∀ p, Q p → P p) → agree P f1 f2 → agree Q f1 f2.
Proof. intros HQP H p Hp. apply H. by apply HQP. Qed.

Section Locality.
Variables R W : path → Prop.
Hypothesis W_in_R : ∀ p, W p → R p.

Local Abbreviation local := (local R W).

Lemma local_ret {A} (a : A) : local (ret a).
Proof. split; [by intros f p _|]. by intros f1 f2 H. Qed.

Lemma local_raise {A} (e : exn) : local (raise (A:=A) e).
Proof. split; [by intros f p _|]. by intros f1 f2 H. Qed.

Lemma local_emit (ev : event) : local (emit ev).
Proof. split; [by intros f p _|]. by intros f1 f2 H. Qed.

Lemma local_print (line : string) : local (print line).
Proof. apply local_emit. Qed.

Lemma local_bind {A B} (m : Py A) (k : A → Py B) :
  local m → (∀ a, local (k a)) → local (bind m k).
Proof.
  intros [Hfm Hdm] Hk. split.
  - intros f p Hp. unfold bind. specialize (Hfm f p Hp).
    destruct (m f) as [f1 l1 [a|e]]; cbn in *; [|done].
    destruct (Hk a) as [Hfk _]. by rewrite Hfk.
  - intros f1 f2 Hag. unfold bind.
    destruct (Hdm f1 f2 Hag) as (Hl & Hr & Hag').
    destruct (m f1) as [g1 l1 r1], (m f2) as [g2 l2 r2]; cbn in *; subst.
    destruct r2 as [a|e]; cbn; [|done].
    destruct (Hk a) as [_ Hdk].
    destruct (Hdk g1 g2 Hag') as (Hl & Hr & Hag'').
    by rewrite Hl.
Qed.

Lemma local_try_except {A} (m : Py A) (catches : exn → bool) (h : exn → Py A) :
  local m → (∀ e, local (h e)) → local (try_except m catches h).
Proof.
  intros [Hfm Hdm] Hh. split.
  - intros f p Hp. unfold try_except. specialize (Hfm f p Hp).
    destruct (m f) as [f1 l1 [a|e]]; cbn in *; [done|].
    destruct (catches e); [|done].
    destruct (Hh e) as [Hfh _]. cbn. by rewrite Hfh.
  - intros f1 f2 Hag. unfold try_except.
    destruct (Hdm f1 f2 Hag) as (Hl & Hr & Hag').
    destruct (m f1) as [g1 l1 r1], (m f2) as [g2 l2 r2]; cbn in *; subst.
    destruct r2 as [a|e]; cbn; [done|].
    destruct (catches e); [|done].
    destruct (Hh e) as [_ Hdh].
    destruct (Hdh g1 g2 Hag') as (Hl & Hr & Hag'').
    cbn. by rewrite Hl.
Qed.

Lemma local_for_each {A} (l : list A) (body : A → Py unit) :
  (∀ x, x ∈ l → local (body x)) → local (for_each l body).
Proof.
  induction l as [|x l IH]; intros Hb; cbn.
  - apply local_ret.
  - apply local_bind; [apply Hb; by left|].
    intros _. apply IH. intros y Hy. apply Hb. by right.
Qed.

Lemma local_for_fold {A S} (l : list A) (body : S → A → Py S) (s : S) :
  (∀ s x, x ∈ l → local (body s x)) → local (for_fold l body s).
Proof.
  revert s. induction l as [|x l IH]; intros s Hb; cbn.
  - apply local_ret.
  - apply local_bind; [apply Hb; by left|].
    intros s'. apply IH. intros s'' y Hy. apply Hb. by right.
Qed.

Lemma local_stat (p : path) : R p → local (stat p).
Proof.
  intros Hp. split; [by intros f q _|].
  intros f1 f2 Hag. cbn. repeat split; [|done].
  unfold entry. destruct p; [done|]. by rewrite (Hag _ Hp).
Qed.

Lemma local_lookup_path (p : path) : R p → local (lookup_path p).
Proof.
  intros Hp. split; [by intros f q _|].
  intros f1 f2 Hag. cbn. repeat split; [|done]. by rewrite (Hag _ Hp).
Qed.

Lemma local_store (p : path) (n : node) : W p → local (store p n).
Proof.
  intros Hp. split.
  - intros f q Hq. cbn. apply lookup_insert_ne. by intros ->.
  - intros f1 f2 Hag. cbn. repeat split. intros q Hq.
    destruct (decide (p = q)) as [->|Hne].
    + by rewrite !lookup_insert_eq.
    + rewrite !lookup_insert_ne by done. by apply Hag.
Qed.

Lemma local_path_exists (p : path) : R p → local (path_exists p).
Proof.
  intros Hp. apply local_bind; [by apply local_stat|].
  intros n. apply local_ret.
Qed.

Lemma local_path_is_dir (p : path) : R p → local (path_is_dir p).
Proof.
  intros Hp. apply local_bind; [by apply local_stat|].
  intros n. apply local_ret.
Qed.

Lemma local_call {A} (a : answer A) : local (call a).
Proof. destruct a; [apply local_ret|apply local_raise]. Qed.

Lemma local_raise_if r : local (raise_if r).
Proof. destruct r as [[c msg]|]; [apply local_raise|apply local_ret]. Qed.

Lemma local_os_mkdir (p : path) : R (parent p) → W p → local (os_mkdir p).
Proof.
  intros Hup Hp. apply local_bind; [by apply local_stat|].
  intros [[|data]|]; try apply local_raise.
  apply local_bind; [apply local_stat; by apply W_in_R|].
  intros [n|]; [apply local_raise|by apply local_store].
Qed.

(** [mkdir] without [parents=True]. *)
Lemma local_Path_mkdir (exist_ok : bool) (p : path) :
  R (parent p) → W p → local (Path_mkdir false exist_ok p).
Proof.
  intros Hup Hp. unfold Path_mkdir.
  assert (H : ∀ d, local (Path_mkdir_rec d false exist_ok p)); [|apply H].
  intros d. destruct d; cbn [Path_mkdir_rec];
    (apply local_try_except; [by apply local_os_mkdir|]);
    intros e; destruct (is_FileNotFoundError e); cbn;
    try apply local_raise;
    (apply local_bind; [apply local_path_is_dir; by apply W_in_R|]);
    intros isd; destruct (negb exist_ok || negb isd);
    (apply local_raise || apply local_ret).
Qed.

Lemma local_run_file_effect (dst : path) (e : file_effect) :
  W dst → local (run_file_effect dst e).
Proof.
  intros Hd. apply local_bind.
  - destruct (fe_written e); [by apply local_store|apply local_ret].
  - intros _. apply local_raise_if.
Qed.

Lemma local_run_tree_effect (base : path) (e : tree_effect) :
  (∀ rel, W (base ++ rel)) → local (run_tree_effect base e).
Proof.
  intros Hb. apply local_bind.
  - apply local_for_each. intros w _. by apply local_store.
  - intros _. apply local_raise_if.
Qed.

Lemma local_read_subtree (base : path) :
  (∀ p, base `prefix_of` p → R p) → local (read_subtree base).
Proof.
  intros Hb. split; [by intros f q _|].
  intros f1 f2 Hag. cbn. repeat split; [|done]. f_equal.
  unfold subtree. apply map_eq. intros p.
  destruct (decide (base `prefix_of` p)) as [Hp|Hp].
  - rewrite !map_lookup_filter. rewrite (Hag p (Hb p Hp)). done.
  - rewrite !map_lookup_filter_None_2; [done| |];
      right; intros x _; by cbn.
Qed.

Lemma local_glob_suffix (d : path) (suffix : string) :
  (∀ p, p ≠ [] → parent p = d → R p) → local (glob_suffix d suffix).
Proof.
  intros Hd. split; [by intros f q _|].
  intros f1 f2 Hag. cbn. repeat split; [|done]. do 3 f_equal.
  apply map_eq. intros p.
  destruct (decide (glob_match d suffix p)) as [Hp|Hp].
  - rewrite !map_lookup_filter.
    destruct Hp as (Hne & Hpar & _). rewrite (Hag p (Hd p Hne Hpar)). done.
  - rewrite !map_lookup_filter_None_2; [done| |];
      right; intros x _; by cbn.
Qed.

Lemma local_shutil_copy (src dst : path) :
  R src → W dst → W (dst ++ [name src]) → R (parent dst) → R dst →
  local (shutil_copy src dst).
Proof.
  intros Hsrc Hdst Hin Hup1 Hup2.
  apply local_bind; [apply local_stat; by apply W_in_R|]. intros d.
  apply local_bind; [by apply local_stat|]. intros [[|data]|];
    try apply local_raise.
  assert (Htarget : W (match d with Some Dir => dst ++ [name src] | _ => dst end)
                    ∧ R (parent (match d with Some Dir => dst ++ [name src] | _ => dst end))).
  { destruct d as [[|?]|]; split; try done.
    unfold parent. by rewrite removelast_last. }
  destruct Htarget as [Hw Hr].
  apply local_bind; [by apply local_stat|]. intros [[|?]|];
    try apply local_raise.
  apply local_bind; [apply local_stat; by apply W_in_R|].
  intros [[|?]|]; try apply local_raise; by apply local_store.
Qed.

End Locality.

(** [local_bind] when the continuation is local only on the values the
    first computation can return. *)
Lemma local_bind_post (R W : path → Prop) {A B} (P : A → Prop)
    (m : Py A) (k : A → Py B) :
  local R W m → (∀ f a, out_res (m f) = Ok a → P a) →
  (∀ a, P a → local R W (k a)) → local R W (bind m k).
Proof.
  intros [Hfm Hdm] HP Hk. split.
  - intros f p Hp. unfold bind. specialize (Hfm f p Hp). specialize (HP f).
    destruct (m f) as [f1 l1 [a|e]]; cbn in *; [|done].
    destruct (Hk a (HP a eq_refl)) as [Hfk _]. by rewrite Hfk.
  - intros f1 f2 Hag. unfold bind.
    destruct (Hdm f1 f2 Hag) as (Hl & Hr & Hag'). specialize (HP f2).
    destruct (m f1) as [g1 l1 r1], (m f2) as [g2 l2 r2]; cbn in *; subst.
    destruct r2 as [a|e]; cbn; [|done].
    destruct (Hk a (HP a eq_refl)) as [_ Hdk].
    destruct (Hdk g1 g2 Hag') as (Hl & Hr & Hag'').
    by rewrite Hl.
Qed.

Lemma glob_suffix_children (d : path) (suffix : string) (f : fs) (ws : list path) :
  out_res (glob_suffix d suffix f) = Ok ws →
  ∀ w, w ∈ ws → ∃ x, w = d ++ [x] ∧ ends_with suffix x = true ∧ is_Some (f !! w).
Proof.
  intros [= <-] w Hw.
  apply elem_of_elements, elem_of_dom in Hw as [n Hn].
  apply map_lookup_filter_Some in Hn as [Hn (Hne & Hpar & Hend)]. cbn in *.
  exists (name w). split; [|by eauto].
  rewrite <- Hpar. by apply app_removelast_last.
Qed.

Lemma bind_res_inv {A B} (m : Py A) (k : A → Py B) (f : fs) (b : B) :
  out_res (bind m k f) = Ok b →
  ∃ a f1, out_res (m f) = Ok a ∧ out_res (k a f1) = Ok b.
Proof.
  unfold bind. destruct (m f) as [f1 l1 [a|e]]; cbn; [|done].
  intros H. by exists a, f1.
Qed.

(** *** A computation raises nothing but instances of [Exception] *)

Lemma exc_only_ret {A} (a : A) : exc_only (ret a).
Proof. by intros f e. Qed.

Lemma exc_only_raise {A} c msg : exc_only (raise (A:=A) (Exc c msg)).
Proof. by intros f e [= <-]. Qed.

Lemma exc_only_emit ev : exc_only (emit ev).
Proof. by intros f e. Qed.

Lemma exc_only_bind {A B} (m : Py A) (k : A → Py B) :
  exc_only m → (∀ a, exc_only (k a)) → exc_only (bind m k).
Proof.
  intros Hm Hk f e. unfold bind. specialize (Hm f).
  destruct (m f) as [f1 l1 [a|e1]]; cbn in *.
  - apply Hk.
  - intros [= <-]. by apply Hm.
Qed.

Lemma exc_only_try_except {A} (m : Py A) catches (h : exn → Py A) :
  exc_only m → (∀ e, exc_only (h e)) → exc_only (try_except m catches h).
Proof.
  intros Hm Hh f e. unfold try_except. specialize (Hm f).
  destruct (m f) as [f1 l1 [a|e1]]; cbn in *; [done|].
  destruct (catches e1); cbn.
  - apply Hh.
  - intros [= <-]. by apply Hm.
Qed.

Lemma exc_only_for_each {A} (l : list A) (body : A → Py unit) :
  (∀ x, exc_only (body x)) → exc_only (for_each l body).
Proof.
  intros Hb. induction l as [|x l IH]; cbn; [apply exc_only_ret|].
  apply exc_only_bind; [apply Hb|by intros _].
Qed.

Lemma exc_only_stat p : exc_only (stat p).
Proof. by intros f e. Qed.

Lemma exc_only_store p n : exc_only (store p n).
Proof. by intros f e. Qed.

Lemma exc_only_call {A} (a : answer A) : exc_only (call a).
Proof. destruct a; [apply exc_only_ret|apply exc_only_raise]. Qed.

Lemma exc_only_raise_if r : exc_only (raise_if r).
Proof. destruct r as [[c msg]|]; [apply exc_only_raise|apply exc_only_ret]. Qed.

Lemma exc_only_run_file_effect dst e : exc_only (run_file_effect dst e).
Proof.
  apply exc_only_bind; [|intros _; apply exc_only_raise_if].
  destruct (fe_written e); [apply exc_only_store|apply exc_only_ret].
Qed.

Lemma exc_only_run_tree_effect base e : exc_only (run_tree_effect base e).
Proof.
  apply exc_only_bind; [|intros _; apply exc_only_raise_if].
  apply exc_only_for_each. intros w. apply exc_only_store.
Qed.

Lemma exc_only_shutil_copy src dst : exc_only (shutil_copy src dst).
Proof.
  apply exc_only_bind; [apply exc_only_stat|]. intros d.
  apply exc_only_bind; [apply exc_only_stat|]. intros [[|?]|];
    try apply exc_only_raise.
  apply exc_only_bind; [apply exc_only_stat|]. intros [[|?]|];
    try apply exc_only_raise.
  apply exc_only_bind; [apply exc_only_stat|]. intros [[|?]|];
    try apply exc_only_raise; apply exc_only_store.
Qed.

Lemma exc_only_path_exists p : exc_only (path_exists p).
Proof. by intros f e. Qed.

Lemma exc_only_glob_suffix d suffix : exc_only (glob_suffix d suffix).
Proof. by intros f e. Qed.

Lemma exc_only_read_subtree base : exc_only (read_subtree base).
Proof. by intros f e. Qed.

(** A [try] whose handler catches every [Exception] and only prints
    returns normally when its body raises nothing else. *)
Lemma try_print_returns (m : Py unit) (msg : exn → string) (f : fs) :
  exc_only m →
  out_res (try_except m is_Exception (λ e, print (msg e)) f) = Ok tt.
Proof.
  intros Hm. unfold try_except. specialize (Hm f).
  destruct (m f) as [f1 l1 [[]|e]]; cbn in *; [done|].
  by rewrite (Hm e eq_refl).
Qed.

(** *** Loops whose iterations have disjoint footprints *)

Section Isolation.
Context {A K : Type}.
Variable key : A → K.
Variables R W : K → path → Prop.
Variable body : A → Py unit.
Hypothesis W_in_R : ∀ k p, W k p → R k p.
Hypothesis body_local : ∀ x, local (R (key x)) (W (key x)) (body x).
Hypothesis apart : ∀ k1 k2 p, k1 ≠ k2 → W k1 p → ¬ R k2 p.

Lemma for_each_frame (l : list A) (f : fs) (p : path) :
  (∀ x, x ∈ l → ¬ W (key x) p) → out_fs (for_each l body f) !! p = f !! p.
Proof.
  revert f. induction l as [|x l IH]; intros f Hp; cbn; [done|].
  unfold bind. destruct (body_local x) as [Hfr _].
  specialize (Hfr f p (Hp x ltac:(by left))).
  destruct (body x f) as [f1 l1 [[]|e]]; cbn in *; [|done].
  rewrite IH; [done|]. intros y Hy. apply Hp. by right.
Qed.

(** The loop run from [f] against every iteration run on its own from
    [f0], when [f] and [f0] agree on what the iterations read. *)
Lemma for_each_isolated_from (l : list A) (f0 f : fs) :
  NoDup (key <$> l) → (∀ x, x ∈ l → agree (R (key x)) f0 f) →
  (out_res (for_each l body f) = Ok tt
   ↔ ∀ x, x ∈ l → out_res (body x f0) = Ok tt)
  ∧ (out_res (for_each l body f) = Ok tt →
     out_log (for_each l body f) = concat ((λ x, out_log (body x f0)) <$> l)
     ∧ ∀ x, x ∈ l →
         agree (W (key x)) (out_fs (for_each l body f)) (out_fs (body x f0))).
Proof.
  revert f. induction l as [|x l IH]; intros f Hnd Hag.
  - cbn. split; [split; [intros _ x Hx; by apply elem_of_nil in Hx|done]|].
    intros _. split; [done|]. intros x Hx. by apply elem_of_nil in Hx.
  - rewrite fmap_cons in Hnd. apply NoDup_cons in Hnd as [Hx Hnd].
    assert (Hkey : ∀ y, y ∈ l → key x ≠ key y).
    { intros y Hy Heq. apply Hx. rewrite Heq. by apply list_elem_of_fmap_2. }
    destruct (body_local x) as [Hfr Hdet].
    destruct (Hdet f0 f (Hag x ltac:(by left))) as (Hlog & Hres & Hag').
    assert (Hrest : ∀ y, y ∈ l → agree (R (key y)) f0 (out_fs (body x f))).
    { intros y Hy p Hp. rewrite Hfr.
      - apply (Hag y); [by right|done].
      - intros Hw. by apply (apart (key x) (key y) p); [apply Hkey|..]. }
    destruct (IH _ Hnd Hrest) as [IHiff IHok].
    assert (Hstep : ∀ p, W (key x) p →
              out_fs (for_each l body (out_fs (body x f))) !! p
              = out_fs (body x f0) !! p).
    { intros p Hp. rewrite for_each_frame.
      - symmetry. apply Hag'. by apply W_in_R.
      - intros y Hy Hw. apply (apart (key y) (key x) p); [|done|by apply W_in_R].
        intros Heq. by apply (Hkey y). }
    cbn [for_each]. unfold bind.
    destruct (body x f) as [f1 l1 r1] eqn:Hbx; cbn in *.
    destruct r1 as [[]|e]; cbn.
    + split.
      * rewrite IHiff. split.
        -- intros Hall y [->|Hy]%elem_of_cons; [done|by apply Hall].
        -- intros Hall y Hy. apply Hall. by right.
      * intros Hok. destruct (IHok Hok) as [Hl Hfs]. split.
        -- by rewrite Hl, Hlog.
        -- intros y [->|Hy]%elem_of_cons; [|by apply Hfs].
           intros p Hp. by apply Hstep.
    + split; [|done]. split; [done|].
      intros Hall. specialize (Hall x ltac:(by left)). congruence.
Qed.

Lemma for_each_isolated (l : list A) (f : fs) :
  NoDup (key <$> l) →
  (out_res (for_each l body f) = Ok tt
   ↔ ∀ x, x ∈ l → out_res (body x f) = Ok tt)
  ∧ (out_res (for_each l body f) = Ok tt →
     out_log (for_each l body f) = concat ((λ x, out_log (body x f)) <$> l)
     ∧ ∀ x, x ∈ l →
         agree (W (key x)) (out_fs (for_each l body f)) (out_fs (body x f))).
Proof.
  intros Hnd. apply for_each_isolated_from; [done|].
  intros x _. apply agree_refl.
Qed.

End Isolation.

(** *** The footprint of one stem

    Both conversion scripts give every stem the directory
    [output_base / stem]. *)

Lemma snoc_prefix_same {X} (l p : list X) (a b : X) :
  l ++ [a] `prefix_of` p → l ++ [b] `prefix_of` p → a = b.
Proof.
  intros [k1 ->] [k2 Heq]. rewrite <- !app_assoc in Heq.
  apply app_inv_head in Heq. by injection Heq.
Qed.

Lemma name_snoc (d : path) (x : string) : name (d ++ [x]) = x.
Proof. unfold name. apply last_last. Qed.

Lemma parent_snoc (d : path) (x : string) : parent (d ++ [x]) = d.
Proof. unfold parent. apply removelast_last. Qed.

Lemma entry_snoc (f : fs) (d : path) (x : string) :
  entry f (d ++ [x]) = f !! (d ++ [x]).
Proof. by destruct d. Qed.

Lemma entry_nonempty (f : fs) (p : path) : p ≠ [] → entry f p = f !! p.
Proof. by destruct p. Qed.

Section Footprint.
Variable base : path.
Hypothesis base_nonempty : base ≠ [].

(** Creating the directory of a stem succeeds when it is [creatable],
    and leaves a directory there. *)
Lemma mkdir_stem_creatable stem f :
  creatable base f stem →
  ∃ f1, Path_mkdir false true (stem_dir base stem) f = Outcome f1 [] (Ok tt)
        ∧ f1 !! stem_dir base stem = Some Dir
        ∧ ∀ p, p ≠ stem_dir base stem → f1 !! p = f !! p.
Proof.
  intros [Hbase [Hd|Hd]].
  - exists (<[stem_dir base stem := Dir]> f). split; [|split].
    + apply Path_mkdir_new.
      * unfold stem_dir. by rewrite parent_snoc, entry_nonempty.
      * unfold stem_dir. by rewrite entry_snoc.
    + apply lookup_insert_eq.
    + intros p Hp. by apply lookup_insert_ne.
  - exists f. split; [|done].
    apply Path_mkdir_existing.
    + unfold stem_dir. by rewrite parent_snoc, entry_nonempty.
    + unfold stem_dir. by rewrite entry_snoc.
Qed.

Lemma writes_in_reads stem p : writes base stem p → reads base stem p.
Proof. by left. Qed.

Lemma writes_apart s t p : s ≠ t → writes base s p → ¬ reads base t p.
Proof.
  intros Hne Hs [Ht| ->].
  - apply Hne. by eapply snoc_prefix_same.
  - by apply prefix_snoc_not in Hs.
Qed.

Lemma writes_dir stem : writes base stem (stem_dir base stem).
Proof. unfold writes. reflexivity. Qed.

Lemma writes_below stem rel : writes base stem (stem_dir base stem ++ rel).
Proof. unfold writes. by apply prefix_app_r. Qed.

Lemma writes_below2 stem x rel :
  writes base stem ((stem_dir base stem ++ [x]) ++ rel).
Proof. unfold writes. by do 2 apply prefix_app_r. Qed.

Lemma reads_base stem : reads base stem (parent (stem_dir base stem)).
Proof. unfold stem_dir. rewrite parent_snoc. by right. Qed.

Lemma local_copy_out stem x y :
  local (reads base stem) (writes base stem)
    (shutil_copy ((stem_dir base stem ++ [x]) ++ [y]) (stem_dir base stem ++ [y])).
Proof.
  pose proof (writes_in_reads stem) as HWR.
  apply local_shutil_copy; try done.
  - apply HWR, writes_below2.
  - apply writes_below.
  - apply writes_below2.
  - rewrite parent_snoc. apply HWR, writes_dir.
  - apply HWR, writes_below.
Qed.

Lemma local_mkdir_stem stem :
  local (reads base stem) (writes base stem)
    (Path_mkdir false true (stem_dir base stem)).
Proof.
  apply local_Path_mkdir;
    [apply writes_in_reads|apply reads_base|apply writes_dir].
Qed.

(** The copies of a globbed directory into the stem's directory. *)
Lemma local_copy_globbed stem x suffix {B} (k : list path → Py B) :
  (∀ ws, local (reads base stem) (writes base stem) (k ws)) →
  local (reads base stem) (writes base stem)
    (weights <- glob_suffix (stem_dir base stem ++ [x]) suffix ;;
     for_each weights
       (λ weight_file,
          shutil_copy weight_file (stem_dir base stem ++ [name weight_file])) ;;;
     k weights).
Proof.
  intros Hk. pose proof (writes_in_reads stem) as HWR.
  eapply (local_bind_post _ _
            (λ ws, ∀ w, w ∈ ws → ∃ y, w = (stem_dir base stem ++ [x]) ++ [y])).
  - apply local_glob_suffix. intros p Hne Hpar. apply HWR.
    rewrite (app_removelast_last (l:=p) "" Hne). fold (parent p).
    rewrite Hpar. apply writes_below2.
  - intros f ws Hws w Hw.
    destruct (glob_suffix_children _ _ _ _ Hws w Hw) as (y & -> & _). eauto.
  - intros ws Hws.
    apply local_bind; [|intros _; apply Hk].
    apply local_for_each. intros w Hw.
    destruct (Hws w Hw) as [y ->]. rewrite name_snoc.
    apply local_copy_out.
Qed.

End Footprint.

Section Local2Stems.
Import Convert2Stems.
Variable E : env.

Local Abbreviation stem_dir := (stem_dir output_base).
Local Abbreviation reads := (reads output_base).
Local Abbreviation writes := (writes output_base).

Lemma local_stage stem :
  local (reads stem) (writes stem)
    (stage stem (stem_dir stem ++ ["tfjs_model"]) (stem_dir stem)).
Proof.
  pose proof (writes_in_reads output_base stem) as HWR.
  unfold stage.
  apply local_bind; [apply local_path_exists, HWR, writes_below2|].
  intros [|]; [|apply local_print].
  apply local_bind; [apply local_copy_out|intros _].
  apply local_copy_globbed. intros ws.
  apply local_bind; [apply local_print|intros _; apply local_print].
Qed.

Lemma local_convert_onnx_to_tfjs stem x :
  local (reads stem) (writes stem)
    (convert_onnx_to_tfjs E (stem_dir stem ++ [x]) (stem_dir stem)).
Proof.
  pose proof (writes_in_reads output_base stem) as HWR.
  unfold convert_onnx_to_tfjs.
  apply local_bind; [apply local_print|intros _].
  apply local_bind; [|intros onnx_model].
  { unfold onnx_load_call.
    apply local_bind; [apply local_stat, HWR, writes_below|].
    intros [[|data]|]; try apply local_raise. apply local_call. }
  apply local_bind; [apply local_call|intros tf_rep].
  apply local_bind; [apply local_run_tree_effect, writes_below2|intros _].
  apply local_bind; [|intros saved].
  { apply local_read_subtree. intros p Hp. apply HWR.
    unfold writes. etrans; [|exact Hp]. by apply prefix_app_r. }
  apply local_bind; [apply local_run_tree_effect, writes_below2|intros _].
  apply local_bind; [apply local_print|intros _; apply local_ret].
Qed.

Lemma local_loop_body stem :
  local (reads stem) (writes stem) (loop_body E stem).
Proof.
  unfold loop_body.
  apply local_bind; [apply local_print|intros _].
  apply local_bind; [apply local_mkdir_stem|intros _].
  apply local_try_except; [|intros e; apply local_print].
  unfold convert_stem.
  apply local_bind; [apply local_call|intros model].
  eapply (local_bind_post _ _ (λ p, p = stem_dir stem ++ [stem +:+ ".onnx"])).
  - unfold convert_pytorch_to_onnx.
    apply local_bind; [apply local_print|intros _].
    apply local_bind; [apply local_run_file_effect, writes_below|intros _].
    apply local_bind; [apply local_print|intros _; apply local_ret].
  - intros f p Hp. unfold convert_pytorch_to_onnx in Hp.
    repeat (apply bind_res_inv in Hp as (? & ? & _ & Hp)). by injection Hp.
  - intros onnx_path ->.
    eapply (local_bind_post _ _ (λ p, p = stem_dir stem ++ ["tfjs_model"])).
    + apply local_convert_onnx_to_tfjs.
    + intros f p Hp. unfold convert_onnx_to_tfjs in Hp.
      repeat (apply bind_res_inv in Hp as (? & ? & _ & Hp)). by injection Hp.
    + intros tfjs_path ->. apply local_stage.
Qed.

End Local2Stems.

Section Isolation2Stems.
Import Convert2Stems.
Variable E : env.

Local Abbreviation stem_dir := (stem_dir output_base).
Local Abbreviation reads := (reads output_base).
Local Abbreviation writes := (writes output_base).
Local Abbreviation creatable := (creatable output_base).

Lemma exc_only_stage stem tfjs_path dir : exc_only (stage stem tfjs_path dir).
Proof.
  unfold stage.
  apply exc_only_bind; [apply exc_only_path_exists|].
  intros [|]; [|apply exc_only_emit].
  apply exc_only_bind; [apply exc_only_shutil_copy|intros _].
  apply exc_only_bind; [apply exc_only_glob_suffix|intros ws].
  apply exc_only_bind; [|intros _].
  { apply exc_only_for_each. intros w. apply exc_only_shutil_copy. }
  apply exc_only_bind; [apply exc_only_emit|intros _; apply exc_only_emit].
Qed.

Lemma exc_only_convert_stem stem dir : exc_only (convert_stem E stem dir).
Proof.
  unfold convert_stem.
  apply exc_only_bind; [apply exc_only_call|intros model].
  apply exc_only_bind; [|intros onnx_path].
  { unfold convert_pytorch_to_onnx.
    apply exc_only_bind; [apply exc_only_emit|intros _].
    apply exc_only_bind; [apply exc_only_run_file_effect|intros _].
    apply exc_only_bind; [apply exc_only_emit|intros _; apply exc_only_ret]. }
  apply exc_only_bind; [|intros tfjs_path; apply exc_only_stage].
  unfold convert_onnx_to_tfjs.
  apply exc_only_bind; [apply exc_only_emit|intros _].
  apply exc_only_bind; [|intros onnx_model].
  { unfold onnx_load_call.
    apply exc_only_bind; [apply exc_only_stat|].
    intros [[|data]|]; try apply exc_only_raise. apply exc_only_call. }
  apply exc_only_bind; [apply exc_only_call|intros tf_rep].
  apply exc_only_bind; [apply exc_only_run_tree_effect|intros _].
  apply exc_only_bind; [apply exc_only_read_subtree|intros saved].
  apply exc_only_bind; [apply exc_only_run_tree_effect|intros _].
  apply exc_only_bind; [apply exc_only_emit|intros _; apply exc_only_ret].
Qed.

(** An iteration returns normally whatever the conversion does: only
    the directory creation is outside the [try]. *)
Lemma loop_body_returns stem f :
  creatable f stem → out_res (loop_body E stem f) = Ok tt.
Proof.
  intros Hcr. unfold loop_body.
  rewrite bind_print.
  destruct (mkdir_stem_creatable output_base ltac:(done) stem f Hcr)
    as (f1 & Hmk & _).
  rewrite (bind_Ok _ _ _ _ _ _ Hmk).
  cbn [after out_res].
  apply try_print_returns, exc_only_convert_stem.
Qed.

Lemma isolation_2stems (stems : list string) (f : fs) :
  NoDup stems → (∀ s, s ∈ stems → creatable f s) →
  out_res (for_each stems (loop_body E) f) = Ok tt
  ∧ out_log (for_each stems (loop_body E) f)
    = concat ((λ s, out_log (loop_body E s f)) <$> stems)
  ∧ ∀ s, s ∈ stems →
      agree (writes s) (out_fs (for_each stems (loop_body E) f))
                       (out_fs (loop_body E s f)).
Proof.
  intros Hnd Hcr.
  destruct (for_each_isolated id reads writes (loop_body E)
              (writes_in_reads _) (local_loop_body E) (writes_apart _)
              stems f)
    as [Hiff Hok]; [by rewrite list_fmap_id|].
  assert (Hret : out_res (for_each stems (loop_body E) f) = Ok tt).
  { apply Hiff. intros s Hs. by apply loop_body_returns, Hcr. }
  split; [done|]. by apply Hok.
Qed.

End Isolation2Stems.

(** *** convert_umx_to_tfjs: the two loops *)

Section IsolationUmx.
Import ConvertUmxToTfjs.
Variable E : env.

Local Abbreviation stem_dir := (stem_dir output_base).
Local Abbreviation reads := (reads output_base).
Local Abbreviation writes := (writes output_base).
Local Abbreviation creatable := (creatable output_base).
Local Abbreviation exported_one := (exported_one E).
Local Abbreviation exported := (exported E).
Local Abbreviation convert_named := (convert_named E).

Lemma local_export_body acc item :
  local (reads item.1) (writes item.1) (export_body E acc item).
Proof.
  unfold export_body.
  apply local_bind; [apply local_print|intros _].
  apply local_bind; [apply local_mkdir_stem|intros _].
  apply local_try_except.
  - apply local_bind; [apply local_run_file_effect, writes_below|intros _].
    apply local_bind; [apply local_print|intros _; apply local_ret].
  - intros e. apply local_bind; [apply local_print|intros _; apply local_ret].
Qed.

Lemma local_stage_umx stem :
  local (reads stem) (writes stem)
    (stage (stem_dir stem ++ ["tfjs_model"]) (stem_dir stem)).
Proof.
  pose proof (writes_in_reads output_base stem) as HWR.
  unfold stage.
  apply local_bind; [apply local_path_exists, HWR, writes_below2|].
  intros [|]; [|apply local_ret].
  apply local_bind; [apply local_copy_out|intros _].
  apply local_bind; [apply local_print|intros _].
  apply local_copy_globbed. intros ws. apply local_print.
Qed.

Lemma local_convert_body stem x :
  local (reads stem) (writes stem) (convert_body E (stem, stem_dir stem ++ [x])).
Proof.
  pose proof (writes_in_reads output_base stem) as HWR.
  unfold convert_body. cbn [fst snd].
  apply local_bind; [apply local_print|intros _].
  apply local_try_except; [|intros e; apply local_print].
  unfold convert_stem.
  apply local_bind; [apply local_lookup_path, HWR, writes_below|intros n].
  apply local_bind; [apply local_run_tree_effect, writes_below2|intros _].
  apply local_bind; [apply local_print|intros _].
  apply local_bind; [|intros _].
  { destruct (tfjs_bound E); [apply local_ret|apply local_raise]. }
  apply local_bind; [|intros saved].
  { apply local_read_subtree. intros p Hp. apply HWR.
    unfold writes. etrans; [|exact Hp]. by apply prefix_app_r. }
  apply local_bind; [apply local_run_tree_effect, writes_below2|intros _].
  apply local_bind; [apply local_print|intros _].
  apply local_bind; [apply local_stage_umx|intros _].
  apply local_bind; [apply local_print|intros _; apply local_print].
Qed.

Lemma exc_only_convert_stem_umx stem onnx_path dir :
  exc_only (convert_stem E stem onnx_path dir).
Proof.
  unfold convert_stem.
  apply exc_only_bind; [by intros f e|intros n].
  apply exc_only_bind; [apply exc_only_run_tree_effect|intros _].
  apply exc_only_bind; [apply exc_only_emit|intros _].
  apply exc_only_bind; [|intros _].
  { destruct (tfjs_bound E); [apply exc_only_ret|apply exc_only_raise]. }
  apply exc_only_bind; [apply exc_only_read_subtree|intros saved].
  apply exc_only_bind; [apply exc_only_run_tree_effect|intros _].
  apply exc_only_bind; [apply exc_only_emit|intros _].
  apply exc_only_bind; [|intros _].
  { unfold stage.
    apply exc_only_bind; [apply exc_only_path_exists|].
    intros [|]; [|apply exc_only_ret].
    apply exc_only_bind; [apply exc_only_shutil_copy|intros _].
    apply exc_only_bind; [apply exc_only_emit|intros _].
    apply exc_only_bind; [apply exc_only_glob_suffix|intros ws].
    apply exc_only_bind; [|intros _; apply exc_only_emit].
    apply exc_only_for_each. intros w. apply exc_only_shutil_copy. }
  apply exc_only_bind; [apply exc_only_emit|intros _; apply exc_only_emit].
Qed.

(** An iteration of the second loop returns normally, whatever the
    conversion does. *)
Lemma convert_body_returns item f : out_res (convert_body E item f) = Ok tt.
Proof.
  unfold convert_body. rewrite bind_print. cbn [after out_res].
  apply try_print_returns, exc_only_convert_stem_umx.
Qed.

(** An iteration of the first loop, against the same iteration started
    with an empty dictionary. *)
Lemma export_body_acc acc item f :
  creatable f item.1 →
  ∃ F l (ok : bool),
    export_body E [] item f
    = Outcome F l (Ok (if ok then [(item.1, onnx_path_of item.1)] else []))
    ∧ export_body E acc item f
      = Outcome F l
          (Ok (if ok then dict_set item.1 (onnx_path_of item.1) acc else acc)).
Proof.
  intros Hcr. unfold export_body. rewrite !bind_print.
  destruct (mkdir_stem_creatable output_base ltac:(done) item.1 f Hcr)
    as (f1 & Hmk & _).
  rewrite !(bind_Ok _ _ _ _ _ _ Hmk).
  unfold try_except, bind, run_file_effect, bind, onnx_path_of.
  destruct (torch_onnx_export E item.2 export_kwargs _) as [[d|] [[c msg]|]];
    cbn.
  - by eexists _, _, false.
  - by eexists _, _, true.
  - by eexists _, _, false.
  - by eexists _, _, true.
Qed.

Lemma exported_one_shape f item e :
  creatable f item.1 → exported_one f item = Some e →
  e = (item.1, onnx_path_of item.1).
Proof.
  intros Hcr. unfold exported_one.
  destruct (export_body_acc [] item f Hcr) as (F & l & ok & -> & _).
  destruct ok; cbn; congruence.
Qed.

Lemma exported_names f items :
  (∀ it, it ∈ items → creatable f it.1) →
  (exported f items).*1 `sublist_of` items.*1
  ∧ ∀ e, e ∈ exported f items → e = (e.1, onnx_path_of e.1).
Proof.
  induction items as [|it items IH]; intros Hcr.
  - split; [done|]. intros e He. by apply elem_of_nil in He.
  - destruct IH as [IH1 IH2]; [intros it' Hit'; apply Hcr; by right|].
    unfold exported in *. cbn.
    destruct (exported_one f it) as [e|] eqn:He; cbn.
    + apply exported_one_shape in He as ->; [|apply Hcr; by left]. cbn. split.
      * by apply sublist_skip.
      * intros e [->|He]%elem_of_cons; [done|by apply IH2].
    + split; [by apply sublist_cons|done].
Qed.

Lemma creatable_agree f0 f stem :
  agree (reads stem) f0 f → creatable f0 stem → creatable f stem.
Proof.
  intros Hag [Hb Hd]. unfold creatable.
  rewrite <- (Hag output_base) by (by right).
  rewrite <- (Hag (stem_dir stem)) by (by left). done.
Qed.

Lemma export_loop items f0 f acc :
  NoDup items.*1 → (∀ it, it ∈ items → it.1 ∉ acc.*1) →
  (∀ it, it ∈ items → agree (reads it.1) f0 f) →
  (∀ it, it ∈ items → creatable f0 it.1) →
  ∃ F,
    for_fold items (export_body E) acc f
    = Outcome F (concat ((λ it, out_log (export_body E [] it f0)) <$> items))
        (Ok (acc ++ exported f0 items))
    ∧ (∀ it, it ∈ items →
         agree (writes it.1) F (out_fs (export_body E [] it f0)))
    ∧ (∀ p, (∀ it, it ∈ items → ¬ writes it.1 p) → F !! p = f !! p).
Proof.
  revert f acc. induction items as [|it items IH]; intros f acc Hnd Hacc Hag Hcr.
  - exists f. cbn. rewrite app_nil_r. split; [done|]. split; [|done].
    intros it Hit. by apply elem_of_nil in Hit.
  - rewrite fmap_cons in Hnd. apply NoDup_cons in Hnd as [Hit Hnd].
    assert (Hne : ∀ it', it' ∈ items → it.1 ≠ it'.1).
    { intros it' Hit' Heq. apply Hit. rewrite Heq. by apply list_elem_of_fmap_2. }
    assert (Hcrf : creatable f it.1).
    { eapply creatable_agree; [apply Hag|apply Hcr]; by left. }
    destruct (export_body_acc acc it f Hcrf) as (F1 & l & ok & Hsolo & Hacc1).
    destruct (local_export_body [] it) as [Hfr Hdet].
    destruct (Hdet f0 f (Hag it ltac:(by left))) as (Hlog & Hres & Hag1).
    rewrite Hsolo in Hlog, Hres, Hag1.
    cbn [out_log out_res out_fs] in Hlog, Hres, Hag1.
    specialize (Hfr f). rewrite Hsolo in Hfr. cbn [out_fs] in Hfr.
    assert (Hexp : exported_one f0 it
                   = if ok then Some (it.1, onnx_path_of it.1) else None).
    { unfold exported_one. rewrite Hres. by destruct ok. }
    destruct (IH F1 (if ok then dict_set it.1 (onnx_path_of it.1) acc else acc))
      as (F & Hrun & Hfs & Hframe); [done| | | |].
    { intros it' Hit'. destruct ok; [|apply Hacc; by right].
      rewrite dict_set_fresh by (apply Hacc; by left).
      rewrite fmap_app, elem_of_app. intros [Hin|Hin%list_elem_of_singleton].
      - revert Hin. apply Hacc. by right.
      - by apply (Hne it'). }
    { intros it' Hit' p Hp. rewrite Hfr.
      - apply (Hag it'); [by right|done].
      - intros Hw. by apply (writes_apart output_base it.1 it'.1 p); [apply Hne|..]. }
    { intros it' Hit'. apply Hcr. by right. }
    exists F. split; [|split].
    + cbn [for_fold]. rewrite (bind_Ok _ _ _ _ _ _ Hacc1), Hrun.
      unfold after. cbn [out_log out_res out_fs fmap list_fmap concat].
      rewrite Hlog. f_equal. f_equal.
      unfold exported. cbn [omap list_omap]. rewrite Hexp.
      destruct ok; cbn [app]; [|done].
      rewrite dict_set_fresh by (apply Hacc; by left).
      by rewrite <- app_assoc.
    + intros it' [->|Hit']%elem_of_cons; [|by apply Hfs].
      intros p Hp. rewrite Hframe.
      * symmetry. apply Hag1. by left.
      * intros it' Hit' Hw.
        apply (writes_apart output_base it'.1 it.1 p); [|done|by left].
        intros Heq. by apply (Hne it').
    + intros p Hp. rewrite Hframe by (intros it' Hit'; apply Hp; by right).
      apply Hfr, Hp. by left.
Qed.

Lemma local_convert_named stem :
  local (reads stem) (writes stem) (convert_named stem).
Proof. apply local_convert_body. Qed.

Lemma for_each_named exp F :
  (∀ e, e ∈ exp → e = (e.1, onnx_path_of e.1)) →
  for_each exp (convert_body E) F = for_each exp.*1 convert_named F.
Proof.
  revert F. induction exp as [|e exp IH]; intros F Hshape;
    cbn [for_each fmap list_fmap]; [reflexivity|].
  unfold bind.
  unfold convert_named at 1. rewrite <- (Hshape e) by (by left).
  destruct (convert_body E e F) as [F1 l1 [[]|err]]; [|done].
  rewrite IH; [done|]. intros e' He'. apply Hshape. by right.
Qed.

Lemma for_each_convert_returns names F :
  out_res (for_each names convert_named F) = Ok tt.
Proof.
  revert F. induction names as [|s names IH]; intros F; [done|].
  cbn [for_each]. unfold bind.
  pose proof (convert_body_returns (s, onnx_path_of s) F) as Hret.
  unfold convert_named at 1.
  destruct (convert_body E _ F) as [F1 l1 [[]|err]]; [|done].
  cbn. apply IH.
Qed.

(** What [loops] leaves and returns, from what its first loop did. *)
Lemma loops_run items f F l exp :
  (∀ e, e ∈ exp → e = (e.1, onnx_path_of e.1)) →
  for_fold items (export_body E) [] f = Outcome F l (Ok exp) →
  out_fs (loops E items f) = out_fs (for_each exp.*1 convert_named F)
  ∧ out_res (loops E items f)
    = match exp with [] => Raise (SystemExit 1) | _ :: _ => Ok tt end.
Proof.
  intros Hshape Hrun. unfold loops.
  rewrite (bind_Ok _ _ _ _ _ _ Hrun).
  destruct exp as [|e exp]; [done|].
  rewrite bind_ret. cbn [after out_fs out_res].
  rewrite then_print_fs, for_each_named by done. split; [done|].
  apply (then_print_res _ _ _ tt). rewrite for_each_named by done.
  apply for_each_convert_returns.
Qed.

Lemma base_not_written stem : ¬ writes stem output_base.
Proof. apply prefix_snoc_not. Qed.

(** The directory of a stem after [loops]: what its own export leaves,
    converted if the export succeeded. *)
Lemma loops_target items f it :
  NoDup items.*1 → (∀ it', it' ∈ items → creatable f it'.1) → it ∈ items →
  agree (writes it.1) (out_fs (loops E items f))
    (match exported_one f it with
     | Some _ => out_fs (convert_named it.1 (out_fs (export_body E [] it f)))
     | None => out_fs (export_body E [] it f)
     end).
Proof.
  intros Hnd Hcr Hit.
  destruct (export_loop items f f []) as (F & Hrun & Hfs & Hframe);
    [done|intros ? _; apply not_elem_of_nil|intros ? _; apply agree_refl|done|].
  rewrite app_nil_l in Hrun.
  destruct (exported_names f items Hcr) as [Hsub Hshape].
  destruct (loops_run items f F _ _ Hshape Hrun) as [-> _].
  assert (Hnames : NoDup (exported f items).*1) by (by eapply sublist_NoDup).
  destruct (for_each_isolated id reads writes convert_named
              (writes_in_reads _) local_convert_named (writes_apart _)
              (exported f items).*1 F) as [_ Hiso];
    [by rewrite list_fmap_id|].
  destruct (Hiso (for_each_convert_returns _ F)) as [_ Hiso'].
  assert (HF : agree (reads it.1) F (out_fs (export_body E [] it f))).
  { intros p [Hp| ->]; [by apply Hfs|].
    rewrite Hframe by (intros; apply base_not_written).
    destruct (local_export_body [] it) as [Hfr _].
    symmetry. apply Hfr, base_not_written. }
  destruct (exported_one f it) as [e|] eqn:He.
  - pose proof (exported_one_shape f it e (Hcr it Hit) He) as ->.
    assert (Hin : it.1 ∈ (exported f items).*1).
    { apply list_elem_of_fmap. exists (it.1, onnx_path_of it.1). split; [done|].
      apply list_elem_of_omap. by exists it. }
    eapply agree_trans; [apply (Hiso' _ Hin)|].
    destruct (local_convert_named it.1) as [_ Hdet].
    destruct (Hdet _ _ HF) as (_ & _ & Hag).
    eapply agree_weaken; [|exact Hag]. apply writes_in_reads.
  - intros p Hp.
    rewrite (for_each_frame id reads writes convert_named local_convert_named).
    + apply HF. by left.
    + intros s Hs Hw. cbn in Hw.
      apply list_elem_of_fmap in Hs as (e & -> & He').
      apply list_elem_of_omap in He' as (it' & Hit' & He').
      pose proof (exported_one_shape f it' e (Hcr it' Hit') He') as ->. cbn in Hw.
      destruct (decide (it'.1 = it.1)) as [Heq|Hne].
      * assert (it' = it) as ->; [|congruence].
        eapply NoDup_fmap_fst_inj; eauto.
      * by apply (writes_apart output_base it'.1 it.1 p Hne Hw); left.
Qed.

Lemma isolation_umx items f :
  NoDup items.*1 → (∀ it, it ∈ items → creatable f it.1) →
  out_res (loops E items f)
  = match exported f items with [] => Raise (SystemExit 1) | _ :: _ => Ok tt end
  ∧ ∀ it, it ∈ items →
      agree (writes it.1) (out_fs (loops E items f)) (out_fs (loops E [it] f)).
Proof.
  intros Hnd Hcr. split.
  - destruct (export_loop items f f []) as (F & Hrun & _);
      [done|intros ? _; apply not_elem_of_nil|intros ? _; apply agree_refl|done|].
    rewrite app_nil_l in Hrun.
    destruct (exported_names f items Hcr) as [_ Hshape].
    by destruct (loops_run items f F _ _ Hshape Hrun) as [_ ->].
  - intros it Hit.
    eapply agree_trans; [by apply loops_target|].
    apply agree_sym, loops_target.
    + cbn. apply NoDup_singleton.
    + intros it' ->%list_elem_of_singleton. by apply Hcr.
    + by apply list_elem_of_singleton.
Qed.

End IsolationUmx.

(** *** Creating the output base *)

Lemma mkdir_parents_2 (a b : string) (f : fs) :
  no_file f [a] → no_file f [a; b] →
  ∃ f1, Path_mkdir true true [a; b] f = Outcome f1 [] (Ok tt)
        ∧ f1 !! [a; b] = Some Dir
        ∧ ∀ p, p ≠ [a] → p ≠ [a; b] → f1 !! p = f !! p.
Proof.
  intros Ha Hab. unfold Path_mkdir. cbn [length].
  destruct Ha as [Ha|Ha].
  - rewrite Path_mkdir_rec_parents by done.
    change (parent [a; b]) with [a].
    rewrite (bind_Ok _ _ _ _ _ _ (Path_mkdir_rec_new 1 true true [a] f eq_refl Ha)).
    rewrite after_nil.
    destruct Hab as [Hab|Hab].
    + rewrite Path_mkdir_rec_new;
        [|apply lookup_insert_eq|cbn; by rewrite lookup_insert_ne].
      eexists. split; [done|]. split; [apply lookup_insert_eq|].
      intros p H1 H2. by rewrite !lookup_insert_ne.
    + rewrite Path_mkdir_rec_existing;
        [|apply lookup_insert_eq|cbn; by rewrite lookup_insert_ne].
      eexists. split; [done|]. split; [by rewrite lookup_insert_ne|].
      intros p H1 H2. by rewrite !lookup_insert_ne.
  - destruct Hab as [Hab|Hab].
    + rewrite Path_mkdir_rec_new by done.
      eexists. split; [done|]. split; [apply lookup_insert_eq|].
      intros p H1 H2. by rewrite !lookup_insert_ne.
    + rewrite Path_mkdir_rec_existing by done. by exists f.
Qed.

(** *** Cross-target isolation *)

Lemma creatable_after_mkdir (base : path) (f f1 : fs) (stem : string) :
  f1 !! base = Some Dir →
  (∀ p, p ≠ parent base → p ≠ base → f1 !! p = f !! p) →
  no_file f (stem_dir base stem) → creatable base f1 stem.
Proof.
  intros Hbase Hframe Hno. split; [done|]. rewrite Hframe; [done| |].
  - unfold stem_dir, parent. intros Heq. apply (f_equal length) in Heq.
    rewrite length_app, removelast_firstn_len, length_take in Heq.
    cbn in Heq. lia.
  - unfold stem_dir. intros Heq. apply (f_equal length) in Heq.
    rewrite length_app in Heq. cbn in Heq. lia.
Qed.

Section EndToEnd2Stems.
Import Convert2Stems.
Variable E : env.

(** [convert_stems] from its first line to its last, against the
    iterations each run on its own from the state that the creation of the
    output base leaves. *)
Lemma convert_stems_isolated (stems : list string) (f : fs) :
  NoDup stems →
  no_file f ["converted_models"] → no_file f output_base →
  (∀ s, s ∈ stems → no_file f (stem_dir output_base s)) →
  ∃ f1, Path_mkdir true true output_base f = Outcome f1 [] (Ok tt)
    ∧ out_res (convert_stems E stems f) = Ok tt
    ∧ out_log (convert_stems E stems f)
      = concat ((λ s, out_log (loop_body E s f1)) <$> stems)
        ++ [EvPrint "Conversion complete!";
            EvPrint ("Models saved to: " +:+ path_str output_base)]
    ∧ ∀ s, s ∈ stems →
        agree (writes output_base s) (out_fs (convert_stems E stems f))
          (out_fs (loop_body E s f1)).
Proof.
  intros Hnd Ha Hab Hstems.
  destruct (mkdir_parents_2 _ _ f Ha Hab) as (f1 & Hmk & Hbase & Hframe).
  exists f1. split; [done|].
  destruct (isolation_2stems E stems f1 Hnd) as (Hret & Hlog & Hfs).
  { intros s Hs. apply (creatable_after_mkdir _ f); [done..|by apply Hstems]. }
  unfold convert_stems. rewrite (bind_Ok _ _ _ _ _ _ Hmk), after_nil.
  rewrite (bind_Ok_proj _ _ _ tt Hret), !bind_print.
  cbn [after print emit out_fs out_log out_res app].
  by rewrite Hlog.
Qed.

End EndToEnd2Stems.

Section EndToEndUmx.
Import ConvertUmxToTfjs.
Variable E : env.


End EndToEndUmx.

(** *** Exit codes *)

Lemma bind_res {A B} (m : Py A) (k : A → Py B) (f : fs) (a : A) :
  out_res (m f) = Ok a → out_res (bind m k f) = out_res (k a (out_fs (m f))).
Proof. unfold bind. destruct (m f) as [f1 l1 [a'|e]]; cbn; congruence. Qed.

Lemma exit_code_Ok {A} (r : outcome A) (a : A) :
  out_res r = Ok a → exit_code r = 0%Z.
Proof. unfold exit_code. by intros ->. Qed.

Section ExitCodes.
Import Convert2Stems.

Lemma import_or_exit_ok (E : env) (modules : list string) (hint : string) (f : fs) :
  (∀ m, import_module E m = None) →
  import_or_exit E modules hint f = Outcome f (EvImport <$> modules) (Ok tt).
Proof.
  intros Himp. unfold import_or_exit.
  apply try_Ok. revert f. induction modules as [|m ms IH]; intros f; [done|].
  cbn [for_each]. unfold bind at 1. cbn beta.
  rewrite bind_emit, Himp. cbn [raise_if ret after out_fs out_log out_res app].
  by rewrite IH.
Qed.

(** The main function returns normally whenever the output directories
    can be created, whatever the conversions do. *)
Lemma convert_stems_returns (E : env) (stems : list string) (f : fs) :
  NoDup stems →
  no_file f ["converted_models"] → no_file f output_base →
  (∀ s, s ∈ stems → no_file f (stem_dir output_base s)) →
  out_res (convert_stems E stems f) = Ok tt.
Proof.
  intros Hnd Ha Hab Hstems.
  by destruct (convert_stems_isolated E stems f Hnd Ha Hab Hstems)
    as (f1 & _ & Hret & _).
Qed.

End ExitCodes.

(** C2 is not what the scripts do: this run of convert_open_unmix_2stems
    (every collaborator works, but the pretrained vocals model cannot be
    loaded) ends with exit code 0 although the vocals stem was reported
    failed and never reported converted. *)
Lemma exit_zero_with_failed_stem :
  let r := Convert2Stems.script (Examples.env_2stems "vocals") ∅ in
  exit_code r = 0%Z
  ∧ Convert2Stems.failed "vocals" (out_log r) = true
  ∧ Convert2Stems.converted "vocals" (out_log r) = false.
Proof. vm_compute. repeat split. Qed.

(** C2, amended: the exit code does not reflect the failure of a stem.
    When its imports succeed and no file stands where an output directory
    goes, convert_open_unmix_2stems exits with code 0 whatever the
    conversions of the stems do; under the same condition on the
    directories, convert_umx_to_tfjs exits with code 1 when no stem could
    be exported to ONNX and with code 0 as soon as one could, whatever
    happens to the other stems and to the later stages. *)
Theorem exit_code_ignores_stem_failures
    (E2 : Convert2Stems.env) (f2 : fs)
    (Eu : ConvertUmxToTfjs.env)
    (items : list (string * ConvertUmxToTfjs.Model Eu)) (fu : fs) :
  (∀ m, Convert2Stems.import_module E2 m = None) →
  no_file f2 ["converted_models"] →
  no_file f2 Convert2Stems.output_base →
  (∀ s, s ∈ Convert2Stems.stems →
     no_file f2 (stem_dir Convert2Stems.output_base s)) →
  NoDup items.*1 →
  no_file fu ["converted_models"] →
  no_file fu ConvertUmxToTfjs.output_base →
  (∀ it, it ∈ items → no_file fu (stem_dir ConvertUmxToTfjs.output_base it.1)) →
  exit_code (Convert2Stems.script E2 f2) = 0%Z
  ∧ exit_code (ConvertUmxToTfjs.conversion Eu items fu)
    = match exported Eu
              (out_fs (Path_mkdir true true ConvertUmxToTfjs.output_base fu))
              items
      with
      | [] => 1%Z
      | _ :: _ => 0%Z
      end.
Proof.
  intros Himp Ha2 Hb2 Hs2 Hnd Hau Hbu Hsu. split.
  - apply (exit_code_Ok _ tt). unfold Convert2Stems.script.
    rewrite bind_emit, Himp. cbn [raise_if]. rewrite bind_ret.
    rewrite !(bind_Ok _ _ _ _ _ _ (import_or_exit_ok E2 _ _ f2 Himp)).
    cbn [after out_res]. unfold Convert2Stems.main_guard.
    pose proof (convert_stems_returns E2 Convert2Stems.stems f2) as Hret.
    unfold Convert2Stems.convert_openunmix_2stems, try_except.
    destruct (Convert2Stems.convert_stems E2 Convert2Stems.stems f2)
      as [f1 l1 r1]; cbn in Hret.
    rewrite Hret; [done| |done..].
    apply (bool_decide_unpack _). vm_compute. reflexivity.
  - unfold ConvertUmxToTfjs.conversion.
    destruct (mkdir_parents_2 _ _ fu Hau Hbu) as (f1 & Hmk & Hbase & Hframe).
    change ["converted_models"; "umx-2stems"]
      with ConvertUmxToTfjs.output_base in Hmk.
    rewrite (bind_Ok _ _ _ _ _ _ Hmk). rewrite Hmk. cbn [out_fs].
    destruct (isolation_umx Eu items f1 Hnd) as [Hres _].
    { intros it Hit. split; [done|]. unfold stem_dir. cbn [app].
      rewrite Hframe by done. apply Hsu, Hit. }
    unfold exit_code. cbn [after out_res]. rewrite Hres.
    by destruct (exported Eu f1 items).
Qed.

Lemma exit_code_ignores_stem_failures_witness :
  let E2 := Examples.env_2stems "vocals" in
  let Eu := Examples.env_umx "drums" in
  let items := [("drums", "drums"); ("vocals", "vocals")] in
  exit_code (Convert2Stems.script E2 ∅) = 0%Z
  ∧ exit_code (ConvertUmxToTfjs.conversion Eu items ∅)
    = match exported Eu
              (out_fs (Path_mkdir true true ConvertUmxToTfjs.output_base ∅))
              items
      with
      | [] => 1%Z
      | _ :: _ => 0%Z
      end.
Proof.
  intros E2 Eu items.
  apply (exit_code_ignores_stem_failures E2 ∅ Eu items ∅).
  - intros m. reflexivity.
  - left. reflexivity.
  - left. reflexivity.
  - intros s _. left. reflexivity.
  - apply (bool_decide_unpack _). vm_compute. reflexivity.
  - left. reflexivity.
  - left. reflexivity.
  - intros it _. left. reflexivity.
Defined.

(** *** Quantization *)

Lemma run_tree_effect_log (base : path) (e : tree_effect) (f : fs) :
  out_log (run_tree_effect base e f) = [].
Proof.
  unfold run_tree_effect.
  assert (H : ∀ ws g, ∃ g', for_each ws (λ w, store (base ++ w.1) w.2) g
                            = Outcome g' [] (Ok tt)).
  { induction ws as [|w ws IH]; intros g; [by eexists|].
    cbn [for_each].
    rewrite (bind_Ok _ _ g (<[base ++ w.1 := w.2]> g) [] tt) by done.
    destruct (IH (<[base ++ w.1 := w.2]> g)) as [g' ->]. by eexists. }
  destruct (H (te_written e) f) as [g' Hg].
  rewrite (bind_Ok _ _ _ _ _ _ Hg). by destruct (te_raised e) as [[c msg]|].
Qed.

(** C3 is not what convert_open_unmix.py does: [convert_onnx_to_tfjs] has
    no quantization parameter, so this caller asks for none, and the one
    converter process it starts is asked for float16 weights. *)
Lemma converter_quantizes_unasked :
  let r := ConvertOpenUnmix.convert_onnx_to_tfjs Examples.env_open_unmix
             "vocals.onnx" "public/models/umx-5stems" ∅ in
  ∃ cmd, runs_of (out_log r) = [cmd]
         ∧ ConvertOpenUnmix.requested_quantization cmd
           = Some ConvertOpenUnmix.Float16.
Proof. eexists. vm_compute. split; reflexivity. Qed.

(** C3, amended: [convert_onnx_to_tfjs] of convert_open_unmix.py takes
    no quantization option; whatever the paths and the world, the one
    process it starts is [tensorflowjs_converter] with
    [--quantize_float16]. *)
Theorem converter_always_quantizes_float16
    (E : ConvertOpenUnmix.env) (onnx_path output_path : string) (f : fs) :
  runs_of (out_log (ConvertOpenUnmix.convert_onnx_to_tfjs E onnx_path output_path f))
  = [ConvertOpenUnmix.converter_cmd onnx_path output_path]
  ∧ "--quantize_float16" ∈ ConvertOpenUnmix.converter_cmd onnx_path output_path
  ∧ ConvertOpenUnmix.requested_quantization
      (ConvertOpenUnmix.converter_cmd onnx_path output_path)
    = Some ConvertOpenUnmix.Float16.
Proof.
  split; [|split].
  - unfold ConvertOpenUnmix.convert_onnx_to_tfjs,
      ConvertOpenUnmix.subprocess_run_check.
    rewrite bind_print. unfold bind at 1. rewrite bind_emit.
    unfold bind at 1.
    pose proof (run_tree_effect_log []
                  (ConvertOpenUnmix.subprocess_run E
                     (ConvertOpenUnmix.converter_cmd onnx_path output_path)).1 f)
      as Hlog.
    destruct (run_tree_effect [] _ f) as [f1 l1 [[]|e]]; cbn in Hlog; subst l1;
      [|done].
    unfold bind.
    destruct (ConvertOpenUnmix.subprocess_run E _).2 as [rc|c msg]; [|done].
    cbn. by destruct (decide (rc = 0%Z)).
  - unfold ConvertOpenUnmix.converter_cmd. rewrite !elem_of_cons. tauto.
  - reflexivity.
Qed.

(** *** Shapes *)

(** C4 is not what the scripts do: for a model handle that declares no
    input shape and belongs to no known family, where the negotiator of
    the specification fails with [ShapeUnknownError], convert_to_onnx_only
    and convert_umx_to_tfjs export with their fixed dummy shapes and
    record the stem as exported. *)
Lemma shape_fabricated_for_opaque_handle :
  (∃ msg, ShapeSpec.negotiate (λ _, None) Examples.opaque_handle
          = Fails ShapeSpec.ShapeUnknownError msg)
  ∧ out_res (ConvertToOnnxOnly.export_body Examples.env_onnx_only []
               ("vocals", Examples.opaque_handle) Examples.fs_onnx_base)
    = Ok [("vocals", ["converted_models"; "umx-onnx"; "vocals"; "vocals.onnx"])]
  ∧ out_res (ConvertUmxToTfjs.export_body Examples.env_umx_handles []
               ("vocals", Examples.opaque_handle) Examples.fs_base)
    = Ok [("vocals", ["converted_models"; "umx-2stems"; "vocals"; "vocals.onnx"])].
Proof. split; [by eexists|]. vm_compute. split; reflexivity. Qed.

(** What the export iteration of convert_umx_to_tfjs returns. *)
Lemma umx_export_body_result (E : ConvertUmxToTfjs.env)
    (acc : list (string * path)) (item : string * ConvertUmxToTfjs.Model E)
    (f : fs) :
  creatable ConvertUmxToTfjs.output_base f item.1 →
  let onnx_path := onnx_path_of item.1 in
  out_res (ConvertUmxToTfjs.export_body E acc item f)
  = Ok (match fe_raised (ConvertUmxToTfjs.torch_onnx_export E item.2
                           ConvertUmxToTfjs.export_kwargs (path_str onnx_path))
        with
        | None => dict_set item.1 onnx_path acc
        | Some _ => acc
        end).
Proof.
  intros Hcr. unfold ConvertUmxToTfjs.export_body. rewrite !bind_print.
  destruct (mkdir_stem_creatable ConvertUmxToTfjs.output_base ltac:(done)
              item.1 f Hcr) as (f1 & Hmk & _).
  rewrite !(bind_Ok _ _ _ _ _ _ Hmk).
  unfold try_except, bind, run_file_effect, bind, onnx_path_of.
  by destruct (ConvertUmxToTfjs.torch_onnx_export E item.2 _ _)
    as [[d|] [[c msg]|]].
Qed.

(** What the export iteration of convert_to_onnx_only returns. *)
Lemma onnx_only_export_body_result (E : ConvertToOnnxOnly.env)
    (acc : list (string * path)) (item : string * ConvertToOnnxOnly.Model E)
    (f : fs) :
  creatable ConvertToOnnxOnly.output_base f item.1 →
  let onnx_path :=
    stem_dir ConvertToOnnxOnly.output_base item.1 ++ [item.1 +:+ ".onnx"] in
  out_res (ConvertToOnnxOnly.export_body E acc item f)
  = Ok (match fe_raised (ConvertToOnnxOnly.torch_onnx_export E item.2
                           ConvertToOnnxOnly.export_kwargs (path_str onnx_path))
        with
        | None => dict_set item.1 onnx_path acc
        | Some _ => acc
        end).
Proof.
  intros Hcr. unfold ConvertToOnnxOnly.export_body. rewrite !bind_print.
  destruct (mkdir_stem_creatable ConvertToOnnxOnly.output_base ltac:(done)
              item.1 f Hcr) as (f1 & Hmk & _).
  rewrite !(bind_Ok _ _ _ _ _ _ Hmk).
  unfold try_except, bind, run_file_effect, bind.
  by destruct (ConvertToOnnxOnly.torch_onnx_export E item.2 _ _)
    as [[d|] [[c msg]|]].
Qed.

(** *** The exceptions a computation can raise *)

Lemma raises_only_ret (P : exn → bool) {A} (a : A) : raises_only P (ret a).
Proof. by intros f e. Qed.

Lemma raises_only_emit (P : exn → bool) (ev : event) : raises_only P (emit ev).
Proof. by intros f e. Qed.

Lemma raises_only_bind (P : exn → bool) {A B} (m : Py A) (k : A → Py B) :
  raises_only P m → (∀ a, raises_only P (k a)) → raises_only P (bind m k).
Proof.
  intros Hm Hk f e. unfold bind. specialize (Hm f).
  destruct (m f) as [f1 l1 [a|e1]]; cbn [after out_res].
  - apply Hk.
  - intros [= <-]. by apply Hm.
Qed.

Lemma raises_only_try_except (P : exn → bool) {A} (m : Py A)
    (catches : exn → bool) (h : exn → Py A) :
  (∀ f e, out_res (m f) = Raise e → catches e = false → P e = true) →
  (∀ e, catches e = true → raises_only P (h e)) →
  raises_only P (try_except m catches h).
Proof.
  intros Hm Hh f e. unfold try_except. specialize (Hm f).
  destruct (m f) as [f1 l1 [a|e1]]; cbn [out_res]; [done|].
  destruct (catches e1) eqn:Hc.
  - cbn [after out_res]. by apply Hh.
  - cbn [out_res]. intros [= <-]. by apply Hm.
Qed.

(** A [try] with [except Exception] around a computation that raises
    nothing else raises what its handler raises. *)
Lemma raises_only_try_Exception (P : exn → bool) {A} (m : Py A) (h : exn → Py A) :
  exc_only m → (∀ e, raises_only P (h e)) →
  raises_only P (try_except m is_Exception h).
Proof.
  intros Hm Hh. apply raises_only_try_except; [|by intros e _].
  intros f e He Hc. rewrite (Hm f e He) in Hc. done.
Qed.

Lemma raises_only_os_mkdir (p : path) : raises_only is_OSError (os_mkdir p).
Proof.
  intros f e. unfold os_mkdir, bind, stat.
  cbn [after out_fs out_log out_res].
  destruct (entry f (parent p)) as [[|?]|]; cbn; try (intros [= <-]; done).
  destruct (entry f p); cbn; [intros [= <-]; done|done].
Qed.

Lemma raises_only_Path_mkdir_rec (d : nat) (parents exist_ok : bool) (p : path) :
  raises_only is_OSError (Path_mkdir_rec d parents exist_ok p).
Proof.
  assert (Hdir : ∀ (exist_ok : bool) p e, is_OSError e = true →
            raises_only is_OSError
              (isd <- path_is_dir p ;;
               if negb exist_ok || negb isd then raise e else ret tt)).
  { intros ok q e He. apply raises_only_bind; [by intros f e'|].
    intros isd. destruct (negb ok || negb isd); intros f e'; cbn; [|done].
    by intros [= <-]. }
  revert parents exist_ok p.
  induction d as [|d IH]; intros parents exist_ok p; cbn [Path_mkdir_rec];
    (apply raises_only_try_except;
     [intros f e He Hc; pose proof (raises_only_os_mkdir p f e He); congruence|]);
    intros e He; destruct (is_FileNotFoundError e); try by apply Hdir.
  - destruct (negb parents || bool_decide (parent p = p));
      intros f e'; cbn; by intros [= <-].
  - destruct (negb parents || bool_decide (parent p = p)).
    + intros f e'; cbn; by intros [= <-].
    + apply raises_only_bind; [apply IH|]. intros _. apply IH.
Qed.

Lemma raises_only_Path_mkdir (parents exist_ok : bool) (p : path) :
  raises_only is_OSError (Path_mkdir parents exist_ok p).
Proof. apply raises_only_Path_mkdir_rec. Qed.

(** An export iteration of convert_umx_to_tfjs, step by step. *)
Lemma umx_export_body_eq (E : ConvertUmxToTfjs.env)
    (acc : list (string * path)) (item : string * ConvertUmxToTfjs.Model E)
    (f : fs) :
  creatable ConvertUmxToTfjs.output_base f item.1 →
  ∃ f1,
    (∀ p, p ≠ stem_dir ConvertUmxToTfjs.output_base item.1 → f1 !! p = f !! p)
    ∧ ConvertUmxToTfjs.export_body E acc item f
      = Outcome
          (match fe_written (export_of E item) with
           | Some d => <[onnx_path_of item.1 := File d]> f1
           | None => f1
           end)
          (export_report E item)
          (Ok (match fe_raised (export_of E item) with
               | None => dict_set item.1 (onnx_path_of item.1) acc
               | Some _ => acc
               end)).
Proof.
  intros Hcr. unfold ConvertUmxToTfjs.export_body. rewrite !bind_print.
  destruct (mkdir_stem_creatable ConvertUmxToTfjs.output_base ltac:(done)
              item.1 f Hcr) as (f1 & Hmk & _ & Hfr).
  exists f1. split; [exact Hfr|].
  rewrite !(bind_Ok _ _ _ _ _ _ Hmk).
  unfold export_report, export_of, try_except, bind, run_file_effect, bind,
    onnx_path_of, stem_dir.
  by destruct (ConvertUmxToTfjs.torch_onnx_export E item.2 _ _)
    as [[d|] [[c msg]|]].
Qed.

(** An export iteration of convert_to_onnx_only, step by step. *)
Lemma onnx_only_export_body_eq (E : ConvertToOnnxOnly.env)
    (acc : list (string * path)) (item : string * ConvertToOnnxOnly.Model E)
    (f : fs) :
  creatable ConvertToOnnxOnly.output_base f item.1 →
  let onnx_path :=
    stem_dir ConvertToOnnxOnly.output_base item.1 ++ [item.1 +:+ ".onnx"] in
  let x := ConvertToOnnxOnly.torch_onnx_export E item.2
             ConvertToOnnxOnly.export_kwargs (path_str onnx_path) in
  ∃ f1,
    (∀ p, p ≠ stem_dir ConvertToOnnxOnly.output_base item.1 → f1 !! p = f !! p)
    ∧ ConvertToOnnxOnly.export_body E acc item f
      = Outcome
          (match fe_written x with
           | Some d => <[onnx_path := File d]> f1
           | None => f1
           end)
          [EvPrint ("Converting " +:+ item.1 +:+ "...");
           EvPrint (match fe_raised x with
                    | None => "[OK] ONNX model saved: " +:+ path_str onnx_path
                    | Some (_, msg) =>
                        "[ERROR] Error converting " +:+ item.1 +:+ ": " +:+ msg
                    end)]
          (Ok (match fe_raised x with
               | None => dict_set item.1 onnx_path acc
               | Some _ => acc
               end)).
Proof.
  intros Hcr onnx_path x. unfold ConvertToOnnxOnly.export_body.
  rewrite !bind_print.
  destruct (mkdir_stem_creatable ConvertToOnnxOnly.output_base ltac:(done)
              item.1 f Hcr) as (f1 & Hmk & _ & Hfr).
  exists f1. split; [exact Hfr|].
  rewrite !(bind_Ok _ _ _ _ _ _ Hmk).
  unfold x, onnx_path, try_except, bind, run_file_effect, bind, stem_dir.
  by destruct (ConvertToOnnxOnly.torch_onnx_export E item.2 _ _)
    as [[d|] [[c msg]|]].
Qed.

(** The one step of an export iteration that can raise is the creation of
    the directory. *)
Lemma umx_export_body_raises (E : ConvertUmxToTfjs.env)
    (acc : list (string * path)) (item : string * ConvertUmxToTfjs.Model E) :
  raises_only is_OSError (ConvertUmxToTfjs.export_body E acc item).
Proof.
  unfold ConvertUmxToTfjs.export_body.
  apply raises_only_bind; [apply raises_only_emit|]. intros _.
  apply raises_only_bind; [apply raises_only_Path_mkdir|]. intros _.
  apply raises_only_try_Exception.
  - apply exc_only_bind; [apply exc_only_run_file_effect|]. intros _.
    apply exc_only_bind; [apply exc_only_emit|]. intros _. apply exc_only_ret.
  - intros e. apply raises_only_bind; [apply raises_only_emit|]. intros _.
    apply raises_only_ret.
Qed.

Lemma onnx_only_export_body_raises (E : ConvertToOnnxOnly.env)
    (acc : list (string * path)) (item : string * ConvertToOnnxOnly.Model E) :
  raises_only is_OSError (ConvertToOnnxOnly.export_body E acc item).
Proof.
  unfold ConvertToOnnxOnly.export_body.
  apply raises_only_bind; [apply raises_only_emit|]. intros _.
  apply raises_only_bind; [apply raises_only_Path_mkdir|]. intros _.
  apply raises_only_try_Exception.
  - apply exc_only_bind; [apply exc_only_run_file_effect|]. intros _.
    apply exc_only_bind; [apply exc_only_emit|]. intros _. apply exc_only_ret.
  - intros e. apply raises_only_bind; [apply raises_only_emit|]. intros _.
    apply raises_only_ret.
Qed.

Lemma stem_file_not_dir (base : path) (stem x : string) :
  stem_dir base stem ++ [x] ≠ stem_dir base stem.
Proof.
  intros Heq. apply (f_equal length) in Heq. rewrite length_app in Heq.
  cbn in Heq. lia.
Qed.

(** C4, amended: no script negotiates a shape, and none raises
    [ShapeUnknownError].  Whatever the model is (and whatever it declares),
    convert_to_onnx_only calls the exporter with the fixed dummy shape
    [1, 2, 2049, 10] and convert_umx_to_tfjs with the fixed dummy shape
    [1, 2974].  The only exception an export iteration can raise is an
    [OSError] of the creation of the stem's directory, the one step outside
    its [try].  When that directory can be created, the iteration returns:
    it prints its first line, leaves at the stem's [.onnx] path what the
    exporter wrote for that dummy input, and either records the stem and
    prints the line that reports the file, or, when the exporter raised,
    prints the error with the exporter's message and leaves the dictionary
    as it was. *)
Theorem shape_is_hard_coded
    (Eo : ConvertToOnnxOnly.env) (acc_o : list (string * path))
    (item_o : string * ConvertToOnnxOnly.Model Eo) (fo : fs)
    (Eu : ConvertUmxToTfjs.env) (acc_u : list (string * path))
    (item_u : string * ConvertUmxToTfjs.Model Eu) (fu : fs) :
  let onnx_o :=
    stem_dir ConvertToOnnxOnly.output_base item_o.1 ++ [item_o.1 +:+ ".onnx"] in
  let xo := ConvertToOnnxOnly.torch_onnx_export Eo item_o.2
              ConvertToOnnxOnly.export_kwargs (path_str onnx_o) in
  let ro := ConvertToOnnxOnly.export_body Eo acc_o item_o fo in
  let onnx_u := onnx_path_of item_u.1 in
  let xu := ConvertUmxToTfjs.torch_onnx_export Eu item_u.2
              ConvertUmxToTfjs.export_kwargs (path_str onnx_u) in
  let ru := ConvertUmxToTfjs.export_body Eu acc_u item_u fu in
  (dummy_input ConvertToOnnxOnly.export_kwargs = [1; 2; 2049; 10]%Z
   ∧ (∀ e, out_res ro = Raise e → is_OSError e = true)
   ∧ (∀ msg, out_res ro ≠ Raise (Exc ShapeSpec.ShapeUnknownError msg))
   ∧ (creatable ConvertToOnnxOnly.output_base fo item_o.1 →
      out_res ro
      = Ok (match fe_raised xo with
            | None => dict_set item_o.1 onnx_o acc_o
            | Some _ => acc_o
            end)
      ∧ out_log ro
        = [EvPrint ("Converting " +:+ item_o.1 +:+ "...");
           EvPrint (match fe_raised xo with
                    | None => "[OK] ONNX model saved: " +:+ path_str onnx_o
                    | Some (_, msg) =>
                        "[ERROR] Error converting " +:+ item_o.1 +:+ ": " +:+ msg
                    end)]
      ∧ out_fs ro !! onnx_o
        = match fe_written xo with
          | Some d => Some (File d)
          | None => fo !! onnx_o
          end))
  ∧ (dummy_input ConvertUmxToTfjs.export_kwargs = [1; 2974]%Z
     ∧ (∀ e, out_res ru = Raise e → is_OSError e = true)
     ∧ (∀ msg, out_res ru ≠ Raise (Exc ShapeSpec.ShapeUnknownError msg))
     ∧ (creatable ConvertUmxToTfjs.output_base fu item_u.1 →
        out_res ru
        = Ok (match fe_raised xu with
              | None => dict_set item_u.1 onnx_u acc_u
              | Some _ => acc_u
              end)
        ∧ out_log ru
          = [EvPrint ("Converting " +:+ item_u.1 +:+ "...");
             EvPrint (match fe_raised xu with
                      | None => "✅ ONNX model saved: " +:+ path_str onnx_u
                      | Some (_, msg) =>
                          "❌ Error converting " +:+ item_u.1 +:+ " to ONNX: "
                          +:+ msg
                      end)]
        ∧ out_fs ru !! onnx_u
          = match fe_written xu with
            | Some d => Some (File d)
            | None => fu !! onnx_u
            end)).
Proof.
  intros onnx_o xo ro onnx_u xu ru. split.
  - split; [reflexivity|]. split; [apply onnx_only_export_body_raises|].
    split.
    { intros msg Hr. by apply onnx_only_export_body_raises in Hr. }
    intros Hcr.
    destruct (onnx_only_export_body_eq Eo acc_o item_o fo Hcr) as (f1 & Hfr & Heq).
    cbv zeta in Heq. fold onnx_o in Heq. fold xo in Heq. unfold ro.
    rewrite Heq. cbn [out_res out_log out_fs]. split; [done|]. split; [done|].
    destruct (fe_written xo) as [d|].
    + apply lookup_insert_eq.
    + apply Hfr, stem_file_not_dir.
  - split; [reflexivity|]. split; [apply umx_export_body_raises|].
    split.
    { intros msg Hr. by apply umx_export_body_raises in Hr. }
    intros Hcr.
    destruct (umx_export_body_eq Eu acc_u item_u fu Hcr) as (f1 & Hfr & Heq).
    unfold ru. rewrite Heq. cbn [out_res out_log out_fs].
    split; [done|]. split; [done|].
    change (export_of Eu item_u) with xu.
    destruct (fe_written xu) as [d|].
    + apply lookup_insert_eq.
    + apply Hfr, stem_file_not_dir.
Qed.

Lemma shape_is_hard_coded_witness :
  let item := ("vocals", Examples.opaque_handle) in
  (creatable ConvertToOnnxOnly.output_base Examples.fs_onnx_base "vocals"
   ∧ out_res (ConvertToOnnxOnly.export_body Examples.env_onnx_only [] item
                Examples.fs_onnx_base)
     = Ok [("vocals", ["converted_models"; "umx-onnx"; "vocals"; "vocals.onnx"])]
   ∧ out_log (ConvertToOnnxOnly.export_body Examples.env_onnx_only [] item
                Examples.fs_onnx_base)
     = [EvPrint "Converting vocals...";
        EvPrint "[OK] ONNX model saved: converted_models/umx-onnx/vocals/vocals.onnx"])
  ∧ (creatable ConvertUmxToTfjs.output_base Examples.fs_base "vocals"
     ∧ out_res (ConvertUmxToTfjs.export_body Examples.env_umx_handles [] item
                  Examples.fs_base)
       = Ok [("vocals", ["converted_models"; "umx-2stems"; "vocals"; "vocals.onnx"])]
     ∧ out_log (ConvertUmxToTfjs.export_body Examples.env_umx_handles [] item
                  Examples.fs_base)
       = [EvPrint "Converting vocals...";
          EvPrint "✅ ONNX model saved: converted_models/umx-2stems/vocals/vocals.onnx"]).
Proof.
  intros item.
  assert (Ho : creatable ConvertToOnnxOnly.output_base Examples.fs_onnx_base "vocals").
  { split; [vm_compute; reflexivity|left; vm_compute; reflexivity]. }
  assert (Hu : creatable ConvertUmxToTfjs.output_base Examples.fs_base "vocals").
  { split; [vm_compute; reflexivity|left; vm_compute; reflexivity]. }
  destruct (shape_is_hard_coded Examples.env_onnx_only [] item Examples.fs_onnx_base
              Examples.env_umx_handles [] item Examples.fs_base)
    as ((_ & _ & _ & Hro) & (_ & _ & _ & Hru)).
  destruct (Hro Ho) as (Hres_o & Hlog_o & _).
  destruct (Hru Hu) as (Hres_u & Hlog_u & _).
  split; (split; [assumption|split]); assumption.
Defined.

(** *** Loading a weight checkpoint *)

(** C5 (the code departs from it): [load_pytorch_model] never raises.
    When [torch.load] returns a checkpoint for the file, the value it
    returns as the model is that checkpoint itself; when the file is
    missing or [torch.load] raises, it prints the error and returns
    [None]. *)
Theorem load_pytorch_model_returns_checkpoint
    (E : DownloadAndConvert.env) (model_path : path) (f : fs) (data : string) :
  entry f model_path = Some (File data) →
  out_fs (DownloadAndConvert.load_pytorch_model E model_path f) = f
  ∧ out_res (DownloadAndConvert.load_pytorch_model E model_path f)
    = Ok (match DownloadAndConvert.torch_load E data with
          | Returns checkpoint => Some checkpoint
          | Fails _ _ => None
          end).
Proof.
  intros Hfile.
  unfold DownloadAndConvert.load_pytorch_model,
    DownloadAndConvert.torch_load_call.
  rewrite bind_print. unfold try_except, bind, stat. rewrite Hfile.
  by destruct (DownloadAndConvert.torch_load E data).
Qed.

Lemma load_pytorch_model_returns_checkpoint_witness :
  let p := ["downloaded_models"; "umx_vocals.pth"] in
  out_fs (DownloadAndConvert.load_pytorch_model Examples.env_truncating_host p
            Examples.fs_cached) = Examples.fs_cached
  ∧ out_res (DownloadAndConvert.load_pytorch_model Examples.env_truncating_host p
               Examples.fs_cached)
    = Ok (match DownloadAndConvert.torch_load Examples.env_truncating_host
                  "cached-vocals-weights" with
          | Returns checkpoint => Some checkpoint
          | Fails _ _ => None
          end).
Proof.
  intros p.
  apply (load_pytorch_model_returns_checkpoint Examples.env_truncating_host p
           Examples.fs_cached "cached-vocals-weights").
  vm_compute. reflexivity.
Defined.

(** At the failing input the raw state dict comes back as the model. *)
Example load_pytorch_model_cached_vocals :
  out_res (DownloadAndConvert.load_pytorch_model Examples.env_truncating_host
             ["downloaded_models"; "umx_vocals.pth"] Examples.fs_cached)
  = Ok (Some [("fc1.weight", "cached-vocals-weights")]).
Proof. vm_compute. reflexivity. Qed.

(** *** The weight cache *)

Lemma fetches_of_app (l1 l2 : list event) :
  fetches_of (l1 ++ l2) = fetches_of l1 ++ fetches_of l2.
Proof. unfold fetches_of. induction l1 as [|[] l1 IH]; cbn; by rewrite ?IH. Qed.

Lemma fetches_of_prints (lines : list string) :
  fetches_of (EvPrint <$> lines) = [].
Proof. by induction lines. Qed.

Lemma download_models_body_cached (E : DownloadModels.env)
    (downloaded : list path) (item : string * string) (f : fs) :
  is_Some (f !! (DownloadModels.output_dir ++ ["umx_" +:+ item.1 +:+ ".pth"])) →
  ∃ line,
    DownloadModels.main_loop_body E downloaded item f
    = Outcome f [EvPrint line]
        (Ok (downloaded
             ++ [DownloadModels.output_dir ++ ["umx_" +:+ item.1 +:+ ".pth"]])).
Proof.
  intros Hex. unfold DownloadModels.main_loop_body.
  rewrite (bind_Ok _ _ f f [] true).
  - rewrite after_nil, bind_print. by eexists.
  - unfold path_exists, bind, stat.
    cbn [entry DownloadModels.output_dir app ret after out_fs out_log out_res].
    by rewrite bool_decide_eq_true_2.
Qed.

Lemma download_models_loop_cached (E : DownloadModels.env)
    (items : list (string * string)) (downloaded : list path) (f : fs) :
  (∀ item, item ∈ items →
     is_Some (f !! (DownloadModels.output_dir ++ ["umx_" +:+ item.1 +:+ ".pth"]))) →
  ∃ lines l,
    for_fold items (DownloadModels.main_loop_body E) downloaded f
    = Outcome f (EvPrint <$> lines) (Ok l).
Proof.
  revert downloaded. induction items as [|item items IH]; intros downloaded Hex.
  - by exists [], downloaded.
  - cbn [for_fold].
    destruct (download_models_body_cached E downloaded item f) as [line Hbody];
      [apply Hex; by left|].
    rewrite (bind_Ok _ _ _ _ _ _ Hbody).
    destruct (IH (downloaded ++
                  [DownloadModels.output_dir ++ ["umx_" +:+ item.1 +:+ ".pth"]]))
      as (lines & l & ->); [intros it Hit; apply Hex; by right|].
    by exists (line :: lines), l.
Qed.

(** The sibling script download_models.py does skip what is cached: with
    both weight files in place it fetches nothing and leaves the file
    system as it is. *)
Lemma download_models_skips_cached (E : DownloadModels.env) (f : fs) :
  f !! DownloadModels.output_dir = Some Dir →
  is_Some (f !! ["downloaded_models"; "umx_vocals.pth"]) →
  is_Some (f !! ["downloaded_models"; "umx_accompaniment.pth"]) →
  out_fs (DownloadModels.main E f) = f
  ∧ fetches_of (out_log (DownloadModels.main E f)) = [].
Proof.
  intros Hdir Hv Ha. unfold DownloadModels.main.
  rewrite (bind_Ok _ _ f f [] tt)
    by (by apply Path_mkdir_existing).
  rewrite after_nil.
  destruct (download_models_loop_cached E DownloadModels.MODEL_URLS [] f)
    as (lines & l & Hloop).
  { intros item Hitem. unfold DownloadModels.MODEL_URLS in Hitem.
    repeat (apply elem_of_cons in Hitem as [->|Hitem]);
      [done..|by apply elem_of_nil in Hitem]. }
  rewrite (bind_Ok _ _ _ _ _ _ Hloop).
  destruct l as [|p l].
  - cbn. rewrite fetches_of_app, fetches_of_prints. done.
  - rewrite bind_print.
    assert (Hlist : ∀ ps g, for_each ps (λ p, print ("  - " +:+ path_str p)) g
              = Outcome g (EvPrint <$> ((λ p, "  - " +:+ path_str p) <$> ps)) (Ok tt)).
    { induction ps as [|q ps IHps]; intros g; [done|].
      cbn [for_each]. rewrite bind_print, IHps. done. }
    rewrite Hlist. cbn [after out_fs out_log].
    split; [done|].
    rewrite fetches_of_app. cbn [fetches_of omap list_omap app].
    fold (fetches_of (EvPrint <$> ((λ p0, "  - " +:+ path_str p0) <$> p :: l))).
    by rewrite !fetches_of_prints.
Qed.

(** C6 (the code departs from it): download_and_convert.py downloads
    again what is cached.  With both weight files in place and a host that
    delivers a truncated body, its [main] fetches both URLs and leaves the
    truncated bytes where the cached vocals weights were; download_models.py
    started from the same state fetches nothing and changes nothing. *)
Theorem download_and_convert_refetches_cached :
  let r := DownloadAndConvert.main Examples.env_truncating_host Examples.fs_cached in
  Examples.fs_cached !! ["downloaded_models"; "umx_vocals.pth"]
  = Some (File "cached-vocals-weights")
  ∧ fetches_of (out_log r)
    = ["https://zenodo.org/record/3370489/files/umx_vocals.pth";
       "https://zenodo.org/record/3370489/files/umx_accompaniment.pth"]
  ∧ out_fs r !! ["downloaded_models"; "umx_vocals.pth"] = Some (File "trunc")
  ∧ out_fs (DownloadModels.main Examples.env_fresh_host Examples.fs_cached)
    = Examples.fs_cached
  ∧ fetches_of (out_log (DownloadModels.main Examples.env_fresh_host
                           Examples.fs_cached)) = [].
Proof.
  split; [vm_compute; reflexivity|].
  split; [vm_compute; reflexivity|].
  split; [vm_compute; reflexivity|].
  apply download_models_skips_cached; vm_compute; eauto.
Qed.

(** *** Dynamic axes *)

(** C8 (the code departs from it): convert_to_onnx_only exports a
    four-axis input whose last axis its own comment names as time, and
    declares axes 0 and 1 dynamic, not the time axis; the sibling
    convert_open_unmix_2stems does declare its time axis dynamic, on the
    input and on the output. *)
Theorem time_axis_not_dynamic_in_onnx_only :
  length (dummy_input ConvertToOnnxOnly.export_kwargs) = 4
  ∧ ConvertToOnnxOnly.time_axis = 3
  ∧ is_dynamic ConvertToOnnxOnly.export_kwargs "magnitude_spectrogram"
      ConvertToOnnxOnly.time_axis = false
  ∧ is_dynamic ConvertToOnnxOnly.export_kwargs "mask"
      ConvertToOnnxOnly.time_axis = false
  ∧ is_dynamic Convert2Stems.export_kwargs "audio" Convert2Stems.time_axis = true
  ∧ is_dynamic Convert2Stems.export_kwargs "output" Convert2Stems.time_axis = true.
Proof. repeat split. Qed.

(** C9 at a world without torch and onnx-tf. *)
Lemma check_dependencies_complete_witness :
  let E := Examples.env_two_missing in
  let missing := filter (is_missing E) ConvertOpenUnmix.required in
  let r := ConvertOpenUnmix.check_dependencies E ∅ in
  out_fs r = ∅
  ∧ imports_of (out_log r) = ["tensorflowjs"; "torch"; "onnx"; "onnx_tf"]
  ∧ (missing ≠ [] →
     EvPrint ("Missing dependencies: " +:+ String.concat ", " missing)
       ∈ out_log r)
  ∧ (out_res r = Ok false ↔ missing ≠ [])
  ∧ (out_res r = Ok true ↔ missing = [])
  ∧ runs_of (out_log r) = [].
Proof.
  apply (check_dependencies_complete Examples.env_two_missing ∅).
  intros dep c msg Hdep.
  repeat (apply elem_of_cons in Hdep as [->|Hdep]);
    [..|by apply elem_of_nil in Hdep];
    vm_compute; intros [= <- <-]; reflexivity.
Defined.

Example check_dependencies_two_missing :
  out_res (ConvertOpenUnmix.check_dependencies Examples.env_two_missing ∅)
  = Ok false
  ∧ printed "Missing dependencies: torch, onnx-tf"
      (out_log (ConvertOpenUnmix.check_dependencies Examples.env_two_missing ∅))
    = true.
Proof. vm_compute. split; reflexivity. Qed.

(** *** Staging *)

Lemma entry_insert_ne (f : fs) (p q : path) (n : node) :
  q ≠ p → entry (<[q := n]> f) p = entry f p.
Proof. intros Hne. destruct p; [done|]. cbn. by apply lookup_insert_ne. Qed.

Lemma shutil_copy_file (src dst : path) (f : fs) (data : string) :
  entry f dst ≠ Some Dir → entry f src = Some (File data) →
  entry f (parent dst) = Some Dir →
  shutil_copy src dst f = Outcome (<[dst := File data]> f) [] (Ok tt).
Proof.
  intros Hdst Hsrc Hup. unfold shutil_copy, bind, stat.
  destruct (entry f dst) as [[|d]|] eqn:Hd; [done|..];
    rewrite Hsrc, Hup, Hd; done.
Qed.

Section Staging.
Variables (dir : path) (t : string).

Local Abbreviation tfjs := (dir ++ [t]).

Lemma source_not_destination x y : tfjs ++ [x] ≠ dir ++ [y].
Proof.
  intros Heq. apply (f_equal length) in Heq.
  rewrite !length_app in Heq. cbn in Heq. lia.
Qed.

Lemma dir_not_destination y : dir ≠ dir ++ [y].
Proof.
  intros Heq. apply (f_equal length) in Heq.
  rewrite length_app in Heq. cbn in Heq. lia.
Qed.

(** The loop over the globbed weight files. *)
Lemma copy_loop (ws : list path) (g : fs) :
  entry g dir = Some Dir →
  (∀ w, w ∈ ws → ∃ x d, w = tfjs ++ [x] ∧ g !! w = Some (File d)) →
  (∀ w, w ∈ ws → g !! (dir ++ [name w]) ≠ Some Dir) →
  ∃ g', for_each ws (λ w, shutil_copy w (dir ++ [name w])) g
        = Outcome g' [] (Ok tt)
        ∧ (∀ w, w ∈ ws → g' !! (dir ++ [name w]) = g !! w)
        ∧ (∀ p, (∀ w, w ∈ ws → p ≠ dir ++ [name w]) → g' !! p = g !! p).
Proof.
  revert g. induction ws as [|w ws IH]; intros g Hdir Hsrc Hdst.
  - exists g. split; [done|]. split; [|done].
    intros w Hw. by apply elem_of_nil in Hw.
  - destruct (Hsrc w ltac:(by left)) as (x & d & Hw & Hfile).
    assert (Hname : name w = x) by (rewrite Hw; apply name_snoc).
    assert (Hcopy : shutil_copy w (dir ++ [name w]) g
                    = Outcome (<[dir ++ [x] := File d]> g) [] (Ok tt)).
    { rewrite Hname. apply shutil_copy_file.
      - rewrite entry_snoc, <- Hname. apply Hdst. by left.
      - subst w. by rewrite entry_snoc.
      - by rewrite parent_snoc. }
    destruct (IH (<[dir ++ [x] := File d]> g)) as (g' & Hrun & Hin & Hout).
    { rewrite entry_insert_ne; [done|]. apply not_eq_sym, dir_not_destination. }
    { intros w' Hw'. destruct (Hsrc w' ltac:(by right)) as (x' & d' & -> & Hf').
      exists x', d'. split; [done|].
      rewrite lookup_insert_ne; [done|]. apply not_eq_sym, source_not_destination. }
    { intros w' Hw'. destruct (decide (name w' = x)) as [->|Hne].
      - by rewrite lookup_insert_eq.
      - rewrite lookup_insert_ne
          by (intros Heq%app_inv_head; injection Heq; congruence).
        apply Hdst. by right. }
    exists g'. split; [|split].
    + cbn [for_each]. rewrite (bind_Ok _ _ _ _ _ _ Hcopy). by rewrite Hrun.
    + intros w0 Hw0. destruct (decide (w0 ∈ ws)) as [Hin0|Hnin].
      * rewrite Hin by done.
        destruct (Hsrc w0 Hw0) as (x0 & d0 & -> & _).
        rewrite lookup_insert_ne; [done|].
        apply not_eq_sym, source_not_destination.
      * apply elem_of_cons in Hw0 as [->|?]; [|done].
        rewrite Hout, Hname, lookup_insert_eq; [done|].
        intros w' Hw' Heq. apply Hnin.
        destruct (Hsrc w' ltac:(by right)) as (x' & d' & -> & _).
        rewrite Hw, !name_snoc in Heq.
        apply app_inv_head in Heq. injection Heq as ->. by rewrite Hw.
    + intros p Hp. rewrite Hout by (intros w' Hw'; apply Hp; by right).
      rewrite lookup_insert_ne; [done|].
      rewrite <- Hname. apply not_eq_sym, Hp. by left.
Qed.

End Staging.

Lemma ends_with_bin_model_json : ends_with ".bin" "model.json" = false.
Proof. vm_compute. reflexivity. Qed.

(** The steps of staging, one by one. *)
Lemma staged_steps (dir : path) (f : fs) :
  stageable (dir ++ ["tfjs_model"]) dir f →
  ∃ graph ws g',
    f !! ((dir ++ ["tfjs_model"]) ++ ["model.json"]) = Some (File graph)
    ∧ entry f (dir ++ ["model.json"]) ≠ Some Dir
    ∧ entry f dir = Some Dir
    ∧ path_exists ((dir ++ ["tfjs_model"]) ++ ["model.json"]) f
      = Outcome f [] (Ok true)
    ∧ shutil_copy ((dir ++ ["tfjs_model"]) ++ ["model.json"])
        (dir ++ ["model.json"]) f
      = Outcome (<[dir ++ ["model.json"] := File graph]> f) [] (Ok tt)
    ∧ glob_suffix (dir ++ ["tfjs_model"]) ".bin"
        (<[dir ++ ["model.json"] := File graph]> f)
      = Outcome (<[dir ++ ["model.json"] := File graph]> f) [] (Ok ws)
    ∧ entry (<[dir ++ ["model.json"] := File graph]> f) dir = Some Dir
    ∧ (∀ w, w ∈ ws →
         ∃ x d, w = (dir ++ ["tfjs_model"]) ++ [x]
                ∧ <[dir ++ ["model.json"] := File graph]> f !! w = Some (File d))
    ∧ (∀ w, w ∈ ws →
         <[dir ++ ["model.json"] := File graph]> f !! (dir ++ [name w]) ≠ Some Dir)
    ∧ (∀ w, w ∈ ws →
         ∃ x, w = (dir ++ ["tfjs_model"]) ++ [x] ∧ ends_with ".bin" x = true
              ∧ is_Some (f !! ((dir ++ ["tfjs_model"]) ++ [x])))
    ∧ for_each ws (λ w, shutil_copy w (dir ++ [name w]))
        (<[dir ++ ["model.json"] := File graph]> f)
      = Outcome g' [] (Ok tt)
    ∧ ∀ p, g' !! p = staged_entry (dir ++ ["tfjs_model"]) dir f p.
Proof.
  intros (Hdir & [graph Hgraph] & Hall).
  set (tfjs := dir ++ ["tfjs_model"]) in *.
  set (dst := dir ++ ["model.json"]).
  assert (Hnodir : ∀ x, destination_name x → f !! (dir ++ [x]) ≠ Some Dir).
  { intros x Hx Hd. destruct (Hall _ _ Hd eq_refl) as [_ Hno]. apply Hno.
    split; [by destruct dir|]. by rewrite parent_snoc, name_snoc. }
  assert (Hfiles : ∀ x n, ends_with ".bin" x = true →
                     f !! (tfjs ++ [x]) = Some n → ∃ d, n = File d).
  { intros x [|d] Hx Hn; [|by eexists].
    destruct (Hall _ _ Hn eq_refl) as [Hno _]. destruct Hno.
    split; [by destruct tfjs|]. by rewrite parent_snoc, name_snoc. }
  set (f1 := <[dst := File graph]> f).
  assert (Hsrc1 : ∀ x, f1 !! (tfjs ++ [x]) = f !! (tfjs ++ [x])).
  { intros x. apply lookup_insert_ne, not_eq_sym, source_not_destination. }
  set (ws := elements (dom (filter (λ kv, glob_match tfjs ".bin" kv.1) f1))).
  assert (Hws : ∀ w, w ∈ ws ↔
                  ∃ x, w = tfjs ++ [x] ∧ ends_with ".bin" x = true
                       ∧ is_Some (f !! (tfjs ++ [x]))).
  { intros w. unfold ws. rewrite elem_of_elements, elem_of_dom. split.
    - intros [n Hn]. apply map_lookup_filter_Some in Hn as [Hn (Hne & Hpar & Hend)].
      cbn in *. exists (name w).
      assert (w = tfjs ++ [name w]) as Hw.
      { rewrite <- Hpar. by apply app_removelast_last. }
      split; [done|]. split; [done|]. rewrite <- Hsrc1, <- Hw. eauto.
    - intros (x & -> & Hend & [n Hn]). exists n.
      apply map_lookup_filter_Some. split; [by rewrite Hsrc1|]. cbn.
      split; [by destruct tfjs|]. by rewrite parent_snoc, name_snoc. }
  assert (Hdir1 : entry f1 dir = Some Dir).
  { unfold f1. rewrite entry_insert_ne; [done|].
    apply not_eq_sym, dir_not_destination. }
  assert (Hsrcs : ∀ w, w ∈ ws → ∃ x d, w = tfjs ++ [x] ∧ f1 !! w = Some (File d)).
  { intros w (x & -> & Hend & [n Hn])%Hws.
    destruct (Hfiles x n Hend Hn) as [d ->]. exists x, d.
    split; [done|]. by rewrite Hsrc1. }
  assert (Hdsts : ∀ w, w ∈ ws → f1 !! (dir ++ [name w]) ≠ Some Dir).
  { intros w (x & -> & Hend & _)%Hws. rewrite name_snoc. unfold f1.
    destruct (decide (dst = dir ++ [x])) as [<-|Hne].
    - by rewrite lookup_insert_eq.
    - rewrite lookup_insert_ne by done. apply Hnodir. by right. }
  destruct (copy_loop dir "tfjs_model" ws f1 Hdir1 Hsrcs Hdsts)
    as (g' & Hrun & Hin & Hout).
  exists graph, ws, g'.
  split; [done|]. split.
  { unfold dst. rewrite entry_snoc. apply Hnodir. by left. }
  split; [done|]. split.
  { unfold path_exists, bind, stat. rewrite entry_snoc. by rewrite Hgraph. }
  split.
  { apply shutil_copy_file.
    + unfold dst. rewrite entry_snoc. apply Hnodir. by left.
    + by rewrite entry_snoc.
    + unfold dst. by rewrite parent_snoc. }
  split; [done|]. split; [done|]. split; [done|]. split; [done|].
  split; [intros w Hw; by apply Hws|]. split; [done|].
  intros p. unfold staged_entry.
  destruct (decide (destination tfjs dir f p))
    as [(Hne & Hpar & Hname & Hsome)|Hnot].
  + assert (Hp : p = dir ++ [name p]).
    { rewrite <- Hpar. by apply app_removelast_last. }
    destruct (ends_with ".bin" (name p)) eqn:Hend.
    * assert (Hw : tfjs ++ [name p] ∈ ws) by (apply Hws; eauto).
      specialize (Hin _ Hw). rewrite name_snoc, <- Hp in Hin.
      etrans; [exact Hin|apply Hsrc1].
    * destruct Hname as [Hmj|?]; [|congruence].
      rewrite Hout.
      -- rewrite Hp, Hmj. unfold f1, dst.
         by rewrite lookup_insert_eq, name_snoc.
      -- intros w (x & -> & Hx & _)%Hws Heq. rewrite name_snoc in Heq.
         rewrite Hp in Heq. apply app_inv_head in Heq.
         injection Heq as Heq. congruence.
  + rewrite Hout.
    * unfold f1. apply lookup_insert_ne. intros <-. apply Hnot.
      unfold dst.
      split; [by destruct dir|]. rewrite parent_snoc, name_snoc.
      split; [done|]. split; [by left|]. by rewrite Hgraph.
    * intros w (x & -> & Hx & Hsome)%Hws ->. apply Hnot.
      rewrite name_snoc.
      split; [by destruct dir|]. rewrite parent_snoc, name_snoc.
      split; [done|]. split; [by right|done].
Qed.

Lemma staged_fs (dir : path) (f : fs) :
  stageable (dir ++ ["tfjs_model"]) dir f →
  ∃ f1 ws g',
    path_exists ((dir ++ ["tfjs_model"]) ++ ["model.json"]) f
    = Outcome f [] (Ok true)
    ∧ shutil_copy ((dir ++ ["tfjs_model"]) ++ ["model.json"])
        (dir ++ ["model.json"]) f = Outcome f1 [] (Ok tt)
    ∧ glob_suffix (dir ++ ["tfjs_model"]) ".bin" f1 = Outcome f1 [] (Ok ws)
    ∧ for_each ws (λ w, shutil_copy w (dir ++ [name w])) f1
      = Outcome g' [] (Ok tt)
    ∧ ∀ p, g' !! p = staged_entry (dir ++ ["tfjs_model"]) dir f p.
Proof.
  intros Hst.
  destruct (staged_steps dir f Hst)
    as (graph & ws & g' & _ & _ & _ & Hex & Hcopy & Hglob & _ & _ & _ & _ & Hloop & Hfs).
  by exists (<[dir ++ ["model.json"] := File graph]> f), ws, g'.
Qed.

(** *** What a concurrent reader can see *)

Lemma copy_states_file (src dst : path) (f : fs) (data : string) :
  entry f dst ≠ Some Dir → entry f src = Some (File data) →
  entry f (parent dst) = Some Dir →
  shutil_copy_states src dst f = [<[dst := File ""]> f; <[dst := File data]> f].
Proof.
  intros Hdst Hsrc Hup. unfold shutil_copy_states, copy_target.
  rewrite (shutil_copy_file src dst f data) by done.
  cbn [out_res out_fs]. by destruct (entry f dst) as [[|d]|].
Qed.

Section StagingStates.
Variables (dir : path) (t : string).

Local Abbreviation tfjs := (dir ++ [t]).
Local Abbreviation copies :=
  (λ ws : list path, (λ w, (w, dir ++ [name w])) <$> ws).

(** While the weight files are copied, a path holds what it held, or it
    is the destination of one of the copies and holds a file; the last
    state is the one the loop leaves. *)
Lemma weights_states (ws : list path) (g g' : fs) :
  entry g dir = Some Dir →
  (∀ w, w ∈ ws → ∃ x d, w = tfjs ++ [x] ∧ g !! w = Some (File d)) →
  (∀ w, w ∈ ws → g !! (dir ++ [name w]) ≠ Some Dir) →
  for_each ws (λ w, shutil_copy w (dir ++ [name w])) g = Outcome g' [] (Ok tt) →
  default g (last (copies_states (copies ws) g)) = g'
  ∧ ∀ h, h ∈ copies_states (copies ws) g →
      ∀ p, h !! p = g !! p
           ∨ ((∃ w, w ∈ ws ∧ p = dir ++ [name w]) ∧ ∃ d, h !! p = Some (File d)).
Proof.
  revert g. induction ws as [|w ws IH]; intros g Hdir Hsrc Hdst Hrun.
  - cbn in *. split; [by injection Hrun|]. intros h Hh. by apply elem_of_nil in Hh.
  - destruct (Hsrc w ltac:(by left)) as (x & d & Hw & Hfile).
    assert (Hname : name w = x) by (rewrite Hw; apply name_snoc).
    assert (Hnd : entry g (dir ++ [name w]) ≠ Some Dir).
    { rewrite entry_snoc. apply Hdst. by left. }
    assert (Hsw : entry g w = Some (File d)).
    { rewrite Hw, entry_snoc, <- Hw. done. }
    assert (Hup : entry g (parent (dir ++ [name w])) = Some Dir).
    { by rewrite parent_snoc. }
    pose proof (shutil_copy_file w (dir ++ [name w]) g d Hnd Hsw Hup) as Hcopy.
    pose proof (copy_states_file w (dir ++ [name w]) g d Hnd Hsw Hup) as Hstates.
    set (g1 := <[dir ++ [name w] := File d]> g) in *.
    cbn [for_each] in Hrun. rewrite (bind_Ok _ _ _ _ _ _ Hcopy), after_nil in Hrun.
    destruct (IH g1) as [IHlast IHinv]; [| | |exact Hrun|].
    { unfold g1. rewrite entry_insert_ne; [done|].
      apply not_eq_sym, dir_not_destination. }
    { intros w' Hw'. destruct (Hsrc w' ltac:(by right)) as (x' & d' & -> & Hf').
      exists x', d'. split; [done|]. unfold g1.
      rewrite lookup_insert_ne; [done|]. apply not_eq_sym, source_not_destination. }
    { intros w' Hw'. unfold g1.
      destruct (decide (dir ++ [name w] = dir ++ [name w'])) as [<-|Hne].
      - by rewrite lookup_insert_eq.
      - rewrite lookup_insert_ne by done. apply Hdst. by right. }
    cbn [copies_states fmap list_fmap fst snd].
    rewrite Hstates, Hcopy. cbn [out_res out_fs]. split.
    + rewrite last_app. subst g1.
      destruct (last (copies_states _ _)) as [y|]; cbn in *; done.
    + intros h Hh p. apply elem_of_app in Hh as [Hh|Hh].
      * destruct (decide (p = dir ++ [name w])) as [->|Hne].
        -- right. split; [exists w; split; [by left|done]|].
           apply elem_of_cons in Hh as [->|Hh];
             [|apply list_elem_of_singleton in Hh as ->];
             rewrite lookup_insert_eq; by eexists.
        -- left.
           apply elem_of_cons in Hh as [->|Hh];
             [|apply list_elem_of_singleton in Hh as ->];
             by rewrite lookup_insert_ne.
      * destruct (IHinv h Hh p) as [Heq|[(w' & Hw' & ->) Hd]].
        -- destruct (decide (p = dir ++ [name w])) as [->|Hne].
           ++ right. split; [exists w; split; [by left|done]|].
              rewrite Heq. unfold g1. rewrite lookup_insert_eq. by eexists.
           ++ left. rewrite Heq. unfold g1. by rewrite lookup_insert_ne.
        -- right. split; [|done]. exists w'. split; [by right|done].
Qed.

End StagingStates.

(** The states observable during staging: the graph descriptor is first
    truncated, then filled; while the weight files follow, every path holds
    what it held before the staging or is a destination that holds a file. *)
Lemma staging_observed (dir : path) (f : fs) :
  stageable (dir ++ ["tfjs_model"]) dir f →
  ∃ graph rest g',
    f !! ((dir ++ ["tfjs_model"]) ++ ["model.json"]) = Some (File graph)
    ∧ staging_states (dir ++ ["tfjs_model"]) dir f
      = <[dir ++ ["model.json"] := File ""]> f
        :: <[dir ++ ["model.json"] := File graph]> f :: rest
    ∧ last (staging_states (dir ++ ["tfjs_model"]) dir f) = Some g'
    ∧ (∀ p, g' !! p = staged_entry (dir ++ ["tfjs_model"]) dir f p)
    ∧ ∀ h, h ∈ staging_states (dir ++ ["tfjs_model"]) dir f →
        ∀ p, h !! p = f !! p
             ∨ (destination (dir ++ ["tfjs_model"]) dir f p
                ∧ ∃ d, h !! p = Some (File d)).
Proof.
  intros Hst.
  destruct (staged_steps dir f Hst)
    as (graph & ws & g' & Hgraph & Hnd & Hdir & Hex & Hcopy & Hglob & Hdir1
        & Hsrcs & Hdsts & Hws & Hloop & Hfs).
  set (tfjs := dir ++ ["tfjs_model"]) in *.
  set (f1 := <[dir ++ ["model.json"] := File graph]> f) in *.
  destruct (weights_states dir "tfjs_model" ws f1 g' Hdir1 Hsrcs Hdsts Hloop)
    as [Hlast Hinv].
  assert (Hmj : destination tfjs dir f (dir ++ ["model.json"])).
  { split; [by destruct dir|]. rewrite parent_snoc, name_snoc.
    split; [done|]. split; [by left|]. by rewrite Hgraph. }
  assert (Hstates : staging_states tfjs dir f
            = <[dir ++ ["model.json"] := File ""]> f :: f1
              :: copies_states ((λ w, (w, dir ++ [name w])) <$> ws) f1).
  { unfold staging_states, stage_copies. rewrite Hex. cbn [out_res].
    rewrite Hcopy. cbn [out_res out_fs]. fold f1. rewrite Hglob. cbn [out_res].
    cbn [copies_states fst snd].
    rewrite (copy_states_file _ _ f graph);
      [|done|by rewrite entry_snoc|by rewrite parent_snoc].
    rewrite Hcopy. cbn [out_res out_fs]. done. }
  exists graph, (copies_states ((λ w, (w, dir ++ [name w])) <$> ws) f1), g'.
  split; [done|]. split; [done|]. split; [|split; [done|]].
  - rewrite Hstates, !last_cons.
    destruct (last (copies_states _ f1)) as [y|]; cbn in Hlast; by subst.
  - intros h Hh p. rewrite Hstates in Hh.
    assert (Hf1 : ∀ q, f1 !! q = f !! q
                       ∨ (destination tfjs dir f q ∧ ∃ d, f1 !! q = Some (File d))).
    { intros q. destruct (decide (q = dir ++ ["model.json"])) as [->|Hne].
      - right. split; [done|]. unfold f1. rewrite lookup_insert_eq. by eexists.
      - left. unfold f1. by rewrite lookup_insert_ne. }
    apply elem_of_cons in Hh as [->|Hh].
    { destruct (decide (p = dir ++ ["model.json"])) as [->|Hne].
      - right. split; [done|]. rewrite lookup_insert_eq. by eexists.
      - left. by rewrite lookup_insert_ne. }
    apply elem_of_cons in Hh as [->|Hh]; [apply Hf1|].
    destruct (Hinv h Hh p) as [Heq|[(w & Hw & ->) Hd]].
    + destruct (Hf1 p) as [H1|[H1 [d' H2]]].
      * left. etrans; [exact Heq|exact H1].
      * right. split; [done|]. exists d'. etrans; [exact Heq|exact H2].
    + right. split; [|done].
      destruct (Hws w Hw) as (x & -> & Hend & Hsome). rewrite name_snoc.
      split; [by destruct dir|]. rewrite parent_snoc, name_snoc.
      split; [done|]. split; [by right|done].
Qed.
(** C7 is not what the scripts do.  Staging the vocals model over a
    complete earlier output (a graph descriptor and one weight shard),
    without any instruction to replace it: a concurrent reader of
    [model.json] can find it empty, neither the old descriptor nor the new
    one; and when staging is through the new descriptor stands next to the
    old weight shard. *)
Lemma prior_output_overwritten_in_part :
  let dir := Examples.vocals_dir in
  let f := Examples.fs_before_staging in
  let r := Convert2Stems.stage "vocals" (dir ++ ["tfjs_model"]) dir f in
  f !! (dir ++ ["model.json"]) = Some (File "old-graph")
  ∧ f !! (dir ++ ["group1-shard1of1.bin"]) = Some (File "old-weights")
  ∧ head ((λ g : fs, g !! (dir ++ ["model.json"]))
            <$> staging_states (dir ++ ["tfjs_model"]) dir f)
    = Some (Some (File ""))
  ∧ out_res r = Ok tt
  ∧ out_fs r !! (dir ++ ["model.json"]) = Some (File "new-graph")
  ∧ out_fs r !! (dir ++ ["group1-shard1of1.bin"]) = Some (File "old-weights").
Proof. vm_compute. repeat split. Qed.

(** C7, amended: staging is neither atomic nor asked before it replaces.
    In both scripts, when staging can go through (the directory of the stem
    is there, the converter has left a graph descriptor, and no directory
    stands among the converter's weight files or at the name of a
    destination), the staging block returns normally and afterwards every
    destination ([model.json] and each [*.bin] of the converter's
    directory, under the same name in the directory of the stem) holds the
    bytes of its source, whatever it held before, and every other path
    holds what it held before: the other files of an earlier output stay.
    The copies write in place.  The first states a concurrent reader can
    observe are the one in which [model.json] of the stem is empty and the
    one in which it holds the new descriptor while everything else is as
    before; the last is the state the block leaves; and in every observable
    state a path holds what it held before the staging, or it is a
    destination and holds a file: no path appears under another name (no
    temporary file) and none disappears (no rename). *)
Theorem staging_copies_in_place (stem : string) (dir : path) (f : fs) :
  stageable (dir ++ ["tfjs_model"]) dir f →
  let tfjs := dir ++ ["tfjs_model"] in
  let r2 := Convert2Stems.stage stem tfjs dir f in
  let ru := ConvertUmxToTfjs.stage tfjs dir f in
  let states := staging_states tfjs dir f in
  (out_res r2 = Ok tt ∧ ∀ p, out_fs r2 !! p = staged_entry tfjs dir f p)
  ∧ (out_res ru = Ok tt ∧ ∀ p, out_fs ru !! p = staged_entry tfjs dir f p)
  ∧ (∃ graph rest,
       f !! (tfjs ++ ["model.json"]) = Some (File graph)
       ∧ states = <[dir ++ ["model.json"] := File ""]> f
                  :: <[dir ++ ["model.json"] := File graph]> f :: rest)
  ∧ last states = Some (out_fs r2)
  ∧ last states = Some (out_fs ru)
  ∧ (∀ h, h ∈ states →
       ∀ p, h !! p = f !! p
            ∨ (destination tfjs dir f p ∧ ∃ d, h !! p = Some (File d))).
Proof.
  intros Hst tfjs r2 ru states.
  destruct (staged_steps dir f Hst)
    as (graph & ws & g' & _ & _ & _ & Hex & Hcopy & Hglob & _ & _ & _ & _
        & Hloop & Hfs).
  destruct (staging_observed dir f Hst)
    as (graph' & rest & g'' & Hgraph & Hstates & Hlast & Hfs' & Hinv).
  assert (g'' = g') as ->.
  { apply map_eq. intros p. by rewrite Hfs, Hfs'. }
  assert (H2 : ∃ l, r2 = Outcome g' l (Ok tt)).
  { unfold r2, Convert2Stems.stage.
    rewrite (bind_Ok _ _ _ _ _ _ Hex), (bind_Ok _ _ _ _ _ _ Hcopy),
      (bind_Ok _ _ _ _ _ _ Hglob), (bind_Ok _ _ _ _ _ _ Hloop).
    by eexists. }
  assert (Hu : ∃ l, ru = Outcome g' l (Ok tt)).
  { unfold ru, ConvertUmxToTfjs.stage.
    rewrite (bind_Ok _ _ _ _ _ _ Hex), (bind_Ok _ _ _ _ _ _ Hcopy), bind_print,
      (bind_Ok _ _ _ _ _ _ Hglob), (bind_Ok _ _ _ _ _ _ Hloop).
    by eexists. }
  destruct H2 as [l2 ->]. destruct Hu as [lu ->]. cbn [out_res out_fs].
  split; [done|]. split; [done|]. split; [by exists graph', rest|].
  split; [done|]. split; [done|]. exact Hinv.
Qed.

Lemma staging_copies_in_place_witness :
  let dir := Examples.vocals_dir in
  let f := Examples.fs_before_staging in
  let tfjs := dir ++ ["tfjs_model"] in
  let r2 := Convert2Stems.stage "vocals" tfjs dir f in
  let ru := ConvertUmxToTfjs.stage tfjs dir f in
  let states := staging_states tfjs dir f in
  (out_res r2 = Ok tt ∧ ∀ p, out_fs r2 !! p = staged_entry tfjs dir f p)
  ∧ (out_res ru = Ok tt ∧ ∀ p, out_fs ru !! p = staged_entry tfjs dir f p)
  ∧ (∃ graph rest,
       f !! (tfjs ++ ["model.json"]) = Some (File graph)
       ∧ states = <[dir ++ ["model.json"] := File ""]> f
                  :: <[dir ++ ["model.json"] := File graph]> f :: rest)
  ∧ last states = Some (out_fs r2)
  ∧ last states = Some (out_fs ru)
  ∧ (∀ h, h ∈ states →
       ∀ p, h !! p = f !! p
            ∨ (destination tfjs dir f p ∧ ∃ d, h !! p = Some (File d))).
Proof.
  intros dir f.
  apply (staging_copies_in_place "vocals" dir f).
  split; [vm_compute; reflexivity|].
  split; [eexists; vm_compute; reflexivity|].
  apply (bool_decide_unpack _). vm_compute. reflexivity.
Defined.

(** The staged tree of that example: the graph descriptor is replaced, the
    new shards are added, and the shard of the earlier output stays; in
    between, [model.json] is seen empty once. *)
Example staged_example :
  let dir := Examples.vocals_dir in
  let f := Examples.fs_before_staging in
  staged_entry (dir ++ ["tfjs_model"]) dir f (dir ++ ["model.json"])
  = Some (File "new-graph")
  ∧ staged_entry (dir ++ ["tfjs_model"]) dir f (dir ++ ["group1-shard1of2.bin"])
    = Some (File "new-weights-1")
  ∧ staged_entry (dir ++ ["tfjs_model"]) dir f (dir ++ ["group1-shard1of1.bin"])
    = Some (File "old-weights")
  ∧ (λ g : fs, g !! (dir ++ ["model.json"]))
      <$> staging_states (dir ++ ["tfjs_model"]) dir f
    = [Some (File ""); Some (File "new-graph"); Some (File "new-graph");
       Some (File "new-graph"); Some (File "new-graph"); Some (File "new-graph")].
Proof. vm_compute. repeat split. Qed.

(** ** Further properties of the scripts *)

(** *** Computations that always return *)

Lemma returns_ret {A} (a : A) : returns (ret a).
Proof. intros f. by exists a. Qed.

Lemma returns_emit ev : returns (emit ev).
Proof. intros f. by exists tt. Qed.

Lemma returns_print line : returns (print line).
Proof. apply returns_emit. Qed.

Lemma returns_bind {A B} (m : Py A) (k : A → Py B) :
  returns m → (∀ a, returns (k a)) → returns (bind m k).
Proof.
  intros Hm Hk f. destruct (Hm f) as [a Ha].
  destruct (Hk a (out_fs (m f))) as [b Hb]. exists b.
  by rewrite (bind_res _ _ _ _ Ha).
Qed.

Lemma returns_for_each {A} (l : list A) (body : A → Py unit) :
  (∀ x, returns (body x)) → returns (for_each l body).
Proof.
  intros Hb. induction l as [|x l IH]; cbn [for_each].
  - apply returns_ret.
  - apply returns_bind; [apply Hb|]. intros _. apply IH.
Qed.

Lemma returns_for_fold {A S} (l : list A) (body : S → A → Py S) (s : S) :
  (∀ s x, returns (body s x)) → returns (for_fold l body s).
Proof.
  intros Hb. revert s. induction l as [|x l IH]; intros s; cbn [for_fold].
  - apply returns_ret.
  - apply returns_bind; [apply Hb|]. intros s'. apply IH.
Qed.

(** [try: m except Exception: h] returns when the handler does. *)
Lemma returns_try {A} (m : Py A) (h : exn → Py A) :
  exc_only m → (∀ e, returns (h e)) → returns (try_except m is_Exception h).
Proof.
  intros Hm Hh f. unfold try_except. pose proof (Hm f) as He.
  destruct (m f) as [f1 l1 [a|e]]; cbn [out_res] in He.
  - by exists a.
  - rewrite (He e eq_refl). destruct (Hh e f1) as [b Hb]. by exists b.
Qed.

Lemma returns_stat p : returns (stat p).
Proof. intros f. by eexists. Qed.

Lemma returns_path_exists p : returns (path_exists p).
Proof. intros f. by eexists. Qed.

Lemma returns_exc_only {A} (m : Py A) : returns m → exc_only m.
Proof. intros Hm f e He. destruct (Hm f) as [a Ha]. congruence. Qed.

Lemma returns_exit_code {A} (m : Py A) (f : fs) : returns m → exit_code (m f) = 0%Z.
Proof. intros Hm. destruct (Hm f) as [a Ha]. by apply (exit_code_Ok _ a). Qed.

(** *** Paths a computation leaves alone *)

Lemma frames_preserves (W : path → Prop) {A} (m : Py A) :
  frames W m ↔ preserves (λ _ p, ¬ W p) m.
Proof. done. Qed.

Section Preserves.
Variable Q : fs → path → Prop.
Hypothesis Q_stable : ∀ f f' p, Q f p → f' !! p = f !! p → Q f' p.

Local Abbreviation preserves := (preserves Q).

Lemma preserves_ret {A} (a : A) : preserves (ret a).
Proof. by intros f p _. Qed.

Lemma preserves_raise {A} (e : exn) : preserves (raise (A:=A) e).
Proof. by intros f p _. Qed.

Lemma preserves_emit (ev : event) : preserves (emit ev).
Proof. by intros f p _. Qed.

Lemma preserves_print (line : string) : preserves (print line).
Proof. by intros f p _. Qed.

Lemma preserves_bind {A B} (m : Py A) (k : A → Py B) :
  preserves m → (∀ a, preserves (k a)) → preserves (bind m k).
Proof.
  intros Hm Hk f p Hp. unfold bind. pose proof (Hm f p Hp) as H1.
  destruct (m f) as [f1 l1 [a|e]]; cbn [out_fs] in *; [|done].
  rewrite <- H1. apply Hk. by apply (Q_stable f).
Qed.

Lemma preserves_bind_post {A B} (P : A → Prop) (m : Py A) (k : A → Py B) :
  preserves m → (∀ f a, out_res (m f) = Ok a → P a) →
  (∀ a, P a → preserves (k a)) → preserves (bind m k).
Proof.
  intros Hm HP Hk f p Hp. unfold bind. pose proof (Hm f p Hp) as H1.
  pose proof (HP f) as H2.
  destruct (m f) as [f1 l1 [a|e]]; cbn [out_fs out_res] in *; [|done].
  rewrite <- H1. apply Hk; [by apply H2|]. by apply (Q_stable f).
Qed.

Lemma preserves_try_except {A} (m : Py A) (catches : exn → bool) (h : exn → Py A) :
  preserves m → (∀ e, preserves (h e)) → preserves (try_except m catches h).
Proof.
  intros Hm Hh f p Hp. unfold try_except. pose proof (Hm f p Hp) as H1.
  destruct (m f) as [f1 l1 [a|e]]; cbn [out_fs] in *; [done|].
  destruct (catches e); cbn [out_fs after]; [|done].
  rewrite <- H1. apply Hh. by apply (Q_stable f).
Qed.

Lemma preserves_for_each {A} (l : list A) (body : A → Py unit) :
  (∀ x, x ∈ l → preserves (body x)) → preserves (for_each l body).
Proof.
  induction l as [|x l IH]; intros Hb; cbn [for_each].
  - apply preserves_ret.
  - apply preserves_bind; [apply Hb; left|].
    intros _. apply IH. intros y Hy. apply Hb. by right.
Qed.

Lemma preserves_for_fold {A S} (l : list A) (body : S → A → Py S) (s : S) :
  (∀ s x, x ∈ l → preserves (body s x)) → preserves (for_fold l body s).
Proof.
  revert s. induction l as [|x l IH]; intros s Hb; cbn [for_fold].
  - apply preserves_ret.
  - apply preserves_bind; [apply Hb; left|].
    intros s'. apply IH. intros s'' y Hy. apply Hb. by right.
Qed.

Lemma preserves_stat (p : path) : preserves (stat p).
Proof. by intros f q _. Qed.

Lemma preserves_lookup_path (p : path) : preserves (lookup_path p).
Proof. by intros f q _. Qed.

Lemma preserves_path_exists (p : path) : preserves (path_exists p).
Proof. by intros f q _. Qed.

Lemma preserves_path_is_dir (p : path) : preserves (path_is_dir p).
Proof. by intros f q _. Qed.

Lemma preserves_call {A} (a : answer A) : preserves (call a).
Proof. destruct a; [apply preserves_ret|apply preserves_raise]. Qed.

Lemma preserves_raise_if r : preserves (raise_if r).
Proof. destruct r as [[c msg]|]; [apply preserves_raise|apply preserves_ret]. Qed.

Lemma preserves_glob_suffix d suffix : preserves (glob_suffix d suffix).
Proof. by intros f q _. Qed.

Lemma preserves_read_subtree base : preserves (read_subtree base).
Proof. by intros f q _. Qed.

(** A write at [p] preserves what [Q] never holds of at [p]. *)
Lemma preserves_store (p : path) (n : node) :
  (∀ f, ¬ Q f p) → preserves (store p n).
Proof.
  intros Hp f q Hq. cbn. apply lookup_insert_ne. intros ->. by apply (Hp f).
Qed.

Lemma preserves_run_file_effect (dst : path) (e : file_effect) :
  (∀ f, ¬ Q f dst) → preserves (run_file_effect dst e).
Proof.
  intros Hp. unfold run_file_effect. apply preserves_bind.
  - destruct (fe_written e); [by apply preserves_store|apply preserves_ret].
  - intros _. apply preserves_raise_if.
Qed.

Lemma preserves_run_tree_effect (base : path) (e : tree_effect) :
  (∀ f rel, ¬ Q f (base ++ rel)) → preserves (run_tree_effect base e).
Proof.
  intros Hp. unfold run_tree_effect. apply preserves_bind.
  - apply preserves_for_each. intros w _. apply preserves_store. intros f. apply Hp.
  - intros _. apply preserves_raise_if.
Qed.

(** [os.mkdir] writes only where nothing is. *)
Lemma preserves_os_mkdir (p : path) :
  (∀ f, entry f p = None → ¬ Q f p) → preserves (os_mkdir p).
Proof.
  intros Hp f q Hq. unfold os_mkdir, bind, stat. cbn.
  destruct (entry f (parent p)) as [[|?]|]; cbn; [|done..].
  destruct (entry f p) as [n|] eqn:Hn; cbn; [done|].
  apply lookup_insert_ne. intros ->. by apply (Hp f).
Qed.

Lemma preserves_Path_mkdir_rec (d : nat) (parents exist_ok : bool) (p : path) :
  (∀ f q, q `prefix_of` p → entry f q = None → ¬ Q f q) →
  preserves (Path_mkdir_rec d parents exist_ok p).
Proof.
  revert parents exist_ok p. induction d as [|d IH]; intros parents exist_ok p Hp;
    cbn [Path_mkdir_rec].
  - apply preserves_try_except; [apply preserves_os_mkdir; intros f; by apply Hp|].
    intros e. destruct (is_FileNotFoundError e).
    + destruct (negb parents || bool_decide (parent p = p)); apply preserves_raise.
    + apply preserves_bind; [apply preserves_path_is_dir|].
      intros isd. destruct (negb exist_ok || negb isd);
        [apply preserves_raise|apply preserves_ret].
  - apply preserves_try_except; [apply preserves_os_mkdir; intros f; by apply Hp|].
    intros e. destruct (is_FileNotFoundError e).
    + destruct (negb parents || bool_decide (parent p = p)); [apply preserves_raise|].
      apply preserves_bind.
      * apply IH. intros f q Hq. apply Hp. etrans; [done|].
        unfold parent. rewrite removelast_firstn_len. apply prefix_take.
      * intros _. by apply IH.
    + apply preserves_bind; [apply preserves_path_is_dir|].
      intros isd. destruct (negb exist_ok || negb isd);
        [apply preserves_raise|apply preserves_ret].
Qed.

Lemma preserves_Path_mkdir (parents exist_ok : bool) (p : path) :
  (∀ f q, q `prefix_of` p → entry f q = None → ¬ Q f q) →
  preserves (Path_mkdir parents exist_ok p).
Proof. apply preserves_Path_mkdir_rec. Qed.

End Preserves.

Lemma keeps_stable (f f' : fs) (p : path) :
  is_Some (f !! p) → f' !! p = f !! p → is_Some (f' !! p).
Proof. by intros ? ->. Qed.

Lemma entry_None_not_Some (f : fs) (q : path) :
  entry f q = None → ¬ is_Some (f !! q).
Proof. destruct q; [done|]. cbn. intros ->. by intros [? ?]. Qed.

Lemma keeps_existing_Path_mkdir (parents exist_ok : bool) (p : path) :
  keeps_existing (Path_mkdir parents exist_ok p).
Proof.
  apply preserves_Path_mkdir; [apply keeps_stable|].
  intros f q _. apply entry_None_not_Some.
Qed.

(** *** scripts/download_models.py and scripts/download_and_convert.py *)

Lemma run_file_effect_eq (dst : path) (e : file_effect) (f : fs) :
  run_file_effect dst e f
  = Outcome (match fe_written e with Some d => <[dst := File d]> f | None => f end)
      []
      (match fe_raised e with
       | Some (c, msg) => Raise (Exc c msg)
       | None => Ok tt
       end).
Proof. by destruct e as [[d|] [[c msg]|]]. Qed.

Lemma for_each_print {A} (l : list A) (line : A → string) (f : fs) :
  for_each l (λ x, print (line x)) f = Outcome f (EvPrint <$> (line <$> l)) (Ok tt).
Proof.
  induction l as [|x l IH]; [done|].
  cbn [for_each]. by rewrite bind_print, IH.
Qed.

Lemma fetches_of_print_fetch (lines1 lines2 : list string) url dst :
  fetches_of ((EvPrint <$> lines1) ++ EvFetch url dst :: (EvPrint <$> lines2)) = [url].
Proof.
  rewrite fetches_of_app, fetches_of_prints. cbn.
  fold (fetches_of (EvPrint <$> lines2)). by rewrite fetches_of_prints.
Qed.

Lemma path_exists_missing (p : path) (f : fs) :
  p ≠ [] → f !! p = None → path_exists p f = Outcome f [] (Ok false).
Proof.
  intros Hne Hp. destruct p as [|x p]; [done|].
  unfold path_exists, bind, stat. cbn [entry after out_fs out_log out_res ret app].
  rewrite bool_decide_false; [done|]. rewrite Hp. by intros [? ?].
Qed.

Lemma path_exists_present (p : path) (f : fs) :
  is_Some (f !! p) → path_exists p f = Outcome f [] (Ok true).
Proof.
  intros Hp. unfold path_exists, bind, stat.
  cbn [after out_fs out_log out_res ret app].
  rewrite bool_decide_true; [done|]. destruct p; [by eexists|done].
Qed.

Section Downloads.
Import DownloadModels.

Lemma show_progress_returns (block_num block_size total_size : Z) (f : fs) :
  ∃ p, show_progress block_num block_size total_size f
       = Outcome f [EvPrint (progress_line p)] (Ok tt).
Proof.
  unfold show_progress, percent.
  destruct (decide (total_size > 0)%Z) as [Hpos|Hneg].
  - unfold floordiv. destruct (decide (total_size = 0%Z)) as [->|_]; [lia|].
    eexists. reflexivity.
  - eexists. reflexivity.
Qed.

Lemma report_hooks (calls : list (Z * Z * Z)) (f : fs) :
  ∃ lines, for_each calls (λ b, show_progress b.1.1 b.1.2 b.2) f
           = Outcome f (EvPrint <$> lines) (Ok tt).
Proof.
  induction calls as [|b calls [lines IH]].
  - by exists [].
  - destruct (show_progress_returns b.1.1 b.1.2 b.2 f) as [p Hp].
    exists (progress_line p :: lines). cbn [for_each].
    by rewrite (bind_Ok _ _ _ _ _ _ Hp), IH.
Qed.

(** What [download_file] does, whatever the host does. *)
Lemma download_file_eq (E : env) (url : string) (dst : path) (f : fs) :
  let fx := fetched (urlretrieve E url) in
  ∃ lines1 lines2,
    download_file E url dst f
    = Outcome (match fe_written fx with Some d => <[dst := File d]> f | None => f end)
        ((EvPrint <$> lines1) ++ EvFetch url dst :: (EvPrint <$> lines2))
        (Ok (bool_decide (fe_raised fx = None))).
Proof.
  intros fx. unfold download_file. rewrite !bind_print.
  destruct (report_hooks (reported (urlretrieve E url)) f) as [progress Hh].
  set (F := match fe_written fx with Some d => <[dst := File d]> f | None => f end).
  assert (Hcall : urlretrieve_call E url dst show_progress f
          = Outcome F (EvFetch url dst :: (EvPrint <$> progress))
              (match fe_raised fx with
               | Some (c, msg) => Raise (Exc c msg)
               | None => Ok tt
               end)).
  { unfold urlretrieve_call. rewrite bind_emit, (bind_Ok _ _ _ _ _ _ Hh).
    rewrite run_file_effect_eq. unfold after. cbn [out_fs out_log out_res app].
    by rewrite app_nil_r. }
  destruct (fe_raised fx) as [[c msg]|] eqn:Hr.
  - exists ["Downloading: " +:+ name dst; "From: " +:+ url],
           (progress ++ ["❌ Download failed: " +:+ msg]).
    rewrite (try_caught _ _ _ _ _ _ _
               (bind_Raise _ _ _ _ _ _ Hcall) eq_refl).
    rewrite bind_print. unfold after, ret. cbn [out_fs out_log out_res exn_str app].
    rewrite fmap_app. cbn [fmap list_fmap app]. done.
  - exists ["Downloading: " +:+ name dst; "From: " +:+ url],
           (progress ++ ["✅ Downloaded: " +:+ path_str dst]).
    erewrite try_Ok.
    2:{ rewrite (bind_Ok _ _ _ _ _ _ Hcall), bind_print. reflexivity. }
    unfold after, ret. cbn [out_fs out_log out_res app].
    rewrite fmap_app. cbn [fmap list_fmap app]. done.
Qed.

Lemma main_loop_body_missing (E : env) (downloaded : list path)
    (item : string * string) (f : fs) :
  f !! weights_file item.1 = None →
  let fx := fetched (urlretrieve E item.2) in
  ∃ lines1 lines2,
    main_loop_body E downloaded item f
    = Outcome (match fe_written fx with
               | Some d => <[weights_file item.1 := File d]> f
               | None => f
               end)
        ((EvPrint <$> lines1) ++ EvFetch item.2 (weights_file item.1)
           :: (EvPrint <$> lines2))
        (Ok (if bool_decide (fe_raised fx = None)
             then downloaded ++ [weights_file item.1] else downloaded)).
Proof.
  intros Hf fx. unfold main_loop_body.
  change (output_dir ++ ["umx_" +:+ item.1 +:+ ".pth"]) with (weights_file item.1).
  assert (Hex : path_exists (weights_file item.1) f = Outcome f [] (Ok false)).
  { by apply path_exists_missing. }
  rewrite (bind_Ok _ _ _ _ _ _ Hex), after_nil.
  destruct (download_file_eq E item.2 (weights_file item.1) f) as (l1 & l2 & Hd).
  exists l1, l2. rewrite (bind_Ok _ _ _ _ _ _ Hd). fold fx.
  destruct (bool_decide (fe_raised fx = None));
    unfold after, ret; cbn [out_fs out_log out_res]; by rewrite app_nil_r.
Qed.

End Downloads.

Lemma mkdir_top (a : string) (f : fs) :
  no_file f [a] →
  ∃ f1, Path_mkdir false true [a] f = Outcome f1 [] (Ok tt)
        ∧ f1 !! [a] = Some Dir
        ∧ ∀ p, p ≠ [a] → f1 !! p = f !! p.
Proof.
  intros [Hnone|Hdir].
  - exists (<[[a] := Dir]> f). split; [by apply Path_mkdir_new|].
    split; [by rewrite lookup_insert_eq|].
    intros p Hp. by rewrite lookup_insert_ne.
  - exists f. split; [by apply Path_mkdir_existing|]. done.
Qed.

Lemma mkdir_top_file (a : string) (f : fs) (data : string) :
  f !! [a] = Some (File data) →
  Path_mkdir false true [a] f = Outcome f [] (Raise (Exc FileExistsError a)).
Proof. intros Hf. by rewrite (Path_mkdir_file _ _ _ _ data). Qed.

Lemma filter_ext_elem_of {A} (P Q : A → Prop) `{!∀ x, Decision (P x)}
    `{!∀ x, Decision (Q x)} (l : list A) :
  (∀ x, x ∈ l → P x ↔ Q x) → filter P l = filter Q l.
Proof.
  induction l as [|x l IH]; intros Hl; [done|].
  rewrite !filter_cons. rewrite IH by (intros y Hy; apply Hl; by right).
  destruct (decide (P x)) as [HP|HP], (decide (Q x)) as [HQ|HQ]; try done.
  - exfalso. apply HQ. apply Hl; [left|done].
  - exfalso. apply HP. apply Hl; [left|done].
Qed.

Section DownloadModelsMain.
Import DownloadModels.
Variable E : env.

Lemma main_loop_body_cached (downloaded : list path) (item : string * string)
    (f : fs) :
  is_Some (f !! weights_file item.1) →
  ∃ line,
    main_loop_body E downloaded item f
    = Outcome f [EvPrint line] (Ok (downloaded ++ [weights_file item.1])).
Proof. apply download_models_body_cached. Qed.

Lemma keeps_main_loop_body (downloaded : list path) (item : string * string) :
  keeps_existing (main_loop_body E downloaded item).
Proof.
  intros f p Hp. destruct (f !! weights_file item.1) as [n|] eqn:Hf.
  - destruct (main_loop_body_cached downloaded item f) as [line ->]; [by rewrite Hf|].
    done.
  - destruct (main_loop_body_missing E downloaded item f Hf) as (l1 & l2 & ->).
    cbn [out_fs]. destruct (fe_written _); [|done].
    apply lookup_insert_ne. intros <-. rewrite Hf in Hp. by destruct Hp.
Qed.

Lemma keeps_main : keeps_existing (main E).
Proof.
  unfold main. apply preserves_bind; [apply keeps_stable| |].
  - apply keeps_existing_Path_mkdir.
  - intros _. apply preserves_bind; [apply keeps_stable| |].
    + apply preserves_for_fold; [apply keeps_stable|].
      intros s x _. apply keeps_main_loop_body.
    + intros [|p l]; [apply preserves_print|].
      apply preserves_bind; [apply keeps_stable|apply preserves_print|].
      intros _. apply preserves_for_each; [apply keeps_stable|].
      intros x _. apply preserves_print.
Qed.

(** The download loop over any table of URLs whose files are distinct:
    the URLs it fetches are those of the files that are missing at the
    start, in the order of the table. *)
Lemma download_loop (items : list (string * string)) (acc : list path) (f : fs) :
  NoDup (weights_file <$> items.*1) →
  ∃ F log acc',
    for_fold items (main_loop_body E) acc f = Outcome F log (Ok acc')
    ∧ fetches_of log
      = (filter (λ it, f !! weights_file it.1 = None) items).*2
    ∧ (∀ p, p ∉ weights_file <$> items.*1 → F !! p = f !! p)
    ∧ (∀ it d, it ∈ items → f !! weights_file it.1 = None →
         fe_written (fetched (urlretrieve E it.2)) = Some d →
         F !! weights_file it.1 = Some (File d)).
Proof.
  revert acc f. induction items as [|x items IH]; intros acc f Hnd.
  - exists f, [], acc. split; [done|]. split; [done|]. split; [done|].
    intros it d Hit. by apply elem_of_nil in Hit.
  - cbn [fmap list_fmap] in Hnd. apply NoDup_cons in Hnd as [Hx Hnd].
    cbn [for_fold]. destruct (f !! weights_file x.1) as [n|] eqn:Hf.
    + destruct (main_loop_body_cached acc x f) as [line Hb]; [by rewrite Hf|].
      destruct (IH (acc ++ [weights_file x.1]) f Hnd) as (F & log & acc' & Hl & Hfe & Hfr & Hw).
      exists F, (EvPrint line :: log), acc'.
      rewrite (bind_Ok _ _ _ _ _ _ Hb), Hl. split; [done|]. split.
      { change (EvPrint line :: log) with ((EvPrint <$> [line]) ++ log).
        rewrite fetches_of_app, fetches_of_prints, Hfe. cbn [app].
        rewrite filter_cons_False; [done|]. cbn. by rewrite Hf. }
      split.
      { intros p Hp. apply Hfr. intros Hin. apply Hp. cbn [fmap list_fmap]. by right. }
      intros it d Hit Hnone Hd. apply elem_of_cons in Hit as [->|Hit].
      { by rewrite Hf in Hnone. }
      by apply (Hw it d).
    + destruct (main_loop_body_missing E acc x f Hf) as (l1 & l2 & Hb).
      set (f1 := match fe_written (fetched (urlretrieve E x.2)) with
                 | Some d => <[weights_file x.1 := File d]> f
                 | None => f
                 end) in Hb.
      assert (Hf1 : ∀ p, p ≠ weights_file x.1 → f1 !! p = f !! p).
      { intros p Hp. unfold f1. destruct (fe_written _); [|done].
        by rewrite lookup_insert_ne. }
      assert (Hrest : ∀ it, it ∈ items → f1 !! weights_file it.1 = f !! weights_file it.1).
      { intros it Hit. apply Hf1. intros Heq. apply Hx. rewrite <- Heq.
        apply list_elem_of_fmap. exists it.1. split; [done|].
        apply list_elem_of_fmap. by exists it. }
      destruct (IH (if bool_decide (fe_raised (fetched (urlretrieve E x.2)) = None)
                    then acc ++ [weights_file x.1] else acc) f1 Hnd)
        as (F & log & acc' & Hl & Hfe & Hfr & Hw).
      exists F, (((EvPrint <$> l1) ++ EvFetch x.2 (weights_file x.1) :: (EvPrint <$> l2)) ++ log), acc'.
      rewrite (bind_Ok _ _ _ _ _ _ Hb), Hl. split; [done|]. split.
      { rewrite fetches_of_app, fetches_of_print_fetch, Hfe.
        rewrite filter_cons_True by done. cbn [fmap list_fmap app]. f_equal. f_equal.
        apply filter_ext_elem_of. intros it Hit. by rewrite Hrest. }
      split.
      { intros p Hp. rewrite Hfr.
        - apply Hf1. intros ->. apply Hp. cbn [fmap list_fmap]. by left.
        - intros Hin. apply Hp. cbn [fmap list_fmap]. by right. }
      intros it d Hit Hnone Hd. apply elem_of_cons in Hit as [->|Hit].
      * rewrite Hfr; [|done]. unfold f1. rewrite Hd. by rewrite lookup_insert_eq.
      * apply (Hw it d); [done| |done]. by rewrite Hrest.
Qed.

Lemma weights_files_distinct : NoDup (weights_file <$> MODEL_URLS.*1).
Proof. apply (bool_decide_unpack _). vm_compute. reflexivity. Qed.

Lemma weights_file_not_dir (stem : string) : weights_file stem ≠ output_dir.
Proof. done. Qed.

(** [main] under a download directory that can be created. *)
Lemma main_eq (f : fs) :
  no_file f output_dir →
  ∃ f1 F log acc' lines,
    f1 !! output_dir = Some Dir
    ∧ (∀ p, p ≠ output_dir → f1 !! p = f !! p)
    ∧ for_fold MODEL_URLS (main_loop_body E) [] f1 = Outcome F log (Ok acc')
    ∧ main E f = Outcome F (log ++ (EvPrint <$> lines)) (Ok tt).
Proof.
  intros Hdir. destruct (mkdir_top _ _ Hdir) as (f1 & Hmk & Hd1 & Hf1).
  destruct (download_loop MODEL_URLS [] f1 weights_files_distinct)
    as (F & log & acc' & Hl & _).
  unfold main. fold output_dir in Hmk.
  destruct acc' as [|p acc'].
  - exists f1, F, log, [], ["❌ No models downloaded."].
    split; [done|]. split; [done|]. split; [done|].
    rewrite (bind_Ok _ _ _ _ _ _ Hmk), after_nil, (bind_Ok _ _ _ _ _ _ Hl). done.
  - eexists f1, F, log, (p :: acc'), (_ :: ((λ f, "  - " +:+ path_str f) <$> (p :: acc'))).
    split; [done|]. split; [done|]. split; [done|].
    rewrite (bind_Ok _ _ _ _ _ _ Hmk), after_nil, (bind_Ok _ _ _ _ _ _ Hl).
    rewrite bind_print, for_each_print. done.
Qed.

End DownloadModelsMain.

Section DownloadAndConvertMain.
Import DownloadAndConvert.
Variable E : env.

Lemma download_model_eq (url : string) (dst : path) (f : fs) :
  let fx := urlretrieve E url in
  ∃ lines1 lines2,
    download_model E url dst f
    = Outcome (match fe_written fx with Some d => <[dst := File d]> f | None => f end)
        ((EvPrint <$> lines1) ++ EvFetch url dst :: (EvPrint <$> lines2))
        (Ok (bool_decide (fe_raised fx = None))).
Proof.
  intros fx. unfold download_model. rewrite !bind_print.
  set (F := match fe_written fx with Some d => <[dst := File d]> f | None => f end).
  pose proof (run_file_effect_eq dst (urlretrieve E url) f) as Hrun.
  fold fx in Hrun. fold F in Hrun.
  exists ["Downloading " +:+ path_str dst +:+ "..."; "URL: " +:+ url].
  destruct (fe_raised fx) as [[c msg]|] eqn:Hr.
  - exists ["❌ Download failed: " +:+ msg].
    rewrite (try_caught _ _ _ f F [EvFetch url dst] (Exc c msg)); [|
      | done].
    + by rewrite bind_print.
    + rewrite bind_emit, (bind_Raise _ _ _ _ _ _ Hrun). done.
  - exists ["✅ Downloaded: " +:+ path_str dst].
    rewrite (try_Ok _ _ _ f F
               [EvFetch url dst; EvPrint ("✅ Downloaded: " +:+ path_str dst)] true);
      [done|].
    rewrite bind_emit, (bind_Ok _ _ _ _ _ _ Hrun), bind_print. done.
Qed.

Lemma returns_download_model (url : string) (dst : path) :
  returns (download_model E url dst).
Proof.
  intros f. destruct (download_model_eq url dst f) as (l1 & l2 & ->). by eexists.
Qed.

Lemma exc_only_torch_load_call (model_path : path) :
  exc_only (torch_load_call E model_path).
Proof.
  unfold torch_load_call. apply exc_only_bind; [apply exc_only_stat|].
  intros [[|data]|]; [apply exc_only_raise|apply exc_only_call|apply exc_only_raise].
Qed.

Lemma returns_load_pytorch_model (model_path : path) :
  returns (load_pytorch_model E model_path).
Proof.
  unfold load_pytorch_model. apply returns_bind; [apply returns_print|].
  intros _. apply returns_try.
  - apply exc_only_bind; [apply exc_only_torch_load_call|].
    intros c. apply exc_only_ret.
  - intros e. apply returns_bind; [apply returns_print|].
    intros _. apply returns_ret.
Qed.

Lemma returns_call_returned {A} (a : answer A) :
  returned a = true → returns (call a).
Proof. destruct a as [x|c msg]; [intros _ f; by exists x|done]. Qed.

(** [main] after the creation of the download directory, when the truth
    value of a checkpoint can be taken. *)
Lemma returns_main_loops :
  (∀ m, returned (truthy E m) = true) →
  returns (downloaded <- for_fold MODEL_URLS (download_loop_body E) [] ;;
           match downloaded with
           | [] =>
               print "❌ No models downloaded. Trying alternative URLs..." ;;;
               ret []
           | _ :: _ =>
               print ("✅ Downloaded " +:+ pretty (Z.of_nat (length downloaded))
                      +:+ " models!") ;;;
               models <- for_fold downloaded (load_loop_body E) [] ;;
               match models with
               | _ :: _ =>
                   print ("✅ Loaded " +:+ pretty (Z.of_nat (length models))
                          +:+ " models!") ;;;
                   ret models
               | [] => print "❌ Could not load models." ;;; ret models
               end
           end).
Proof.
  intros Htruthy. apply returns_bind.
  - apply returns_for_fold. intros acc item. unfold download_loop_body.
    apply returns_bind; [apply returns_download_model|].
    intros [|]; apply returns_ret.
  - intros [|d downloaded].
    + apply returns_bind; [apply returns_print|]. intros _. apply returns_ret.
    + apply returns_bind; [apply returns_print|]. intros _.
      apply returns_bind.
      * apply returns_for_fold. intros acc item. unfold load_loop_body.
        apply returns_bind; [apply returns_load_pytorch_model|].
        intros [m|]; [|apply returns_ret].
        apply returns_bind; [apply returns_call_returned, Htruthy|].
        intros [|]; apply returns_ret.
      * intros [|m models]; (apply returns_bind; [apply returns_print|]);
          intros _; apply returns_ret.
Qed.

Lemma download_and_convert_main_returns (f : fs) :
  (∀ m, returned (truthy E m) = true) →
  no_file f output_dir → ∃ F l models, main E f = Outcome F l (Ok models).
Proof.
  intros Htruthy Hdir. destruct (mkdir_top _ _ Hdir) as (f1 & Hmk & _).
  destruct (returns_main_loops Htruthy f1) as [models Hm].
  unfold main. rewrite (bind_Ok _ _ _ _ _ _ Hmk), after_nil.
  destruct (bind _ _ f1) as [F l r]. cbn [out_res] in Hm. subst r.
  by exists F, l, models.
Qed.

(** The script when torch cannot be imported: nothing else happens. *)
Lemma download_and_convert_without_torch (f : fs) c msg :
  import_module E "torch" = Some (c, msg) →
  script E f = Outcome f [EvImport "torch"] (Raise (Exc c msg)).
Proof. intros Himp. unfold script. by rewrite bind_emit, Himp. Qed.

(** The script after [import torch]. *)
Lemma download_and_convert_with_torch (f : fs) :
  import_module E "torch" = None →
  script E f
  = after [EvImport "torch"]
      (try_except (main E ;;; ret tt) is_Exception
         (λ e, print ("Error: " +:+ exn_str e) ;;; raise (SystemExit 1)) f).
Proof.
  intros Himp. unfold script. rewrite bind_emit, Himp.
  change (raise_if None) with (ret (A:=unit) tt). by rewrite bind_ret, after_nil.
Qed.

Lemma download_and_convert_exit (f : fs) :
  import_module E "torch" = None →
  (∀ m, returned (truthy E m) = true) →
  exit_code (script E f)
  = match f !! output_dir with Some (File _) => 1%Z | _ => 0%Z end.
Proof.
  intros Himp Htruthy. rewrite download_and_convert_with_torch by done.
  unfold exit_code at 1. cbn [after out_res].
  change (exit_code (try_except (main E ;;; ret tt) is_Exception
            (λ e, print ("Error: " +:+ exn_str e) ;;; raise (SystemExit 1)) f)
          = match f !! output_dir with Some (File _) => 1%Z | _ => 0%Z end).
  assert (Hok : no_file f output_dir →
                exit_code (try_except (main E ;;; ret tt) is_Exception
                  (λ e, print ("Error: " +:+ exn_str e) ;;; raise (SystemExit 1)) f)
                = 0%Z).
  { intros Hdir.
    destruct (download_and_convert_main_returns f Htruthy Hdir)
      as (F & l & models & Hm).
    apply (exit_code_Ok _ tt). erewrite try_Ok; [done|].
    rewrite (bind_Ok _ _ _ _ _ _ Hm). reflexivity. }
  destruct (f !! output_dir) as [[|data]|] eqn:Hdir.
  - apply Hok. by right.
  - rewrite (try_caught _ _ _ f f []
               (Exc FileExistsError "downloaded_models")); [|
      | done].
    + by rewrite bind_print.
    + apply bind_Raise. unfold main. apply bind_Raise.
      by apply (mkdir_top_file _ _ data).
  - apply Hok. by left.
Qed.

End DownloadAndConvertMain.

Lemma download_models_exit (E : DownloadModels.env) (f : fs) :
  exit_code (DownloadModels.script E f)
  = match f !! DownloadModels.output_dir with
    | Some (File _) => 1%Z
    | _ => 0%Z
    end.
Proof.
  unfold DownloadModels.script.
  assert (Hok : no_file f DownloadModels.output_dir →
                exit_code (try_except (DownloadModels.main E) is_Exception
                  (λ e, print ("Error: " +:+ exn_str e) ;;; raise (SystemExit 1)) f)
                = 0%Z).
  { intros Hdir.
    destruct (main_eq E f Hdir) as (f1 & F & log & acc' & lines & _ & _ & _ & Hm).
    apply (exit_code_Ok _ tt). by rewrite (try_Ok _ _ _ _ _ _ _ Hm). }
  destruct (f !! DownloadModels.output_dir) as [[|data]|] eqn:Hdir.
  - apply Hok. by right.
  - rewrite (try_caught _ _ _ _ f []
               (Exc FileExistsError "downloaded_models")); [| |done].
    + by rewrite bind_print.
    + apply bind_Raise. by apply (mkdir_top_file _ _ data).
  - apply Hok. by left.
Qed.

(** X1: download_models.py never modifies or removes an entry that is
    already there: whatever the host delivers, every path that holds
    something before the script runs holds the same afterwards (the
    script only creates the download directory and the weight files that
    are missing). *)
Theorem download_models_never_overwrites
    (E : DownloadModels.env) (f : fs) (p : path) :
  is_Some (f !! p) → out_fs (DownloadModels.script E f) !! p = f !! p.
Proof.
  revert f p. change (keeps_existing (DownloadModels.script E)).
  unfold DownloadModels.script.
  apply preserves_try_except; [apply keeps_stable|apply keeps_main|].
  intros e. apply preserves_bind; [apply keeps_stable|apply preserves_print|].
  intros _. apply preserves_raise.
Qed.

Lemma download_models_never_overwrites_witness :
  let p := ["downloaded_models"; "umx_vocals.pth"] in
  is_Some (Examples.fs_half_cached !! p)
  ∧ out_fs (DownloadModels.script Examples.env_fresh_host Examples.fs_half_cached) !! p
    = Examples.fs_half_cached !! p.
Proof.
  assert (H : is_Some (Examples.fs_half_cached
                         !! ["downloaded_models"; "umx_vocals.pth"])).
  { apply (bool_decide_unpack _). vm_compute. reflexivity. }
  split; [exact H|].
  exact (download_models_never_overwrites Examples.env_fresh_host
           Examples.fs_half_cached _ H).
Defined.

(** X2: when the download directory can be created, the URLs that
    download_models.main fetches are exactly those of the weight files
    that are missing at the start, each once and in the order of
    MODEL_URLS; a file that is present is never fetched. *)
Theorem download_models_fetches_what_is_missing
    (E : DownloadModels.env) (f : fs) :
  no_file f DownloadModels.output_dir →
  fetches_of (out_log (DownloadModels.main E f))
  = (filter (λ it : string * string, f !! weights_file it.1 = None)
       DownloadModels.MODEL_URLS).*2.
Proof.
  intros Hdir.
  destruct (main_eq E f Hdir) as (f1 & F & log & acc' & lines & _ & Hf1 & Hl & ->).
  cbn [out_log]. rewrite fetches_of_app, fetches_of_prints, app_nil_r.
  destruct (download_loop E DownloadModels.MODEL_URLS [] f1 weights_files_distinct)
    as (F' & log' & acc'' & Hl' & Hfe & _).
  rewrite Hl in Hl'. injection Hl' as _ <- _. rewrite Hfe.
  f_equal. apply filter_ext_elem_of. intros it _. by rewrite Hf1.
Qed.

Lemma download_models_fetches_what_is_missing_witness :
  no_file Examples.fs_half_cached DownloadModels.output_dir
  ∧ fetches_of (out_log (DownloadModels.main Examples.env_fresh_host
                           Examples.fs_half_cached))
    = (filter (λ it : string * string,
                 Examples.fs_half_cached !! weights_file it.1 = None)
         DownloadModels.MODEL_URLS).*2.
Proof.
  assert (H : no_file Examples.fs_half_cached DownloadModels.output_dir).
  { right. vm_compute. reflexivity. }
  split; [exact H|].
  exact (download_models_fetches_what_is_missing Examples.env_fresh_host
           Examples.fs_half_cached H).
Defined.

(** X3: what a retrieval has written stays where it is, also when the
    retrieval failed, and download_models.py never fetches it again: after
    a run in which the retrieval of a missing weight file wrote [d], the
    file holds [d], and every later run, against any host, leaves it at
    [d] and does not fetch its URL. *)
Theorem partial_download_is_kept_and_skipped
    (E E' : DownloadModels.env) (f : fs) (stem url d : string) :
  (stem, url) ∈ DownloadModels.MODEL_URLS →
  no_file f DownloadModels.output_dir →
  f !! weights_file stem = None →
  fe_written (DownloadModels.fetched (DownloadModels.urlretrieve E url)) = Some d →
  let f1 := out_fs (DownloadModels.main E f) in
  f1 !! weights_file stem = Some (File d)
  ∧ out_fs (DownloadModels.main E' f1) !! weights_file stem = Some (File d)
  ∧ url ∉ fetches_of (out_log (DownloadModels.main E' f1)).
Proof.
  intros Hin Hdir Hmiss Hd f1.
  assert (H1 : f1 !! weights_file stem = Some (File d)
               ∧ no_file f1 DownloadModels.output_dir).
  { unfold f1.
    destruct (main_eq E f Hdir) as (g & F & log & acc' & lines & Hg & Hgf & Hl & ->).
    destruct (download_loop E DownloadModels.MODEL_URLS [] g weights_files_distinct)
      as (F' & log' & acc'' & Hl' & _ & Hfr & Hw).
    rewrite Hl in Hl'. injection Hl' as <- _ _. cbn [out_fs]. split.
    - apply (Hw (stem, url) d Hin); [|done]. cbn [fst]. by rewrite Hgf.
    - right. rewrite Hfr; [done|]. vm_compute. intros H.
      repeat (apply elem_of_cons in H as [H|H]; [done|]). by apply elem_of_nil in H. }
  destruct H1 as [Hf1 Hdir1]. split; [done|]. split.
  - rewrite (keeps_main E' f1 (weights_file stem)); [done|by rewrite Hf1].
  - destruct (main_eq E' f1 Hdir1) as (g & F & log & acc' & lines & _ & Hgf & Hl & ->).
    cbn [out_log]. rewrite fetches_of_app, fetches_of_prints, app_nil_r.
    destruct (download_loop E' DownloadModels.MODEL_URLS [] g weights_files_distinct)
      as (F' & log' & acc'' & Hl' & Hfe & _).
    rewrite Hl in Hl'. injection Hl' as _ <- _. rewrite Hfe.
    intros Hurl. apply list_elem_of_fmap in Hurl as (it & -> & Hit).
    apply list_elem_of_filter in Hit as [Hnone Hit].
    assert (it.1 = stem) as Hstem.
    { revert Hin Hit. unfold DownloadModels.MODEL_URLS. intros Hin Hit.
      repeat (apply elem_of_cons in Hin as [Hin|Hin]);
        repeat (apply elem_of_cons in Hit as [Hit|Hit]);
        try (by apply elem_of_nil in Hin); try (by apply elem_of_nil in Hit);
        subst it; by inversion Hin. }
    rewrite Hstem, Hgf, Hf1 in Hnone; done.
Qed.

Lemma partial_download_is_kept_and_skipped_witness :
  let stem := "accompaniment" in
  let url :=
    "https://zenodo.org/record/3370489/files/umx_accompaniment.pth?download=1" in
  let f1 := out_fs (DownloadModels.main Examples.env_breaking_host
                      Examples.fs_half_cached) in
  f1 !! weights_file stem = Some (File "part")
  ∧ out_fs (DownloadModels.main Examples.env_fresh_host f1) !! weights_file stem
    = Some (File "part")
  ∧ url ∉ fetches_of (out_log (DownloadModels.main Examples.env_fresh_host f1)).
Proof.
  apply (partial_download_is_kept_and_skipped Examples.env_breaking_host
           Examples.env_fresh_host Examples.fs_half_cached "accompaniment").
  - apply (bool_decide_unpack _). vm_compute. reflexivity.
  - right. vm_compute. reflexivity.
  - vm_compute. reflexivity.
  - reflexivity.
Defined.

(** X4: neither download function ever raises: [download_file] and
    [download_model] return [True] exactly when the retrieval did not
    raise and [False] otherwise; each fetches its URL once, and whatever
    the retrieval wrote before it failed is left in the output file. *)
Theorem downloads_report_failure_by_value
    (Em : DownloadModels.env) (Ec : DownloadAndConvert.env)
    (url : string) (dst : path) (f : fs) :
  let fm := DownloadModels.fetched (DownloadModels.urlretrieve Em url) in
  let rm := DownloadModels.download_file Em url dst f in
  let fc := DownloadAndConvert.urlretrieve Ec url in
  let rc := DownloadAndConvert.download_model Ec url dst f in
  (out_res rm = Ok (bool_decide (fe_raised fm = None))
   ∧ out_fs rm
     = match fe_written fm with Some d => <[dst := File d]> f | None => f end
   ∧ fetches_of (out_log rm) = [url])
  ∧ (out_res rc = Ok (bool_decide (fe_raised fc = None))
     ∧ out_fs rc
       = match fe_written fc with Some d => <[dst := File d]> f | None => f end
     ∧ fetches_of (out_log rc) = [url]).
Proof.
  intros fm rm fc rc. split.
  - unfold rm. destruct (download_file_eq Em url dst f) as (l1 & l2 & ->).
    cbn [out_res out_fs out_log]. by rewrite fetches_of_print_fetch.
  - unfold rc. destruct (download_model_eq Ec url dst f) as (l1 & l2 & ->).
    cbn [out_res out_fs out_log]. by rewrite fetches_of_print_fetch.
Qed.

(** X5: no failed download changes the exit status of a download
    script.  download_models.py exits with status 1 exactly when a regular
    file stands at [downloaded_models], whatever the host delivers.
    download_and_convert.py exits with status 1 when torch cannot be
    imported, before it has fetched or written anything; when torch is
    imported and the truth value of every checkpoint can be taken, it
    exits with status 1 exactly when a regular file stands at
    [downloaded_models], whatever the host delivers and whether
    [torch.load] returns or raises. *)
Theorem download_scripts_exit_status
    (Em : DownloadModels.env) (Ec : DownloadAndConvert.env) (f : fs) :
  exit_code (DownloadModels.script Em f)
  = match f !! ["downloaded_models"] with Some (File _) => 1%Z | _ => 0%Z end
  ∧ (is_Some (DownloadAndConvert.import_module Ec "torch") →
     exit_code (DownloadAndConvert.script Ec f) = 1%Z
     ∧ out_fs (DownloadAndConvert.script Ec f) = f
     ∧ out_log (DownloadAndConvert.script Ec f) = [EvImport "torch"])
  ∧ (DownloadAndConvert.import_module Ec "torch" = None →
     (∀ m, returned (DownloadAndConvert.truthy Ec m) = true) →
     exit_code (DownloadAndConvert.script Ec f)
     = match f !! ["downloaded_models"] with Some (File _) => 1%Z | _ => 0%Z end).
Proof.
  split; [apply download_models_exit|]. split.
  - intros [[c msg] Himp].
    by rewrite (download_and_convert_without_torch Ec f c msg Himp).
  - apply download_and_convert_exit.
Qed.

(** The truth value of what [torch.load] returned is taken outside any
    [try] of [main]: when it cannot be taken (a tensor of several
    elements), the script ends with status 1 although both downloads
    succeeded. *)
Example ambiguous_truth_value_ends_the_script :
  let r := DownloadAndConvert.script Examples.env_tensor_host ∅ in
  exit_code r = 1%Z
  ∧ printed "Error: Boolean value of Tensor with more than one value is ambiguous"
      (out_log r) = true.
Proof. vm_compute. split; reflexivity. Qed.

(** X6: for a positive total size and a non-negative block size, the
    percentage of [show_progress] never decreases as the block count
    grows, and it is 100 exactly when the bytes counted reach the total
    size. *)
Theorem progress_is_monotone_and_complete
    (block_num block_num' block_size total_size : Z) (f : fs) :
  (0 < total_size)%Z → (0 ≤ block_size)%Z → (block_num ≤ block_num')%Z →
  ∃ p p' : Z,
    DownloadModels.percent block_num block_size total_size f = Outcome f [] (Ok p)
    ∧ DownloadModels.percent block_num' block_size total_size f
      = Outcome f [] (Ok p')
    ∧ (p ≤ p')%Z
    ∧ (p = 100%Z ↔ (total_size ≤ block_num * block_size)%Z).
Proof.
  intros Hts Hbs Hle. unfold DownloadModels.percent, DownloadModels.floordiv.
  destruct (decide (total_size > 0)%Z) as [_|]; [|lia].
  destruct (decide (total_size = 0%Z)) as [|_]; [lia|].
  eexists _, _. split; [reflexivity|]. split; [reflexivity|].
  assert (Hmono : (block_num * block_size * 100 / total_size
                   ≤ block_num' * block_size * 100 / total_size)%Z).
  { apply Z.div_le_mono; [lia|nia]. }
  split; [lia|].
  pose proof (Z.div_mod (block_num * block_size * 100) total_size ltac:(lia)) as Hdm.
  pose proof (Z.mod_pos_bound (block_num * block_size * 100) total_size Hts) as Hb.
  split; intros H.
  - assert (100 ≤ block_num * block_size * 100 / total_size)%Z by lia. nia.
  - assert (100 ≤ block_num * block_size * 100 / total_size)%Z.
    { apply Z.div_le_lower_bound; lia. }
    lia.
Qed.

Lemma progress_is_monotone_and_complete_witness :
  ∃ p p' : Z,
    DownloadModels.percent 1 8192 16384 ∅ = Outcome ∅ [] (Ok p)
    ∧ DownloadModels.percent 2 8192 16384 ∅ = Outcome ∅ [] (Ok p')
    ∧ (p ≤ p')%Z
    ∧ (p = 100%Z ↔ (16384 ≤ 1 * 8192)%Z).
Proof.
  apply (progress_is_monotone_and_complete 1 2 8192 16384 ∅); lia.
Defined.

(** *** The monad laws used below, and what the logs hold *)

Lemma bind_assoc {A B C} (m : Py A) (k : A → Py B) (k' : B → Py C) (f : fs) :
  bind (bind m k) k' f = bind m (λ a, bind (k a) k') f.
Proof.
  unfold bind. destruct (m f) as [f1 l1 [a|e]]; [|done].
  destruct (k a f1) as [f2 l2 [b|e]]; unfold after; cbn [out_fs out_log out_res];
    [|done].
  by rewrite app_assoc.
Qed.

Lemma for_fold_app {A S} (l1 l2 : list A) (body : S → A → Py S) (s : S) (f : fs) :
  for_fold (l1 ++ l2) body s f
  = bind (for_fold l1 body s) (for_fold l2 body) f.
Proof.
  revert s f. induction l1 as [|x l1 IH]; intros s f; cbn [app for_fold].
  - by rewrite bind_ret, after_nil.
  - rewrite bind_assoc. unfold bind at 1 2.
    destruct (body s x f) as [f1 l [s1|e]]; [|done]. by rewrite IH.
Qed.

Lemma runs_of_app (l1 l2 : list event) :
  runs_of (l1 ++ l2) = runs_of l1 ++ runs_of l2.
Proof. apply omap_app. Qed.

Lemma runs_of_prints (lines : list string) : runs_of (EvPrint <$> lines) = [].
Proof. by induction lines. Qed.

Lemma runs_of_imports (modules : list string) : runs_of (EvImport <$> modules) = [].
Proof. by induction modules. Qed.

Lemma imports_of_app (l1 l2 : list event) :
  imports_of (l1 ++ l2) = imports_of l1 ++ imports_of l2.
Proof. apply omap_app. Qed.

Lemma imports_of_imports (modules : list string) :
  imports_of (EvImport <$> modules) = modules.
Proof. induction modules as [|m l IH]; [done|]. cbn. f_equal. apply IH. Qed.

Lemma imports_of_prints (lines : list string) : imports_of (EvPrint <$> lines) = [].
Proof. by induction lines. Qed.

(** What a collaborator that is handed a directory leaves behind. *)
Lemma run_tree_effect_eq (base : path) (e : tree_effect) (f : fs) :
  run_tree_effect base e f
  = Outcome (foldl (λ g w, <[base ++ w.1 := w.2]> g) f (te_written e)) []
      (match te_raised e with
       | Some (c, msg) => Raise (Exc c msg)
       | None => Ok tt
       end).
Proof.
  unfold run_tree_effect.
  assert (Hw : ∀ ws g,
            for_each ws (λ w : path * node, store (base ++ w.1) w.2) g
            = Outcome (foldl (λ g w, <[base ++ w.1 := w.2]> g) g ws) [] (Ok tt)).
  { induction ws as [|w ws IH]; intros g; [done|].
    cbn [for_each foldl].
    rewrite (bind_Ok _ _ g (<[base ++ w.1 := w.2]> g) [] tt) by done.
    by rewrite after_nil, IH. }
  rewrite (bind_Ok _ _ _ _ _ _ (Hw _ f)), after_nil.
  by destruct (te_raised e) as [[c msg]|].
Qed.

Lemma foldl_insert_frame (base : path) (ws : list (path * node)) (f : fs) (p : path) :
  (∀ w, w ∈ ws → p ≠ base ++ w.1) →
  foldl (λ g w, <[base ++ w.1 := w.2]> g) f ws !! p = f !! p.
Proof.
  revert f. induction ws as [|w ws IH]; intros f Hp; [done|].
  cbn [foldl]. rewrite IH by (intros w' Hw'; apply Hp; by right).
  apply lookup_insert_ne. intros Heq. by apply (Hp w); [left|].
Qed.

(** *** scripts/convert_open_unmix.py *)

Section OpenUnmix.
Import ConvertOpenUnmix.
Variable E : env.

Lemma check_body_raises (dep : string) (missing : list string) (f : fs) c msg :
  import_module E (replace_dash dep) = Some (c, msg) →
  is_ImportError (Exc c msg) = false →
  check_loop_body E missing dep f
  = Outcome f [EvImport (replace_dash dep)] (Raise (Exc c msg)).
Proof.
  intros Himp Hc. unfold check_loop_body.
  apply try_uncaught; [|done].
  unfold import_. rewrite bind_assoc, bind_emit. unfold bind.
  rewrite Himp. done.
Qed.

Lemma check_dependencies_eq (f : fs) :
  fails_with_ImportError E required →
  ∃ lines,
    check_dependencies E f
    = Outcome f ((EvImport <$> (replace_dash <$> required)) ++ (EvPrint <$> lines))
        (Ok (bool_decide (filter (is_missing E) required = []))).
Proof.
  intros Hok. unfold check_dependencies.
  rewrite (bind_Ok _ _ _ _ _ _ (check_loop E _ [] f Hok)). cbn [app].
  destruct (filter (is_missing E) required) as [|m ms].
  - exists []. unfold after, ret. cbn [out_fs out_log out_res fmap list_fmap].
    done.
  - eexists [_; _; _]. rewrite !bind_print. unfold after, ret.
    cbn [out_fs out_log out_res fmap list_fmap app].
    reflexivity.
Qed.

Lemma converter_outcome (onnx_path output_path : string) (f : fs) :
  let cmd := converter_cmd onnx_path output_path in
  te_raised (subprocess_run E cmd).1 = None →
  convert_onnx_to_tfjs E onnx_path output_path f
  = match (subprocess_run E cmd).2 with
    | Returns rc =>
        if decide (rc = 0%Z) then
          Outcome (foldl (λ g w, <[[] ++ w.1 := w.2]> g) f
                     (te_written (subprocess_run E cmd).1))
            [EvPrint ("Converting " +:+ onnx_path +:+ " to TensorFlow.js...");
             EvRun cmd; EvPrint ("Model converted to " +:+ output_path)]
            (Ok tt)
        else
          Outcome (foldl (λ g w, <[[] ++ w.1 := w.2]> g) f
                     (te_written (subprocess_run E cmd).1))
            [EvPrint ("Converting " +:+ onnx_path +:+ " to TensorFlow.js...");
             EvRun cmd]
            (Raise (Exc CalledProcessError
                      ("returned non-zero exit status " +:+ pretty rc)))
    | Fails c msg =>
        Outcome (foldl (λ g w, <[[] ++ w.1 := w.2]> g) f
                   (te_written (subprocess_run E cmd).1))
          [EvPrint ("Converting " +:+ onnx_path +:+ " to TensorFlow.js...");
           EvRun cmd]
          (Raise (Exc c msg))
    end.
Proof.
  intros cmd Hraised. unfold convert_onnx_to_tfjs, subprocess_run_check.
  fold cmd. rewrite bind_print, !bind_assoc, bind_emit.
  pose proof (run_tree_effect_eq [] (subprocess_run E cmd).1 f) as Hrun.
  rewrite Hraised in Hrun. rewrite bind_assoc, (bind_Ok _ _ _ _ _ _ Hrun), after_nil.
  rewrite bind_assoc.
  destruct (subprocess_run E cmd).2 as [rc|c msg].
  - unfold call. rewrite bind_ret, after_nil.
    destruct (decide (rc = 0%Z)).
    + by rewrite bind_ret, after_nil.
    + done.
  - done.
Qed.

End OpenUnmix.

(** *** [os.makedirs] *)

Lemma silent_ret {A} (a : A) : silent (ret a).
Proof. done. Qed.

Lemma silent_raise {A} (e : exn) : silent (raise (A:=A) e).
Proof. done. Qed.

Lemma silent_bind {A B} (m : Py A) (k : A → Py B) :
  silent m → (∀ a, silent (k a)) → silent (bind m k).
Proof.
  intros Hm Hk f. unfold bind. pose proof (Hm f) as H1.
  destruct (m f) as [f1 l1 [a|e]]; cbn [out_log] in *; subst l1; [|done].
  unfold after. cbn [out_log app]. apply Hk.
Qed.

Lemma silent_try_except {A} (m : Py A) (catches : exn → bool) (h : exn → Py A) :
  silent m → (∀ e, silent (h e)) → silent (try_except m catches h).
Proof.
  intros Hm Hh f. unfold try_except. pose proof (Hm f) as H1.
  destruct (m f) as [f1 l1 [a|e]]; cbn [out_log] in *; subst l1; [done|].
  destruct (catches e); [|done]. unfold after. cbn [out_log app]. apply Hh.
Qed.

Lemma silent_path_exists p : silent (path_exists p).
Proof. done. Qed.

Lemma silent_path_is_dir p : silent (path_is_dir p).
Proof. done. Qed.

Lemma silent_os_mkdir p : silent (os_mkdir p).
Proof.
  intros f. unfold os_mkdir, bind, stat.
  destruct (entry f (parent p)) as [[|?]|]; cbn; [|done..].
  by destruct (entry f p).
Qed.

Lemma silent_mkdir_step (exist_ok : bool) (p : path) :
  silent (try_except (os_mkdir p) is_OSError (λ e,
            isd <- path_is_dir p ;;
            if negb exist_ok || negb isd then raise e else ret tt)).
Proof.
  apply silent_try_except; [apply silent_os_mkdir|].
  intros e. apply silent_bind; [apply silent_path_is_dir|].
  intros isd. by destruct (negb exist_ok || negb isd).
Qed.

Lemma silent_os_makedirs_rec (d : nat) (exist_ok : bool) (p : path) :
  silent (os_makedirs_rec d exist_ok p).
Proof.
  revert p. induction d as [|d IH]; intros [|x l]; cbn [os_makedirs_rec];
    try apply silent_raise.
  - apply silent_bind; [|intros _; apply silent_mkdir_step].
    destruct (bool_decide _); [apply silent_ret|].
    apply silent_bind; [apply silent_path_exists|]. intros [|]; apply silent_ret.
  - apply silent_bind; [|intros _; apply silent_mkdir_step].
    destruct (bool_decide _); [apply silent_ret|].
    apply silent_bind; [apply silent_path_exists|]. intros [|]; [apply silent_ret|].
    apply silent_try_except; [apply IH|]. intros _. apply silent_ret.
Qed.

Lemma parent_prefix (p : path) : parent p `prefix_of` p.
Proof. unfold parent. rewrite removelast_firstn_len. apply prefix_take. Qed.

Section PreservesMakedirs.
Variable Q : fs → path → Prop.
Hypothesis Q_stable : ∀ f f' p, Q f p → f' !! p = f !! p → Q f' p.

Lemma preserves_mkdir_step (exist_ok : bool) (p : path) :
  (∀ f, entry f p = None → ¬ Q f p) →
  preserves Q (try_except (os_mkdir p) is_OSError (λ e,
                 isd <- path_is_dir p ;;
                 if negb exist_ok || negb isd then raise e else ret tt)).
Proof.
  intros Hp. apply preserves_try_except; [done|by apply preserves_os_mkdir|].
  intros e. apply preserves_bind; [done|apply preserves_path_is_dir|].
  intros isd. destruct (negb exist_ok || negb isd);
    [apply preserves_raise|apply preserves_ret].
Qed.

Lemma preserves_os_makedirs_rec (d : nat) (exist_ok : bool) (p : path) :
  (∀ f q, q `prefix_of` p → entry f q = None → ¬ Q f q) →
  preserves Q (os_makedirs_rec d exist_ok p).
Proof.
  revert p. induction d as [|d IH]; intros [|x l] Hp; cbn [os_makedirs_rec];
    try apply preserves_raise.
  - apply preserves_bind; [done| |intros _; apply preserves_mkdir_step;
                                  intros f; by apply Hp].
    destruct (bool_decide _); [apply preserves_ret|].
    apply preserves_bind; [done|apply preserves_path_exists|].
    intros [|]; apply preserves_ret.
  - apply preserves_bind; [done| |intros _; apply preserves_mkdir_step;
                                  intros f; by apply Hp].
    destruct (bool_decide _); [apply preserves_ret|].
    apply preserves_bind; [done|apply preserves_path_exists|].
    intros [|]; [apply preserves_ret|].
    apply preserves_try_except; [done| |intros _; apply preserves_ret].
    apply IH. intros f q Hq. apply Hp. etrans; [done|apply parent_prefix].
Qed.

End PreservesMakedirs.

Lemma keeps_existing_os_makedirs (exist_ok : bool) (p : path) :
  keeps_existing (os_makedirs exist_ok p).
Proof.
  apply preserves_os_makedirs_rec; [apply keeps_stable|].
  intros f q _. apply entry_None_not_Some.
Qed.

Lemma path_is_dir_true (p : path) (f : fs) :
  entry f p = Some Dir → path_is_dir p f = Outcome f [] (Ok true).
Proof.
  intros Hp. unfold path_is_dir, bind, stat.
  cbn [after out_fs out_log out_res ret app].
  by rewrite bool_decide_true.
Qed.

(** The last step of [os.makedirs(p, exist_ok=True)] when the parent is
    there and no file stands at [p]. *)
Lemma mkdir_step (p : path) (f : fs) :
  p ≠ [] → entry f (parent p) = Some Dir → no_file f p →
  ∃ f1,
    try_except (os_mkdir p) is_OSError (λ e,
      isd <- path_is_dir p ;;
      if negb true || negb isd then raise e else ret tt) f
    = Outcome f1 [] (Ok tt)
    ∧ f1 !! p = Some Dir.
Proof.
  intros Hne Hpar [Hnone|Hdir].
  - exists (<[p := Dir]> f). split; [|by rewrite lookup_insert_eq].
    apply try_Ok. apply os_mkdir_new; [done|]. by rewrite entry_nonempty.
  - exists f. split; [|done].
    rewrite (try_caught _ _ _ f f [] (Exc FileExistsError (path_str p)));
      [| |done].
    + rewrite after_nil. rewrite (bind_Ok _ _ f f [] true).
      * done.
      * apply path_is_dir_true. by rewrite entry_nonempty.
    + apply (os_mkdir_existing _ _ Dir); [done|]. by rewrite entry_nonempty.
Qed.

Lemma os_makedirs_rec_creates (d : nat) (p : path) (f : fs) :
  (length p ≤ d)%nat → p ≠ [] →
  (∀ q, q ≠ [] → q `prefix_of` p → no_file f q) →
  ∃ f1, os_makedirs_rec d true p f = Outcome f1 [] (Ok tt)
        ∧ f1 !! p = Some Dir.
Proof.
  revert p f. induction d as [|d IH]; intros p f Hlen Hne Hfree.
  { destruct p; [done|]. cbn in Hlen. lia. }
  destruct p as [|x l]; [done|]. cbn [os_makedirs_rec].
  remember (x :: l) as p eqn:Hp. clear x l Hp.
  destruct (bool_decide (parent p = [])) eqn:Hpar.
  - apply bool_decide_eq_true in Hpar. rewrite bind_ret, after_nil.
    apply mkdir_step; [done|by rewrite Hpar|by apply Hfree].
  - apply bool_decide_eq_false in Hpar. rewrite bind_assoc.
    destruct (Hfree (parent p) Hpar (parent_prefix p)) as [Hnone|Hdir].
    + rewrite (bind_Ok _ _ _ _ _ _ (path_exists_missing _ _ Hpar Hnone)), after_nil.
      destruct (IH (parent p) f) as (f1 & Hrec & Hf1).
      { unfold parent. rewrite removelast_firstn_len, length_take. lia. }
      { done. }
      { intros q Hq Hpre. apply Hfree; [done|]. etrans; [done|apply parent_prefix]. }
      rewrite (bind_Ok _ _ f f1 [] tt), after_nil by (by apply try_Ok).
      apply mkdir_step; [done|by rewrite entry_nonempty|].
      assert (Hsame : f1 !! p = f !! p).
      { pose proof (preserves_os_makedirs_rec (λ _ q, ¬ q `prefix_of` parent p)
                      ltac:(done) d true (parent p)) as Hfr.
        specialize (Hfr ltac:(by intros ? q Hq _ Hn) f p).
        rewrite Hrec in Hfr. apply Hfr. intros Hpre.
        apply prefix_length in Hpre. revert Hpre. unfold parent.
        rewrite removelast_firstn_len, length_take.
        destruct p; [done|]. cbn. lia. }
      destruct (Hfree p Hne ltac:(done)) as [H|H]; [left|right];
        (etrans; [exact Hsame|exact H]).
    + rewrite (bind_Ok _ _ f f [] true), after_nil
        by (apply path_exists_present; by rewrite Hdir).
      rewrite bind_ret, after_nil.
      apply mkdir_step; [done|by rewrite entry_nonempty|by apply Hfree].
Qed.

Lemma os_makedirs_creates (p : path) (f : fs) :
  p ≠ [] → (∀ q, q ≠ [] → q `prefix_of` p → no_file f q) →
  ∃ f1, os_makedirs true p f = Outcome f1 [] (Ok tt) ∧ f1 !! p = Some Dir.
Proof. intros. by apply os_makedirs_rec_creates. Qed.

Section OpenUnmixMain.
Import ConvertOpenUnmix.
Variable E : env.

Lemma main_eq_open_unmix (a : args) (f : fs) :
  fails_with_ImportError E required →
  ∃ lines,
    main E a f
    = if bool_decide (filter (is_missing E) required = []) then
        after ((EvImport <$> (replace_dash <$> required)) ++ (EvPrint <$> lines)
               ++ [EvPrint ("Model Type: " +:+ model_type a);
                   EvPrint ("Output: " +:+ path_str (output a))])
          (bind (os_makedirs true (output a))
             (λ _, print ("Output directory created: " +:+ path_str (output a))) f)
      else
        Outcome f ((EvImport <$> (replace_dash <$> required)) ++ (EvPrint <$> lines))
          (Raise (SystemExit 1)).
Proof.
  intros Hok. destruct (check_dependencies_eq E f Hok) as [lines Hc].
  exists lines. unfold main. rewrite (bind_Ok _ _ _ _ _ _ Hc).
  destruct (bool_decide (filter (is_missing E) required = [])).
  - rewrite bind_ret, after_nil, !bind_print, !after_after.
    by rewrite <- !app_assoc.
  - unfold after, bind, raise. cbn [out_fs out_log out_res]. by rewrite app_nil_r.
Qed.

End OpenUnmixMain.

(** X7: an import that fails with anything but an [ImportError] ends
    [check_dependencies]: the exception leaves the function, the packages
    after it in the list are not tried, and nothing is reported as missing
    (no line is printed, the file system is as before). *)
Theorem check_dependencies_passes_other_errors
    (E : ConvertOpenUnmix.env) (f : fs) (pre post : list string) (dep : string)
    (c : exc_class) (msg : string) :
  ConvertOpenUnmix.required = pre ++ dep :: post →
  fails_with_ImportError E pre →
  ConvertOpenUnmix.import_module E (ConvertOpenUnmix.replace_dash dep)
  = Some (c, msg) →
  is_ImportError (Exc c msg) = false →
  ConvertOpenUnmix.check_dependencies E f
  = Outcome f (EvImport <$> (ConvertOpenUnmix.replace_dash <$> (pre ++ [dep])))
      (Raise (Exc c msg)).
Proof.
  intros Hreq Hpre Himp Hc. unfold ConvertOpenUnmix.check_dependencies.
  rewrite Hreq. apply bind_Raise. rewrite for_fold_app.
  rewrite (bind_Ok _ _ _ _ _ _ (check_loop E pre [] f Hpre)).
  cbn [for_fold].
  rewrite (bind_Raise _ _ _ _ _ _ (check_body_raises E dep _ f c msg Himp Hc)).
  unfold after. cbn [out_fs out_log out_res]. by rewrite !fmap_app.
Qed.

Lemma check_dependencies_passes_other_errors_witness :
  ConvertOpenUnmix.check_dependencies Examples.env_broken_torch ∅
  = Outcome ∅
      (EvImport <$> (ConvertOpenUnmix.replace_dash <$> (["tensorflowjs"] ++ ["torch"])))
      (Raise (Exc (OtherException "AttributeError")
                "partially initialized module 'torch' has no attribute 'nn'")).
Proof.
  apply (check_dependencies_passes_other_errors Examples.env_broken_torch ∅
           ["tensorflowjs"] ["onnx"; "onnx-tf"] "torch").
  - reflexivity.
  - intros dep c msg Hdep.
    repeat (apply elem_of_cons in Hdep as [->|Hdep]);
      [..|by apply elem_of_nil in Hdep];
      vm_compute; intros [= <- <-]; reflexivity.
  - reflexivity.
  - reflexivity.
Defined.

(** X8: [convert_onnx_to_tfjs] of convert_open_unmix.py checks the exit
    status of the converter: when the process has run, the function
    returns exactly when the status is 0 and raises [CalledProcessError]
    for every other status; a process that could not be started raises
    what the start raised; and the line "Model converted to ..." is
    printed exactly when the function returns. *)
Theorem converter_status_is_checked
    (E : ConvertOpenUnmix.env) (onnx_path output_path : string) (f : fs) :
  let cmd := ConvertOpenUnmix.converter_cmd onnx_path output_path in
  let r := ConvertOpenUnmix.convert_onnx_to_tfjs E onnx_path output_path f in
  te_raised (ConvertOpenUnmix.subprocess_run E cmd).1 = None →
  out_res r
  = match (ConvertOpenUnmix.subprocess_run E cmd).2 with
    | Returns rc =>
        if decide (rc = 0%Z) then Ok tt
        else Raise (Exc CalledProcessError
                      ("returned non-zero exit status " +:+ pretty rc))
    | Fails c msg => Raise (Exc c msg)
    end
  ∧ (printed ("Model converted to " +:+ output_path) (out_log r) = true
     ↔ out_res r = Ok tt).
Proof.
  intros cmd r Hraised. unfold r.
  rewrite (converter_outcome E onnx_path output_path f Hraised). fold cmd.
  destruct (ConvertOpenUnmix.subprocess_run E cmd).2 as [rc|c msg].
  - destruct (decide (rc = 0%Z)); cbn [out_res out_log]; (split; [done|]).
    + split; [done|]. intros _. unfold printed. cbn [existsb].
      by rewrite String.eqb_refl, !orb_true_r.
    + split; [|done]. unfold printed. cbn. done.
  - cbn [out_res out_log]. split; [done|]. split; [|done].
    unfold printed. cbn. done.
Qed.

Lemma converter_status_is_checked_witness :
  let cmd := ConvertOpenUnmix.converter_cmd "vocals.onnx" "out" in
  let r := ConvertOpenUnmix.convert_onnx_to_tfjs Examples.env_converter_fails
             "vocals.onnx" "out" ∅ in
  out_res r
  = match (ConvertOpenUnmix.subprocess_run Examples.env_converter_fails cmd).2 with
    | Returns rc =>
        if decide (rc = 0%Z) then Ok tt
        else Raise (Exc CalledProcessError
                      ("returned non-zero exit status " +:+ pretty rc))
    | Fails c msg => Raise (Exc c msg)
    end
  ∧ (printed ("Model converted to " +:+ "out") (out_log r) = true
     ↔ out_res r = Ok tt).
Proof.
  apply (converter_status_is_checked Examples.env_converter_fails
           "vocals.onnx" "out" ∅).
  reflexivity.
Defined.

(** X9: [main] of convert_open_unmix.py converts nothing and checks
    before it creates.  When every failing import fails with an
    [ImportError]: no process is started and no entry of the file system is
    modified or removed; when a package is missing the script exits with
    status 1 and the file system is as it was; when none is missing and no
    file stands on the way to the output directory, [main] returns and the
    output directory exists. *)
Theorem open_unmix_main_checks_before_it_creates
    (E : ConvertOpenUnmix.env) (a : ConvertOpenUnmix.args) (f : fs) :
  fails_with_ImportError E ConvertOpenUnmix.required →
  let missing := filter (is_missing E) ConvertOpenUnmix.required in
  let r := ConvertOpenUnmix.main E a f in
  runs_of (out_log r) = []
  ∧ (∀ p, is_Some (f !! p) → out_fs r !! p = f !! p)
  ∧ (missing ≠ [] → out_res r = Raise (SystemExit 1) ∧ out_fs r = f)
  ∧ (missing = [] → ConvertOpenUnmix.output a ≠ [] →
     (∀ q, q ≠ [] → q `prefix_of` ConvertOpenUnmix.output a → no_file f q) →
     out_res r = Ok tt ∧ out_fs r !! ConvertOpenUnmix.output a = Some Dir).
Proof.
  intros Hok missing r. unfold r.
  destruct (main_eq_open_unmix E a f Hok) as [lines ->]. fold missing.
  pose proof (silent_os_makedirs_rec (length (ConvertOpenUnmix.output a)) true
                (ConvertOpenUnmix.output a) f) as Hsilent.
  pose proof (keeps_existing_os_makedirs true (ConvertOpenUnmix.output a) f) as Hkeep.
  fold (os_makedirs true (ConvertOpenUnmix.output a)) in Hsilent.
  destruct (bool_decide (missing = [])) eqn:Hm.
  - apply bool_decide_eq_true in Hm.
    split; [|split; [|split]].
    + unfold bind.
      destruct (os_makedirs true (ConvertOpenUnmix.output a) f) as [f1 l1 [[]|e]];
        cbn [out_log] in Hsilent; subst l1; unfold after, print, emit;
        cbn [out_fs out_log out_res app];
        rewrite !runs_of_app, runs_of_imports, runs_of_prints; done.
    + intros p Hp. specialize (Hkeep p Hp). unfold bind.
      by destruct (os_makedirs true (ConvertOpenUnmix.output a) f) as [f1 l1 [[]|e]].
    + done.
    + intros _ Hne Hfree.
      destruct (os_makedirs_creates _ f Hne Hfree) as (f1 & Hmk & Hdir).
      rewrite (bind_Ok _ _ _ _ _ _ Hmk). done.
  - apply bool_decide_eq_false in Hm. cbn [out_fs out_log out_res].
    split; [|split; [|split]]; try done.
    by rewrite runs_of_app, runs_of_imports, runs_of_prints.
Qed.

Lemma open_unmix_main_checks_before_it_creates_witness :
  let E := Examples.env_open_unmix in
  let a := Examples.default_args in
  let missing := filter (is_missing E) ConvertOpenUnmix.required in
  let r := ConvertOpenUnmix.main E a ∅ in
  runs_of (out_log r) = []
  ∧ (∀ p, is_Some ((∅ : fs) !! p) → out_fs r !! p = (∅ : fs) !! p)
  ∧ (missing ≠ [] → out_res r = Raise (SystemExit 1) ∧ out_fs r = ∅)
  ∧ (missing = [] → ConvertOpenUnmix.output a ≠ [] →
     (∀ q, q ≠ [] → q `prefix_of` ConvertOpenUnmix.output a → no_file ∅ q) →
     out_res r = Ok tt ∧ out_fs r !! ConvertOpenUnmix.output a = Some Dir).
Proof.
  apply (open_unmix_main_checks_before_it_creates Examples.env_open_unmix
           Examples.default_args ∅).
  intros dep c msg _. vm_compute. discriminate.
Defined.

(** *** The conversion scripts stay inside their output tree *)

Lemma preserves_weaken (Q Q' : fs → path → Prop) {A} (m : Py A) :
  (∀ f p, Q' f p → Q f p) → preserves Q m → preserves Q' m.
Proof. intros HQ Hm f p Hp. apply Hm. by apply HQ. Qed.

Lemma prefix_snoc_inv {X} (q l : list X) (x : X) :
  q `prefix_of` l ++ [x] → q `prefix_of` l ∨ q = l ++ [x].
Proof.
  intros [k Hk]. destruct k as [|y k _] using rev_ind.
  - right. by rewrite app_nil_r in Hk.
  - left. rewrite app_assoc in Hk. apply app_inj_tail in Hk as [-> _].
    by apply prefix_app_r.
Qed.

Lemma dict_set_elem_of {V} (k : string) (v : V) (d : list (string * V))
    (e : string * V) :
  e ∈ dict_set k v d → e = (k, v) ∨ e ∈ d.
Proof.
  induction d as [|[k' v'] d IH]; cbn [dict_set].
  - intros ->%list_elem_of_singleton. by left.
  - destruct (String.eqb k' k).
    + intros [->|H]%elem_of_cons; [by left|right; by right].
    + intros [->|H]%elem_of_cons; [right; by left|].
      destruct (IH H); [by left|right; by right].
Qed.

Lemma for_fold_invariant {A S} (P : S → Prop) (l : list A)
    (body : S → A → Py S) (s : S) (f : fs) (s' : S) :
  P s →
  (∀ s x f s', x ∈ l → P s → out_res (body s x f) = Ok s' → P s') →
  out_res (for_fold l body s f) = Ok s' → P s'.
Proof.
  revert s f. induction l as [|x l IH]; intros s f Hs Hstep; cbn [for_fold].
  - by intros [= <-].
  - intros Hres. unfold bind in Hres.
    destruct (body s x f) as [f1 l1 [s1|e]] eqn:Hb; [|done].
    cbn [after out_res] in Hres. apply (IH s1 f1); [| |done].
    + apply (Hstep s x f); [left|done|by rewrite Hb].
    + intros s2 y g s3 Hy. apply Hstep. by right.
Qed.

Section Confined.
Variables (base : path) (stems : list string).

Local Abbreviation outside := (λ (_ : fs) (p : path), ¬ output_tree base stems p).

Lemma outside_stable (f f' : fs) (p : path) :
  outside f p → f' !! p = f !! p → outside f' p.
Proof. done. Qed.

Lemma confined_stem {A} (m : Py A) (s : string) :
  s ∈ stems → frames (writes base s) m → preserves outside m.
Proof.
  intros Hs Hm. apply (preserves_weaken (λ _ p, ¬ writes base s p)); [|exact Hm].
  intros f p Hout Hw. apply Hout. right. apply Exists_exists. eauto.
Qed.

Lemma confined_mkdir_base (parents exist_ok : bool) :
  preserves outside (Path_mkdir parents exist_ok base).
Proof.
  apply preserves_Path_mkdir; [done|].
  intros f q Hq _ Hout. apply Hout. by left.
Qed.

Lemma confined_mkdir_stem (parents exist_ok : bool) (s : string) :
  s ∈ stems → preserves outside (Path_mkdir parents exist_ok (stem_dir base s)).
Proof.
  intros Hs. apply preserves_Path_mkdir; [done|].
  intros f q Hq _ Hout. apply Hout.
  apply prefix_snoc_inv in Hq as [Hq| ->]; [by left|].
  right. apply Exists_exists. exists s. split; [done|]. by unfold writes.
Qed.

End Confined.

Lemma convert_stems_confined (E : Convert2Stems.env) (stems : list string) :
  preserves (λ _ p, ¬ output_tree Convert2Stems.output_base stems p)
    (Convert2Stems.convert_stems E stems).
Proof.
  unfold Convert2Stems.convert_stems.
  apply preserves_bind; [done|apply confined_mkdir_base|].
  intros _. apply preserves_bind; [done| |].
  - apply preserves_for_each; [done|]. intros s Hs.
    apply (confined_stem _ _ _ s Hs). apply local_loop_body.
  - intros _. apply preserves_bind; [done|apply preserves_print|].
    intros _. apply preserves_print.
Qed.

Section ConfinedUmx.
Import ConvertUmxToTfjs.
Variable E : env.

Lemma export_body_result (acc : list (string * path)) (item : string * Model E)
    (f : fs) (acc' : list (string * path)) :
  out_res (export_body E acc item f) = Ok acc' →
  acc' = acc ∨ acc' = dict_set item.1 (onnx_path_of item.1) acc.
Proof.
  unfold export_body. rewrite bind_print. unfold after at 1. cbn [out_res].
  unfold bind at 1.
  destruct (Path_mkdir false true (output_base ++ [item.1]) f) as [f1 l1 [[]|e]];
    [|done].
  unfold after at 1. cbn [out_res].
  set (onnx_path := (output_base ++ [item.1]) ++ [item.1 +:+ ".onnx"]).
  pose proof (run_file_effect_eq onnx_path
                (torch_onnx_export E item.2 export_kwargs (path_str onnx_path)) f1)
    as Hrun.
  destruct (fe_raised _) as [[c msg]|].
  - rewrite (try_caught _ _ _ _ _ _ _ (bind_Raise _ _ _ _ _ _ Hrun) eq_refl).
    rewrite bind_print. cbn. intros [= <-]. by left.
  - erewrite try_Ok; [|by rewrite (bind_Ok _ _ _ _ _ _ Hrun), bind_print].
    cbn [out_res]. intros [= <-]. by right.
Qed.

Lemma exported_entries (items : list (string * Model E)) (f : fs)
    (onnx_models : list (string * path)) :
  out_res (for_fold items (export_body E) [] f) = Ok onnx_models →
  ∀ e, e ∈ onnx_models → e.1 ∈ items.*1 ∧ e = (e.1, onnx_path_of e.1).
Proof.
  apply (for_fold_invariant
           (λ d, ∀ e, e ∈ d → e.1 ∈ items.*1 ∧ e = (e.1, onnx_path_of e.1))).
  - intros e He. by apply elem_of_nil in He.
  - intros acc item g acc' Hitem Hacc Hres e He.
    apply export_body_result in Hres as [->| ->]; [by apply Hacc|].
    apply dict_set_elem_of in He as [->|He]; [|by apply Hacc].
    split; [|done]. cbn [fst]. by apply (list_elem_of_fmap_2 fst).
Qed.

Lemma conversion_confined (items : list (string * Model E)) :
  preserves (λ _ p, ¬ output_tree output_base items.*1 p) (conversion E items).
Proof.
  unfold conversion, loops.
  apply preserves_bind; [done|apply confined_mkdir_base|].
  intros _.
  apply (preserves_bind_post _ (outside_stable output_base items.*1)
           (λ d, ∀ e, e ∈ d → e.1 ∈ items.*1 ∧ e = (e.1, onnx_path_of e.1))).
  - apply preserves_for_fold; [done|]. intros acc item Hitem.
    apply (confined_stem _ _ _ item.1); [by apply (list_elem_of_fmap_2 fst)|].
    apply local_export_body.
  - intros f. apply exported_entries.
  - intros onnx_models Hd. apply preserves_bind; [done| |].
    + destruct onnx_models; [|apply preserves_ret].
      apply preserves_bind; [done|apply preserves_print|].
      intros _. apply preserves_raise.
    + intros _. apply preserves_bind; [done| |intros _; apply preserves_print].
      apply preserves_for_each; [done|]. intros e He.
      destruct (Hd e He) as [Hin ->].
      apply (confined_stem _ _ _ e.1 Hin). apply local_convert_body.
Qed.

End ConfinedUmx.

Section ConfinedOnnxOnly.
Import ConvertToOnnxOnly.
Variable E : env.

Lemma onnx_only_export_body_confined (stems : list string)
    (acc : list (string * path)) (item : string * Model E) :
  item.1 ∈ stems →
  preserves (λ _ p, ¬ output_tree output_base stems p) (export_body E acc item).
Proof.
  intros Hin. unfold export_body.
  apply preserves_bind; [done|apply preserves_print|]. intros _.
  apply preserves_bind; [done|by apply (confined_mkdir_stem output_base)|].
  intros _. apply preserves_try_except; [done| |].
  - apply preserves_bind; [done| |].
    + apply preserves_run_file_effect; [done|]. intros ? Hout. apply Hout. right.
      apply Exists_exists. exists item.1. split; [done|].
      unfold writes, stem_dir. by apply prefix_app_r.
    + intros _. apply preserves_bind; [done|apply preserves_print|].
      intros _. apply preserves_ret.
  - intros e. apply preserves_bind; [done|apply preserves_print|].
    intros _. apply preserves_ret.
Qed.

Lemma onnx_only_script_confined :
  preserves (λ _ p, ¬ output_tree output_base ["vocals"] p) (script E).
Proof.
  unfold script.
  apply preserves_bind; [done|apply preserves_emit|]. intros _.
  apply preserves_bind; [done|apply preserves_raise_if|]. intros _.
  apply preserves_bind; [done| |].
  - apply preserves_try_except; [done| |].
    + apply preserves_bind; [done|apply preserves_call|].
      intros sep. apply preserves_bind; [done|apply preserves_raise_if|].
      intros _. apply preserves_bind; [done|apply preserves_print|].
      intros _. apply preserves_ret.
    + intros e. apply preserves_bind; [done|apply preserves_print|].
      intros _. apply preserves_raise.
  - intros sep. apply preserves_bind; [done|apply confined_mkdir_base|].
    intros _. apply preserves_bind; [done|apply preserves_call|].
    intros vocals. apply preserves_bind; [done| |].
    + apply preserves_for_fold; [done|]. intros acc item Hitem.
      apply onnx_only_export_body_confined.
      apply list_elem_of_singleton in Hitem as ->. by left.
    + intros onnx_models. apply preserves_bind; [done| |intros _; apply preserves_ret].
      destruct onnx_models; [apply preserves_print|].
      apply preserves_bind; [done|apply preserves_print|].
      intros _. apply preserves_print.
Qed.

End ConfinedOnnxOnly.

(** X10: what the three conversion scripts do themselves stays in their
    output tree.  In the embedding a collaborator that writes (the
    exporter, [export_graph] of onnx-tf, onnx2tf, the tensorflowjs
    converter) writes at or below the path it is handed, and loading a
    model writes nothing in the working directory.  Under that reading,
    every path that is neither the base directory of the script or one of
    its ancestors, nor the directory of a stem of the run or below it,
    holds after the run what it held before, whether the run returns or
    raises: every directory the scripts create, every destination of their
    copies and every path they hand to a collaborator lies in the output
    tree. *)
Theorem conversions_stay_in_their_output_tree
    (E2 : Convert2Stems.env) (stems : list string)
    (Eu : ConvertUmxToTfjs.env) (items : list (string * ConvertUmxToTfjs.Model Eu))
    (Eo : ConvertToOnnxOnly.env) (f : fs) (p : path) :
  (¬ output_tree Convert2Stems.output_base stems p →
   out_fs (Convert2Stems.convert_stems E2 stems f) !! p = f !! p)
  ∧ (¬ output_tree ConvertUmxToTfjs.output_base items.*1 p →
     out_fs (ConvertUmxToTfjs.conversion Eu items f) !! p = f !! p)
  ∧ (¬ output_tree ConvertToOnnxOnly.output_base ["vocals"] p →
     out_fs (ConvertToOnnxOnly.script Eo f) !! p = f !! p).
Proof.
  split; [|split].
  - apply convert_stems_confined.
  - apply conversion_confined.
  - apply onnx_only_script_confined.
Qed.

Lemma conversions_stay_in_their_output_tree_witness :
  let f := Examples.fs_with_sources in
  let p := ["src"; "App.js"] in
  out_fs (Convert2Stems.convert_stems (Examples.env_2stems "vocals")
            Convert2Stems.stems f) !! p = f !! p
  ∧ out_fs (ConvertUmxToTfjs.conversion (Examples.env_umx "drums")
              [("drums", "drums"); ("vocals", "vocals")] f) !! p = f !! p
  ∧ out_fs (ConvertToOnnxOnly.script Examples.env_onnx_only f) !! p = f !! p.
Proof.
  intros f p.
  destruct (conversions_stay_in_their_output_tree (Examples.env_2stems "vocals")
              Convert2Stems.stems (Examples.env_umx "drums")
              [("drums", "drums"); ("vocals", "vocals")]
              Examples.env_onnx_only f p) as (H2 & Hu & Ho).
  split; [|split].
  - apply H2. apply (bool_decide_unpack _). vm_compute. reflexivity.
  - apply Hu. apply (bool_decide_unpack _). vm_compute. reflexivity.
  - apply Ho. apply (bool_decide_unpack _). vm_compute. reflexivity.
Defined.

(** *** The imports of scripts/convert_open_unmix_2stems.py *)

Section Imports2Stems.
Import Convert2Stems.
Variable E : env.

Local Abbreviation import_stmt :=
  (λ m : string, emit (EvImport m) ;;; raise_if (import_module E m)).

Lemma import_loop_ok (modules : list string) (f : fs) :
  (∀ m, m ∈ modules → import_module E m = None) →
  for_each modules import_stmt f = Outcome f (EvImport <$> modules) (Ok tt).
Proof.
  induction modules as [|m modules IH]; intros Hok; [done|].
  cbn [for_each]. rewrite bind_assoc, bind_emit, (Hok m) by left.
  change (raise_if None) with (ret (A:=unit) tt).
  rewrite bind_ret, after_nil, IH; [done|].
  intros x Hx. apply Hok. by right.
Qed.

Lemma import_loop_fails (pre post : list string) (m : string) (f : fs) c msg :
  (∀ x, x ∈ pre → import_module E x = None) →
  import_module E m = Some (c, msg) →
  for_each (pre ++ m :: post) import_stmt f
  = Outcome f (EvImport <$> (pre ++ [m])) (Raise (Exc c msg)).
Proof.
  intros Hpre Hm. induction pre as [|x pre IH]; cbn [app for_each].
  - rewrite bind_assoc, bind_emit, Hm. done.
  - rewrite bind_assoc, bind_emit, (Hpre x) by left.
    change (raise_if None) with (ret (A:=unit) tt).
    rewrite bind_ret, after_nil, IH; [done|].
    intros y Hy. apply Hpre. by right.
Qed.

Lemma import_or_exit_all (modules : list string) (hint : string) (f : fs) :
  (∀ m, m ∈ modules → import_module E m = None) →
  import_or_exit E modules hint f = Outcome f (EvImport <$> modules) (Ok tt).
Proof.
  intros Hok. unfold import_or_exit. apply try_Ok. by apply import_loop_ok.
Qed.

Lemma import_or_exit_fails (modules pre post : list string) (m hint : string)
    (f : fs) c msg :
  modules = pre ++ m :: post →
  (∀ x, x ∈ pre → import_module E x = None) →
  import_module E m = Some (c, msg) →
  ∃ lines e,
    import_or_exit E modules hint f
    = Outcome f ((EvImport <$> (pre ++ [m])) ++ (EvPrint <$> lines)) (Raise e)
    ∧ (e = SystemExit 1 ∨ e = Exc c msg).
Proof.
  intros -> Hpre Hm. unfold import_or_exit.
  pose proof (import_loop_fails pre post m f c msg Hpre Hm) as Hloop.
  destruct (is_ImportError (Exc c msg)) eqn:Hc.
  - exists [hint], (SystemExit 1). split; [|by left].
    rewrite (try_caught _ _ _ _ _ _ _ Hloop Hc). by rewrite bind_print.
  - exists [], (Exc c msg). split; [|by right].
    rewrite (try_uncaught _ _ _ _ _ _ _ Hloop Hc). by rewrite app_nil_r.
Qed.

Lemma exit_code_raised {A : Type} (g : fs) (l : list event) (e : exn) c msg :
  e = SystemExit 1 ∨ e = Exc c msg →
  exit_code (Outcome (A:=A) g l (Raise e)) = 1%Z.
Proof. by intros [->| ->]. Qed.

End Imports2Stems.

Ltac import_group_ok E f Hpre :=
  match goal with
  | |- context [bind (Convert2Stems.import_or_exit E ?ms ?hint) ?k f] =>
      rewrite (bind_Ok _ k f f _ tt
                 (import_or_exit_all E ms hint f
                    ltac:(intros x Hx; apply Hpre; revert Hx; rewrite !elem_of_cons, ?elem_of_nil; tauto)))
  end.

Ltac import_group_fails E f pre' post' m c msg Hpre Hm :=
  match goal with
  | |- context [bind (Convert2Stems.import_or_exit E ?ms ?hint) ?k f] =>
      let lines := fresh "lines" in
      let e := fresh "e" in
      let Heq := fresh "Heq" in
      let He := fresh "He" in
      destruct (import_or_exit_fails E ms pre' post' m hint f c msg eq_refl
                  ltac:(intros x Hx; apply Hpre; revert Hx; rewrite !elem_of_cons, ?elem_of_nil; tauto) Hm)
        as (lines & e & Heq & He);
      rewrite (bind_Raise _ k f f _ e Heq);
      unfold after; cbn [out_fs out_log out_res];
      split; [by apply (exit_code_raised _ _ _ c msg)|];
      split; [done|];
      cbn [app];
      rewrite ?imports_of_app, ?imports_of_imports, ?imports_of_prints;
      cbn; rewrite ?imports_of_app, ?imports_of_imports, ?imports_of_prints;
      done
  end.

(** X11: the first import statement that fails ends
    convert_open_unmix_2stems.py with exit status 1 before it has done
    anything.  Of the seven statements ([import torch], [import openunmix],
    [from openunmix import predict], [import tensorflowjs],
    [import tensorflow], [import onnx], [from onnx_tf.backend import
    prepare]) those before it have been executed, those after it are not
    tried, and the file system is as it was. *)
Theorem failed_import_ends_the_script
    (E : Convert2Stems.env) (f : fs) (pre post : list string) (m : string)
    (c : exc_class) (msg : string) :
  script_imports = pre ++ m :: post →
  (∀ x, x ∈ pre → Convert2Stems.import_module E x = None) →
  Convert2Stems.import_module E m = Some (c, msg) →
  let r := Convert2Stems.script E f in
  exit_code r = 1%Z ∧ out_fs r = f ∧ imports_of (out_log r) = pre ++ [m].
Proof.
  intros Hreq Hpre Hm r. unfold r, Convert2Stems.script.
  unfold script_imports in Hreq. rewrite bind_emit.
  destruct pre as [|p0 pre]; cbn [app] in Hreq.
  { injection Hreq as <- <-. rewrite Hm. done. }
  injection Hreq as <- Hreq.
  rewrite (Hpre "torch") by left.
  change (raise_if None) with (ret (A:=unit) tt). rewrite bind_ret, after_nil.
  destruct pre as [|p1 pre]; cbn [app] in Hreq.
  { injection Hreq as <- <-.
    import_group_fails E f (@nil string) ["openunmix.predict"] "openunmix"
      c msg Hpre Hm. }
  injection Hreq as <- Hreq.
  destruct pre as [|p1' pre]; cbn [app] in Hreq.
  { injection Hreq as <- <-.
    import_group_fails E f ["openunmix"] (@nil string) "openunmix.predict"
      c msg Hpre Hm. }
  injection Hreq as <- Hreq. import_group_ok E f Hpre.
  destruct pre as [|p2 pre]; cbn [app] in Hreq.
  { injection Hreq as <- <-.
    import_group_fails E f (@nil string) ["tensorflow"] "tensorflowjs" c msg Hpre Hm. }
  injection Hreq as <- Hreq.
  destruct pre as [|p3 pre]; cbn [app] in Hreq.
  { injection Hreq as <- <-.
    import_group_fails E f ["tensorflowjs"] (@nil string) "tensorflow" c msg Hpre Hm. }
  injection Hreq as <- Hreq. import_group_ok E f Hpre.
  destruct pre as [|p4 pre]; cbn [app] in Hreq.
  { injection Hreq as <- <-.
    import_group_fails E f (@nil string) ["onnx_tf.backend"] "onnx" c msg Hpre Hm. }
  injection Hreq as <- Hreq.
  destruct pre as [|p5 pre]; cbn [app] in Hreq.
  { injection Hreq as <- <-.
    import_group_fails E f ["onnx"] (@nil string) "onnx_tf.backend" c msg Hpre Hm. }
  injection Hreq as <- Hreq. by destruct pre.
Qed.

Lemma failed_import_ends_the_script_witness :
  let r := Convert2Stems.script
             (Examples.env_2stems_without "openunmix.predict") ∅ in
  exit_code r = 1%Z ∧ out_fs r = ∅
  ∧ imports_of (out_log r) = ["torch"; "openunmix"] ++ ["openunmix.predict"].
Proof.
  apply (failed_import_ends_the_script
           (Examples.env_2stems_without "openunmix.predict") ∅
           ["torch"; "openunmix"]
           ["tensorflowjs"; "tensorflow"; "onnx"; "onnx_tf.backend"]
           "openunmix.predict" ModuleNotFoundError
           "No module named openunmix.predict").
  - reflexivity.
  - intros x Hx.
    repeat (apply elem_of_cons in Hx as [->|Hx]); [..|by apply elem_of_nil in Hx];
      reflexivity.
  - reflexivity.
Defined.

(** *** The second loop of scripts/convert_umx_to_tfjs.py *)

Lemma printed_elem_of (line : string) (log : list event) :
  EvPrint line ∈ log → printed line log = true.
Proof.
  intros Hin. unfold printed. apply existsb_exists. exists (EvPrint line).
  split; [by apply list_elem_of_In|]. apply String.eqb_refl.
Qed.

Section UmxSecondLoop.
Import ConvertUmxToTfjs.
Variable E : env.
Variables (stem_name : string) (onnx_path : path) (f : fs).

Local Abbreviation dir := (stem_dir output_base stem_name).
Local Abbreviation saved_model_path := (dir ++ ["saved_model"]).
Local Abbreviation tfjs_path := (dir ++ ["tfjs_model"]).
Local Abbreviation e1 :=
  (onnx2tf_convert E (f !! onnx_path) (path_str onnx_path)
     (path_str saved_model_path)).
Local Abbreviation f1 :=
  (foldl (λ g w, <[saved_model_path ++ w.1 := w.2]> g) f (te_written e1)).
Local Abbreviation e2 :=
  (convert_tf_saved_model E (subtree saved_model_path f1)
     (path_str saved_model_path) (path_str tfjs_path)).
Local Abbreviation f2 :=
  (foldl (λ g w, <[tfjs_path ++ w.1 := w.2]> g) f1 (te_written e2)).

Lemma onnx2tf_step {B} (k : unit → Py B) :
  te_raised e1 = None →
  bind (onnx_file <- lookup_path onnx_path ;;
        run_tree_effect saved_model_path
          (onnx2tf_convert E onnx_file (path_str onnx_path)
             (path_str saved_model_path))) k f
  = k tt f1.
Proof.
  intros Hr. rewrite bind_assoc.
  rewrite (bind_Ok _ _ f f [] (f !! onnx_path)) by done.
  rewrite after_nil.
  pose proof (run_tree_effect_eq saved_model_path e1 f) as Hrun.
  rewrite Hr in Hrun. by rewrite (bind_Ok _ _ _ _ _ _ Hrun), after_nil.
Qed.

Lemma convert_body_unbound :
  tfjs_bound E = false → te_raised e1 = None →
  convert_body E (stem_name, onnx_path) f
  = Outcome f1
      [EvPrint ("Converting " +:+ stem_name +:+ " ONNX -> TensorFlow.js...");
       EvPrint ("  ✅ TensorFlow SavedModel: " +:+ path_str saved_model_path);
       EvPrint ("❌ Error converting " +:+ stem_name
                +:+ ": name 'tfjs' is not defined")]
      (Ok tt).
Proof.
  intros Hb Hr. unfold convert_body. cbn [fst snd]. rewrite bind_print.
  rewrite (try_caught _ _ _ f f1
             [EvPrint ("  ✅ TensorFlow SavedModel: " +:+ path_str saved_model_path)]
             (Exc NameError "name 'tfjs' is not defined")); [done| |done].
  unfold convert_stem. rewrite <- bind_assoc.
  change (output_base ++ [stem_name]) with dir.
  rewrite (onnx2tf_step _ Hr), bind_print, Hb. done.
Qed.

Lemma tfjs_model_json_missing :
  f !! (tfjs_path ++ ["model.json"]) = None →
  (∀ w, w ∈ te_written e2 → w.1 ≠ ["model.json"]) →
  f2 !! (tfjs_path ++ ["model.json"]) = None.
Proof.
  intros Hf Hw. rewrite foldl_insert_frame.
  - rewrite foldl_insert_frame; [done|].
    intros w _ Heq. rewrite <- !(app_assoc (output_base ++ [stem_name])) in Heq.
    by apply app_inv_head in Heq.
  - intros w Hin Heq. apply app_inv_head in Heq. by apply (Hw w).
Qed.

Lemma convert_body_without_graph :
  tfjs_bound E = true → te_raised e1 = None → te_raised e2 = None →
  f !! (tfjs_path ++ ["model.json"]) = None →
  (∀ w, w ∈ te_written e2 → w.1 ≠ ["model.json"]) →
  convert_body E (stem_name, onnx_path) f
  = Outcome f2
      [EvPrint ("Converting " +:+ stem_name +:+ " ONNX -> TensorFlow.js...");
       EvPrint ("  ✅ TensorFlow SavedModel: " +:+ path_str saved_model_path);
       EvPrint ("  ✅ TensorFlow.js model: " +:+ path_str tfjs_path);
       EvPrint ("✅ " +:+ stem_name +:+ " conversion complete!");
       EvPrint ("   Files in: " +:+ path_str dir)]
      (Ok tt).
Proof.
  intros Hb Hr1 Hr2 Hf Hw. unfold convert_body. cbn [fst snd]. rewrite bind_print.
  erewrite try_Ok; [done|].
  unfold convert_stem. rewrite <- bind_assoc.
  change (output_base ++ [stem_name]) with dir.
  rewrite (onnx2tf_step _ Hr1), bind_print, Hb, bind_ret, after_nil.
  rewrite (bind_Ok _ _ f1 f1 [] (subtree saved_model_path f1)) by done.
  rewrite after_nil.
  pose proof (run_tree_effect_eq tfjs_path e2 f1) as Hrun. rewrite Hr2 in Hrun.
  rewrite (bind_Ok _ _ _ _ _ _ Hrun), after_nil, bind_print.
  assert (Hstage : stage tfjs_path dir f2 = Outcome f2 [] (Ok tt)).
  { unfold stage.
    rewrite (bind_Ok _ _ f2 f2 [] false); [done|].
    apply path_exists_missing; [by destruct tfjs_path|].
    by apply tfjs_model_json_missing. }
  rewrite (bind_Ok _ _ _ _ _ _ Hstage), after_nil, bind_print. done.
Qed.

End UmxSecondLoop.

(** X12: convert_umx_to_tfjs.py reports a stem complete whether or not
    anything was staged.  When both converters return and the
    tensorflowjs converter has left no [model.json] in [tfjs_model], the
    iteration copies nothing (the file system is exactly what the two
    converters left), and it still prints "conversion complete!" and
    returns. *)
Theorem umx_reports_complete_without_graph
    (E : ConvertUmxToTfjs.env) (stem_name : string) (onnx_path : path) (f : fs) :
  let dir := stem_dir ConvertUmxToTfjs.output_base stem_name in
  let e1 := ConvertUmxToTfjs.onnx2tf_convert E (f !! onnx_path)
              (path_str onnx_path) (path_str (dir ++ ["saved_model"])) in
  let f1 := foldl (λ g w, <[(dir ++ ["saved_model"]) ++ w.1 := w.2]> g) f
              (te_written e1) in
  let e2 := ConvertUmxToTfjs.convert_tf_saved_model E
              (subtree (dir ++ ["saved_model"]) f1)
              (path_str (dir ++ ["saved_model"]))
              (path_str (dir ++ ["tfjs_model"])) in
  let f2 := foldl (λ g w, <[(dir ++ ["tfjs_model"]) ++ w.1 := w.2]> g) f1
              (te_written e2) in
  let r := ConvertUmxToTfjs.convert_body E (stem_name, onnx_path) f in
  ConvertUmxToTfjs.tfjs_bound E = true →
  te_raised e1 = None → te_raised e2 = None →
  f !! ((dir ++ ["tfjs_model"]) ++ ["model.json"]) = None →
  (∀ w, w ∈ te_written e2 → w.1 ≠ ["model.json"]) →
  out_res r = Ok tt
  ∧ out_fs r = f2
  ∧ out_fs r !! (dir ++ ["model.json"]) = f !! (dir ++ ["model.json"])
  ∧ ConvertUmxToTfjs.converted stem_name (out_log r) = true.
Proof.
  intros dir e1 f1 e2 f2 r Hb Hr1 Hr2 Hf Hw. unfold r.
  rewrite (convert_body_without_graph E stem_name onnx_path f Hb Hr1 Hr2 Hf Hw).
  cbn [out_res out_fs out_log]. split; [done|]. split; [done|]. split.
  - rewrite !foldl_insert_frame; [done|..].
    + intros w _ Heq. unfold dir, stem_dir in Heq.
      rewrite <- !(app_assoc (ConvertUmxToTfjs.output_base ++ [stem_name])) in Heq.
      by apply app_inv_head in Heq.
    + intros w _ Heq. unfold dir, stem_dir in Heq.
      rewrite <- !(app_assoc (ConvertUmxToTfjs.output_base ++ [stem_name])) in Heq.
      by apply app_inv_head in Heq.
  - apply printed_elem_of. rewrite !elem_of_cons. tauto.
Qed.

Lemma umx_reports_complete_without_graph_witness :
  let r := ConvertUmxToTfjs.convert_body Examples.env_umx_no_graph
             ("vocals", onnx_path_of "vocals") Examples.fs_base in
  out_res r = Ok tt
  ∧ out_fs r !! (stem_dir ConvertUmxToTfjs.output_base "vocals" ++ ["model.json"])
    = Examples.fs_base
        !! (stem_dir ConvertUmxToTfjs.output_base "vocals" ++ ["model.json"])
  ∧ ConvertUmxToTfjs.converted "vocals" (out_log r) = true.
Proof.
  destruct (umx_reports_complete_without_graph Examples.env_umx_no_graph
              "vocals" (onnx_path_of "vocals") Examples.fs_base)
    as (Hres & _ & Hfs & Hconv).
  - reflexivity.
  - reflexivity.
  - reflexivity.
  - vm_compute. reflexivity.
  - intros w Hw. cbn [Examples.env_umx_no_graph
                      ConvertUmxToTfjs.convert_tf_saved_model te_written] in Hw.
    repeat (apply elem_of_cons in Hw as [->|Hw]); [..|by apply elem_of_nil in Hw];
      discriminate.
  - split; [exact Hres|]. split; [exact Hfs|exact Hconv].
Defined.

(** X13: when [import tensorflowjs] failed at the top of
    convert_umx_to_tfjs.py the script goes on, and every stem then fails in
    the second loop: onnx2tf runs and leaves its SavedModel, the call of
    the tensorflowjs converter raises [NameError], which is caught and
    printed; no [tfjs_model] is written, nothing is staged, the stem is not
    reported complete and the iteration returns. *)
Theorem unbound_tfjs_fails_the_stem
    (E : ConvertUmxToTfjs.env) (stem_name : string) (onnx_path : path) (f : fs) :
  let dir := stem_dir ConvertUmxToTfjs.output_base stem_name in
  let e1 := ConvertUmxToTfjs.onnx2tf_convert E (f !! onnx_path)
              (path_str onnx_path) (path_str (dir ++ ["saved_model"])) in
  let r := ConvertUmxToTfjs.convert_body E (stem_name, onnx_path) f in
  ConvertUmxToTfjs.tfjs_bound E = false → te_raised e1 = None →
  out_res r = Ok tt
  ∧ out_fs r
    = foldl (λ g w, <[(dir ++ ["saved_model"]) ++ w.1 := w.2]> g) f (te_written e1)
  ∧ EvPrint ("❌ Error converting " +:+ stem_name +:+ ": name 'tfjs' is not defined")
      ∈ out_log r
  ∧ ConvertUmxToTfjs.converted stem_name (out_log r) = false.
Proof.
  intros dir e1 r Hb Hr. unfold r.
  rewrite (convert_body_unbound E stem_name onnx_path f Hb Hr).
  cbn [out_res out_fs out_log]. split; [done|]. split; [done|]. split.
  - rewrite !elem_of_cons. tauto.
  - unfold ConvertUmxToTfjs.converted, printed. cbn. reflexivity.
Qed.

Lemma unbound_tfjs_fails_the_stem_witness :
  let r := ConvertUmxToTfjs.convert_body Examples.env_umx_unbound
             ("vocals", onnx_path_of "vocals") Examples.fs_base in
  out_res r = Ok tt
  ∧ out_fs r !! (stem_dir ConvertUmxToTfjs.output_base "vocals"
                 ++ ["saved_model"; "saved_model.pb"]) = Some (File "graph")
  ∧ out_fs r !! (stem_dir ConvertUmxToTfjs.output_base "vocals" ++ ["tfjs_model"])
    = None
  ∧ ConvertUmxToTfjs.converted "vocals" (out_log r) = false.
Proof.
  destruct (unbound_tfjs_fails_the_stem Examples.env_umx_unbound
              "vocals" (onnx_path_of "vocals") Examples.fs_base)
    as (Hres & Hfs & _ & Hconv).
  - reflexivity.
  - reflexivity.
  - split; [exact Hres|]. split; [|split; [|exact Hconv]].
    + rewrite Hfs. vm_compute. reflexivity.
    + rewrite Hfs. vm_compute. reflexivity.
Defined.

Section UmxFailedExport.
Import ConvertUmxToTfjs.
Variable E : env.

(** Under a directory that can be created, an export iteration touches
    the directory of the stem and its ONNX file, and nothing else. *)
Lemma export_body_fs (acc : list (string * path)) (item : string * Model E)
    (f : fs) (p : path) :
  creatable output_base f item.1 →
  p ≠ stem_dir output_base item.1 → p ≠ onnx_path_of item.1 →
  out_fs (export_body E acc item f) !! p = f !! p.
Proof.
  intros Hc Hdir Honnx.
  destruct (mkdir_stem_creatable output_base ltac:(done) item.1 f Hc)
    as (f1 & Hmk & _ & Hf1).
  unfold export_body. rewrite bind_print, (bind_Ok _ _ _ _ _ _ Hmk), after_nil.
  unfold after at 1. cbn [out_fs].
  change ((output_base ++ [item.1]) ++ [item.1 +:+ ".onnx"])
    with (onnx_path_of item.1).
  pose proof (run_file_effect_eq (onnx_path_of item.1)
                (torch_onnx_export E item.2 export_kwargs
                   (path_str (onnx_path_of item.1))) f1) as Hrun.
  assert (Hw : match fe_written (torch_onnx_export E item.2 export_kwargs
                                   (path_str (onnx_path_of item.1))) with
               | Some d => <[onnx_path_of item.1 := File d]> f1
               | None => f1
               end !! p = f !! p).
  { destruct (fe_written _); [rewrite lookup_insert_ne by done|]; by apply Hf1. }
  destruct (fe_raised _) as [[c msg]|].
  - rewrite (try_caught _ _ _ _ _ _ _ (bind_Raise _ _ _ _ _ _ Hrun) eq_refl).
    by rewrite bind_print.
  - erewrite try_Ok; [|by rewrite (bind_Ok _ _ _ _ _ _ Hrun), bind_print].
    done.
Qed.

End UmxFailedExport.

(** X14: in convert_umx_to_tfjs.py a stem whose export to ONNX raised is
    not taken to the second loop: at the end of the run nothing has been
    written in its directory except the directory itself and whatever the
    exporter left in its [.onnx] file, whatever happens to the other
    stems (distinct stem names, directories that can be created). *)
Theorem failed_export_ends_the_stem
    (E : ConvertUmxToTfjs.env) (items : list (string * ConvertUmxToTfjs.Model E))
    (f : fs) (it : string * ConvertUmxToTfjs.Model E)
    (c : exc_class) (msg : string) (p : path) :
  NoDup items.*1 →
  (∀ it', it' ∈ items → creatable ConvertUmxToTfjs.output_base f it'.1) →
  it ∈ items →
  fe_raised (ConvertUmxToTfjs.torch_onnx_export E it.2
               ConvertUmxToTfjs.export_kwargs (path_str (onnx_path_of it.1)))
  = Some (c, msg) →
  writes ConvertUmxToTfjs.output_base it.1 p →
  p ≠ stem_dir ConvertUmxToTfjs.output_base it.1 → p ≠ onnx_path_of it.1 →
  out_fs (ConvertUmxToTfjs.loops E items f) !! p = f !! p.
Proof.
  intros Hnd Hc Hin Hraised Hp Hdir Honnx.
  pose proof (loops_target E items f it Hnd Hc Hin p Hp) as Ht.
  assert (Hnone : exported_one E f it = None).
  { unfold exported_one.
    rewrite (umx_export_body_result E [] it f (Hc it Hin)). cbv zeta.
    by rewrite Hraised. }
  rewrite Hnone in Ht. rewrite Ht. by apply export_body_fs; [apply Hc|..].
Qed.

Lemma failed_export_ends_the_stem_witness :
  let p := stem_dir ConvertUmxToTfjs.output_base "drums" ++ ["saved_model"] in
  out_fs (ConvertUmxToTfjs.loops (Examples.env_umx "drums")
            [("drums", "drums"); ("vocals", "vocals")] Examples.fs_base) !! p
  = Examples.fs_base !! p.
Proof.
  apply (failed_export_ends_the_stem (Examples.env_umx "drums")
           [("drums", "drums"); ("vocals", "vocals")] Examples.fs_base
           ("drums", "drums") (OtherException "RuntimeError") "unsupported operator").
  - apply (bool_decide_unpack _). vm_compute. reflexivity.
  - intros it' Hit.
    repeat (apply elem_of_cons in Hit as [->|Hit]); [..|by apply elem_of_nil in Hit];
      (split; [vm_compute; reflexivity|left; vm_compute; reflexivity]).
  - left.
  - reflexivity.
  - by apply prefix_app_r.
  - discriminate.
  - discriminate.
Defined.

(** X15: the exit status of convert_to_onnx_only.py does not tell
    whether a model was converted.  When the output directories can be
    created, the script exits with status 0 exactly when torch is imported,
    [torch.hub.load] and [separator.eval()] return and the separator has a
    vocals model, whatever the exporter does: it then returns the
    dictionary of converted models, which is empty when the exporter
    raised.  A failure of [torch.hub.load] or of [separator.eval()] ends
    in [sys.exit(1)]; a failed [import torch] and a failed lookup of the
    vocals model leave the script as uncaught exceptions. *)
Theorem onnx_only_exit_status (E : ConvertToOnnxOnly.env) (f : fs) :
  no_file f ["converted_models"] →
  no_file f ConvertToOnnxOnly.output_base →
  no_file f (stem_dir ConvertToOnnxOnly.output_base "vocals") →
  let r := ConvertToOnnxOnly.script E f in
  out_res r
  = match ConvertToOnnxOnly.import_module E "torch" with
    | Some (c, msg) => Raise (Exc c msg)
    | None =>
        match ConvertToOnnxOnly.torch_hub_load E with
        | Fails _ _ => Raise (SystemExit 1)
        | Returns separator =>
            match ConvertToOnnxOnly.separator_eval E separator with
            | Some _ => Raise (SystemExit 1)
            | None =>
                match ConvertToOnnxOnly.target_model E separator "vocals" with
                | Fails c msg => Raise (Exc c msg)
                | Returns vocals =>
                    let onnx_path :=
                      stem_dir ConvertToOnnxOnly.output_base "vocals"
                      ++ ["vocals.onnx"] in
                    Ok (match fe_raised
                                (ConvertToOnnxOnly.torch_onnx_export E vocals
                                   ConvertToOnnxOnly.export_kwargs
                                   (path_str onnx_path))
                        with
                        | None => [("vocals", onnx_path)]
                        | Some _ => []
                        end)
                end
            end
        end
    end
  ∧ (exit_code r = 0%Z
     ↔ ConvertToOnnxOnly.import_module E "torch" = None
       ∧ ∃ separator vocals,
           ConvertToOnnxOnly.torch_hub_load E = Returns separator
           ∧ ConvertToOnnxOnly.separator_eval E separator = None
           ∧ ConvertToOnnxOnly.target_model E separator "vocals" = Returns vocals).
Proof.
  intros Hcm Hbase Hstem r.
  assert (Hres : out_res r
    = match ConvertToOnnxOnly.import_module E "torch" with
      | Some (c, msg) => Raise (Exc c msg)
      | None =>
          match ConvertToOnnxOnly.torch_hub_load E with
          | Fails _ _ => Raise (SystemExit 1)
          | Returns separator =>
              match ConvertToOnnxOnly.separator_eval E separator with
              | Some _ => Raise (SystemExit 1)
              | None =>
                  match ConvertToOnnxOnly.target_model E separator "vocals" with
                  | Fails c msg => Raise (Exc c msg)
                  | Returns vocals =>
                      Ok (match fe_raised
                                  (ConvertToOnnxOnly.torch_onnx_export E vocals
                                     ConvertToOnnxOnly.export_kwargs
                                     (path_str
                                        (stem_dir ConvertToOnnxOnly.output_base
                                           "vocals" ++ ["vocals.onnx"])))
                          with
                          | None =>
                              [("vocals",
                                stem_dir ConvertToOnnxOnly.output_base "vocals"
                                ++ ["vocals.onnx"])]
                          | Some _ => []
                          end)
                  end
              end
          end
      end).
  { unfold r, ConvertToOnnxOnly.script. rewrite bind_emit.
    unfold after at 1. cbn [out_res].
    destruct (ConvertToOnnxOnly.import_module E "torch") as [[c0 msg0]|]; [done|].
    change (raise_if None) with (ret (A:=unit) tt). rewrite bind_ret, after_nil.
    destruct (ConvertToOnnxOnly.torch_hub_load E) as [sep|c msg].
    - unfold call at 1.
      destruct (ConvertToOnnxOnly.separator_eval E sep) as [[c1 msg1]|] eqn:Heval.
      + rewrite (bind_Raise _ _ f f
                   [EvPrint ("[ERROR] Error loading models: " +:+ msg1)]
                   (SystemExit 1)); [done|].
        rewrite (try_caught _ _ _ f f [] (Exc c1 msg1)); [|
          |done].
        * by rewrite bind_print.
        * rewrite bind_ret, after_nil, Heval. done.
      + rewrite (bind_Ok _ _ f f [EvPrint "[OK] Models loaded!"] sep).
        2:{ apply try_Ok. rewrite bind_ret, after_nil, Heval.
            change (raise_if None) with (ret (A:=unit) tt).
            by rewrite bind_ret, after_nil, bind_print. }
        unfold after at 1. cbn [out_res].
        destruct (mkdir_parents_2 "converted_models" "umx-onnx" f Hcm Hbase)
          as (f1 & Hmk & Hd1 & Hf1).
        change ["converted_models"; "umx-onnx"] with ConvertToOnnxOnly.output_base
          in Hmk, Hd1.
        rewrite (bind_Ok _ _ _ _ _ _ Hmk), after_nil.
        destruct (ConvertToOnnxOnly.target_model E sep "vocals") as [vocals|c msg];
          [|done].
        unfold call. rewrite bind_ret, after_nil.
        assert (Hc : creatable ConvertToOnnxOnly.output_base f1 "vocals").
        { apply (creatable_after_mkdir _ f); [done| |done].
          intros p Hp1 Hp2. by apply Hf1. }
        pose proof (onnx_only_export_body_result E [] ("vocals", vocals) f1 Hc)
          as Hexp.
        cbv zeta in Hexp. cbn [fst snd] in Hexp.
        cbn [for_fold].
        destruct (ConvertToOnnxOnly.export_body E [] ("vocals", vocals) f1)
          as [f2 l2 r2] eqn:Hbody.
        cbn [out_res] in Hexp. subst r2.
        rewrite bind_assoc, (bind_Ok _ _ _ _ _ _ Hbody).
        unfold after at 1. cbn [out_res].
        rewrite bind_ret, after_nil.
        destruct (fe_raised _).
        * rewrite (bind_res _ _ _ tt) by done. done.
        * rewrite (bind_res _ _ _ tt) by done. done.
    - rewrite (bind_Raise _ _ f f
                 [EvPrint ("[ERROR] Error loading models: " +:+ msg)]
                 (SystemExit 1)); [done|].
      rewrite (try_caught _ _ _ f f [] (Exc c msg)); [|done|done].
      by rewrite bind_print. }
  split; [exact Hres|].
  unfold exit_code. rewrite Hres.
  destruct (ConvertToOnnxOnly.import_module E "torch") as [[c0 msg0]|].
  { split; [done|]. by intros [? _]. }
  destruct (ConvertToOnnxOnly.torch_hub_load E) as [sep|c msg].
  2:{ split; [done|]. by intros (_ & sep & v & ? & _). }
  destruct (ConvertToOnnxOnly.separator_eval E sep) as [[c1 msg1]|] eqn:Heval.
  { split; [done|]. intros (_ & sep' & v & [= <-] & He & _). congruence. }
  destruct (ConvertToOnnxOnly.target_model E sep "vocals") as [vocals|c msg]
    eqn:Ht.
  - split; [|done]. intros _. split; [done|]. by exists sep, vocals.
  - split; [done|]. intros (_ & sep' & v & [= <-] & _ & Ht'). congruence.
Qed.

Lemma onnx_only_exit_status_witness :
  out_res (ConvertToOnnxOnly.script Examples.env_onnx_only_rejecting ∅) = Ok []
  ∧ exit_code (ConvertToOnnxOnly.script Examples.env_onnx_only_rejecting ∅) = 0%Z.
Proof.
  destruct (onnx_only_exit_status Examples.env_onnx_only_rejecting ∅)
    as [Hres Hexit]; [left; reflexivity..|].
  split; [exact Hres|]. apply Hexit. split; [reflexivity|].
  by exists tt, "vocals".
Defined.

(** The lookup of the vocals model is outside every [try]: when the
    separator has no such model, the [KeyError] ends the script with status
    1 although the models were loaded. *)
Example missing_vocals_model_ends_the_script :
  let r := ConvertToOnnxOnly.script Examples.env_onnx_only_no_vocals ∅ in
  out_res r = Raise (Exc (OtherException "KeyError") "'vocals'")
  ∧ exit_code r = 1%Z
  ∧ printed "[OK] Models loaded!" (out_log r) = true.
Proof. vm_compute. repeat split. Qed.

(** *** Staging, once more *)

Lemma parent_fixed (p : path) : parent p = p → p = [].
Proof.
  intros Hp. apply (f_equal length) in Hp. unfold parent in Hp.
  rewrite removelast_firstn_len, length_take in Hp.
  destruct p; [done|]. cbn in Hp. lia.
Qed.

Section StagingAgain.
Variable dir : path.

Local Abbreviation tfjs := (dir ++ ["tfjs_model"]).

Lemma stage_fs (stem : string) (f : fs) :
  stageable tfjs dir f →
  (∀ p, out_fs (Convert2Stems.stage stem tfjs dir f) !! p = staged_entry tfjs dir f p)
  ∧ (∀ p, out_fs (ConvertUmxToTfjs.stage tfjs dir f) !! p = staged_entry tfjs dir f p).
Proof.
  intros Hst.
  destruct (staged_fs dir f Hst) as (f1 & ws & g' & Hex & Hcopy & Hglob & Hloop & Hfs).
  split.
  - unfold Convert2Stems.stage.
    rewrite (bind_Ok _ _ _ _ _ _ Hex), (bind_Ok _ _ _ _ _ _ Hcopy),
      (bind_Ok _ _ _ _ _ _ Hglob), (bind_Ok _ _ _ _ _ _ Hloop).
    done.
  - unfold ConvertUmxToTfjs.stage.
    rewrite (bind_Ok _ _ _ _ _ _ Hex), (bind_Ok _ _ _ _ _ _ Hcopy), bind_print,
      (bind_Ok _ _ _ _ _ _ Hglob), (bind_Ok _ _ _ _ _ _ Hloop).
    done.
Qed.

Lemma source_is_no_destination (f : fs) (x : string) :
  ¬ destination tfjs dir f (tfjs ++ [x]).
Proof.
  intros (_ & Hpar & _). rewrite parent_snoc in Hpar.
  by apply (dir_not_destination dir "tfjs_model").
Qed.

(** A file system that holds what staging leaves. *)
Section Staged.
Variables f g : fs.
Hypothesis f_stageable : stageable tfjs dir f.
Hypothesis g_staged : ∀ p, g !! p = staged_entry tfjs dir f p.

Lemma staged_sources (x : string) : g !! (tfjs ++ [x]) = f !! (tfjs ++ [x]).
Proof.
  rewrite g_staged. unfold staged_entry.
  destruct (decide _) as [Hd|_]; [|done]. by apply source_is_no_destination in Hd.
Qed.

Lemma staged_destinations (p : path) :
  destination tfjs dir g p ↔ destination tfjs dir f p.
Proof. unfold destination. by rewrite staged_sources. Qed.

Lemma staged_fixed (p : path) : staged_entry tfjs dir g p = g !! p.
Proof.
  unfold staged_entry at 1.
  destruct (decide (destination tfjs dir g p)) as [Hd|_]; [|done].
  apply staged_destinations in Hd. rewrite staged_sources, g_staged.
  unfold staged_entry. by rewrite decide_True.
Qed.

Lemma staged_keeps (p : path) : is_Some (f !! p) → is_Some (g !! p).
Proof.
  intros Hp. rewrite g_staged. unfold staged_entry.
  destruct (decide _) as [(_ & _ & _ & Hsrc)|_]; done.
Qed.

Lemma staged_stageable : stageable tfjs dir g.
Proof.
  destruct f_stageable as (Hdir & [graph Hgraph] & Hall).
  split; [|split].
  - destruct (decide (dir = [])) as [->|Hne]; [done|].
    rewrite entry_nonempty in Hdir |- * by done.
    rewrite g_staged. unfold staged_entry.
    destruct (decide _) as [(_ & Hpar & _)|_]; [|done].
    by apply parent_fixed in Hpar.
  - exists graph. by rewrite staged_sources.
  - intros p n Hp ->. rewrite g_staged in Hp. unfold staged_entry in Hp.
    destruct (decide (destination tfjs dir f p)) as [(Hne & Hpar & Hname & Hsrc)|_].
    + exfalso. destruct (Hall _ _ Hp eq_refl) as [Hglob _].
      destruct (ends_with ".bin" (name p)) eqn:Hend.
      * apply Hglob. split; [by destruct tfjs|].
        by rewrite parent_snoc, name_snoc.
      * destruct Hname as [Hmj|?]; [|congruence].
        rewrite Hmj, Hgraph in Hp. done.
    + by apply (Hall p Dir).
Qed.

End Staged.

Lemma stage_again (stem : string) (f : fs) :
  stageable tfjs dir f →
  let f1 := out_fs (Convert2Stems.stage stem tfjs dir f) in
  let g1 := out_fs (ConvertUmxToTfjs.stage tfjs dir f) in
  out_fs (Convert2Stems.stage stem tfjs dir f1) = f1
  ∧ out_fs (ConvertUmxToTfjs.stage tfjs dir g1) = g1.
Proof.
  intros Hst f1 g1. destruct (stage_fs stem f Hst) as [H2 Hu]. split.
  - apply map_eq. intros p.
    rewrite (proj1 (stage_fs stem f1 (staged_stageable f f1 Hst H2))).
    by apply (staged_fixed f).
  - apply map_eq. intros p.
    rewrite (proj2 (stage_fs stem g1 (staged_stageable f g1 Hst Hu))).
    by apply (staged_fixed f).
Qed.

End StagingAgain.

(** X16: staging is idempotent and only adds.  When staging can go
    through, staging a second time from the result changes nothing (in
    either script); staging leaves every entry of the converter's
    [tfjs_model] directory as it is; and it removes nothing: every path
    that held something before holds something after. *)
Theorem staging_is_idempotent (stem : string) (dir : path) (f : fs) :
  stageable (dir ++ ["tfjs_model"]) dir f →
  let f1 := out_fs (Convert2Stems.stage stem (dir ++ ["tfjs_model"]) dir f) in
  let g1 := out_fs (ConvertUmxToTfjs.stage (dir ++ ["tfjs_model"]) dir f) in
  out_fs (Convert2Stems.stage stem (dir ++ ["tfjs_model"]) dir f1) = f1
  ∧ out_fs (ConvertUmxToTfjs.stage (dir ++ ["tfjs_model"]) dir g1) = g1
  ∧ (∀ x, f1 !! ((dir ++ ["tfjs_model"]) ++ [x])
          = f !! ((dir ++ ["tfjs_model"]) ++ [x]))
  ∧ (∀ p, is_Some (f !! p) → is_Some (f1 !! p)).
Proof.
  intros Hst f1 g1. destruct (stage_again dir stem f Hst) as [H2 Hu].
  split; [exact H2|]. split; [exact Hu|].
  destruct (stage_fs dir stem f Hst) as [Hf1 _]. split.
  - intros x. by apply (staged_sources dir f).
  - intros p. by apply (staged_keeps dir f).
Qed.

Lemma staging_is_idempotent_witness :
  let dir := Examples.vocals_dir in
  let f := Examples.fs_before_staging in
  let f1 := out_fs (Convert2Stems.stage "vocals" (dir ++ ["tfjs_model"]) dir f) in
  let g1 := out_fs (ConvertUmxToTfjs.stage (dir ++ ["tfjs_model"]) dir f) in
  out_fs (Convert2Stems.stage "vocals" (dir ++ ["tfjs_model"]) dir f1) = f1
  ∧ out_fs (ConvertUmxToTfjs.stage (dir ++ ["tfjs_model"]) dir g1) = g1
  ∧ (∀ x, f1 !! ((dir ++ ["tfjs_model"]) ++ [x])
          = f !! ((dir ++ ["tfjs_model"]) ++ [x]))
  ∧ (∀ p, is_Some (f !! p) → is_Some (f1 !! p)).
Proof.
  intros dir f.
  apply (staging_is_idempotent "vocals" dir f).
  split; [vm_compute; reflexivity|].
  split; [eexists; vm_compute; reflexivity|].
  apply (bool_decide_unpack _). vm_compute. reflexivity.
Defined.

(** *** What download_and_convert.py loads *)

Section LoadsFetched.
Import DownloadAndConvert.
Variable E : env.

Lemma downloaded_are_fetched (f : fs) (downloaded : list (string * path)) :
  out_res (for_fold MODEL_URLS (download_loop_body E) [] f) = Ok downloaded →
  ∀ e, e ∈ downloaded →
    ∃ url, (e.1, url) ∈ MODEL_URLS ∧ fe_raised (urlretrieve E url) = None.
Proof.
  apply (for_fold_invariant
           (λ d : list (string * path), ∀ e, e ∈ d →
              ∃ url, (e.1, url) ∈ MODEL_URLS ∧ fe_raised (urlretrieve E url) = None)).
  - intros e He. by apply elem_of_nil in He.
  - intros acc item g acc' Hitem Hacc Hres e He.
    unfold download_loop_body in Hres.
    destruct (download_model_eq E item.2 (output_dir ++ ["umx_" +:+ item.1 +:+ ".pth"]) g)
      as (l1 & l2 & Hd).
    rewrite (bind_Ok _ _ _ _ _ _ Hd) in Hres. unfold after in Hres.
    cbn [out_res] in Hres.
    destruct (bool_decide (fe_raised (urlretrieve E item.2) = None)) eqn:Hok;
      cbn in Hres; injection Hres as <-; [|by apply Hacc].
    apply dict_set_elem_of in He as [->|He]; [|by apply Hacc].
    exists item.2. split; [by destruct item|]. by apply bool_decide_eq_true in Hok.
Qed.

Lemma loaded_are_downloaded (downloaded : list (string * path)) (f : fs)
    (models : list (string * Checkpoint E)) :
  out_res (for_fold downloaded (load_loop_body E) [] f) = Ok models →
  ∀ e, e ∈ models → truthy E e.2 = Returns true ∧ e.1 ∈ downloaded.*1.
Proof.
  apply (for_fold_invariant
           (λ d : list (string * Checkpoint E), ∀ e, e ∈ d →
              truthy E e.2 = Returns true ∧ e.1 ∈ downloaded.*1)).
  - intros e He. by apply elem_of_nil in He.
  - intros acc item g acc' Hitem Hacc Hres e He.
    unfold load_loop_body in Hres.
    apply bind_res_inv in Hres as ([m|] & g1 & _ & Hres).
    + destruct (truthy E m) as [[|]|c msg] eqn:Hm; cbn in Hres;
        [injection Hres as <-|injection Hres as <-; by apply Hacc|done].
      apply dict_set_elem_of in He as [->|He]; [|by apply Hacc].
      split; [done|]. cbn [fst]. by apply (list_elem_of_fmap_2 fst).
    + cbn in Hres. injection Hres as <-. by apply Hacc.
Qed.

End LoadsFetched.

(** X17: download_and_convert.main loads nothing but what it has just
    fetched: every model of the dictionary it ends with is truthy and
    belongs to a stem of MODEL_URLS whose retrieval did not raise in this
    run; a stem whose download failed is never loaded, even when a file
    for it is on disk. *)
Theorem download_and_convert_loads_what_it_fetched
    (E : DownloadAndConvert.env) (f : fs)
    (models : list (string * DownloadAndConvert.Checkpoint E))
    (stem : string) (m : DownloadAndConvert.Checkpoint E) :
  out_res (DownloadAndConvert.main E f) = Ok models →
  (stem, m) ∈ models →
  DownloadAndConvert.truthy E m = Returns true
  ∧ ∃ url, (stem, url) ∈ DownloadAndConvert.MODEL_URLS
           ∧ fe_raised (DownloadAndConvert.urlretrieve E url) = None.
Proof.
  intros Hres Hin. unfold DownloadAndConvert.main in Hres.
  apply bind_res_inv in Hres as ([] & f1 & _ & Hres).
  apply bind_res_inv in Hres as (downloaded & f2 & Hdl & Hres).
  destruct downloaded as [|d downloaded].
  { apply bind_res_inv in Hres as ([] & f3 & _ & Hres).
    cbn in Hres. injection Hres as <-. by apply elem_of_nil in Hin. }
  apply bind_res_inv in Hres as ([] & f3 & _ & Hres).
  apply bind_res_inv in Hres as (models' & f4 & Hld & Hres).
  assert (models' = models) as ->.
  { destruct models'.
    - apply bind_res_inv in Hres as ([] & f5 & _ & Hres). cbn in Hres. congruence.
    - apply bind_res_inv in Hres as ([] & f5 & _ & Hres). cbn in Hres. congruence. }
  destruct (loaded_are_downloaded E _ _ _ Hld _ Hin) as [Htruthy Hdown].
  split; [done|]. cbn [fst] in Hdown.
  apply list_elem_of_fmap in Hdown as (e & -> & He).
  by apply (downloaded_are_fetched E _ _ Hdl).
Qed.

Lemma download_and_convert_loads_what_it_fetched_witness :
  let E := Examples.env_vocals_host in
  DownloadAndConvert.truthy E [("fc1.weight", "vocals-weights")] = Returns true
  ∧ ∃ url, ("vocals", url) ∈ DownloadAndConvert.MODEL_URLS
           ∧ fe_raised (DownloadAndConvert.urlretrieve E url) = None.
Proof.
  apply (download_and_convert_loads_what_it_fetched Examples.env_vocals_host ∅
           [("vocals", [("fc1.weight", "vocals-weights")])] "vocals").
  - vm_compute. reflexivity.
  - left.
Defined.

(** *** What a report of success means in convert_open_unmix_2stems.py *)

Lemma printed_app (line : string) (l1 l2 : list event) :
  printed line (l1 ++ l2) = printed line l1 || printed line l2.
Proof. apply existsb_app. Qed.

Section NeverPrints.
Variable line : string.

Local Abbreviation never_prints := (never_prints line).

Lemma never_prints_silent {A} (m : Py A) : silent m → never_prints m.
Proof. intros Hm f. by rewrite Hm. Qed.

Lemma never_prints_ret {A} (a : A) : never_prints (ret a).
Proof. done. Qed.

Lemma never_prints_raise {A} (e : exn) : never_prints (raise (A:=A) e).
Proof. done. Qed.

Lemma never_prints_call {A} (a : answer A) : never_prints (call a).
Proof. by destruct a. Qed.

Lemma never_prints_print (line' : string) :
  String.eqb line' line = false → never_prints (print line').
Proof. intros Hne f. cbn. by rewrite Hne. Qed.

Lemma never_prints_bind {A B} (m : Py A) (k : A → Py B) :
  never_prints m → (∀ a, never_prints (k a)) → never_prints (bind m k).
Proof.
  intros Hm Hk f. unfold bind. pose proof (Hm f) as H1.
  destruct (m f) as [f1 l1 [a|e]]; cbn [out_log] in *; [|done].
  unfold after. cbn [out_log]. by rewrite printed_app, H1, Hk.
Qed.

Lemma never_prints_try_except {A} (m : Py A) (catches : exn → bool)
    (h : exn → Py A) :
  never_prints m → (∀ e, never_prints (h e)) → never_prints (try_except m catches h).
Proof.
  intros Hm Hh f. unfold try_except. pose proof (Hm f) as H1.
  destruct (m f) as [f1 l1 [a|e]]; cbn [out_log] in *; [done|].
  destruct (catches e); [|done].
  unfold after. cbn [out_log]. by rewrite printed_app, H1, Hh.
Qed.

End NeverPrints.

Lemma silent_run_file_effect (dst : path) (e : file_effect) :
  silent (run_file_effect dst e).
Proof. intros f. by rewrite run_file_effect_eq. Qed.

Lemma silent_run_tree_effect (base : path) (e : tree_effect) :
  silent (run_tree_effect base e).
Proof. intros f. apply run_tree_effect_log. Qed.

(** [shutil.copy] either raises and leaves the file system as it is, or
    writes the bytes of the source at its target: the destination, or the
    name of the source inside it when the destination is a directory. *)
Lemma shutil_copy_cases (src dst : path) (g : fs) :
  (∃ e, shutil_copy src dst g = Outcome g [] (Raise e))
  ∨ (∃ data target,
       entry g src = Some (File data)
       ∧ ((target = dst ∧ entry g dst ≠ Some Dir)
          ∨ (target = dst ++ [name src] ∧ entry g dst = Some Dir))
       ∧ shutil_copy src dst g = Outcome (<[target := File data]> g) [] (Ok tt)).
Proof.
  unfold shutil_copy, bind, stat. cbn [after out_fs out_log out_res app].
  destruct (entry g src) as [[|data]|] eqn:Hsrc; [left; by eexists| |left; by eexists].
  destruct (entry g dst) as [[|d]|] eqn:Hdst.
  - destruct (entry g (parent (dst ++ [name src]))) as [[|?]|];
      [|left; by eexists..].
    destruct (entry g (dst ++ [name src])) as [[|?]|] eqn:Ht; [left; by eexists|..];
      right; exists data, (dst ++ [name src]); (split; [done|]);
      (split; [by right|done]).
  - destruct (entry g (parent dst)) as [[|?]|]; [|left; by eexists..].
    rewrite Hdst. right. exists data, dst. split; [done|]. split; [by left|done].
  - destruct (entry g (parent dst)) as [[|?]|]; [|left; by eexists..].
    rewrite Hdst. right. exists data, dst. split; [done|]. split; [by left|done].
Qed.

(** The loop that copies the weight files: it logs nothing and touches
    only the targets of its copies. *)
Lemma copy_weights_cases (dir : path) (ws : list path) (g : fs) :
  ∃ g' r,
    for_each ws (λ w, shutil_copy w (dir ++ [name w])) g = Outcome g' [] r
    ∧ ∀ p, (∀ w, w ∈ ws → p ≠ dir ++ [name w] ∧ p ≠ (dir ++ [name w]) ++ [name w]) →
           g' !! p = g !! p.
Proof.
  revert g. induction ws as [|w ws IH]; intros g.
  - exists g, (Ok tt). done.
  - cbn [for_each].
    destruct (shutil_copy_cases w (dir ++ [name w]) g)
      as [[e He]|(data & target & _ & Htarget & Hc)].
    + exists g, (Raise e). split; [by rewrite (bind_Raise _ _ _ _ _ _ He)|done].
    + destruct (IH (<[target := File data]> g)) as (g' & r & Hrun & Hfr).
      exists g', r. split; [by rewrite (bind_Ok _ _ _ _ _ _ Hc), after_nil|].
      intros p Hp. rewrite Hfr by (intros w' Hw'; apply Hp; by right).
      apply lookup_insert_ne. destruct (Hp w ltac:(left)) as [H1 H2].
      by destruct Htarget as [[-> _]|[-> _]].
Qed.

Lemma snoc_nonempty {X} (l : list X) (x : X) : l ++ [x] ≠ [].
Proof. by destruct l. Qed.

Section ReportedConverted.
Import Convert2Stems.
Variable E : env.
Variable stem : string.

Local Abbreviation dir := (stem_dir output_base stem).
Local Abbreviation tfjs := (dir ++ ["tfjs_model"]).
Local Abbreviation line := ("✅ " +:+ stem +:+ " model converted successfully!").

(** Where the graph descriptor is after a copy that went through. *)
Local Abbreviation graph_staged := (λ (g : fs) (graph : string),
  g !! (tfjs ++ ["model.json"]) = Some (File graph)
  ∧ (g !! (dir ++ ["model.json"]) = Some (File graph)
     ∨ (g !! (dir ++ ["model.json"]) = Some Dir
        ∧ g !! ((dir ++ ["model.json"]) ++ ["model.json"]) = Some (File graph)))).

Lemma stage_reports (g : fs) :
  converted stem (out_log (stage stem tfjs dir g)) = true →
  ∃ graph, graph_staged (out_fs (stage stem tfjs dir g)) graph.
Proof.
  unfold stage, converted.
  destruct (g !! (tfjs ++ ["model.json"])) as [n|] eqn:Hsrc.
  2:{ rewrite (bind_Ok _ _ _ _ _ _
                 (path_exists_missing _ _ (snoc_nonempty _ _) Hsrc)).
      cbn. done. }
  rewrite (bind_Ok _ _ g g [] true), after_nil
    by (apply path_exists_present; eexists; exact Hsrc).
  destruct (shutil_copy_cases (tfjs ++ ["model.json"]) (dir ++ ["model.json"]) g)
    as [[e He]|(graph & target & Hgraph & Htarget & Hc)].
  { rewrite (bind_Raise _ _ _ _ _ _ He). done. }
  rewrite entry_snoc in Hgraph. rewrite name_snoc, !entry_snoc in Htarget.
  rewrite (bind_Ok _ _ _ _ _ _ Hc), after_nil.
  set (g1 := <[target := File graph]> g).
  destruct (glob_suffix tfjs ".bin" g1) as [g1' lg [ws|e]] eqn:Hglob; [|done].
  assert (g1' = g1 ∧ lg = []) as [-> ->] by (by injection Hglob).
  rewrite (bind_Ok _ _ _ _ _ _ Hglob), after_nil.
  destruct (copy_weights_cases dir ws g1) as (g2 & [[]|e] & Hrun & Hfr).
  2:{ rewrite (bind_Raise _ _ _ _ _ _ Hrun). done. }
  rewrite (bind_Ok _ _ _ _ _ _ Hrun), after_nil. intros _.
  rewrite bind_print. unfold after, print, emit. cbn [out_fs].
  assert (Hws : ∀ w, w ∈ ws → ends_with ".bin" (name w) = true).
  { intros w Hw.
    destruct (glob_suffix_children tfjs ".bin" g1 ws ltac:(by rewrite Hglob) w Hw)
      as (x & -> & Hx & _).
    by rewrite name_snoc. }
  assert (Hkeep : ∀ p a, p = dir ++ [a] ∨ p = (dir ++ [a]) ++ ["model.json"] →
                    ends_with ".bin" a = false → g2 !! p = g1 !! p).
  { intros p a Hp Ha. apply Hfr. intros w Hw. specialize (Hws w Hw).
    destruct Hp as [-> | ->]; split; intros Heq.
    - apply app_inv_head in Heq. injection Heq as Heq. congruence.
    - apply (f_equal length) in Heq. rewrite !length_app in Heq. cbn in Heq. lia.
    - apply (f_equal length) in Heq. rewrite !length_app in Heq. cbn in Heq. lia.
    - rewrite <- !app_assoc in Heq. apply app_inv_head in Heq.
      injection Heq as Heq _. congruence. }
  exists graph. split.
  - rewrite <- app_assoc.
    rewrite (Hkeep _ "tfjs_model") by (by right || done).
    unfold g1. rewrite lookup_insert_ne; [by rewrite <- app_assoc in Hgraph|].
    destruct Htarget as [[-> _]|[-> _]]; intros Heq.
    + apply (f_equal length) in Heq. rewrite !length_app in Heq. cbn in Heq. lia.
    + rewrite <- !app_assoc in Heq. by apply app_inv_head in Heq.
  - destruct Htarget as [[-> Hnd]|[-> Hd]].
    + left. rewrite (Hkeep _ "model.json") by (by left || done).
      unfold g1. by rewrite lookup_insert_eq.
    + right.
      rewrite (Hkeep (dir ++ ["model.json"]) "model.json") by (by left || done).
      rewrite (Hkeep _ "model.json") by (by right || done).
      unfold g1. rewrite lookup_insert_eq. split; [|done].
      rewrite lookup_insert_ne; [done|].
      intros Heq. apply (f_equal length) in Heq. rewrite !length_app in Heq.
      cbn in Heq. lia.
Qed.

End ReportedConverted.

Lemma silent_Path_mkdir_rec (d : nat) (parents exist_ok : bool) (p : path) :
  silent (Path_mkdir_rec d parents exist_ok p).
Proof.
  revert parents exist_ok p.
  induction d as [|d IH]; intros parents exist_ok p; cbn [Path_mkdir_rec];
    (apply silent_try_except; [apply silent_os_mkdir|]); intros e;
    destruct (is_FileNotFoundError e).
  - by destruct (negb parents || bool_decide (parent p = p)).
  - apply silent_bind; [apply silent_path_is_dir|].
    intros isd. by destruct (negb exist_ok || negb isd).
  - destruct (negb parents || bool_decide (parent p = p)); [done|].
    apply silent_bind; [apply IH|]. intros _. apply IH.
  - apply silent_bind; [apply silent_path_is_dir|].
    intros isd. by destruct (negb exist_ok || negb isd).
Qed.

Section ReportedConvertedLoop.
Import Convert2Stems.
Variable E : env.
Variable stem : string.

Local Abbreviation dir := (stem_dir output_base stem).
Local Abbreviation tfjs := (dir ++ ["tfjs_model"]).
Local Abbreviation line := ("✅ " +:+ stem +:+ " model converted successfully!").

(** The [try] block up to the staging. *)
Local Abbreviation conversions :=
  (model <- call (openunmix_umx E stem) ;;
   onnx_path <- convert_pytorch_to_onnx E model dir stem ;;
   convert_onnx_to_tfjs E onnx_path dir).

Lemma convert_stem_split (g : fs) :
  convert_stem E stem dir g = bind conversions (λ t, stage stem t dir) g.
Proof.
  unfold convert_stem. rewrite bind_assoc. unfold bind at 1 4.
  destruct (call (openunmix_umx E stem) g) as [g1 l1 [model|e]]; [|done].
  by rewrite bind_assoc.
Qed.

Lemma conversions_return (g : fs) (t : path) :
  out_res (conversions g) = Ok t → t = tfjs.
Proof.
  intros H. unfold convert_onnx_to_tfjs in H.
  repeat (apply bind_res_inv in H as (? & ? & _ & H)).
  by injection H.
Qed.

Lemma conversions_never_print : never_prints line conversions.
Proof.
  apply never_prints_bind; [apply never_prints_call|]. intros model.
  apply never_prints_bind.
  - unfold convert_pytorch_to_onnx.
    apply never_prints_bind; [by apply never_prints_print|]. intros _.
    apply never_prints_bind;
      [apply never_prints_silent, silent_run_file_effect|]. intros _.
    apply never_prints_bind; [by apply never_prints_print|]. intros _.
    apply never_prints_ret.
  - intros onnx_path. unfold convert_onnx_to_tfjs.
    apply never_prints_bind; [by apply never_prints_print|]. intros _.
    apply never_prints_bind.
    { unfold onnx_load_call. apply never_prints_bind; [done|].
      intros [[|data]|]; [done|apply never_prints_call|done]. }
    intros onnx_model.
    apply never_prints_bind; [apply never_prints_call|]. intros tf_rep.
    apply never_prints_bind;
      [apply never_prints_silent, silent_run_tree_effect|]. intros _.
    apply never_prints_bind; [done|]. intros saved.
    apply never_prints_bind;
      [apply never_prints_silent, silent_run_tree_effect|]. intros _.
    apply never_prints_bind; [by apply never_prints_print|]. intros _.
    apply never_prints_ret.
Qed.

Lemma try_stage_reports (m : Py path) (f0 : fs) :
  never_prints line m → (∀ g t, out_res (m g) = Ok t → t = tfjs) →
  let r := try_except (bind m (λ t, stage stem t dir)) is_Exception
             (λ e, print ("❌ Error converting " +:+ stem +:+ ": " +:+ exn_str e))
             f0 in
  printed line (out_log r) = true →
  ∃ graph,
    out_fs r !! (tfjs ++ ["model.json"]) = Some (File graph)
    ∧ (out_fs r !! (dir ++ ["model.json"]) = Some (File graph)
       ∨ (out_fs r !! (dir ++ ["model.json"]) = Some Dir
          ∧ out_fs r !! ((dir ++ ["model.json"]) ++ ["model.json"])
            = Some (File graph))).
Proof.
  intros Hquiet Hret. cbv zeta. unfold try_except, bind.
  specialize (Hquiet f0). specialize (Hret f0).
  destruct (m f0) as [g lp [t|e]]; cbn [out_log out_res] in Hquiet, Hret.
  2:{ unfold after, print, emit. cbn [out_fs out_log out_res].
      destruct (is_Exception e); cbn [out_fs out_log out_res];
        rewrite ?printed_app, Hquiet; cbn; done. }
  rewrite (Hret t eq_refl).
  pose proof (stage_reports stem g) as Hstage.
  unfold converted in Hstage.
  destruct (stage stem tfjs dir g) as [g' ls [[]|e]]; cbn [out_fs out_log] in Hstage.
  - unfold after. cbn [out_fs out_log out_res].
    rewrite printed_app, Hquiet. cbn [orb]. exact Hstage.
  - unfold after, print, emit. cbn [out_fs out_log out_res].
    destruct (is_Exception e); cbn [out_fs out_log out_res];
      rewrite !printed_app, Hquiet; cbn [orb]; [|exact Hstage].
    intros H. apply Hstage. revert H. cbn. by rewrite orb_false_r.
Qed.

Lemma try_except_ext {A} (m1 m2 : Py A) (c : exn → bool) (h : exn → Py A) (g : fs) :
  m1 g = m2 g → try_except m1 c h g = try_except m2 c h g.
Proof. unfold try_except. by intros ->. Qed.

Lemma loop_body_reports (f : fs) :
  converted stem (out_log (loop_body E stem f)) = true →
  ∃ graph,
    out_fs (loop_body E stem f) !! (tfjs ++ ["model.json"]) = Some (File graph)
    ∧ (out_fs (loop_body E stem f) !! (dir ++ ["model.json"]) = Some (File graph)
       ∨ (out_fs (loop_body E stem f) !! (dir ++ ["model.json"]) = Some Dir
          ∧ out_fs (loop_body E stem f) !! ((dir ++ ["model.json"]) ++ ["model.json"])
            = Some (File graph))).
Proof.
  unfold loop_body, converted. rewrite bind_print.
  change (output_base ++ [stem]) with dir.
  pose proof (silent_Path_mkdir_rec (length dir) false true dir f) as Hsilent.
  fold (Path_mkdir false true dir) in Hsilent.
  destruct (Path_mkdir false true dir f) as [f0 l0 [[]|e]] eqn:Hmk;
    cbn [out_log] in Hsilent; subst l0.
  2:{ rewrite (bind_Raise _ _ _ _ _ _ Hmk). cbn. done. }
  rewrite (bind_Ok _ _ _ _ _ _ Hmk), after_nil.
  rewrite (try_except_ext _ _ _ _ _ (convert_stem_split f0)).
  unfold after at 1 2 3 4 5. cbn [out_fs out_log].
  change (EvPrint ?a :: ?l) with ([EvPrint a] ++ l).
  rewrite printed_app. cbn [printed existsb orb].
  replace (String.eqb ("Processing " +:+ stem +:+ " stem...") line) with false
    by reflexivity.
  cbn [orb].
  apply (try_stage_reports _ f0 conversions_never_print conversions_return).
Qed.

End ReportedConvertedLoop.

(** X18: in convert_open_unmix_2stems.py a report of success is backed
    by the copy of the graph descriptor: whenever the iteration of a stem
    prints "model converted successfully!", whatever the collaborators
    did, [model.json] of the stem's [tfjs_model] directory is a file, and
    the same bytes are at the stem's [model.json], or inside it under the
    name [model.json] when a directory stood there. *)
Theorem converted_report_is_backed
    (E : Convert2Stems.env) (stem : string) (f : fs) :
  let dir := stem_dir Convert2Stems.output_base stem in
  let r := Convert2Stems.loop_body E stem f in
  Convert2Stems.converted stem (out_log r) = true →
  ∃ graph,
    out_fs r !! ((dir ++ ["tfjs_model"]) ++ ["model.json"]) = Some (File graph)
    ∧ (out_fs r !! (dir ++ ["model.json"]) = Some (File graph)
       ∨ (out_fs r !! (dir ++ ["model.json"]) = Some Dir
          ∧ out_fs r !! ((dir ++ ["model.json"]) ++ ["model.json"])
            = Some (File graph))).
Proof. intros dir r. apply loop_body_reports. Qed.

Lemma converted_report_is_backed_witness :
  let dir := stem_dir Convert2Stems.output_base "vocals" in
  let r := Convert2Stems.loop_body (Examples.env_2stems "") "vocals"
             Examples.fs_prior_output in
  ∃ graph,
    out_fs r !! ((dir ++ ["tfjs_model"]) ++ ["model.json"]) = Some (File graph)
    ∧ (out_fs r !! (dir ++ ["model.json"]) = Some (File graph)
       ∨ (out_fs r !! (dir ++ ["model.json"]) = Some Dir
          ∧ out_fs r !! ((dir ++ ["model.json"]) ++ ["model.json"])
            = Some (File graph))).
Proof.
  apply (converted_report_is_backed (Examples.env_2stems "") "vocals"
           Examples.fs_prior_output).
  vm_compute. reflexivity.
Defined.

(** *** scripts/convert_simple.py *)

Section Simple.
Import ConvertSimple.
Variable E : env.

Lemma simple_loop_body (models : list (string * Model E)) (stem : string) (f : fs) :
  ∃ log,
    loop_body E models stem f
    = Outcome f log
        (Ok (match torch_hub_load E model_url stem with
             | Returns model => dict_set stem model models
             | Fails _ _ => models
             end)).
Proof.
  unfold loop_body.
  destruct (torch_hub_load E model_url stem) as [model|c msg].
  - eexists. apply try_Ok. rewrite bind_print. unfold call.
    rewrite bind_ret, after_nil, bind_print. reflexivity.
  - rewrite (try_caught _ _ _ f f
               [EvPrint ("Downloading " +:+ stem +:+ " model...")] (Exc c msg));
      [| |done].
    2:{ rewrite bind_print. reflexivity. }
    rewrite bind_print.
    destruct (import_module E "urllib.request") as [[c' msg']|] eqn:Himp.
    + eexists. rewrite (bind_Ok _ _ f f [EvImport "urllib.request"] tt).
      * reflexivity.
      * rewrite (try_caught _ _ _ f f [EvImport "urllib.request"] (Exc c' msg'));
          [done| |done].
        rewrite bind_emit. reflexivity.
    + eexists.
      rewrite (bind_Ok _ _ f f
                 [EvImport "urllib.request";
                  EvPrint ("Download models for: " +:+ stem)] tt).
      * reflexivity.
      * apply try_Ok. rewrite bind_emit.
        change (raise_if None) with (ret (A:=unit) tt).
        rewrite bind_ret, after_nil. reflexivity.
Qed.

Lemma simple_loop (f : fs) :
  ∃ log models,
    for_fold stems (loop_body E) [] f = Outcome f log (Ok models)
    ∧ models.*1
      = filter (λ stem, returned (torch_hub_load E model_url stem) = true) stems.
Proof.
  unfold stems. cbn [for_fold].
  destruct (simple_loop_body [] "vocals" f) as [l1 H1].
  rewrite (bind_Ok _ _ _ _ _ _ H1).
  set (m1 := match torch_hub_load E model_url "vocals" with
             | Returns model => dict_set "vocals" model []
             | Fails _ _ => []
             end).
  destruct (simple_loop_body m1 "accompaniment" f) as [l2 H2].
  rewrite (bind_Ok _ _ _ _ _ _ H2). eexists _, _. split; [reflexivity|].
  unfold m1. rewrite !filter_cons, filter_nil.
  destruct (torch_hub_load E model_url "vocals"),
           (torch_hub_load E model_url "accompaniment"); reflexivity.
Qed.

End Simple.

(** X19: once torch is imported, convert_simple.py cannot fail.  The
    one statement outside its [try] blocks is [import torch]: when that
    raises, the script ends with the exception (exit status 1) before it
    loads anything.  Otherwise, whatever torch.hub does for either stem
    and whatever the later [import urllib.request] does, the script
    returns (exit status 0), also when no model could be loaded, and the
    models it ends with are those of the stems whose load returned, in the
    order vocals, accompaniment. *)
Theorem convert_simple_never_fails (E : ConvertSimple.env) (f : fs) :
  let r := ConvertSimple.script E f in
  (∀ c msg, ConvertSimple.import_module E "torch" = Some (c, msg) →
     out_res r = Raise (Exc c msg)
     ∧ exit_code r = 1%Z
     ∧ out_log r = [EvImport "torch"])
  ∧ (ConvertSimple.import_module E "torch" = None →
     exit_code r = 0%Z
     ∧ ∃ models,
         out_res r = Ok models
         ∧ models.*1
           = filter (λ stem, returned (ConvertSimple.torch_hub_load E
                                         ConvertSimple.model_url stem) = true)
               ConvertSimple.stems).
Proof.
  intros r. unfold r, ConvertSimple.script. rewrite bind_emit. split.
  - intros c msg ->. done.
  - intros ->. change (raise_if None) with (ret (A:=unit) tt).
    rewrite bind_ret, after_nil.
    destruct (simple_loop E f) as (log & models & Hloop & Hkeys).
    assert (∃ l, (print ("Attempting to load model from: " +:+ ConvertSimple.model_url) ;;;
                  models <- for_fold ConvertSimple.stems (ConvertSimple.loop_body E) [] ;;
                  match models with
                  | _ :: _ =>
                      print ("✅ Successfully downloaded "
                             +:+ pretty (Z.of_nat (length models)) +:+ " models!")
                  | [] => print "❌ Could not download models automatically."
                  end ;;;
                  ret models) f = Outcome f l (Ok models)) as [l Hbody].
    { rewrite bind_print, (bind_Ok _ _ _ _ _ _ Hloop).
      destruct models; rewrite bind_print; by eexists. }
    rewrite (try_Ok _ _ _ _ _ _ _ Hbody).
    split; [done|]. by exists models.
Qed.

(** *** scripts/convert_with_torch_hub.py *)

Section TorchHub.
Import ConvertWithTorchHub.
Variable E : env.

Lemma exc_only_inspect : exc_only (inspect E).
Proof.
  unfold inspect.
  apply exc_only_bind; [apply exc_only_emit|]. intros _.
  apply exc_only_bind; [apply exc_only_call|]. intros sep.
  apply exc_only_bind; [apply exc_only_emit|]. intros _.
  apply exc_only_bind; [apply exc_only_emit|]. intros _.
  apply exc_only_bind; [apply exc_only_call|]. intros rate.
  apply exc_only_bind; [apply exc_only_emit|]. intros _.
  apply exc_only_bind.
  { destruct (targets E sep) as [formatted|]; [|apply exc_only_ret].
    apply exc_only_bind; [apply exc_only_call|]. intros ts. apply exc_only_emit. }
  intros _. apply exc_only_bind; [apply exc_only_call|]. intros text.
  apply exc_only_bind; [apply exc_only_emit|]. intros _.
  apply exc_only_bind; [|intros _; apply exc_only_emit].
  intros g e He. unfold output_dir in He.
  destruct (g !! ["converted_models"]) as [[|data]|] eqn:Hdir.
  - destruct (mkdir_top "converted_models" g) as (g1 & Hmk & _); [by right|].
    by rewrite Hmk in He.
  - rewrite (mkdir_top_file "converted_models" g data Hdir) in He.
    by injection He as <-.
  - destruct (mkdir_top "converted_models" g) as (g1 & Hmk & _); [by left|].
    by rewrite Hmk in He.
Qed.

Lemma load_targets_res (g : fs) :
  out_res (load_targets E g)
  = match torch_hub_load_target E "vocals",
          torch_hub_load_target E "accompaniment" with
    | Returns _, Returns _ => Ok tt
    | Fails c msg, _ => Raise (Exc c msg)
    | Returns _, Fails c msg => Raise (Exc c msg)
    end.
Proof.
  unfold load_targets. rewrite bind_print. unfold after at 1. cbn [out_res].
  destruct (torch_hub_load_target E "vocals") as [v|c msg]; [|done].
  unfold call at 1. rewrite bind_ret, after_nil, bind_print.
  unfold after at 1. cbn [out_res].
  destruct (torch_hub_load_target E "accompaniment") as [a|c msg]; [|done].
  unfold call. by rewrite bind_ret, after_nil.
Qed.

Lemma keeps_existing_script : keeps_existing (script E).
Proof.
  unfold script.
  apply preserves_bind; [apply keeps_stable|apply preserves_emit|]. intros _.
  apply preserves_bind; [apply keeps_stable|apply preserves_raise_if|]. intros _.
  unfold blocks. apply preserves_try_except; [apply keeps_stable| |].
  - unfold inspect.
    repeat (apply preserves_bind;
            [apply keeps_stable
            |first [apply preserves_print|apply preserves_call
                   |apply keeps_existing_Path_mkdir|idtac]
            |intros ?]);
      try apply preserves_print.
    destruct (targets E _) as [formatted|]; [|apply preserves_ret].
    apply preserves_bind; [apply keeps_stable|apply preserves_call|].
    intros ts. apply preserves_print.
  - intros e. apply preserves_bind; [apply keeps_stable|apply preserves_print|].
    intros _. apply preserves_try_except; [apply keeps_stable| |].
    + unfold load_targets.
      repeat (apply preserves_bind;
              [apply keeps_stable
              |first [apply preserves_print|apply preserves_call]
              |intros ?]).
      apply preserves_print.
    + intros e2. apply preserves_bind; [apply keeps_stable|apply preserves_print|].
      intros _. apply preserves_raise.
Qed.

Lemma script_with_torch (f : fs) :
  import_module E "torch" = None →
  script E f = after [EvImport "torch"] (blocks E f).
Proof.
  intros Himp. unfold script. rewrite bind_emit, Himp.
  change (raise_if None) with (ret (A:=unit) tt). by rewrite bind_ret, after_nil.
Qed.

Lemma blocks_res (f : fs) :
  out_res (blocks E f)
  = match out_res (inspect E f) with
    | Ok _ => Ok tt
    | Raise _ =>
        match torch_hub_load_target E "vocals",
              torch_hub_load_target E "accompaniment" with
        | Returns _, Returns _ => Ok tt
        | _, _ => Raise (SystemExit 1)
        end
    end.
Proof.
  unfold blocks, try_except. pose proof (exc_only_inspect f) as Hexc.
  destruct (inspect E f) as [g l [[]|e]]; cbn [out_res] in *; [done|].
  rewrite (Hexc e eq_refl). rewrite bind_print. unfold after.
  cbn [out_res]. pose proof (load_targets_res g) as Hload.
  destruct (load_targets E g) as [g' l' r']. cbn [out_res] in *. subst r'.
  destruct (torch_hub_load_target E "vocals") as [v|c msg];
    [destruct (torch_hub_load_target E "accompaniment") as [a|c msg]|];
    cbn; by rewrite ?bind_print.
Qed.

End TorchHub.

(** X20: when torch cannot be imported, convert_with_torch_hub.py ends
    at once with that exception (exit status 1).  Once torch is imported,
    it exits with status 1 exactly when its first block raises and one of
    the two targets cannot be loaded on its own.  Anything that fails in
    the first block sends the script to the individual loads, also a
    failure after the models were loaded (a file named [converted_models]
    where the directory goes); the script never modifies or removes an
    existing entry. *)
Theorem torch_hub_exit_status (E : ConvertWithTorchHub.env) (f : fs) :
  let r := ConvertWithTorchHub.script E f in
  let targets_load :=
    returned (ConvertWithTorchHub.torch_hub_load_target E "vocals")
    && returned (ConvertWithTorchHub.torch_hub_load_target E "accompaniment") in
  (∀ c msg, ConvertWithTorchHub.import_module E "torch" = Some (c, msg) →
     out_res r = Raise (Exc c msg)
     ∧ exit_code r = 1%Z
     ∧ out_log r = [EvImport "torch"])
  ∧ (ConvertWithTorchHub.import_module E "torch" = None →
     exit_code r
     = match out_res (ConvertWithTorchHub.inspect E f) with
       | Ok _ => 0%Z
       | Raise _ => if targets_load then 0%Z else 1%Z
       end)
  ∧ (∀ data, f !! ["converted_models"] = Some (File data) →
     ∃ e, out_res (ConvertWithTorchHub.inspect E f) = Raise e)
  ∧ (∀ p, is_Some (f !! p) → out_fs r !! p = f !! p).
Proof.
  intros r targets_load. split; [|split; [|split]].
  - intros c msg Himp. unfold r, ConvertWithTorchHub.script.
    by rewrite bind_emit, Himp.
  - intros Himp. unfold r, exit_code. rewrite script_with_torch by done.
    cbn [after out_res]. rewrite blocks_res. unfold targets_load.
    destruct (out_res (ConvertWithTorchHub.inspect E f)); [done|].
    by destruct (ConvertWithTorchHub.torch_hub_load_target E "vocals"),
                (ConvertWithTorchHub.torch_hub_load_target E "accompaniment").
  - intros data Hfile. unfold ConvertWithTorchHub.inspect.
    rewrite bind_print. unfold after at 1. cbn [out_res].
    destruct (ConvertWithTorchHub.torch_hub_load E) as [sep|c msg];
      [|by eexists].
    unfold call at 1. rewrite bind_ret, after_nil, !bind_print.
    unfold after at 1 2. cbn [out_res].
    destruct (ConvertWithTorchHub.sample_rate E sep) as [rate|c msg];
      [|by eexists].
    unfold call at 1. rewrite bind_ret, after_nil, bind_print.
    unfold after at 1. cbn [out_res].
    assert (Htargets :
              (∃ l,
                 match ConvertWithTorchHub.targets E sep with
                 | Some formatted =>
                     ts <- call formatted ;; print ("Available targets: " +:+ ts)
                 | None => ret tt
                 end f = Outcome f l (Ok tt))
              ∨ (∃ e,
                   match ConvertWithTorchHub.targets E sep with
                   | Some formatted =>
                       ts <- call formatted ;; print ("Available targets: " +:+ ts)
                   | None => ret tt
                   end f = Outcome f [] (Raise e))).
    { destruct (ConvertWithTorchHub.targets E sep) as [[ts|c msg]|];
        [left|right|left]; by eexists. }
    destruct Htargets as [[l Ht]|[e Ht]].
    2:{ exists e. by rewrite (bind_Raise _ _ _ _ _ _ Ht). }
    rewrite (bind_Ok _ _ _ _ _ _ Ht). unfold after at 1. cbn [out_res].
    destruct (ConvertWithTorchHub.repr E sep) as [text|c msg]; [|by eexists].
    unfold call at 1. rewrite bind_ret, after_nil, bind_print.
    unfold after at 1. cbn [out_res].
    exists (Exc FileExistsError "converted_models").
    by rewrite (bind_Raise _ _ _ _ _ _
                  (mkdir_top_file "converted_models" f data Hfile)).
  - apply keeps_existing_script.
Qed.

Lemma torch_hub_exit_status_witness :
  let E := Examples.env_torch_hub in
  let f := Examples.fs_converted_models_file in
  (∃ e, out_res (ConvertWithTorchHub.inspect E f) = Raise e)
  ∧ exit_code (ConvertWithTorchHub.script E f) = 0%Z.
Proof.
  intros E f. destruct (torch_hub_exit_status E f) as (_ & Hexit & Hfile & _).
  destruct (Hfile "notes" ltac:(vm_compute; reflexivity)) as [e He].
  split; [by exists e|]. rewrite Hexit, He; reflexivity.
Defined.

(** *** The imports of scripts/convert_umx_to_tfjs.py *)

Section Harmless.

Lemma harmless_ret {A} (a : A) : harmless (ret a).
Proof. done. Qed.

Lemma harmless_raise {A} (e : exn) : harmless (raise (A:=A) e).
Proof. done. Qed.

Lemma harmless_print (line : string) : harmless (print line).
Proof. done. Qed.

Lemma harmless_call {A} (a : answer A) : harmless (call a).
Proof. by destruct a. Qed.

Lemma harmless_bind {A B} (m : Py A) (k : A → Py B) :
  harmless m → (∀ a, harmless (k a)) → harmless (bind m k).
Proof.
  intros Hm Hk f. unfold bind. destruct (Hm f) as [H1 H2].
  destruct (m f) as [f1 l1 [a|e]]; cbn [out_fs out_log] in *; subst f1; [|done].
  unfold after. cbn [out_fs out_log]. destruct (Hk a f) as [H3 H4].
  by rewrite runs_of_app, H2, H4.
Qed.

Lemma harmless_try_except {A} (m : Py A) (catches : exn → bool) (h : exn → Py A) :
  harmless m → (∀ e, harmless (h e)) → harmless (try_except m catches h).
Proof.
  intros Hm Hh f. unfold try_except. destruct (Hm f) as [H1 H2].
  destruct (m f) as [f1 l1 [a|e]]; cbn [out_fs out_log] in *; subst f1; [done|].
  destruct (catches e); [|done].
  unfold after. cbn [out_fs out_log]. destruct (Hh e f) as [H3 H4].
  by rewrite runs_of_app, H2, H4.
Qed.

Import ConvertUmxToTfjs.
Variable S : startup.

Lemma import_eq (installed : bool) (m : string) (f : fs) :
  import_ S installed m f
  = Outcome f [EvImport m]
      (match import_module S installed m with
       | Some (c, msg) => Raise (Exc c msg)
       | None => Ok tt
       end).
Proof.
  unfold import_. rewrite bind_emit.
  by destruct (import_module S installed m) as [[c msg]|].
Qed.

Lemma harmless_import (installed : bool) (m : string) :
  harmless (import_ S installed m).
Proof. intros f. by rewrite import_eq. Qed.

(** The handler of the first [try]: it starts pip, once. *)
Lemma install_runs (f : fs) :
  let r := (print "Installing onnx and onnx2tf..." ;;;
            check_call S (pip_cmd S) ;;;
            import_ S true "onnx" ;;;
            import_ S true "onnx2tf" ;;;
            ret true) f in
  out_fs r = f ∧ runs_of (out_log r) = [pip_cmd S].
Proof.
  cbv zeta. rewrite bind_print. unfold check_call. rewrite bind_assoc, bind_emit.
  rewrite after_after.
  assert (Hrest : harmless
            (bind (rc <- call (pip S (pip_cmd S)) ;;
                   if decide (rc = 0%Z) then ret tt
                   else raise (Exc CalledProcessError
                                 ("returned non-zero exit status " +:+ pretty rc)))
               (λ _, import_ S true "onnx" ;;; import_ S true "onnx2tf" ;;; ret true))).
  { apply harmless_bind.
    - apply harmless_bind; [apply harmless_call|].
      intros rc. destruct (decide (rc = 0%Z)); [apply harmless_ret|apply harmless_raise].
    - intros _. apply harmless_bind; [apply harmless_import|]. intros _.
      apply harmless_bind; [apply harmless_import|]. intros _. apply harmless_ret. }
  destruct (Hrest f) as [Hfs Hruns]. unfold after. cbn [out_fs out_log].
  split; [done|]. rewrite runs_of_app, Hruns. done.
Qed.

Lemma onnx_guard (f : fs) :
  let r := try_except
             (import_ S false "onnx" ;;; import_ S false "onnx2tf" ;;; ret false)
             is_ImportError
             (λ _,
                print "Installing onnx and onnx2tf..." ;;;
                check_call S (pip_cmd S) ;;;
                import_ S true "onnx" ;;;
                import_ S true "onnx2tf" ;;;
                ret true) f in
  out_fs r = f
  ∧ runs_of (out_log r)
    = match match import_module S false "onnx" with
            | Some e => Some e
            | None => import_module S false "onnx2tf"
            end with
      | Some (c, msg) => if is_ImportError (Exc c msg) then [pip_cmd S] else []
      | None => []
      end
  ∧ (import_module S false "onnx" = None →
     import_module S false "onnx2tf" = None →
     r = Outcome f [EvImport "onnx"; EvImport "onnx2tf"] (Ok false)).
Proof.
  cbv zeta. destruct (install_runs f) as [Hfs Hruns].
  pose proof (import_eq false "onnx" f) as H1.
  pose proof (import_eq false "onnx2tf" f) as H2.
  destruct (import_module S false "onnx") as [[c msg]|].
  - destruct (is_ImportError (Exc c msg)) eqn:Hc.
    + rewrite (try_caught _ _ _ _ _ _ _ (bind_Raise _ _ _ _ _ _ H1) Hc).
      unfold after. cbn [out_fs out_log]. rewrite runs_of_app, Hruns. done.
    + by rewrite (try_uncaught _ _ _ _ _ _ _ (bind_Raise _ _ _ _ _ _ H1) Hc).
  - destruct (import_module S false "onnx2tf") as [[c msg]|].
    + assert (Hblock : (import_ S false "onnx" ;;; import_ S false "onnx2tf" ;;;
                        ret false) f
                       = Outcome f [EvImport "onnx"; EvImport "onnx2tf"]
                           (Raise (Exc c msg))).
      { by rewrite (bind_Ok _ _ _ _ _ _ H1), (bind_Raise _ _ _ _ _ _ H2). }
      destruct (is_ImportError (Exc c msg)) eqn:Hc.
      * rewrite (try_caught _ _ _ _ _ _ _ Hblock Hc).
        unfold after. cbn [out_fs out_log]. rewrite runs_of_app, Hruns. done.
      * by rewrite (try_uncaught _ _ _ _ _ _ _ Hblock Hc).
    + assert (Hblock : (import_ S false "onnx" ;;; import_ S false "onnx2tf" ;;;
                        ret false) f
                       = Outcome f [EvImport "onnx"; EvImport "onnx2tf"] (Ok false)).
      { by rewrite (bind_Ok _ _ _ _ _ _ H1), (bind_Ok _ _ _ _ _ _ H2). }
      by rewrite (try_Ok _ _ _ _ _ _ _ Hblock).
Qed.

Lemma harmless_tensorflowjs (installed : bool) :
  harmless
    (try_except (import_ S installed "tensorflowjs" ;;; ret true) is_ImportError
       (λ _, print "tensorflowjs already installed" ;;; ret false)).
Proof.
  apply harmless_try_except.
  - apply harmless_bind; [apply harmless_import|]. intros _. apply harmless_ret.
  - intros _. apply harmless_bind; [apply harmless_print|]. intros _.
    apply harmless_ret.
Qed.

Lemma imports_eq (f : fs) :
  import_module S false "torch" = None →
  import_module S false "torch.onnx" = None →
  imports S f
  = after [EvImport "torch"; EvImport "torch.onnx"]
      (bind
         (try_except
            (import_ S false "onnx" ;;; import_ S false "onnx2tf" ;;; ret false)
            is_ImportError
            (λ _,
               print "Installing onnx and onnx2tf..." ;;;
               check_call S (pip_cmd S) ;;;
               import_ S true "onnx" ;;;
               import_ S true "onnx2tf" ;;;
               ret true))
         (λ installed,
            try_except (import_ S installed "tensorflowjs" ;;; ret true)
              is_ImportError
              (λ _, print "tensorflowjs already installed" ;;; ret false)) f).
Proof.
  intros Htorch Honnx. unfold imports.
  pose proof (import_eq false "torch" f) as H1. rewrite Htorch in H1.
  pose proof (import_eq false "torch.onnx" f) as H2. rewrite Honnx in H2.
  by rewrite (bind_Ok _ _ _ _ _ _ H1), (bind_Ok _ _ _ _ _ _ H2), after_after.
Qed.

End Harmless.

(** X21: convert_umx_to_tfjs.py installs packages on its own, and only
    for onnx and onnx2tf.  With torch importable, the imports leave the
    file system as it is; pip is started (once, as
    [sys.executable -m pip install onnx onnx2tf --quiet]) exactly when the
    first failing import of onnx, onnx2tf fails with an [ImportError];
    and when both import, a tensorflowjs that is missing does not stop the
    script and is not installed: the imports return with the name [tfjs]
    unbound. *)
Theorem startup_installs_onnx_only (S : ConvertUmxToTfjs.startup) (f : fs) :
  ConvertUmxToTfjs.import_module S false "torch" = None →
  ConvertUmxToTfjs.import_module S false "torch.onnx" = None →
  let r := ConvertUmxToTfjs.imports S f in
  let first_failure :=
    match ConvertUmxToTfjs.import_module S false "onnx" with
    | Some e => Some e
    | None => ConvertUmxToTfjs.import_module S false "onnx2tf"
    end in
  out_fs r = f
  ∧ runs_of (out_log r)
    = match first_failure with
      | Some (c, msg) =>
          if is_ImportError (Exc c msg) then [ConvertUmxToTfjs.pip_cmd S] else []
      | None => []
      end
  ∧ (first_failure = None →
     out_res r
     = match ConvertUmxToTfjs.import_module S false "tensorflowjs" with
       | None => Ok true
       | Some (c, msg) =>
           if is_ImportError (Exc c msg) then Ok false else Raise (Exc c msg)
       end).
Proof.
  intros Htorch Honnx r first_failure. unfold r.
  rewrite (imports_eq S f Htorch Honnx).
  destruct (onnx_guard S f) as (Hfs & Hruns & Hok). cbv zeta in Hfs, Hruns, Hok.
  fold first_failure in Hruns.
  destruct (try_except _ _ _ f) as [g lg [installed|e]] eqn:Hg;
    cbn [out_fs out_log] in Hfs, Hruns; subst g.
  - rewrite (bind_Ok _ _ _ _ _ _ Hg).
    destruct (harmless_tensorflowjs S installed f) as [Hfs' Hruns'].
    unfold after. cbn [out_fs out_log out_res].
    split; [done|]. split.
    { change (EvImport "torch" :: EvImport "torch.onnx" :: ?l)
        with ((EvImport <$> ["torch"; "torch.onnx"]) ++ l).
      rewrite !runs_of_app, runs_of_imports, Hruns, Hruns'.
      change (runs_of []) with (@nil (list string)). cbn [app].
      by rewrite app_nil_r. }
    intros Hnone. unfold first_failure in Hnone.
    destruct (ConvertUmxToTfjs.import_module S false "onnx") as [|] eqn:H1; [done|].
    specialize (Hok eq_refl Hnone). injection Hok as -> ->.
    pose proof (import_eq S false "tensorflowjs" f) as Ht.
    destruct (ConvertUmxToTfjs.import_module S false "tensorflowjs") as [[c msg]|].
    + destruct (is_ImportError (Exc c msg)) eqn:Hc.
      * by rewrite (try_caught _ _ _ _ _ _ _ (bind_Raise _ _ _ _ _ _ Ht) Hc).
      * by rewrite (try_uncaught _ _ _ _ _ _ _ (bind_Raise _ _ _ _ _ _ Ht) Hc).
    + assert (Hblock : (ConvertUmxToTfjs.import_ S false "tensorflowjs" ;;; ret true) f
                       = Outcome f [EvImport "tensorflowjs"] (Ok true)).
      { by rewrite (bind_Ok _ _ _ _ _ _ Ht). }
      by rewrite (try_Ok _ _ _ _ _ _ _ Hblock).
  - rewrite (bind_Raise _ _ _ _ _ _ Hg).
    unfold after. cbn [out_fs out_log out_res]. split; [done|]. split.
    { change (EvImport "torch" :: EvImport "torch.onnx" :: ?l)
        with ((EvImport <$> ["torch"; "torch.onnx"]) ++ l).
      rewrite !runs_of_app, runs_of_imports, Hruns.
      change (runs_of []) with (@nil (list string)). done. }
    intros Hnone. unfold first_failure in Hnone.
    destruct (ConvertUmxToTfjs.import_module S false "onnx") as [|] eqn:H1; [done|].
    specialize (Hok eq_refl Hnone). done.
Qed.

Lemma startup_installs_onnx_only_witness :
  let r := ConvertUmxToTfjs.imports Examples.startup_without_onnx2tf ∅ in
  out_fs r = ∅
  ∧ runs_of (out_log r)
    = [["/usr/bin/python3"; "-m"; "pip"; "install"; "onnx"; "onnx2tf"; "--quiet"]]
  ∧ out_res r = Ok false.
Proof.
  destruct (startup_installs_onnx_only Examples.startup_without_onnx2tf ∅)
    as (Hfs & Hruns & _); [reflexivity..|].
  split; [exact Hfs|]. split; [exact Hruns|]. vm_compute. reflexivity.
Defined.

(** *** A file where the directory of a stem goes *)

Lemma for_each_app {A} (l1 l2 : list A) (body : A → Py unit) (f : fs) :
  for_each (l1 ++ l2) body f
  = bind (for_each l1 body) (λ _, for_each l2 body) f.
Proof.
  revert f. induction l1 as [|x l1 IH]; intros f; cbn [app for_each].
  - by rewrite bind_ret, after_nil.
  - rewrite bind_assoc. unfold bind at 1 2.
    destruct (body x f) as [f1 l [[]|e]]; [|done]. by rewrite IH.
Qed.

Lemma stem_dir_not_below (base : path) (s u : string) :
  writes base u (stem_dir base s) → u = s.
Proof.
  unfold writes, stem_dir. intros Hpre.
  by apply (snoc_prefix_same base (base ++ [s]) u s).
Qed.

Lemma base_not_below (base : path) (u : string) : ¬ writes base u base.
Proof.
  unfold writes, stem_dir. intros Hpre. apply prefix_length in Hpre.
  rewrite length_app in Hpre. cbn in Hpre. lia.
Qed.

Section BlockedStem.
Import Convert2Stems.
Variable E : env.

Lemma stems_confined (stems : list string) :
  preserves (λ _ p, ¬ Exists (λ u, writes output_base u p) stems)
    (for_each stems (loop_body E)).
Proof.
  apply preserves_for_each; [done|]. intros s Hs.
  apply (preserves_weaken (λ _ p, ¬ writes output_base s p));
    [|apply local_loop_body].
  intros f p Hout Hw. apply Hout. apply Exists_exists. eauto.
Qed.

Lemma loop_body_blocked (s d : string) (g : fs) :
  g !! output_base = Some Dir →
  g !! stem_dir output_base s = Some (File d) →
  loop_body E s g
  = Outcome g [EvPrint ("Processing " +:+ s +:+ " stem...")]
      (Raise (Exc FileExistsError (path_str (stem_dir output_base s)))).
Proof.
  intros Hbase Hfile. unfold loop_body. rewrite bind_print.
  change (output_base ++ [s]) with (stem_dir output_base s).
  rewrite (bind_Raise _ _ g g [] (Exc FileExistsError
                                    (path_str (stem_dir output_base s)))); [done|].
  apply (Path_mkdir_file _ _ _ _ d); [|done].
  unfold stem_dir. by rewrite parent_snoc.
Qed.

Lemma convert_stems_blocked (f : fs) (pre post : list string) (s d : string) :
  NoDup (pre ++ [s]) →
  no_file f ["converted_models"] → no_file f output_base →
  (∀ u, u ∈ pre → no_file f (stem_dir output_base u)) →
  f !! stem_dir output_base s = Some (File d) →
  ∃ g l,
    convert_stems E (pre ++ s :: post) f
    = Outcome g l (Raise (Exc FileExistsError (path_str (stem_dir output_base s))))
    ∧ ∀ p, ¬ output_tree output_base pre p → g !! p = f !! p.
Proof.
  intros Hnd Hcm Hbase Hpre Hfile.
  apply NoDup_app in Hnd as (Hndpre & Hnotin & _).
  destruct (mkdir_parents_2 _ _ f Hcm Hbase) as (f1 & Hmk & Hb1 & Hframe).
  change ["converted_models"; "umx-2stems"] with output_base in Hmk, Hb1.
  destruct (isolation_2stems E pre f1 Hndpre) as (Hret & _).
  { intros u Hu. apply (creatable_after_mkdir _ f); [done..|by apply Hpre]. }
  destruct (for_each pre (loop_body E) f1) as [F lpre rpre] eqn:Hloop.
  cbn [out_res] in Hret. subst rpre.
  assert (HF : ∀ p, ¬ Exists (λ u, writes output_base u p) pre → F !! p = f1 !! p).
  { intros p Hp. pose proof (stems_confined pre f1 p Hp) as H.
    by rewrite Hloop in H. }
  assert (Hnot : ¬ Exists (λ u, writes output_base u (stem_dir output_base s)) pre).
  { intros (u & Hu & Hw)%Exists_exists. apply stem_dir_not_below in Hw as ->.
    apply (Hnotin s Hu). by left. }
  assert (HFbase : F !! output_base = Some Dir).
  { rewrite HF; [done|]. intros (u & _ & Hw)%Exists_exists.
    by apply base_not_below in Hw. }
  assert (HFfile : F !! stem_dir output_base s = Some (File d)).
  { rewrite HF by done. rewrite Hframe; done. }
  exists F. eexists. split.
  - unfold convert_stems. rewrite (bind_Ok _ _ _ _ _ _ Hmk), after_nil.
    apply bind_Raise. rewrite for_each_app, (bind_Ok _ _ _ _ _ _ Hloop).
    cbn [for_each].
    rewrite (bind_Raise _ _ _ _ _ _ (loop_body_blocked s d F HFbase HFfile)).
    reflexivity.
  - intros p Hp. rewrite HF by (intros H; apply Hp; by right).
    apply Hframe; intros ->; apply Hp; left; [by exists ["umx-2stems"]|done].
Qed.

End BlockedStem.

(** X22: a regular file where the directory of a stem goes aborts
    convert_open_unmix_2stems.py: the [FileExistsError] of [mkdir], the
    one call of the loop outside the [try], leaves
    [convert_openunmix_2stems]; the stems after it are not processed
    (nothing is written outside the base directory and the directories of
    the stems before it); and the script exits with status 1. *)
Theorem blocked_stem_directory_aborts_the_run
    (E : Convert2Stems.env) (f : fs) (pre post : list string) (s d : string) :
  NoDup (pre ++ [s]) →
  no_file f ["converted_models"] → no_file f Convert2Stems.output_base →
  (∀ u, u ∈ pre → no_file f (stem_dir Convert2Stems.output_base u)) →
  f !! stem_dir Convert2Stems.output_base s = Some (File d) →
  let r := Convert2Stems.convert_stems E (pre ++ s :: post) f in
  out_res r
  = Raise (Exc FileExistsError (path_str (stem_dir Convert2Stems.output_base s)))
  ∧ (∀ p, ¬ output_tree Convert2Stems.output_base pre p → out_fs r !! p = f !! p)
  ∧ ((∀ m, Convert2Stems.import_module E m = None) →
     Convert2Stems.stems = pre ++ s :: post →
     exit_code (Convert2Stems.script E f) = 1%Z).
Proof.
  intros Hnd Hcm Hbase Hpre Hfile r. unfold r.
  destruct (convert_stems_blocked E f pre post s d Hnd Hcm Hbase Hpre Hfile)
    as (g & l & Hrun & Hfs).
  rewrite Hrun. cbn [out_res out_fs]. split; [done|]. split; [done|].
  intros Himp Hstems. unfold Convert2Stems.script.
  rewrite bind_emit, Himp. cbn [raise_if]. rewrite bind_ret.
  rewrite !(bind_Ok _ _ _ _ _ _ (import_or_exit_ok E _ _ f Himp)).
  unfold Convert2Stems.main_guard, Convert2Stems.convert_openunmix_2stems.
  rewrite Hstems.
  rewrite (try_caught _ _ _ _ _ _ _ Hrun eq_refl), bind_print.
  reflexivity.
Qed.

Lemma blocked_stem_directory_aborts_the_run_witness :
  let r := Convert2Stems.convert_stems (Examples.env_2stems "")
             ([] ++ "vocals" :: ["accompaniment"]) Examples.fs_file_in_the_way in
  out_res r
  = Raise (Exc FileExistsError (path_str (stem_dir Convert2Stems.output_base "vocals")))
  ∧ out_fs r !! stem_dir Convert2Stems.output_base "accompaniment" = None
  ∧ exit_code (Convert2Stems.script (Examples.env_2stems "")
                 Examples.fs_file_in_the_way) = 1%Z.
Proof.
  destruct (blocked_stem_directory_aborts_the_run (Examples.env_2stems "")
              Examples.fs_file_in_the_way [] ["accompaniment"] "vocals"
              "not a directory")
    as (Hres & Hfs & Hexit).
  - apply (bool_decide_unpack _). vm_compute. reflexivity.
  - right. vm_compute. reflexivity.
  - right. vm_compute. reflexivity.
  - intros u Hu. by apply elem_of_nil in Hu.
  - vm_compute. reflexivity.
  - split; [exact Hres|]. split.
    + rewrite Hfs; [vm_compute; reflexivity|].
      apply (bool_decide_unpack _). vm_compute. reflexivity.
    + apply Hexit; reflexivity.
Defined.

(** *** Cross-target isolation, target by target *)


Section Isolated2Stems.
Import Convert2Stems.
Variable E : env.



End Isolated2Stems.

Section IsolatedUmx.
Import ConvertUmxToTfjs.
Variable E : env.

Local Abbreviation creatable := (creatable output_base).





End IsolatedUmx.
Section IsolatedUmxLoops.
Import ConvertUmxToTfjs.
Variable E : env.

Local Abbreviation creatable := (creatable output_base).
Local Abbreviation reads := (reads output_base).
Local Abbreviation writes := (writes output_base).


End IsolatedUmxLoops.



(** In that run of convert_open_unmix_2stems vocals fails and
    accompaniment is converted all the same; in that run of
    convert_umx_to_tfjs the export of drums fails and vocals is converted
    all the same. *)
Example vocals_fails_accompaniment_converted :
  let r := Convert2Stems.convert_stems (Examples.env_2stems "vocals")
             Convert2Stems.stems ∅ in
  let ru := ConvertUmxToTfjs.conversion (Examples.env_umx "drums")
              [("drums", "drums"); ("vocals", "vocals")] ∅ in
  Convert2Stems.failed "vocals" (out_log r) = true
  ∧ Convert2Stems.converted "accompaniment" (out_log r) = true
  ∧ out_fs r !! (Examples.accompaniment_dir ++ ["model.json"])
    = Some (File "new-graph")
  ∧ printed "❌ Error converting drums to ONNX: unsupported operator" (out_log ru)
    = true
  ∧ ConvertUmxToTfjs.converted "vocals" (out_log ru) = true
  ∧ out_fs ru !! (Examples.vocals_dir ++ ["model.json"]) = Some (File "new-graph").
Proof. vm_compute. repeat split. Qed.
